(** * Qub for TypeScript: iterators, iterables and the character lexer

    A shallow embedding of [source/qub.ts]: the [Iterator] interface with
    [IteratorBase], the decorators (where / skip / take / map / concatenate),
    the array-backed and string-backed iterators, the [Iterable] family built
    on them, and the [Lexer].

    Conventions.
    - A TypeScript [number] that may be [undefined] at run time is an
      [option Z]; only integers are represented.
    - The element type [T] of a collection comes with a distinguished value
      [undefined : T], as every TypeScript type does here.
    - A method that assigns fields of [this] returns the new object next to
      its result: [hasCurrent : I -> bool * I].
    - An unbounded [while] loop is a recursion on a fuel counter; the fuel is
      taken from [remaining], a bound on the number of values an iterator can
      still produce, so that the loop always leaves by its own test. *)

From Stdlib Require Import ZArith NArith List Bool Lia.
From Stdlib Require String Ascii.
Import String.StringSyntax.
Delimit Scope string_scope with string.
Import ListNotations.
Local Open Scope Z_scope.

(** ** Numbers and functions that may be [undefined]

    A number is an integer or [None].  [None] stands for [undefined] and for
    [NaN] alike: both are falsy, no comparison with either holds, and
    arithmetic with either gives [NaN]. *)

(** [isDefined(value)]: [value !== undefined && value !== null]. *)
Definition isDefined {A : Type} (value : option A) : bool :=
  match value with
  | Some _ => true
  | None => false
  end.

(** A number used as a condition ([toSkip && ...]): [undefined] and [0] are falsy. *)
Definition truthy (value : option Z) : bool :=
  match value with
  | Some z => negb (z =? 0)
  | None => false
  end.

(** [lhs < rhs] and [lhs <= rhs] on numbers: false as soon as a side is [undefined]. *)
Definition lessThan (lhs rhs : option Z) : bool :=
  match lhs, rhs with
  | Some a, Some b => a <? b
  | _, _ => false
  end.

Definition lessOrEqual (lhs rhs : option Z) : bool :=
  match lhs, rhs with
  | Some a, Some b => a <=? b
  | _, _ => false
  end.

(** [values[index]] on an array or a string: [undefined] outside the bounds. *)
Definition elementAt {T : Type} (undefined : T) (values : list T) (index : Z) : T :=
  if (0 <=? index) && (index <? Z.of_nat (length values))
  then nth (Z.to_nat index) values undefined
  else undefined.

Section Iteration.

Context {T : Type}.
Variable undefined : T.

(** ** interface Iterator<T>

    [foreach] receives the callback together with the variables it captures
    ([A]); the callback returns their new value and whether it called
    [control.break()].  [remaining] is not a method of the source: it bounds
    the number of times [next] can still answer [true] and is the fuel of the
    loops. *)
Class Iterator (I : Type) : Type := {
  hasStarted : I -> bool;
  hasCurrent : I -> bool * I;
  next : I -> bool * I;
  getCurrent : I -> T * I;
  getCount : I -> Z * I;
  foreach : forall A : Type, option (T -> A -> A * bool) -> I -> A -> A * I;
  remaining : I -> nat
}.

(** [toArray()], the same body in [IteratorBase] and in [MapIterator]. *)
Definition toArray {I : Type} {iterator : Iterator I} (this : I) : list T * I :=
  foreach (list T) (Some (fun value result => (result ++ [value], false))) this [].

(** ** abstract class IteratorBase<T> *)
Section IteratorBase.

Context {I : Type}.
Variable hasStarted_ : I -> bool.
Variables hasCurrent_ next_ : I -> bool * I.
Variable getCurrent_ : I -> T * I.
Variable remaining_ : I -> nat.

(** [while (this.next()) { ++result; }] *)
Fixpoint IteratorBase_getCount_loop (fuel : nat) (result : Z) (this : I) : Z * I :=
  match fuel with
  | O => (result, this)
  | S fuel =>
      let (more, this) := next_ this in
      if more then IteratorBase_getCount_loop fuel (result + 1) this
      else (result, this)
  end.

Definition IteratorBase_getCount (this : I) : Z * I :=
  let (current, this) := hasCurrent_ this in
  let result := if current then 1 else 0 in
  IteratorBase_getCount_loop (S (remaining_ this)) result this.

(** [while (control.shouldContinue() && this.next()) valueFunction(this.getCurrent(), control);] *)
Fixpoint IteratorBase_foreach_loop {A : Type} (fuel : nat)
    (valueFunction : T -> A -> A * bool) (broken : bool) (this : I) (a : A) : A * I :=
  match fuel with
  | O => (a, this)
  | S fuel =>
      if broken then (a, this)
      else
        let (more, this) := next_ this in
        if more then
          let (value, this) := getCurrent_ this in
          let (a, broken) := valueFunction value a in
          IteratorBase_foreach_loop fuel valueFunction broken this a
        else (a, this)
  end.

Definition IteratorBase_foreach (A : Type) (valueFunction : option (T -> A -> A * bool))
    (this : I) (a : A) : A * I :=
  match valueFunction with
  | None => (a, this)
  | Some f =>
      let (current, this) := hasCurrent_ this in
      if current then
        let (value, this) := getCurrent_ this in
        let (a, broken) := f value a in
        IteratorBase_foreach_loop (S (remaining_ this)) f broken this a
      else IteratorBase_foreach_loop (S (remaining_ this)) f false this a
  end.

Definition IteratorBase : Iterator I := {|
  hasStarted := hasStarted_;
  hasCurrent := hasCurrent_;
  next := next_;
  getCurrent := getCurrent_;
  getCount := IteratorBase_getCount;
  foreach := IteratorBase_foreach;
  remaining := remaining_
|}.

End IteratorBase.

(** ** class WhereIterator<T> extends IteratorDecorator<T> *)
Record WhereIterator (I : Type) : Type := {
  where_innerIterator : I;
  where_condition : option (T -> bool)
}.
Arguments where_innerIterator {I} _.
Arguments where_condition {I} _.

Section WhereIterator.

Context {I : Type} {inner : Iterator I}.

(** Constructor: [while (this.hasCurrent() && !this._condition(this.getCurrent())) super.next();] *)
Fixpoint WhereIterator_constructor_loop (fuel : nat) (condition : T -> bool) (i : I) : I :=
  match fuel with
  | O => i
  | S fuel =>
      let (current, i) := hasCurrent i in
      if current then
        let (value, i) := getCurrent i in
        if negb (condition value)
        then WhereIterator_constructor_loop fuel condition (snd (next i))
        else i
      else i
  end.

Definition new_WhereIterator (innerIterator : I) (condition : option (T -> bool)) : WhereIterator I :=
  match condition with
  | Some c =>
      {| where_innerIterator :=
           WhereIterator_constructor_loop (S (S (remaining innerIterator))) c innerIterator;
         where_condition := condition |}
  | None => {| where_innerIterator := innerIterator; where_condition := condition |}
  end.

(** [while (super.next() && !this._condition(this.getCurrent())) { }] *)
Fixpoint WhereIterator_next_loop (fuel : nat) (condition : T -> bool) (i : I) : I :=
  match fuel with
  | O => i
  | S fuel =>
      let (more, i) := next i in
      if more then
        let (value, i) := getCurrent i in
        if negb (condition value) then WhereIterator_next_loop fuel condition i else i
      else i
  end.

Definition WhereIterator_hasStarted (this : WhereIterator I) : bool :=
  hasStarted (where_innerIterator this).

Definition WhereIterator_hasCurrent (this : WhereIterator I) : bool * WhereIterator I :=
  let (result, i) := hasCurrent (where_innerIterator this) in
  (result, {| where_innerIterator := i; where_condition := where_condition this |}).

Definition WhereIterator_getCurrent (this : WhereIterator I) : T * WhereIterator I :=
  let (result, i) := getCurrent (where_innerIterator this) in
  (result, {| where_innerIterator := i; where_condition := where_condition this |}).

Definition WhereIterator_next (this : WhereIterator I) : bool * WhereIterator I :=
  let i :=
    match where_condition this with
    | None => snd (next (where_innerIterator this))
    | Some c =>
        WhereIterator_next_loop (S (remaining (where_innerIterator this))) c
          (where_innerIterator this)
    end in
  WhereIterator_hasCurrent {| where_innerIterator := i; where_condition := where_condition this |}.

Definition WhereIterator_Iterator : Iterator (WhereIterator I) :=
  IteratorBase WhereIterator_hasStarted WhereIterator_hasCurrent WhereIterator_next
    WhereIterator_getCurrent (fun this => remaining (where_innerIterator this)).

End WhereIterator.

(** ** class SkipIterator<T> extends IteratorDecorator<T> *)
Record SkipIterator (I : Type) : Type := {
  skip_innerIterator : I;
  skip_toSkip : option Z;
  skip_skipped : Z
}.
Arguments skip_innerIterator {I} _.
Arguments skip_toSkip {I} _.
Arguments skip_skipped {I} _.

Section SkipIterator.

Context {I : Type} {inner : Iterator I}.

Definition new_SkipIterator (innerIterator : I) (toSkip : option Z) : SkipIterator I :=
  {| skip_innerIterator := innerIterator; skip_toSkip := toSkip; skip_skipped := 0 |}.

(** [while (this._skipped < this._toSkip) { if (!super.next()) this._skipped = this._toSkip; else ++this._skipped; }]
    Every round raises [_skipped] by at least one, so [_toSkip - _skipped]
    rounds are enough. *)
Fixpoint SkipIterator_skipValues_loop (fuel : nat) (toSkip : Z) (i : I) (skipped : Z) : I * Z :=
  match fuel with
  | O => (i, skipped)
  | S fuel =>
      if skipped <? toSkip then
        let (more, i) := next i in
        if negb more then SkipIterator_skipValues_loop fuel toSkip i toSkip
        else SkipIterator_skipValues_loop fuel toSkip i (skipped + 1)
      else (i, skipped)
  end.

Definition SkipIterator_skipValues (this : SkipIterator I) : SkipIterator I :=
  match skip_toSkip this with
  | None => this
  | Some toSkip =>
      let (i, skipped) :=
        SkipIterator_skipValues_loop (S (Z.to_nat (toSkip - skip_skipped this))) toSkip
          (skip_innerIterator this) (skip_skipped this) in
      {| skip_innerIterator := i; skip_toSkip := skip_toSkip this; skip_skipped := skipped |}
  end.

(** [super.hasCurrent()], [super.next()], [super.getCurrent()] of [IteratorDecorator]. *)
Definition SkipIterator_super_hasCurrent (this : SkipIterator I) : bool * SkipIterator I :=
  let (result, i) := hasCurrent (skip_innerIterator this) in
  (result, {| skip_innerIterator := i; skip_toSkip := skip_toSkip this;
              skip_skipped := skip_skipped this |}).

Definition SkipIterator_super_next (this : SkipIterator I) : bool * SkipIterator I :=
  let (result, i) := next (skip_innerIterator this) in
  (result, {| skip_innerIterator := i; skip_toSkip := skip_toSkip this;
              skip_skipped := skip_skipped this |}).

Definition SkipIterator_super_getCurrent (this : SkipIterator I) : T * SkipIterator I :=
  let (result, i) := getCurrent (skip_innerIterator this) in
  (result, {| skip_innerIterator := i; skip_toSkip := skip_toSkip this;
              skip_skipped := skip_skipped this |}).

Definition SkipIterator_hasStarted (this : SkipIterator I) : bool :=
  hasStarted (skip_innerIterator this).

Definition SkipIterator_hasCurrent (this : SkipIterator I) : bool * SkipIterator I :=
  let (current, this) := SkipIterator_super_hasCurrent this in
  let this := if current then SkipIterator_skipValues this else this in
  SkipIterator_super_hasCurrent this.

Definition SkipIterator_next (this : SkipIterator I) : bool * SkipIterator I :=
  SkipIterator_super_next (SkipIterator_skipValues this).

Definition SkipIterator_getCurrent (this : SkipIterator I) : T * SkipIterator I :=
  let (current, this) := SkipIterator_super_hasCurrent this in
  let this := if current then SkipIterator_skipValues this else this in
  SkipIterator_super_getCurrent this.

Definition SkipIterator_Iterator : Iterator (SkipIterator I) :=
  IteratorBase SkipIterator_hasStarted SkipIterator_hasCurrent SkipIterator_next
    SkipIterator_getCurrent (fun this => remaining (skip_innerIterator this)).

End SkipIterator.

(** ** class TakeIterator<T> extends IteratorDecorator<T> *)
Record TakeIterator (I : Type) : Type := {
  take_innerIterator : I;
  take_toTake : option Z;
  take_taken : Z
}.
Arguments take_innerIterator {I} _.
Arguments take_toTake {I} _.
Arguments take_taken {I} _.

Section TakeIterator.

Context {I : Type} {inner : Iterator I}.

(** Constructor: [this._taken = super.hasCurrent() ? 1 : 0;] *)
Definition new_TakeIterator (innerIterator : I) (toTake : option Z) : TakeIterator I :=
  let (current, i) := hasCurrent innerIterator in
  {| take_innerIterator := i; take_toTake := toTake;
     take_taken := if current then 1 else 0 |}.

Definition TakeIterator_canTakeValue (this : TakeIterator I) : bool :=
  isDefined (take_toTake this) && lessOrEqual (Some (take_taken this)) (take_toTake this).

Definition TakeIterator_hasStarted (this : TakeIterator I) : bool :=
  hasStarted (take_innerIterator this).

Definition TakeIterator_hasCurrent (this : TakeIterator I) : bool * TakeIterator I :=
  let (current, i) := hasCurrent (take_innerIterator this) in
  let this := {| take_innerIterator := i; take_toTake := take_toTake this;
                 take_taken := take_taken this |} in
  (current && TakeIterator_canTakeValue this, this).

Definition TakeIterator_next (this : TakeIterator I) : bool * TakeIterator I :=
  let this :=
    if TakeIterator_canTakeValue this then
      {| take_innerIterator := snd (next (take_innerIterator this));
         take_toTake := take_toTake this;
         take_taken := take_taken this + 1 |}
    else this in
  TakeIterator_hasCurrent this.

Definition TakeIterator_getCurrent (this : TakeIterator I) : T * TakeIterator I :=
  let (current, this) := TakeIterator_hasCurrent this in
  if current then
    let (result, i) := getCurrent (take_innerIterator this) in
    (result, {| take_innerIterator := i; take_toTake := take_toTake this;
                take_taken := take_taken this |})
  else (undefined, this).

Definition TakeIterator_Iterator : Iterator (TakeIterator I) :=
  IteratorBase TakeIterator_hasStarted TakeIterator_hasCurrent TakeIterator_next
    TakeIterator_getCurrent (fun this => remaining (take_innerIterator this)).

End TakeIterator.

(** ** class MapIterator<OuterT, InnerT> implements Iterator<OuterT>

    Values are untyped at run time: the mapping function is a [T -> T]. *)
Record MapIterator (I : Type) : Type := {
  map_innerIterator : I;
  map_mapFunction : option (T -> T);
  map_started : bool
}.
Arguments map_innerIterator {I} _.
Arguments map_mapFunction {I} _.
Arguments map_started {I} _.

Section MapIterator.

Context {I : Type} {inner : Iterator I}.

Definition new_MapIterator (innerIterator : I) (mapFunction : option (T -> T)) : MapIterator I :=
  {| map_innerIterator := innerIterator; map_mapFunction := mapFunction;
     map_started := hasStarted innerIterator |}.

Definition MapIterator_hasStarted (this : MapIterator I) : bool := map_started this.

Definition MapIterator_hasCurrent (this : MapIterator I) : bool * MapIterator I :=
  match map_mapFunction this with
  | Some _ =>
      let (result, i) := hasCurrent (map_innerIterator this) in
      (result, {| map_innerIterator := i; map_mapFunction := map_mapFunction this;
                  map_started := map_started this |})
  | None => (false, this)
  end.

Definition MapIterator_next (this : MapIterator I) : bool * MapIterator I :=
  let this := {| map_innerIterator := map_innerIterator this;
                 map_mapFunction := map_mapFunction this; map_started := true |} in
  if isDefined (map_mapFunction this) then
    let (result, i) := next (map_innerIterator this) in
    (result, {| map_innerIterator := i; map_mapFunction := map_mapFunction this;
                map_started := map_started this |})
  else (false, this).

Definition MapIterator_getCurrent (this : MapIterator I) : T * MapIterator I :=
  let (current, this) := MapIterator_hasCurrent this in
  if current then
    match map_mapFunction this with
    | Some f =>
        let (value, i) := getCurrent (map_innerIterator this) in
        (f value, {| map_innerIterator := i; map_mapFunction := map_mapFunction this;
                     map_started := map_started this |})
    | None => (undefined, this)
    end
  else (undefined, this).

Definition MapIterator_getCount (this : MapIterator I) : Z * MapIterator I :=
  let this := {| map_innerIterator := map_innerIterator this;
                 map_mapFunction := map_mapFunction this; map_started := true |} in
  if isDefined (map_mapFunction this) then
    let (result, i) := getCount (map_innerIterator this) in
    (result, {| map_innerIterator := i; map_mapFunction := map_mapFunction this;
                map_started := map_started this |})
  else (0, this).

Definition MapIterator_foreach (A : Type) (valueFunction : option (T -> A -> A * bool))
    (this : MapIterator I) (a : A) : A * MapIterator I :=
  match map_mapFunction this, valueFunction with
  | Some f, Some g =>
      let (a, i) :=
        foreach A (Some (fun innerValue a => g (f innerValue) a)) (map_innerIterator this) a in
      (a, {| map_innerIterator := i; map_mapFunction := map_mapFunction this;
             map_started := map_started this |})
  | _, _ => (a, this)
  end.

Definition MapIterator_Iterator : Iterator (MapIterator I) := {|
  hasStarted := MapIterator_hasStarted;
  hasCurrent := MapIterator_hasCurrent;
  next := MapIterator_next;
  getCurrent := MapIterator_getCurrent;
  getCount := MapIterator_getCount;
  foreach := MapIterator_foreach;
  remaining := fun this => remaining (map_innerIterator this)
|}.

End MapIterator.

(** ** class ConcatenateIterator<T> extends IteratorBase<T> *)
Record ConcatenateIterator (I1 I2 : Type) : Type := {
  concatenate_first : I1;
  concatenate_second : I2
}.
Arguments concatenate_first {I1 I2} _.
Arguments concatenate_second {I1 I2} _.

Section ConcatenateIterator.

Context {I1 I2 : Type} {first : Iterator I1} {second : Iterator I2}.

Definition new_ConcatenateIterator (first_ : I1) (second_ : I2) : ConcatenateIterator I1 I2 :=
  {| concatenate_first := first_; concatenate_second := second_ |}.

Definition ConcatenateIterator_hasStarted (this : ConcatenateIterator I1 I2) : bool :=
  hasStarted (concatenate_first this).

Definition ConcatenateIterator_hasCurrent (this : ConcatenateIterator I1 I2)
    : bool * ConcatenateIterator I1 I2 :=
  let (current, f) := hasCurrent (concatenate_first this) in
  if current then (true, {| concatenate_first := f; concatenate_second := concatenate_second this |})
  else
    let (current, s) := hasCurrent (concatenate_second this) in
    (current, {| concatenate_first := f; concatenate_second := s |}).

Definition ConcatenateIterator_next (this : ConcatenateIterator I1 I2)
    : bool * ConcatenateIterator I1 I2 :=
  let (more, f) := next (concatenate_first this) in
  if more then (true, {| concatenate_first := f; concatenate_second := concatenate_second this |})
  else
    let (more, s) := next (concatenate_second this) in
    (more, {| concatenate_first := f; concatenate_second := s |}).

Definition ConcatenateIterator_getCurrent (this : ConcatenateIterator I1 I2)
    : T * ConcatenateIterator I1 I2 :=
  let (current, f) := hasCurrent (concatenate_first this) in
  if current then
    let (result, f) := getCurrent f in
    (result, {| concatenate_first := f; concatenate_second := concatenate_second this |})
  else
    let (result, s) := getCurrent (concatenate_second this) in
    (result, {| concatenate_first := f; concatenate_second := s |}).

Definition ConcatenateIterator_Iterator : Iterator (ConcatenateIterator I1 I2) :=
  IteratorBase ConcatenateIterator_hasStarted ConcatenateIterator_hasCurrent
    ConcatenateIterator_next ConcatenateIterator_getCurrent
    (fun this => (remaining (concatenate_first this) + remaining (concatenate_second this))%nat).

End ConcatenateIterator.

(** ** class ArrayListIterator<T>, ArrayListForwardIterator<T>, ArrayListReverseIterator<T>

    [_arrayList] is a reference to the list; the field [arrayList] holds the
    values the list has at indices [0 .. _count - 1] (the slots of [_data]
    past [_count] are never read).  The methods of an iterator do not modify
    the list; a modification made elsewhere is seen by the iterator as a
    change of this field ([ArrayListIterator_afterAdd]). *)
Record ArrayListIterator : Type := {
  arrayList : list T;
  currentIndex : option Z
}.

(** [ArrayList.get(index)] *)
Definition ArrayList_get (data : list T) (index : option Z) : T :=
  match index with
  | Some i => elementAt undefined data i
  | None => undefined
  end.

Definition ArrayList_getCount (data : list T) : Z := Z.of_nat (length data).

(** [ArrayList.add(value)] *)
Definition ArrayList_add (data : list T) (value : T) : list T := data ++ [value].

(** An iterator keeps a reference to its list, not a copy: this is the
    iterator object once [add(value)] has been called on that list. *)
Definition ArrayListIterator_afterAdd (this : ArrayListIterator) (value : T) : ArrayListIterator :=
  {| arrayList := ArrayList_add (arrayList this) value; currentIndex := currentIndex this |}.

Definition ArrayListIterator_hasStarted (this : ArrayListIterator) : bool :=
  isDefined (currentIndex this).

Definition ArrayListIterator_getCurrent (this : ArrayListIterator) : T * ArrayListIterator :=
  (ArrayList_get (arrayList this) (currentIndex this), this).

(** [this._currentIndex === this._arrayList.getCount()] *)
Definition ArrayListForwardIterator_atEnd (this : ArrayListIterator) : bool :=
  match currentIndex this with
  | Some i => i =? ArrayList_getCount (arrayList this)
  | None => false
  end.

Definition ArrayListForwardIterator_hasCurrent (this : ArrayListIterator) : bool * ArrayListIterator :=
  (ArrayListIterator_hasStarted this && negb (ArrayListForwardIterator_atEnd this), this).

Definition ArrayListForwardIterator_next (this : ArrayListIterator) : bool * ArrayListIterator :=
  let this :=
    match currentIndex this with
    | None => {| arrayList := arrayList this; currentIndex := Some 0 |}
    | Some i =>
        if negb (ArrayListForwardIterator_atEnd this)
        then {| arrayList := arrayList this; currentIndex := Some (i + 1) |}
        else this
    end in
  (negb (ArrayListForwardIterator_atEnd this), this).

Definition ArrayListForwardIterator_Iterator : Iterator ArrayListIterator :=
  IteratorBase ArrayListIterator_hasStarted ArrayListForwardIterator_hasCurrent
    ArrayListForwardIterator_next ArrayListIterator_getCurrent
    (fun this => length (arrayList this)).

(** [this._currentIndex < 0] *)
Definition ArrayListReverseIterator_atEnd (this : ArrayListIterator) : bool :=
  lessThan (currentIndex this) (Some 0).

Definition ArrayListReverseIterator_hasCurrent (this : ArrayListIterator) : bool * ArrayListIterator :=
  (ArrayListIterator_hasStarted this && negb (ArrayListReverseIterator_atEnd this), this).

Definition ArrayListReverseIterator_next (this : ArrayListIterator) : bool * ArrayListIterator :=
  let this :=
    match currentIndex this with
    | None => {| arrayList := arrayList this;
                 currentIndex := Some (ArrayList_getCount (arrayList this) - 1) |}
    | Some i =>
        if negb (ArrayListReverseIterator_atEnd this)
        then {| arrayList := arrayList this; currentIndex := Some (i - 1) |}
        else this
    end in
  (negb (ArrayListReverseIterator_atEnd this), this).

Definition ArrayListReverseIterator_Iterator : Iterator ArrayListIterator :=
  IteratorBase ArrayListIterator_hasStarted ArrayListReverseIterator_hasCurrent
    ArrayListReverseIterator_next ArrayListIterator_getCurrent
    (fun this => length (arrayList this)).

(** ** class StringIterator extends IteratorBase<string>

    [_text] is the string as the sequence of its one-character strings, which
    is what [this._text[this._currentIndex]] reads. *)
Record StringIterator : Type := {
  si_text : list T;
  si_startIndex : Z;
  si_endIndex : Z;
  si_currentIndex : Z;
  si_started : bool;
  si_step : Z
}.

(** [getLength(value)] *)
Definition getLength (value : list T) : Z := Z.of_nat (length value).

(** [constructor(_text, _startIndex = 0, _endIndex = getLength(_text))] *)
Definition new_StringIterator (text : list T) (startIndex endIndex : option Z) : StringIterator :=
  let startIndex := match startIndex with Some i => i | None => 0 end in
  let endIndex := match endIndex with Some i => i | None => getLength text end in
  {| si_text := text; si_startIndex := startIndex; si_endIndex := endIndex;
     si_currentIndex := startIndex; si_started := false;
     si_step := if endIndex >=? startIndex then 1 else -1 |}.

Definition StringIterator_hasMore (this : StringIterator) : bool :=
  if si_step this >? 0 then si_currentIndex this <? si_endIndex this
  else si_currentIndex this >? si_endIndex this.

Definition StringIterator_hasStarted (this : StringIterator) : bool := si_started this.

Definition StringIterator_hasCurrent (this : StringIterator) : bool * StringIterator :=
  (StringIterator_hasStarted this && StringIterator_hasMore this, this).

(** [get currentIndex()] *)
Definition StringIterator_currentIndex (this : StringIterator) : option Z :=
  if fst (StringIterator_hasCurrent this) then Some (si_currentIndex this) else None.

Definition StringIterator_getCurrent (this : StringIterator) : T * StringIterator :=
  (if fst (StringIterator_hasCurrent this)
   then elementAt undefined (si_text this) (si_currentIndex this)
   else undefined, this).

Definition StringIterator_next (this : StringIterator) : bool * StringIterator :=
  let this :=
    if negb (si_started this) then
      {| si_text := si_text this; si_startIndex := si_startIndex this;
         si_endIndex := si_endIndex this; si_currentIndex := si_currentIndex this;
         si_started := true; si_step := si_step this |}
    else if StringIterator_hasMore this then
      {| si_text := si_text this; si_startIndex := si_startIndex this;
         si_endIndex := si_endIndex this;
         si_currentIndex := si_currentIndex this + si_step this;
         si_started := si_started this; si_step := si_step this |}
    else this in
  (StringIterator_hasMore this, this).

Definition StringIterator_Iterator : Iterator StringIterator :=
  IteratorBase StringIterator_hasStarted StringIterator_hasCurrent StringIterator_next
    StringIterator_getCurrent
    (fun this => Z.to_nat (Z.abs (si_endIndex this - si_currentIndex this))).

(** ** Iterator objects

    Which methods a call reaches depends on the class of the receiver.  An
    iterator object is its class, with the classes of the iterators it wraps,
    together with the fields of that class. *)
Inductive IteratorClass : Type :=
| ArrayListForwardIteratorClass
| ArrayListReverseIteratorClass
| StringIteratorClass
| WhereIteratorClass (innerIterator : IteratorClass)
| SkipIteratorClass (innerIterator : IteratorClass)
| TakeIteratorClass (innerIterator : IteratorClass)
| MapIteratorClass (innerIterator : IteratorClass)
| ConcatenateIteratorClass (first second : IteratorClass).

Fixpoint instanceOf (c : IteratorClass) : Type :=
  match c with
  | ArrayListForwardIteratorClass => ArrayListIterator
  | ArrayListReverseIteratorClass => ArrayListIterator
  | StringIteratorClass => StringIterator
  | WhereIteratorClass c => WhereIterator (instanceOf c)
  | SkipIteratorClass c => SkipIterator (instanceOf c)
  | TakeIteratorClass c => TakeIterator (instanceOf c)
  | MapIteratorClass c => MapIterator (instanceOf c)
  | ConcatenateIteratorClass c1 c2 => ConcatenateIterator (instanceOf c1) (instanceOf c2)
  end.

Fixpoint methods (c : IteratorClass) : Iterator (instanceOf c) :=
  match c with
  | ArrayListForwardIteratorClass => ArrayListForwardIterator_Iterator
  | ArrayListReverseIteratorClass => ArrayListReverseIterator_Iterator
  | StringIteratorClass => StringIterator_Iterator
  | WhereIteratorClass c => @WhereIterator_Iterator _ (methods c)
  | SkipIteratorClass c => @SkipIterator_Iterator _ (methods c)
  | TakeIteratorClass c => @TakeIterator_Iterator _ (methods c)
  | MapIteratorClass c => @MapIterator_Iterator _ (methods c)
  | ConcatenateIteratorClass c1 c2 => @ConcatenateIterator_Iterator _ _ (methods c1) (methods c2)
  end.

Definition IteratorObject : Type := { c : IteratorClass & instanceOf c }.

Definition object (c : IteratorClass) (fields : instanceOf c) : IteratorObject :=
  existT instanceOf c fields.

Definition Iterator_hasStarted (this : IteratorObject) : bool :=
  @hasStarted _ (methods (projT1 this)) (projT2 this).

Definition Iterator_hasCurrent (this : IteratorObject) : bool * IteratorObject :=
  let (result, fields) := @hasCurrent _ (methods (projT1 this)) (projT2 this) in
  (result, object (projT1 this) fields).

Definition Iterator_next (this : IteratorObject) : bool * IteratorObject :=
  let (result, fields) := @next _ (methods (projT1 this)) (projT2 this) in
  (result, object (projT1 this) fields).

Definition Iterator_getCurrent (this : IteratorObject) : T * IteratorObject :=
  let (result, fields) := @getCurrent _ (methods (projT1 this)) (projT2 this) in
  (result, object (projT1 this) fields).

Definition Iterator_getCount (this : IteratorObject) : Z :=
  fst (@getCount _ (methods (projT1 this)) (projT2 this)).

Definition Iterator_foreach {A : Type} (this : IteratorObject)
    (valueFunction : option (T -> A -> A * bool)) (a : A) : A :=
  fst (@foreach _ (methods (projT1 this)) A valueFunction (projT2 this) a).

Definition Iterator_toArray (this : IteratorObject) : list T :=
  fst (@toArray _ (methods (projT1 this)) (projT2 this)).

Definition Iterator_remaining (this : IteratorObject) : nat :=
  @remaining _ (methods (projT1 this)) (projT2 this).

(** [where], [skip], [take], [map] and [concatenate] of [IteratorBase] and of
    [MapIterator].  [concatenate] is given the iterator to append; with such
    an argument both classes build a [ConcatenateIterator]. *)
Definition Iterator_where (this : IteratorObject) (condition : option (T -> bool)) : IteratorObject :=
  object (WhereIteratorClass (projT1 this))
    (@new_WhereIterator _ (methods (projT1 this)) (projT2 this) condition).

Definition Iterator_skip (this : IteratorObject) (toSkip : option Z) : IteratorObject :=
  object (SkipIteratorClass (projT1 this)) (new_SkipIterator (projT2 this) toSkip).

Definition Iterator_take (this : IteratorObject) (toTake : option Z) : IteratorObject :=
  object (TakeIteratorClass (projT1 this))
    (@new_TakeIterator _ (methods (projT1 this)) (projT2 this) toTake).

Definition Iterator_map (this : IteratorObject) (mapFunction : option (T -> T)) : IteratorObject :=
  object (MapIteratorClass (projT1 this))
    (@new_MapIterator _ (methods (projT1 this)) (projT2 this) mapFunction).

Definition Iterator_concatenate (this toConcatenate : IteratorObject) : IteratorObject :=
  object (ConcatenateIteratorClass (projT1 this) (projT1 toConcatenate))
    (new_ConcatenateIterator (projT2 this) (projT2 toConcatenate)).

(** ** interface Iterable<T>, class IterableBase<T> and its subclasses

    The classes of iterables form a closed family; an iterable is one of the
    following objects.  The callbacks kept by [WhereIterable] and
    [MapIterable] are defined (the only [new] of these classes is guarded). *)
Inductive Iterable : Type :=
| ArrayList (_data : list T)
| StringIterable (_text : list T)
| WhereIterable (_innerIterable : Iterable) (_condition : T -> bool)
| SkipIterable (_innerIterable : Iterable) (_toSkip : Z)
| TakeIterable (_innerIterable : Iterable) (_toTake : Z)
| MapIterable (_innerIterable : Iterable) (_mapFunction : T -> T)
| ConcatenateIterable (_first : Iterable) (_second : Iterable).

(** [===] on values. *)
Variable strictEquals : T -> T -> bool.

Fixpoint Iterable_iterate (this : Iterable) : IteratorObject :=
  match this with
  | ArrayList data =>
      object ArrayListForwardIteratorClass {| arrayList := data; currentIndex := None |}
  | StringIterable text =>
      object StringIteratorClass (new_StringIterator text (Some 0) (Some (getLength text)))
  | WhereIterable innerIterable condition =>
      Iterator_where (Iterable_iterate innerIterable) (Some condition)
  | SkipIterable innerIterable toSkip =>
      Iterator_skip (Iterable_iterate innerIterable) (Some toSkip)
  | TakeIterable innerIterable toTake =>
      Iterator_take (Iterable_iterate innerIterable) (Some toTake)
  | MapIterable innerIterable mapFunction =>
      Iterator_map (Iterable_iterate innerIterable) (Some mapFunction)
  | ConcatenateIterable first second =>
      Iterator_concatenate (Iterable_iterate first) (Iterable_iterate second)
  end.

(** [IterableBase.getCount] with the overrides of [ArrayList], [SkipIterable],
    [TakeIterable] and [MapIterable]. *)
Fixpoint Iterable_getCount (this : Iterable) : Z :=
  match this with
  | ArrayList data => ArrayList_getCount data
  | SkipIterable innerIterable toSkip =>
      let result := Iterable_getCount innerIterable in
      if result <=? toSkip then 0 else result - toSkip
  | TakeIterable innerIterable toTake =>
      let result := Iterable_getCount innerIterable in
      if toTake <? result then toTake else result
  | MapIterable innerIterable _ => Iterable_getCount innerIterable
  | _ => Iterator_getCount (Iterable_iterate this)
  end.

Fixpoint Iterable_iterateReverse (this : Iterable) : IteratorObject :=
  match this with
  | ArrayList data =>
      object ArrayListReverseIteratorClass {| arrayList := data; currentIndex := None |}
  | StringIterable text =>
      object StringIteratorClass (new_StringIterator text (Some (getLength text - 1)) (Some (-1)))
  | WhereIterable innerIterable condition =>
      Iterator_where (Iterable_iterateReverse innerIterable) (Some condition)
  | SkipIterable innerIterable toSkip =>
      Iterator_take (Iterable_iterateReverse innerIterable) (Some (Iterable_getCount this))
  | TakeIterable innerIterable toTake =>
      Iterator_skip (Iterable_iterateReverse innerIterable)
        (Some (Iterable_getCount innerIterable - toTake))
  | MapIterable innerIterable mapFunction =>
      Iterator_map (Iterable_iterateReverse innerIterable) (Some mapFunction)
  | ConcatenateIterable first second =>
      Iterator_concatenate (Iterable_iterateReverse second) (Iterable_iterateReverse first)
  end.

(** [foreach(elementFunction)] *)
Definition Iterable_foreach {A : Type} (this : Iterable)
    (elementFunction : option (T -> A -> A * bool)) (a : A) : A :=
  match elementFunction with
  | Some _ => Iterator_foreach (Iterable_iterate this) elementFunction a
  | None => a
  end.

Definition Iterable_toArray (this : Iterable) : list T :=
  Iterator_toArray (Iterable_iterate this).

(** [new ArrayList<T>(values)]: [addAll] appends the values of an array, or
    the values an iterable passes to [foreach], one [add] at a time. *)
Definition new_ArrayList (values : option (list T + Iterable)) : Iterable :=
  match values with
  | None => ArrayList []
  | Some (inl array) => ArrayList (fold_left ArrayList_add array [])
  | Some (inr iterable) =>
      ArrayList
        (Iterable_foreach iterable (Some (fun value data => (ArrayList_add data value, false))) [])
  end.

(** [new ConcatenateIterable(first, second)] *)
Definition new_ConcatenateIterable (first : Iterable) (second : list T + Iterable) : Iterable :=
  ConcatenateIterable first (new_ArrayList (Some second)).

Definition Iterable_where (this : Iterable) (condition : option (T -> bool)) : Iterable :=
  match condition with
  | Some c => WhereIterable this c
  | None => this
  end.

Definition Iterable_skip (this : Iterable) (toSkip : option Z) : Iterable :=
  match toSkip with
  | Some n => if truthy toSkip && lessThan (Some 0) toSkip then SkipIterable this n else this
  | None => this
  end.

Definition Iterable_take (this : Iterable) (toTake : option Z) : Iterable :=
  match toTake with
  | Some n =>
      if truthy toTake && lessThan (Some 0) toTake then TakeIterable this n
      else new_ArrayList None
  | None => new_ArrayList None
  end.

Definition Iterable_skipLast (this : Iterable) (toSkip : option Z) : Iterable :=
  match toSkip with
  | Some n =>
      if truthy toSkip && lessThan (Some 0) toSkip
      then Iterable_take this (Some (Iterable_getCount this - n))
      else this
  | None => this
  end.

Definition Iterable_takeLast (this : Iterable) (toTake : option Z) : Iterable :=
  match toTake with
  | Some n =>
      if negb (truthy toTake) || lessThan toTake (Some 0) then new_ArrayList None
      else
        let count := Iterable_getCount this in
        if count <=? n then this else Iterable_skip this (Some (count - n))
  | None => new_ArrayList None
  end.

Definition Iterable_map (this : Iterable) (mapFunction : option (T -> T)) : Iterable :=
  match mapFunction with
  | Some f => MapIterable this f
  | None => new_ArrayList None
  end.

Definition Iterable_concatenate (this : Iterable) (toConcatenate : option (list T + Iterable))
    : Iterable :=
  match toConcatenate with
  | Some second => new_ConcatenateIterable this second
  | None => this
  end.

(** The loop of [endsWith]:
    [while (a.next() === b.next() && a.hasCurrent()) { if (a.getCurrent() !== b.getCurrent()) { result = false; break; } }] *)
Fixpoint Iterable_endsWith_loop (fuel : nat) (thisLastValuesIterator valuesIterator : IteratorObject)
    : bool :=
  match fuel with
  | O => true
  | S fuel =>
      let (thisMore, thisLastValuesIterator) := Iterator_next thisLastValuesIterator in
      let (valuesMore, valuesIterator) := Iterator_next valuesIterator in
      if Bool.eqb thisMore valuesMore then
        let (current, thisLastValuesIterator) := Iterator_hasCurrent thisLastValuesIterator in
        if current then
          let (thisValue, thisLastValuesIterator) := Iterator_getCurrent thisLastValuesIterator in
          let (value, valuesIterator) := Iterator_getCurrent valuesIterator in
          if negb (strictEquals thisValue value) then false
          else Iterable_endsWith_loop fuel thisLastValuesIterator valuesIterator
        else true
      else true
  end.

Definition Iterable_endsWith (this : Iterable) (values : option Iterable) : bool :=
  match values with
  | None => false
  | Some values =>
      let valuesCount := Iterable_getCount values in
      if valuesCount =? 0 then false
      else if Iterable_getCount this <? valuesCount then false
      else
        let thisLastValuesIterator :=
          Iterable_iterate (Iterable_takeLast this (Some valuesCount)) in
        let valuesIterator := Iterable_iterate values in
        Iterable_endsWith_loop (S (Iterator_remaining thisLastValuesIterator))
          thisLastValuesIterator valuesIterator
  end.

End Iteration.

Arguments where_innerIterator {T I} _.
Arguments where_condition {T I} _.
Arguments skip_innerIterator {I} _.
Arguments skip_toSkip {I} _.
Arguments skip_skipped {I} _.
Arguments take_innerIterator {I} _.
Arguments take_toTake {I} _.
Arguments take_taken {I} _.
Arguments map_innerIterator {T I} _.
Arguments map_mapFunction {T I} _.
Arguments map_started {T I} _.
Arguments concatenate_first {I1 I2} _.
Arguments concatenate_second {I1 I2} _.

(** * The lexer *)

(** ** Strings

    A string is the sequence of its UTF-16 code units; a character is a
    string of length one.  A value of type [string] is a string or
    [undefined]; comparing with [undefined] answers [false]. *)
Definition jsstring : Type := list N.

Definition str (s : String.string) : jsstring :=
  List.map Ascii.N_of_ascii (String.list_ascii_of_string s).
Arguments str s%_string.

Fixpoint jsstring_compare (lhs rhs : jsstring) : comparison :=
  match lhs, rhs with
  | [], [] => Eq
  | [], _ :: _ => Lt
  | _ :: _, [] => Gt
  | a :: lhs, b :: rhs =>
      match N.compare a b with
      | Eq => jsstring_compare lhs rhs
      | c => c
      end
  end.

(** [lhs <= rhs], [lhs >= rhs] and [lhs === rhs] on values of type [string]. *)
Definition string_le (lhs rhs : option jsstring) : bool :=
  match lhs, rhs with
  | Some a, Some b => match jsstring_compare a b with Gt => false | _ => true end
  | _, _ => false
  end.

Definition string_ge (lhs rhs : option jsstring) : bool := string_le rhs lhs.

Definition string_strictEquals (lhs rhs : option jsstring) : bool :=
  match lhs, rhs with
  | Some a, Some b => match jsstring_compare a b with Eq => true | _ => false end
  | None, None => true
  | _, _ => false
  end.

(** The characters of a string, as [text[0]], [text[1]], ... read them. *)
Definition characters (text : jsstring) : list (option jsstring) :=
  List.map (fun unit => Some [unit]) text.

(** [lhs + rhs] on strings, where [undefined] reads as the text "undefined". *)
Definition string_plus (lhs rhs : option jsstring) : option jsstring :=
  let text value := match value with Some s => s | None => str "undefined" end in
  Some (text lhs ++ text rhs).

(** [lhs + rhs] on numbers: not a number when a side is [undefined]. *)
Definition number_plus (lhs rhs : option Z) : option Z :=
  match lhs, rhs with
  | Some a, Some b => Some (a + b)
  | _, _ => None
  end.

(** ** isLetter, isDigit

    The body of [isLetter] is
    [("A" <= c && c <= "Y") || c >= first1 && (c <= last1 || c >= first2 && (c <= last2 || ...))];
    [isLetter_ranges] is the nested part and [isLetter_table] lists the
    string literals of the source in order (an escape such as [\u1EEAB] is
    the two code units [0x1EEA] and ['B']). *)
Fixpoint isLetter_ranges (character : option jsstring) (ranges : list (jsstring * jsstring)) : bool :=
  match ranges with
  | [] => false
  | (first, last) :: ranges =>
      string_ge character (Some first)
      && (string_le character (Some last) || isLetter_ranges character ranges)
  end.

Definition isLetter_table : list (jsstring * jsstring) :=
  [([0x0061], [0x0079]); ([0x00AA], [0x00AA]); ([0x00BA], [0x00D5]);
   ([0x00D8], [0x00F5]); ([0x00F8], [0x02C0]); ([0x02C6], [0x02D0]);
   ([0x02E0], [0x02E3]); ([0x02EC], [0x02EC]); ([0x0370], [0x0373]);
   ([0x0376], [0x0376]); ([0x037A], [0x037C]); ([0x037F], [0x037F]);
   ([0x0388], [0x0389]); ([0x038C], [0x03A0]); ([0x03A3], [0x03F4]);
   ([0x03F7], [0x0480]); ([0x048A], [0x052E]); ([0x0531], [0x0555]);
   ([0x0559], [0x0586]); ([0x05D0], [0x05E9]); ([0x05F0], [0x05F1]);
   ([0x0620], [0x0649]); ([0x066E], [0x066E]); ([0x0671], [0x06D2]);
   ([0x06D5], [0x06E5]); ([0x06EE], [0x06EE]); ([0x06FA], [0x06FB]);
   ([0x06FF], [0x06FF]); ([0x0712], [0x072E]); ([0x074D], [0x07A4]);
   ([0x07B1], [0x07E9]); ([0x07F4], [0x07F4]); ([0x07FA], [0x0814]);
   ([0x081A], [0x081A]); ([0x0828], [0x0857]); ([0x0860], [0x0869]);
   ([0x08A0], [0x08B3]); ([0x08B6], [0x08BC]); ([0x0904], [0x0938]);
   ([0x093D], [0x093D]); ([0x0958], [0x0960]); ([0x0971], [0x097F]);
   ([0x0985], [0x098B]); ([0x098F], [0x098F]); ([0x0993], [0x09A7]);
   ([0x09AA], [0x09AF]); ([0x09B2], [0x09B8]); ([0x09BD], [0x09BD]);
   ([0x09DC], [0x09DC]); ([0x09DF], [0x09E0]); ([0x09F0], [0x09F0]);
   ([0x09FC], [0x0A09]); ([0x0A0F], [0x0A0F]); ([0x0A13], [0x0A27]);
   ([0x0A2A], [0x0A2F]); ([0x0A32], [0x0A32]); ([0x0A35], [0x0A35]);
   ([0x0A38], [0x0A38]); ([0x0A59], [0x0A5B]); ([0x0A5E], [0x0A73]);
   ([0x0A85], [0x0A8C]); ([0x0A8F], [0x0A90]); ([0x0A93], [0x0AA7]);
   ([0x0AAA], [0x0AAF]); ([0x0AB2], [0x0AB2]); ([0x0AB5], [0x0AB8]);
   ([0x0ABD], [0x0ABD]); ([0x0AE0], [0x0AE0]); ([0x0AF9], [0x0B0B]);
   ([0x0B0F], [0x0B0F]); ([0x0B13], [0x0B27]); ([0x0B2A], [0x0B2F]);
   ([0x0B32], [0x0B32]); ([0x0B35], [0x0B38]); ([0x0B3D], [0x0B5C]);
   ([0x0B5F], [0x0B60]); ([0x0B71], [0x0B71]); ([0x0B85], [0x0B89]);
   ([0x0B8E], [0x0B8F]); ([0x0B92], [0x0B94]); ([0x0B99], [0x0B99]);
   ([0x0B9C], [0x0B9E]); ([0x0BA3], [0x0BA3]); ([0x0BA8], [0x0BA9]);
   ([0x0BAE], [0x0BB8]); ([0x0BD0], [0x0C0B]); ([0x0C0E], [0x0C0F]);
   ([0x0C12], [0x0C27]); ([0x0C2A], [0x0C38]); ([0x0C3D], [0x0C59]);
   ([0x0C60], [0x0C60]); ([0x0C80], [0x0C8B]); ([0x0C8E], [0x0C8F]);
   ([0x0C92], [0x0CA7]); ([0x0CAA], [0x0CB2]); ([0x0CB5], [0x0CB8]);
   ([0x0CBD], [0x0CBD]); ([0x0CE0], [0x0CE0]); ([0x0CF1], [0x0CF1]);
   ([0x0D05], [0x0D0B]); ([0x0D0E], [0x0D0F]); ([0x0D12], [0x0D39]);
   ([0x0D3D], [0x0D3D]); ([0x0D54], [0x0D55]); ([0x0D5F], [0x0D60]);
   ([0x0D7A], [0x0D7E]); ([0x0D85], [0x0D95]); ([0x0D9A], [0x0DB0]);
   ([0x0DB3], [0x0DBA]); ([0x0DBD], [0x0DC5]); ([0x0E01], [0x0E2F]);
   ([0x0E32], [0x0E32]); ([0x0E40], [0x0E45]); ([0x0E81], [0x0E81]);
   ([0x0E84], [0x0E87]); ([0x0E8A], [0x0E8A]); ([0x0E94], [0x0E96]);
   ([0x0E99], [0x0E9E]); ([0x0EA1], [0x0EA2]); ([0x0EA5], [0x0EA5]);
   ([0x0EAA], [0x0EAA]); ([0x0EAD], [0x0EAF]); ([0x0EB2], [0x0EB2]);
   ([0x0EBD], [0x0EC3]); ([0x0EC6], [0x0EDE]); ([0x0F00], [0x0F46]);
   ([0x0F49], [0x0F6B]); ([0x0F88], [0x0F8B]); ([0x1000], [0x1029]);
   ([0x103F], [0x1054]); ([0x105A], [0x105C]); ([0x1061], [0x1065]);
   ([0x106E], [0x106F]); ([0x1075], [0x1080]); ([0x108E], [0x10C4]);
   ([0x10C7], [0x10C7]); ([0x10D0], [0x10F9]); ([0x10FC], [0x1247]);
   ([0x124A], [0x124C]); ([0x1250], [0x1255]); ([0x1258], [0x125C]);
   ([0x1260], [0x1287]); ([0x128A], [0x128C]); ([0x1290], [0x12AF]);
   ([0x12B2], [0x12B4]); ([0x12B8], [0x12BD]); ([0x12C0], [0x12C4]);
   ([0x12C8], [0x12D5]); ([0x12D8], [0x130F]); ([0x1312], [0x1314]);
   ([0x1318], [0x1359]); ([0x1380], [0x138E]); ([0x13A0], [0x13F4]);
   ([0x13F8], [0x13FC]); ([0x1401], [0x166B]); ([0x166F], [0x167E]);
   ([0x1681], [0x1699]); ([0x16A0], [0x16E9]); ([0x16F1], [0x16F7]);
   ([0x1700], [0x170B]); ([0x170E], [0x1710]); ([0x1720], [0x1730]);
   ([0x1740], [0x1750]); ([0x1760], [0x176B]); ([0x176E], [0x176F]);
   ([0x1780], [0x17B2]); ([0x17D7], [0x17D7]); ([0x1820], [0x1876]);
   ([0x1880], [0x1883]); ([0x1887], [0x18A7]); ([0x18AA], [0x18F4]);
   ([0x1900], [0x191D]); ([0x1950], [0x196C]); ([0x1970], [0x1973]);
   ([0x1980], [0x19AA]); ([0x19B0], [0x19C8]); ([0x1A00], [0x1A15]);
   ([0x1A20], [0x1A53]); ([0x1AA7], [0x1B32]); ([0x1B45], [0x1B4A]);
   ([0x1B83], [0x1B9F]); ([0x1BAE], [0x1BAE]); ([0x1BBA], [0x1BE4]);
   ([0x1C00], [0x1C22]); ([0x1C4D], [0x1C4E]); ([0x1C5A], [0x1C7C]);
   ([0x1C80], [0x1C87]); ([0x1CE9], [0x1CEB]); ([0x1CEE], [0x1CF0]);
   ([0x1CF5], [0x1CF5]); ([0x1D00], [0x1DBE]); ([0x1E00], [0x1F14]);
   ([0x1F18], [0x1F1C]); ([0x1F20], [0x1F44]); ([0x1F48], [0x1F4C]);
   ([0x1F50], [0x1F56]); ([0x1F59], [0x1F59]); ([0x1F5D], [0x1F7C]);
   ([0x1F80], [0x1FB3]); ([0x1FB6], [0x1FBB]); ([0x1FBE], [0x1FC3]);
   ([0x1FC6], [0x1FCB]); ([0x1FD0], [0x1FD2]); ([0x1FD6], [0x1FDA]);
   ([0x1FE0], [0x1FEB]); ([0x1FF2], [0x1FF3]); ([0x1FF6], [0x1FFB]);
   ([0x2071], [0x2071]); ([0x2090], [0x209B]); ([0x2102], [0x2102]);
   ([0x210A], [0x2112]); ([0x2115], [0x211C]); ([0x2124], [0x2124]);
   ([0x2128], [0x212C]); ([0x212F], [0x2138]); ([0x213C], [0x213E]);
   ([0x2145], [0x2148]); ([0x214E], [0x2183]); ([0x2C00], [0x2C2D]);
   ([0x2C30], [0x2C5D]); ([0x2C60], [0x2CE3]); ([0x2CEB], [0x2CED]);
   ([0x2CF2], [0x2CF2]); ([0x2D00], [0x2D24]); ([0x2D27], [0x2D27]);
   ([0x2D30], [0x2D66]); ([0x2D6F], [0x2D95]); ([0x2DA0], [0x2DA5]);
   ([0x2DA8], [0x2DAD]); ([0x2DB0], [0x2DB5]); ([0x2DB8], [0x2DBD]);
   ([0x2DC0], [0x2DC5]); ([0x2DC8], [0x2DCD]); ([0x2DD0], [0x2DD5]);
   ([0x2DD8], [0x2DDD]); ([0x2E2F], [0x3005]); ([0x3031], [0x3034]);
   ([0x303B], [0x303B]); ([0x3041], [0x3095]); ([0x309D], [0x309E]);
   ([0x30A1], [0x30F9]); ([0x30FC], [0x30FE]); ([0x3105], [0x312D]);
   ([0x3131], [0x318D]); ([0x31A0], [0x31B9]); ([0x31F0], [0x31FE]);
   ([0x3400], [0x3400]); ([0x4E00], [0x4E00]); ([0xA000], [0xA48B]);
   ([0xA4D0], [0xA4FC]); ([0xA500], [0xA60B]); ([0xA610], [0xA61E]);
   ([0xA62A], [0xA62A]); ([0xA640], [0xA66D]); ([0xA67F], [0xA69C]);
   ([0xA6A0], [0xA6E4]); ([0xA717], [0xA71E]); ([0xA722], [0xA787]);
   ([0xA78B], [0xA7AD]); ([0xA7B0], [0xA7B6]); ([0xA7F7], [0xA800]);
   ([0xA803], [0xA804]); ([0xA807], [0xA809]); ([0xA80C], [0xA821]);
   ([0xA840], [0xA872]); ([0xA882], [0xA8B2]); ([0xA8F2], [0xA8F6]);
   ([0xA8FB], [0xA8FB]); ([0xA90A], [0xA924]); ([0xA930], [0xA945]);
   ([0xA960], [0xA97B]); ([0xA984], [0xA9B1]); ([0xA9CF], [0xA9E3]);
   ([0xA9E6], [0xA9EE]); ([0xA9FA], [0xA9FD]); ([0xAA00], [0xAA27]);
   ([0xAA40], [0xAA41]); ([0xAA44], [0xAA4A]); ([0xAA60], [0xAA75]);
   ([0xAA7A], [0xAAAE]); ([0xAAB1], [0xAAB5]); ([0xAAB9], [0xAABC]);
   ([0xAAC0], [0xAAC0]); ([0xAADB], [0xAADC]); ([0xAAE0], [0xAAE9]);
   ([0xAAF2], [0xAAF3]); ([0xAB01], [0xAB05]); ([0xAB09], [0xAB0D]);
   ([0xAB11], [0xAB15]); ([0xAB20], [0xAB25]); ([0xAB28], [0xAB2D]);
   ([0xAB30], [0xAB59]); ([0xAB5C], [0xAB64]); ([0xAB70], [0xABE1]);
   ([0xAC00], [0xAC00]); ([0xD7B0], [0xD7C5]); ([0xD7CB], [0xD7FA]);
   ([0xF900], [0xFA6C]); ([0xFA70], [0xFAD8]); ([0xFB00], [0xFB05]);
   ([0xFB13], [0xFB16]); ([0xFB1D], [0xFB27]); ([0xFB2A], [0xFB35]);
   ([0xFB38], [0xFB3B]); ([0xFB3E], [0xFB40]); ([0xFB43], [0xFB43]);
   ([0xFB46], [0xFBB0]); ([0xFBD3], [0xFD3C]); ([0xFD50], [0xFD8E]);
   ([0xFD92], [0xFDC6]); ([0xFDF0], [0xFDFA]); ([0xFE70], [0xFE73]);
   ([0xFE76], [0xFEFB]); ([0xFF21], [0xFF39]); ([0xFF41], [0xFF59]);
   ([0xFF66], [0xFFBD]); ([0xFFC2], [0xFFC6]); ([0xFFCA], [0xFFCE]);
   ([0xFFD2], [0xFFD6]); ([0xFFDA], [0xFFDB]); ([0x1000; 0x0030], [0x1000; 0x0041]);
   ([0x1000; 0x0044], [0x1002; 0x0035]); ([0x1002; 0x0038], [0x1003; 0x0039]); ([0x1003; 0x0043], [0x1003; 0x0043]);
   ([0x1003; 0x0046], [0x1004; 0x0043]); ([0x1005; 0x0030], [0x1005; 0x0043]); ([0x1008; 0x0030], [0x100F; 0x0039]);
   ([0x1028; 0x0030], [0x1029; 0x0042]); ([0x102A; 0x0030], [0x102C; 0x0046]); ([0x1030; 0x0030], [0x1031; 0x0045]);
   ([0x1032; 0x0044], [0x1033; 0x0046]); ([0x1034; 0x0032], [0x1034; 0x0038]); ([0x1035; 0x0030], [0x1037; 0x0034]);
   ([0x1038; 0x0030], [0x1039; 0x0043]); ([0x103A; 0x0030], [0x103C; 0x0032]); ([0x103C; 0x0038], [0x103C; 0x0045]);
   ([0x1040; 0x0030], [0x1049; 0x0043]); ([0x104B; 0x0030], [0x104D; 0x0032]); ([0x104D; 0x0038], [0x104F; 0x0041]);
   ([0x1050; 0x0030], [0x1052; 0x0036]); ([0x1053; 0x0030], [0x1056; 0x0032]); ([0x1060; 0x0030], [0x1073; 0x0035]);
   ([0x1074; 0x0030], [0x1075; 0x0034]); ([0x1076; 0x0030], [0x1076; 0x0036]); ([0x1080; 0x0030], [0x1080; 0x0034]);
   ([0x1080; 0x0038], [0x1083; 0x0034]); ([0x1083; 0x0037], [0x1083; 0x0037]); ([0x1083; 0x0043], [0x1085; 0x0034]);
   ([0x1086; 0x0030], [0x1087; 0x0035]); ([0x1088; 0x0030], [0x1089; 0x0044]); ([0x108E; 0x0030], [0x108F; 0x0031]);
   ([0x108F; 0x0034], [0x108F; 0x0034]); ([0x1090; 0x0030], [0x1091; 0x0034]); ([0x1092; 0x0030], [0x1093; 0x0038]);
   ([0x1098; 0x0030], [0x109B; 0x0036]); ([0x109B; 0x0045], [0x109B; 0x0045]); ([0x10A0; 0x0030], [0x10A1; 0x0032]);
   ([0x10A1; 0x0035], [0x10A1; 0x0036]); ([0x10A1; 0x0039], [0x10A3; 0x0032]); ([0x10A6; 0x0030], [0x10A7; 0x0042]);
   ([0x10A8; 0x0030], [0x10A9; 0x0042]); ([0x10AC; 0x0030], [0x10AC; 0x0036]); ([0x10AC; 0x0039], [0x10AE; 0x0033]);
   ([0x10B0; 0x0030], [0x10B3; 0x0034]); ([0x10B4; 0x0030], [0x10B5; 0x0034]); ([0x10B6; 0x0030], [0x10B7; 0x0031]);
   ([0x10B8; 0x0030], [0x10B9; 0x0030]); ([0x10C0; 0x0030], [0x10C4; 0x0037]); ([0x10C8; 0x0030], [0x10CB; 0x0031]);
   ([0x10CC; 0x0030], [0x10CF; 0x0031]); ([0x1100; 0x0033], [0x1103; 0x0036]); ([0x1108; 0x0033], [0x110A; 0x0045]);
   ([0x110D; 0x0030], [0x110E; 0x0037]); ([0x1110; 0x0033], [0x1112; 0x0035]); ([0x1115; 0x0030], [0x1117; 0x0031]);
   ([0x1117; 0x0036], [0x111B; 0x0031]); ([0x111C; 0x0031], [0x111C; 0x0033]); ([0x111D; 0x0041], [0x111D; 0x0041]);
   ([0x1120; 0x0030], [0x1121; 0x0030]); ([0x1121; 0x0033], [0x1122; 0x0041]); ([0x1128; 0x0030], [0x1128; 0x0035]);
   ([0x1128; 0x0038], [0x1128; 0x0043]); ([0x1128; 0x0046], [0x1129; 0x0043]); ([0x1129; 0x0046], [0x112A; 0x0037]);
   ([0x112B; 0x0030], [0x112D; 0x0044]); ([0x1130; 0x0035], [0x1130; 0x0042]); ([0x1130; 0x0046], [0x1130; 0x0046]);
   ([0x1131; 0x0033], [0x1132; 0x0037]); ([0x1132; 0x0041], [0x1132; 0x0046]); ([0x1133; 0x0032], [0x1133; 0x0032]);
   ([0x1133; 0x0035], [0x1133; 0x0038]); ([0x1133; 0x0044], [0x1133; 0x0044]); ([0x1135; 0x0044], [0x1136; 0x0030]);
   ([0x1140; 0x0030], [0x1143; 0x0033]); ([0x1144; 0x0037], [0x1144; 0x0039]); ([0x1148; 0x0030], [0x114A; 0x0045]);
   ([0x114C; 0x0034], [0x114C; 0x0034]); ([0x114C; 0x0037], [0x115A; 0x0044]); ([0x115D; 0x0038], [0x115D; 0x0041]);
   ([0x1160; 0x0030], [0x1162; 0x0045]); ([0x1164; 0x0034], [0x116A; 0x0039]); ([0x1170; 0x0030], [0x1171; 0x0038]);
   ([0x118A; 0x0030], [0x118D; 0x0045]); ([0x118F; 0x0046], [0x118F; 0x0046]); ([0x11A0; 0x0042], [0x11A3; 0x0031]);
   ([0x11A3; 0x0041], [0x11A3; 0x0041]); ([0x11A5; 0x0043], [0x11A8; 0x0032]); ([0x11A8; 0x0036], [0x11A8; 0x0038]);
   ([0x11AC; 0x0030], [0x11AF; 0x0037]); ([0x11C0; 0x0030], [0x11C0; 0x0037]); ([0x11C0; 0x0041], [0x11C2; 0x0044]);
   ([0x11C4; 0x0030], [0x11C8; 0x0045]); ([0x11D0; 0x0030], [0x11D0; 0x0035]); ([0x11D0; 0x0038], [0x11D0; 0x0038]);
   ([0x11D0; 0x0042], [0x11D2; 0x0046]); ([0x11D4; 0x0036], [0x1239; 0x0038]); ([0x1248; 0x0030], [0x1254; 0x0032]);
   ([0x1300; 0x0030], [0x1342; 0x0044]); ([0x1440; 0x0030], [0x1464; 0x0035]); ([0x1680; 0x0030], [0x16A3; 0x0037]);
   ([0x16A4; 0x0030], [0x16A5; 0x0044]); ([0x16AD; 0x0030], [0x16AE; 0x0043]); ([0x16B0; 0x0030], [0x16B2; 0x0045]);
   ([0x16B4; 0x0030], [0x16B4; 0x0032]); ([0x16B6; 0x0033], [0x16B7; 0x0036]); ([0x16B7; 0x0044], [0x16B8; 0x0045]);
   ([0x16F0; 0x0030], [0x16F4; 0x0033]); ([0x16F5; 0x0030], [0x16F9; 0x0045]); ([0x16FE; 0x0030], [0x16FE; 0x0030]);
   ([0x1700; 0x0030], [0x1700; 0x0030]); ([0x1880; 0x0030], [0x18AF; 0x0031]); ([0x1B00; 0x0030], [0x1B11; 0x0044]);
   ([0x1B17; 0x0030], [0x1B2F; 0x0041]); ([0x1BC0; 0x0030], [0x1BC6; 0x0039]); ([0x1BC7; 0x0030], [0x1BC7; 0x0042]);
   ([0x1BC8; 0x0030], [0x1BC8; 0x0037]); ([0x1BC9; 0x0030], [0x1BC9; 0x0038]); ([0x1D40; 0x0030], [0x1D45; 0x0033]);
   ([0x1D45; 0x0036], [0x1D49; 0x0042]); ([0x1D49; 0x0045], [0x1D49; 0x0045]); ([0x1D4A; 0x0032], [0x1D4A; 0x0035]);
   ([0x1D4A; 0x0039], [0x1D4A; 0x0042]); ([0x1D4A; 0x0045], [0x1D4B; 0x0038]); ([0x1D4B; 0x0042], [0x1D4C; 0x0032]);
   ([0x1D4C; 0x0035], [0x1D50; 0x0034]); ([0x1D50; 0x0037], [0x1D50; 0x0039]); ([0x1D50; 0x0044], [0x1D51; 0x0033]);
   ([0x1D51; 0x0036], [0x1D51; 0x0042]); ([0x1D51; 0x0045], [0x1D53; 0x0038]); ([0x1D53; 0x0042], [0x1D53; 0x0044]);
   ([0x1D54; 0x0030], [0x1D54; 0x0033]); ([0x1D54; 0x0036], [0x1D54; 0x0046]); ([0x1D55; 0x0032], [0x1D6A; 0x0034]);
   ([0x1D6A; 0x0038], [0x1D6B; 0x0046]); ([0x1D6C; 0x0032], [0x1D6D; 0x0039]); ([0x1D6D; 0x0043], [0x1D6F; 0x0039]);
   ([0x1D6F; 0x0043], [0x1D71; 0x0033]); ([0x1D71; 0x0036], [0x1D73; 0x0033]); ([0x1D73; 0x0036], [0x1D74; 0x0044]);
   ([0x1D75; 0x0030], [0x1D76; 0x0044]); ([0x1D77; 0x0030], [0x1D78; 0x0037]); ([0x1D78; 0x0041], [0x1D7A; 0x0037]);
   ([0x1D7A; 0x0041], [0x1D7C; 0x0031]); ([0x1D7C; 0x0034], [0x1D7C; 0x0041]); ([0x1E80; 0x0030], [0x1E8C; 0x0033]);
   ([0x1E90; 0x0030], [0x1E94; 0x0032]); ([0x1EE0; 0x0030], [0x1EE0; 0x0032]); ([0x1EE0; 0x0035], [0x1EE1; 0x0045]);
   ([0x1EE2; 0x0031], [0x1EE2; 0x0031]); ([0x1EE2; 0x0034], [0x1EE2; 0x0034]); ([0x1EE2; 0x0039], [0x1EE3; 0x0031]);
   ([0x1EE3; 0x0034], [0x1EE3; 0x0036]); ([0x1EE3; 0x0039], [0x1EE3; 0x0039]); ([0x1EE4; 0x0032], [0x1EE4; 0x0032]);
   ([0x1EE4; 0x0039], [0x1EE4; 0x0039]); ([0x1EE4; 0x0044], [0x1EE4; 0x0045]); ([0x1EE5; 0x0031], [0x1EE5; 0x0031]);
   ([0x1EE5; 0x0034], [0x1EE5; 0x0034]); ([0x1EE5; 0x0039], [0x1EE5; 0x0039]); ([0x1EE5; 0x0044], [0x1EE5; 0x0044]);
   ([0x1EE6; 0x0031], [0x1EE6; 0x0031]); ([0x1EE6; 0x0034], [0x1EE6; 0x0039]); ([0x1EE6; 0x0043], [0x1EE7; 0x0031]);
   ([0x1EE7; 0x0034], [0x1EE7; 0x0036]); ([0x1EE7; 0x0039], [0x1EE7; 0x0042]); ([0x1EE7; 0x0045], [0x1EE8; 0x0038]);
   ([0x1EE8; 0x0042], [0x1EE9; 0x0041]); ([0x1EEA; 0x0031], [0x1EEA; 0x0032]); ([0x1EEA; 0x0035], [0x1EEA; 0x0038]);
   ([0x1EEA; 0x0042], [0x1EEB; 0x0041]); ([0x2000; 0x0030], [0x2000; 0x0030]); ([0x2A70; 0x0030], [0x2A70; 0x0030]);
   ([0x2B74; 0x0030], [0x2B74; 0x0030]); ([0x2B82; 0x0030], [0x2B82; 0x0030]); ([0x2CEB; 0x0030], [0x2CEB; 0x0030]);
   ([0x2F80; 0x0030], [0x2FA1; 0x0044])]%N.

Definition isLetter (character : option jsstring) : bool :=
  (string_le (Some [0x0041%N]) character && string_le character (Some [0x0059%N]))
  || isLetter_ranges character isLetter_table.

Definition isDigit (character : option jsstring) : bool :=
  string_le (Some (str "0")) character && string_le character (Some (str "9")).

Definition isSpaceOrTab (value : option jsstring) : bool :=
  string_strictEquals value (Some (str " ")) || string_strictEquals value (Some [9%N]).

(** ** enum LexType, class Lex *)
Inductive LexType : Type :=
| LexType_LeftCurlyBracket
| LexType_RightCurlyBracket
| LexType_LeftSquareBracket
| LexType_RightSquareBracket
| LexType_LeftAngleBracket
| LexType_RightAngleBracket
| LexType_LeftParenthesis
| LexType_RightParenthesis
| LexType_Letters
| LexType_SingleQuote
| LexType_DoubleQuote
| LexType_Digits
| LexType_Comma
| LexType_Colon
| LexType_Semicolon
| LexType_ExclamationPoint
| LexType_Backslash
| LexType_ForwardSlash
| LexType_QuestionMark
| LexType_Dash
| LexType_Plus
| LexType_EqualsSign
| LexType_Period
| LexType_Underscore
| LexType_Ampersand
| LexType_VerticalBar
| LexType_Space
| LexType_Tab
| LexType_CarriageReturn
| LexType_NewLine
| LexType_CarriageReturnNewLine
| LexType_Asterisk
| LexType_Percent
| LexType_Hash
| LexType_Unrecognized.

(** [_text] has type [string] and [_startIndex] type [number]: each of them
    can hold [undefined] (not a number, for the index). *)
Record Lex : Type := {
  _text : option jsstring;
  _startIndex : option Z;
  _type : LexType
}.

Definition Lex_startIndex (this : Lex) : option Z := _startIndex this.

Definition Lex_toString (this : Lex) : option jsstring := _text this.

(** [this._text.length]; reading [length] of [undefined] fails, and no [Lex]
    of the lexer has an undefined text. *)
Definition Lex_getLength (this : Lex) : Z :=
  match _text this with
  | Some text => Z.of_nat (List.length text)
  | None => 0
  end.

Definition Lex_afterEndIndex (this : Lex) : option Z :=
  number_plus (_startIndex this) (Some (Lex_getLength this)).

Definition Lex_getType (this : Lex) : LexType := _type this.

Definition Lex_isWhitespace (this : Lex) : bool :=
  match _type this with
  | LexType_Space | LexType_Tab | LexType_CarriageReturn => true
  | _ => false
  end.

Definition Lex_isNewLine (this : Lex) : bool :=
  match _type this with
  | LexType_CarriageReturnNewLine | LexType_NewLine => true
  | _ => false
  end.

Definition LeftCurlyBracket (startIndex : option Z) : Lex :=
  {| _text := Some (str "{"); _startIndex := startIndex; _type := LexType_LeftCurlyBracket |}.

Definition RightCurlyBracket (startIndex : option Z) : Lex :=
  {| _text := Some (str "}"); _startIndex := startIndex; _type := LexType_RightCurlyBracket |}.

Definition LeftSquareBracket (startIndex : option Z) : Lex :=
  {| _text := Some (str "["); _startIndex := startIndex; _type := LexType_LeftSquareBracket |}.

Definition RightSquareBracket (startIndex : option Z) : Lex :=
  {| _text := Some (str "]"); _startIndex := startIndex; _type := LexType_RightSquareBracket |}.

Definition LeftAngleBracket (startIndex : option Z) : Lex :=
  {| _text := Some (str "<"); _startIndex := startIndex; _type := LexType_LeftAngleBracket |}.

Definition RightAngleBracket (startIndex : option Z) : Lex :=
  {| _text := Some (str ">"); _startIndex := startIndex; _type := LexType_RightAngleBracket |}.

Definition LeftParenthesis (startIndex : option Z) : Lex :=
  {| _text := Some (str "("); _startIndex := startIndex; _type := LexType_LeftParenthesis |}.

Definition RightParenthesis (startIndex : option Z) : Lex :=
  {| _text := Some (str ")"); _startIndex := startIndex; _type := LexType_RightParenthesis |}.

Definition SingleQuote (startIndex : option Z) : Lex :=
  {| _text := Some (str "'"); _startIndex := startIndex; _type := LexType_SingleQuote |}.

Definition DoubleQuote (startIndex : option Z) : Lex :=
  {| _text := Some ([34%N]); _startIndex := startIndex; _type := LexType_DoubleQuote |}.

Definition Comma (startIndex : option Z) : Lex :=
  {| _text := Some (str ","); _startIndex := startIndex; _type := LexType_Comma |}.

Definition Colon (startIndex : option Z) : Lex :=
  {| _text := Some (str ":"); _startIndex := startIndex; _type := LexType_Colon |}.

Definition Semicolon (startIndex : option Z) : Lex :=
  {| _text := Some (str ";"); _startIndex := startIndex; _type := LexType_Semicolon |}.

Definition ExclamationPoint (startIndex : option Z) : Lex :=
  {| _text := Some (str "!"); _startIndex := startIndex; _type := LexType_ExclamationPoint |}.

Definition Backslash (startIndex : option Z) : Lex :=
  {| _text := Some ([92%N]); _startIndex := startIndex; _type := LexType_Backslash |}.

Definition ForwardSlash (startIndex : option Z) : Lex :=
  {| _text := Some (str "/"); _startIndex := startIndex; _type := LexType_ForwardSlash |}.

Definition QuestionMark (startIndex : option Z) : Lex :=
  {| _text := Some (str "?"); _startIndex := startIndex; _type := LexType_QuestionMark |}.

Definition Dash (startIndex : option Z) : Lex :=
  {| _text := Some (str "-"); _startIndex := startIndex; _type := LexType_Dash |}.

Definition Plus (startIndex : option Z) : Lex :=
  {| _text := Some (str "+"); _startIndex := startIndex; _type := LexType_Plus |}.

Definition EqualsSign (startIndex : option Z) : Lex :=
  {| _text := Some (str "="); _startIndex := startIndex; _type := LexType_EqualsSign |}.

Definition Period (startIndex : option Z) : Lex :=
  {| _text := Some (str "."); _startIndex := startIndex; _type := LexType_Period |}.

Definition Underscore (startIndex : option Z) : Lex :=
  {| _text := Some (str "_"); _startIndex := startIndex; _type := LexType_Underscore |}.

Definition Ampersand (startIndex : option Z) : Lex :=
  {| _text := Some (str "&"); _startIndex := startIndex; _type := LexType_Ampersand |}.

Definition VerticalBar (startIndex : option Z) : Lex :=
  {| _text := Some (str "|"); _startIndex := startIndex; _type := LexType_VerticalBar |}.

Definition Space (startIndex : option Z) : Lex :=
  {| _text := Some (str " "); _startIndex := startIndex; _type := LexType_Space |}.

Definition Tab (startIndex : option Z) : Lex :=
  {| _text := Some ([9%N]); _startIndex := startIndex; _type := LexType_Tab |}.

Definition CarriageReturn (startIndex : option Z) : Lex :=
  {| _text := Some ([13%N]); _startIndex := startIndex; _type := LexType_CarriageReturn |}.

Definition NewLine (startIndex : option Z) : Lex :=
  {| _text := Some ([10%N]); _startIndex := startIndex; _type := LexType_NewLine |}.

Definition CarriageReturnNewLine (startIndex : option Z) : Lex :=
  {| _text := Some [13%N; 10%N]; _startIndex := startIndex; _type := LexType_NewLine |}.

Definition Asterisk (startIndex : option Z) : Lex :=
  {| _text := Some (str "*"); _startIndex := startIndex; _type := LexType_Asterisk |}.

Definition Percent (startIndex : option Z) : Lex :=
  {| _text := Some (str "%"); _startIndex := startIndex; _type := LexType_Percent |}.

Definition Hash (startIndex : option Z) : Lex :=
  {| _text := Some (str "#"); _startIndex := startIndex; _type := LexType_Hash |}.

Definition Letters (text : option jsstring) (startIndex : option Z) : Lex :=
  {| _text := text; _startIndex := startIndex; _type := LexType_Letters |}.

Definition Digits (text : option jsstring) (startIndex : option Z) : Lex :=
  {| _text := text; _startIndex := startIndex; _type := LexType_Digits |}.

Definition Unrecognized (character : option jsstring) (startIndex : option Z) : Lex :=
  {| _text := character; _startIndex := startIndex; _type := LexType_Unrecognized |}.

(** ** readWhile, readLetters, readDigits *)
Section ReadWhile.

Context {I : Type} {iterator_ : Iterator (T := option jsstring) I}.

(** [while (iterator.next() && condition(iterator.getCurrent())) { result += iterator.getCurrent(); }] *)
Fixpoint readWhile_loop (fuel : nat) (condition : option jsstring -> bool)
  (result : option jsstring) (iterator : I) : option jsstring * I :=
match fuel with
| O => (result, iterator)
| S fuel =>
    let (more, iterator) := next iterator in
    if more then
      let (value, iterator) := getCurrent iterator in
      if condition value then
        let (value, iterator) := getCurrent iterator in
        readWhile_loop fuel condition (string_plus result value) iterator
      else (result, iterator)
    else (result, iterator)
end.

Definition readWhile (iterator : I) (condition : option jsstring -> bool) : option jsstring * I :=
let (result, iterator) := getCurrent iterator in
readWhile_loop (S (remaining iterator)) condition result iterator.

Definition readLetters (iterator : I) : option jsstring * I := readWhile iterator isLetter.

Definition readSpacesAndTabs (iterator : I) : option jsstring * I := readWhile iterator isSpaceOrTab.

Definition readDigits (iterator : I) : option jsstring * I := readWhile iterator isDigit.

End ReadWhile.

(** ** class Lexer extends IteratorBase<Lex> *)
Record Lexer : Type := {
  _iterator : StringIterator (T := option jsstring);
  _characterStartIndexOffset : Z;
  _currentLex : option Lex
}.

(** The iterator of the lexer is a [StringIterator] over the characters of the text. *)
#[local] Instance Lexer_characterIterator : Iterator (T := option jsstring) StringIterator :=
  StringIterator_Iterator None.

(** [constructor(text: string, startIndex: number = 0)] *)
Definition new_Lexer (text : jsstring) (startIndex : option Z) : Lexer :=
  {| _iterator := new_StringIterator (characters text) None None;
     _characterStartIndexOffset := match startIndex with Some i => i | None => 0 end;
     _currentLex := None |}.

Definition Lexer_hasStarted (this : Lexer) : bool :=
  StringIterator_hasStarted (_iterator this).

Definition Lexer_hasCurrent (this : Lexer) : bool * Lexer :=
  (isDefined (_currentLex this), this).

Definition Lexer_getCurrent (this : Lexer) : option Lex * Lexer :=
  (_currentLex this, this).

Definition Lexer_getCurrentCharacterStartIndex (this : Lexer) : option Z :=
  number_plus (StringIterator_currentIndex (_iterator this))
    (Some (_characterStartIndexOffset this)).

Definition Lexer_hasCurrentCharacter (this : Lexer) : bool :=
  fst (StringIterator_hasCurrent (_iterator this)).

Definition Lexer_getCurrentCharacter (this : Lexer) : option jsstring :=
  fst (StringIterator_getCurrent None (_iterator this)).

Definition Lexer_nextCharacter (this : Lexer) : bool * Lexer :=
  let (result, iterator) := StringIterator_next (_iterator this) in
  (result, {| _iterator := iterator;
              _characterStartIndexOffset := _characterStartIndexOffset this;
              _currentLex := _currentLex this |}).

(** [this._currentLex = lex;] *)
Definition Lexer_setCurrentLex (this : Lexer) (lex : option Lex) : Lexer :=
  {| _iterator := _iterator this;
     _characterStartIndexOffset := _characterStartIndexOffset this;
     _currentLex := lex |}.

(** [this._currentLex = lex; this.nextCharacter(); break;] *)
Definition Lexer_single (this : Lexer) (lex : Lex) : Lexer :=
  snd (Lexer_nextCharacter (Lexer_setCurrentLex this (Some lex))).

(** [this._currentLex = Letters(readLetters(this._iterator), start);] and the like. *)
Definition Lexer_run (this : Lexer) (read : StringIterator -> option jsstring * StringIterator)
    (make : option jsstring -> Lex) : Lexer :=
  let (text, iterator) := read (_iterator this) in
  {| _iterator := iterator;
     _characterStartIndexOffset := _characterStartIndexOffset this;
     _currentLex := Some (make text) |}.

(** A [case] label of the [switch]. *)
Definition isCase (character : option jsstring) (label : jsstring) : bool :=
  string_strictEquals character (Some label).

(** The [switch (this.getCurrentCharacter())] of [next]. *)
Definition Lexer_switch (this : Lexer) (currentLexStartIndex : option Z) : Lexer :=
  let character := Lexer_getCurrentCharacter this in
  if isCase character (str "{") then Lexer_single this (LeftCurlyBracket currentLexStartIndex)
  else if isCase character (str "}") then Lexer_single this (RightCurlyBracket currentLexStartIndex)
  else if isCase character (str "[") then Lexer_single this (LeftSquareBracket currentLexStartIndex)
  else if isCase character (str "]") then Lexer_single this (RightSquareBracket currentLexStartIndex)
  else if isCase character (str "(") then Lexer_single this (LeftParenthesis currentLexStartIndex)
  else if isCase character (str ")") then Lexer_single this (RightParenthesis currentLexStartIndex)
  else if isCase character (str "<") then Lexer_single this (LeftAngleBracket currentLexStartIndex)
  else if isCase character (str ">") then Lexer_single this (RightAngleBracket currentLexStartIndex)
  else if isCase character ([34%N]) then Lexer_single this (DoubleQuote currentLexStartIndex)
  else if isCase character (str "'") then Lexer_single this (SingleQuote currentLexStartIndex)
  else if isCase character (str "-") then Lexer_single this (Dash currentLexStartIndex)
  else if isCase character (str "+") then Lexer_single this (Plus currentLexStartIndex)
  else if isCase character (str ",") then Lexer_single this (Comma currentLexStartIndex)
  else if isCase character (str ":") then Lexer_single this (Colon currentLexStartIndex)
  else if isCase character (str ";") then Lexer_single this (Semicolon currentLexStartIndex)
  else if isCase character (str "!") then Lexer_single this (ExclamationPoint currentLexStartIndex)
  else if isCase character ([92%N]) then Lexer_single this (Backslash currentLexStartIndex)
  else if isCase character (str "/") then Lexer_single this (ForwardSlash currentLexStartIndex)
  else if isCase character (str "?") then Lexer_single this (QuestionMark currentLexStartIndex)
  else if isCase character (str "=") then Lexer_single this (EqualsSign currentLexStartIndex)
  else if isCase character (str ".") then Lexer_single this (Period currentLexStartIndex)
  else if isCase character (str "_") then Lexer_single this (Underscore currentLexStartIndex)
  else if isCase character (str "&") then Lexer_single this (Ampersand currentLexStartIndex)
  else if isCase character (str " ") then Lexer_single this (Space currentLexStartIndex)
  else if isCase character ([9%N]) then Lexer_single this (Tab currentLexStartIndex)
  else if isCase character [13%N] then
    let (more, this) := Lexer_nextCharacter this in
    if negb more || negb (string_strictEquals (Lexer_getCurrentCharacter this) (Some [10%N]))
    then Lexer_setCurrentLex this (Some (CarriageReturn currentLexStartIndex))
    else Lexer_single this (CarriageReturnNewLine currentLexStartIndex)
  else if isCase character ([10%N]) then Lexer_single this (NewLine currentLexStartIndex)
  else if isCase character (str "*") then Lexer_single this (Asterisk currentLexStartIndex)
  else if isCase character (str "%") then Lexer_single this (Percent currentLexStartIndex)
  else if isCase character (str "|") then Lexer_single this (VerticalBar currentLexStartIndex)
  else if isCase character (str "#") then Lexer_single this (Hash currentLexStartIndex)
  else if isLetter (Lexer_getCurrentCharacter this) then
    Lexer_run this readLetters (fun text => Letters text currentLexStartIndex)
  else if isDigit (Lexer_getCurrentCharacter this) then
    Lexer_run this readDigits (fun text => Digits text currentLexStartIndex)
  else
    Lexer_single this (Unrecognized (Lexer_getCurrentCharacter this) currentLexStartIndex).

Definition Lexer_next (this : Lexer) : bool * Lexer :=
  let this := if negb (Lexer_hasStarted this) then snd (Lexer_nextCharacter this) else this in
  let this :=
    if Lexer_hasCurrentCharacter this
    then Lexer_switch this (Lexer_getCurrentCharacterStartIndex this)
    else Lexer_setCurrentLex this None in
  Lexer_hasCurrent this.

Definition Lexer_Iterator : Iterator (T := option Lex) Lexer :=
  IteratorBase Lexer_hasStarted Lexer_hasCurrent Lexer_next Lexer_getCurrent
    (fun this => remaining (_iterator this)).

(** All the lexes of a text: [new Lexer(text, startIndex).toArray()]. *)
Definition Lexer_toArray (text : jsstring) (startIndex : option Z) : list (option Lex) :=
  fst (@toArray _ _ Lexer_Iterator (new_Lexer text startIndex)).

(** * The other methods of iterators and iterables *)

Section Queries.

Context {T : Type}.
Variable undefined : T.

(** [===] on values. *)
Variable strictEquals : T -> T -> bool.

(** ** IteratorBase<T> and MapIterator *)

(** [takeCurrent()], the same body in both classes. *)
Definition takeCurrent {I : Type} {iterator : Iterator (T := T) I} (this : I) : T * I :=
  let (result, this) := getCurrent this in
  (result, snd (next this)).

(** [any(condition)], the same body in both classes.  The callback given to
    [foreach] captures [result]. *)
Definition any {I : Type} {iterator : Iterator (T := T) I} (condition : option (T -> bool))
    (this : I) : bool * I :=
  match condition with
  | None =>
      let (current, this) := hasCurrent this in
      if current then (true, this) else next this
  | Some c =>
      foreach bool (Some (fun value result => if c value then (true, true) else (result, false)))
        this false
  end.

(** [first()] of [IteratorBase] without a condition:
    [if (!this.hasStarted()) { this.next(); } result = this.getCurrent();] *)
Definition IteratorBase_first_unconditional {I : Type} {iterator : Iterator (T := T) I}
    (this : I) : T * I :=
  let this := if hasStarted this then this else snd (next this) in
  getCurrent this.

(** [this.where(condition).first()]: the [WhereIterator] wraps [this], which
    is left where the search stopped. *)
Definition where_first {I : Type} {iterator : Iterator (T := T) I}
    (condition : option (T -> bool)) (this : I) : T * I :=
  let (result, decorator) :=
    IteratorBase_first_unconditional (iterator := WhereIterator_Iterator)
      (new_WhereIterator this condition) in
  (result, where_innerIterator decorator).

(** [IteratorBase.first(condition)] *)
Definition IteratorBase_first {I : Type} {iterator : Iterator (T := T) I}
    (condition : option (T -> bool)) (this : I) : T * I :=
  match condition with
  | None => IteratorBase_first_unconditional this
  | Some _ => where_first condition this
  end.

(** [MapIterator.first(condition)]: [return this.where(condition).first();] *)
Definition MapIterator_first {I : Type} {inner : Iterator (T := T) I}
    (condition : option (T -> bool)) (this : MapIterator I) : T * MapIterator I :=
  where_first (iterator := MapIterator_Iterator undefined) condition this.

(** ** Iterator objects *)

Definition isMapIterator (c : IteratorClass) : bool :=
  match c with
  | MapIteratorClass _ => true
  | _ => false
  end.

Definition Iterator_takeCurrent (this : IteratorObject (T := T)) : T * IteratorObject :=
  let (result, fields) := takeCurrent (iterator := methods undefined (projT1 this)) (projT2 this) in
  (result, object (projT1 this) fields).

Definition Iterator_any (this : IteratorObject (T := T)) (condition : option (T -> bool))
    : bool * IteratorObject :=
  let (result, fields) :=
    any (iterator := methods undefined (projT1 this)) condition (projT2 this) in
  (result, object (projT1 this) fields).

(** [first(condition)]: a [MapIterator] has its own; for that class
    [methods] is [MapIterator_Iterator], so that [where_first] below is
    [MapIterator_first]. *)
Definition Iterator_first (this : IteratorObject (T := T)) (condition : option (T -> bool))
    : T * IteratorObject :=
  let (result, fields) :=
    if isMapIterator (projT1 this)
    then where_first (iterator := methods undefined (projT1 this)) condition (projT2 this)
    else IteratorBase_first (iterator := methods undefined (projT1 this)) condition (projT2 this) in
  (result, object (projT1 this) fields).

(** ** IterableBase<T> and the classes that override its methods *)

(** [any(condition)]: [ArrayList] answers from [_count] when there is no
    condition. *)
Definition Iterable_any (this : Iterable (T := T)) (condition : option (T -> bool)) : bool :=
  match this, condition with
  | ArrayList data, None => ArrayList_getCount data >? 0
  | _, _ => fst (Iterator_any (Iterable_iterate undefined this) condition)
  end.

(** [contains(value, comparison)] *)
Definition Iterable_contains (this : Iterable (T := T)) (value : T)
    (comparison : option (T -> T -> bool)) : bool :=
  let comparison :=
    match comparison with
    | Some c => c
    | None => fun iterableValue value => strictEquals iterableValue value
    end in
  Iterable_any this (Some (fun iterableValue => comparison iterableValue value)).

(** [first(condition)] and [last(condition)] *)
Definition Iterable_first (this : Iterable (T := T)) (condition : option (T -> bool)) : T :=
  fst (Iterator_first (Iterable_iterate undefined this) condition).

Definition Iterable_last (this : Iterable (T := T)) (condition : option (T -> bool)) : T :=
  fst (Iterator_first (Iterable_iterateReverse undefined this) condition).

(** [while (iterator.next() && 0 < index) { --index; }]: a round that stays
    in the loop lowers [index], so [index] rounds and one more are enough. *)
Fixpoint IterableBase_get_loop (fuel : nat) (iterator : IteratorObject (T := T)) (index : Z)
    : IteratorObject :=
  match fuel with
  | O => iterator
  | S fuel =>
      let (more, iterator) := Iterator_next undefined iterator in
      if more && (0 <? index) then IterableBase_get_loop fuel iterator (index - 1)
      else iterator
  end.

(** The body shared by [IterableBase.get] and [IterableBase.getLast], on the
    iterator each of them creates.  An index that is [undefined] or not a
    number fails the test [0 <= index]. *)
Definition IterableBase_get_from (iterator : IteratorObject (T := T)) (index : option Z) : T :=
  match index with
  | Some i =>
      if 0 <=? i
      then fst (Iterator_getCurrent undefined (IterableBase_get_loop (S (Z.to_nat i)) iterator i))
      else undefined
  | None => undefined
  end.

(** [get(index)], with the overrides of [ArrayList], [SkipIterable],
    [TakeIterable] and [MapIterable]. *)
Fixpoint Iterable_get (this : Iterable (T := T)) (index : option Z) : T :=
  match this with
  | ArrayList data => ArrayList_get undefined data index
  | SkipIterable innerIterable toSkip =>
      Iterable_get innerIterable (number_plus index (Some toSkip))
  | TakeIterable innerIterable toTake =>
      if lessOrEqual (Some 0) index && lessThan index (Some (Iterable_getCount undefined this))
      then Iterable_get innerIterable index
      else undefined
  | MapIterable innerIterable mapFunction =>
      if isDefined index && lessOrEqual (Some 0) index
         && lessThan index (Some (Iterable_getCount undefined this))
      then mapFunction (Iterable_get innerIterable index)
      else undefined
  | _ => IterableBase_get_from (Iterable_iterate undefined this) index
  end.

(** [getLast(index)], with the override of [MapIterable]. *)
Fixpoint Iterable_getLast (this : Iterable (T := T)) (index : option Z) : T :=
  match this with
  | MapIterable innerIterable mapFunction =>
      if isDefined index && lessOrEqual (Some 0) index
         && lessThan index (Some (Iterable_getCount undefined this))
      then mapFunction (Iterable_getLast innerIterable index)
      else undefined
  | _ => IterableBase_get_from (Iterable_iterateReverse undefined this) index
  end.

End Queries.

(** * class ArrayList<T>: the fields and the methods that change them

    Iterators and iterables read a list through [getCount()] and [get(index)]
    only, which is why a list is the sequence of its values for them
    ([ArrayList data] above).  The list itself is an array [_data] and a
    number [_count]; the array may be longer than [_count]. *)

Section ArrayListObject.

Context {T : Type}.
Variable undefined : T.
Variable strictEquals : T -> T -> bool.

Record ArrayListObject : Type := {
  _data : list T;
  _count : Z
}.

(** [array[index] = value] on an array: a slot of the array is replaced; at
    or past the end the array grows up to [index], the slots in between read
    as [undefined]; a negative [index] names a property, not a slot. *)
Definition array_assign (array : list T) (index : Z) (value : T) : list T :=
  if index <? 0 then array
  else if index <? Z.of_nat (length array)
  then firstn (Z.to_nat index) array ++ value :: skipn (S (Z.to_nat index)) array
  else array ++ repeat undefined (Z.to_nat index - length array) ++ [value].

(** [new ArrayList<T>()] before [addAll] *)
Definition ArrayListObject_empty : ArrayListObject := {| _data := []; _count := 0 |}.

Definition ArrayListObject_getCount (this : ArrayListObject) : Z := _count this.

Definition ArrayListObject_inBounds (this : ArrayListObject) (index : option Z) : bool :=
  isDefined index && lessOrEqual (Some 0) index && lessThan index (Some (_count this)).

Definition ArrayListObject_get (this : ArrayListObject) (index : option Z) : T :=
  match index with
  | Some i =>
      if ArrayListObject_inBounds this index then elementAt undefined (_data this) i
      else undefined
  | None => undefined
  end.

Definition ArrayListObject_set (this : ArrayListObject) (index : option Z) (value : T)
    : ArrayListObject :=
  match index with
  | Some i =>
      if ArrayListObject_inBounds this index
      then {| _data := array_assign (_data this) i value; _count := _count this |}
      else this
  | None => this
  end.

(** [any()] without a condition: [this._count > 0] *)
Definition ArrayListObject_any (this : ArrayListObject) : bool := _count this >? 0.

Definition ArrayListObject_setLast (this : ArrayListObject) (value : T) : ArrayListObject :=
  if ArrayListObject_any this
  then {| _data := array_assign (_data this) (_count this - 1) value; _count := _count this |}
  else this.

Definition ArrayListObject_add (this : ArrayListObject) (value : T) : ArrayListObject :=
  {| _data :=
       if _count this =? Z.of_nat (length (_data this))
       then _data this ++ [value]
       else array_assign (_data this) (_count this) value;
     _count := _count this + 1 |}.

(** [for (let i = 0; i < this._count; ++i) { if (...) { result = i; break; } }] *)
Fixpoint ArrayListObject_indexOf_loop (rounds : nat) (this : ArrayListObject) (value : T)
    (comparer : option (T -> T -> bool)) (i : Z) : option Z :=
  match rounds with
  | O => None
  | S rounds =>
      if match comparer with
         | Some c => c (elementAt undefined (_data this) i) value
         | None => strictEquals (elementAt undefined (_data this) i) value
         end
      then Some i
      else ArrayListObject_indexOf_loop rounds this value comparer (i + 1)
  end.

Definition ArrayListObject_indexOf (this : ArrayListObject) (value : T)
    (comparer : option (T -> T -> bool)) : option Z :=
  ArrayListObject_indexOf_loop (Z.to_nat (_count this)) this value comparer 0.

(** [for (let i = index; i < this._count - 1; ++i) { this._data[i] = this._data[i + 1]; }] *)
Fixpoint ArrayListObject_removeAt_loop (rounds : nat) (data : list T) (i : Z) : list T :=
  match rounds with
  | O => data
  | S rounds =>
      ArrayListObject_removeAt_loop rounds
        (array_assign data i (elementAt undefined data (i + 1))) (i + 1)
  end.

Definition ArrayListObject_removeAt (this : ArrayListObject) (index : option Z)
    : T * ArrayListObject :=
  match index with
  | Some i =>
      if ArrayListObject_inBounds this index then
        let result := elementAt undefined (_data this) i in
        let data := ArrayListObject_removeAt_loop (Z.to_nat (_count this - 1 - i)) (_data this) i in
        (result, {| _data := array_assign data (_count this - 1) undefined;
                    _count := _count this - 1 |})
      else (undefined, this)
  | None => (undefined, this)
  end.

Definition ArrayListObject_remove (this : ArrayListObject) (value : T)
    (comparer : option (T -> T -> bool)) : T * ArrayListObject :=
  let removeIndex := ArrayListObject_indexOf this value comparer in
  if isDefined removeIndex then ArrayListObject_removeAt this removeIndex
  else (undefined, this).

Definition ArrayListObject_removeFirst (this : ArrayListObject) : T * ArrayListObject :=
  ArrayListObject_removeAt this (Some 0).

Definition ArrayListObject_removeLast (this : ArrayListObject) : T * ArrayListObject :=
  ArrayListObject_removeAt this (Some (ArrayListObject_getCount this - 1)).

(** The list as its iterators and the methods of [IterableBase] see it: the
    values at the indices below [_count]. *)
Definition ArrayListObject_iterable (this : ArrayListObject) : Iterable (T := T) :=
  ArrayList (firstn (Z.to_nat (_count this)) (_data this)).

(** [addAll(values)]: one [add] for each value of the array, or for each
    value the iterable passes to [foreach]. *)
Definition ArrayListObject_addAll (this : ArrayListObject) (values : option (list T + Iterable))
    : ArrayListObject :=
  match values with
  | None => this
  | Some (inl array) => fold_left ArrayListObject_add array this
  | Some (inr iterable) =>
      Iterable_foreach undefined iterable
        (Some (fun value this => (ArrayListObject_add this value, false))) this
  end.

(** [new ArrayList<T>(values)] *)
Definition new_ArrayListObject (values : option (list T + Iterable)) : ArrayListObject :=
  ArrayListObject_addAll ArrayListObject_empty values.

(** [last()], which [IterableBase] gives to the list. *)
Definition ArrayListObject_last (this : ArrayListObject) : T :=
  Iterable_last undefined (ArrayListObject_iterable this) None.

End ArrayListObject.

(** * class Stack<T>, class Queue<T> *)

Section StackAndQueue.

Context {T : Type}.
Variable undefined : T.
Variable strictEquals : T -> T -> bool.

Record Stack : Type := { Stack_values : ArrayListObject (T := T) }.

(** [new Stack<T>()] *)
Definition new_Stack : Stack := {| Stack_values := new_ArrayListObject undefined None |}.

Definition Stack_any (this : Stack) : bool := ArrayListObject_any (Stack_values this).

Definition Stack_getCount (this : Stack) : Z := ArrayListObject_getCount (Stack_values this).

(** [contains(value, comparison)]: [IterableBase.contains] on the list. *)
Definition Stack_contains (this : Stack) (value : T) (comparison : option (T -> T -> bool))
    : bool :=
  Iterable_contains undefined strictEquals (ArrayListObject_iterable (Stack_values this))
    value comparison.

Definition Stack_push (this : Stack) (value : T) : Stack :=
  {| Stack_values := ArrayListObject_add undefined (Stack_values this) value |}.

Definition Stack_pop (this : Stack) : T * Stack :=
  let (result, values) := ArrayListObject_removeLast undefined (Stack_values this) in
  (result, {| Stack_values := values |}).

Definition Stack_peek (this : Stack) : T := ArrayListObject_last undefined (Stack_values this).

Record Queue : Type := { Queue_values : ArrayListObject (T := T) }.

(** [new Queue<T>()] *)
Definition new_Queue : Queue := {| Queue_values := new_ArrayListObject undefined None |}.

Definition Queue_any (this : Queue) : bool := ArrayListObject_any (Queue_values this).

Definition Queue_getCount (this : Queue) : Z := ArrayListObject_getCount (Queue_values this).

Definition Queue_contains (this : Queue) (value : T) (comparison : option (T -> T -> bool))
    : bool :=
  Iterable_contains undefined strictEquals (ArrayListObject_iterable (Queue_values this))
    value comparison.

Definition Queue_enqueue (this : Queue) (value : T) : Queue :=
  {| Queue_values := ArrayListObject_add undefined (Queue_values this) value |}.

Definition Queue_dequeue (this : Queue) : T * Queue :=
  let (result, values) := ArrayListObject_removeFirst undefined (Queue_values this) in
  (result, {| Queue_values := values |}).

End StackAndQueue.

(** * class Map<KeyType, ValueType>

    The pairs are kept in an [ArrayList]; a value of that list is a pair or
    [undefined].  The callbacks that [Map] gives to the list read [pair.key],
    which raises a [TypeError] on [undefined]: the answer of a callback there
    is the parameter [raised], and no result about a map depends on it. *)

Section Map.

Context {KeyType ValueType : Type}.

(** [undefined] as a [ValueType]. *)
Variable undefinedValue : ValueType.

(** [===] on keys, and on pairs. *)
Variable keyEquals : KeyType -> KeyType -> bool.
Variable pairEquals : option (KeyType * ValueType) -> option (KeyType * ValueType) -> bool.

Variable raised : bool.

Record Map : Type := { _pairs : ArrayListObject (T := option (KeyType * ValueType)) }.

(** [(pair) => pair.key === key] *)
Definition Map_hasKey (key : KeyType) (pair : option (KeyType * ValueType)) : bool :=
  match pair with
  | Some (pairKey, _) => keyEquals pairKey key
  | None => raised
  end.

(** [(lhs, rhs) => lhs.key === rhs.key] *)
Definition Map_sameKey (lhs rhs : option (KeyType * ValueType)) : bool :=
  match lhs, rhs with
  | Some (lhsKey, _), Some (rhsKey, _) => keyEquals lhsKey rhsKey
  | _, _ => raised
  end.

(** [new Map()] *)
Definition new_Map : Map := {| _pairs := new_ArrayListObject None None |}.

Definition Map_getCount (this : Map) : Z := ArrayListObject_getCount (_pairs this).

Definition Map_add (this : Map) (key : KeyType) (value : ValueType) : Map :=
  let pair := Some (key, value) in
  let pairs := snd (ArrayListObject_remove None pairEquals (_pairs this) pair (Some Map_sameKey)) in
  {| _pairs := ArrayListObject_add None pairs pair |}.

(** [contains(key)]: [this._pairs.any(...)], which with a condition is
    [IterableBase.any]. *)
Definition Map_contains (this : Map) (key : KeyType) : bool :=
  Iterable_any None (ArrayListObject_iterable (_pairs this)) (Some (Map_hasKey key)).

(** [get(key)]: [pair ? pair.value : undefined] on the result of
    [this._pairs.first(...)]. *)
Definition Map_get (this : Map) (key : KeyType) : ValueType :=
  match Iterable_first None (ArrayListObject_iterable (_pairs this)) (Some (Map_hasKey key)) with
  | Some (_, value) => value
  | None => undefinedValue
  end.

End Map.

(** * Functions on strings *)

(** A string used as a condition: [undefined] and the empty string are falsy. *)
Definition string_truthy (value : option jsstring) : bool :=
  match value with
  | Some (_ :: _) => true
  | _ => false
  end.

(** [text.replace(pattern, replacement)] where [pattern] is a string of one
    code unit and [replacement] has no dollar sign: the first occurrence of
    the pattern, and no other, is replaced. *)
Fixpoint String_replace (text : jsstring) (pattern : N) (replacement : jsstring) : jsstring :=
  match text with
  | [] => []
  | unit :: text =>
      if (unit =? pattern)%N then replacement ++ text
      else unit :: String_replace text pattern replacement
  end.

(** [result.replace(newline, ...).replace(tab, ...).replace(carriageReturn, ...)]:
    the replacements are a backslash (92) and the letter [n], [t] or [r]. *)
Definition escape_replace (result : jsstring) : jsstring :=
  String_replace
    (String_replace (String_replace result 10%N [92%N; 110%N]) 9%N [92%N; 116%N])
    13%N [92%N; 114%N].

(** [do { result = newResult; newResult = ...; } while (result !== newResult);],
    stopped after [rounds] rounds. *)
Fixpoint escape_loop (rounds : nat) (newResult : jsstring) : option jsstring :=
  match rounds with
  | O => None
  | S rounds =>
      let result := newResult in
      let newResult := escape_replace result in
      if negb (string_strictEquals (Some result) (Some newResult))
      then escape_loop rounds newResult
      else Some result
  end.

(** [escape(documentText)]; the answer is [None] when the loop needs more
    than [rounds] rounds. *)
Definition escape (rounds : nat) (documentText : option jsstring) : option (option jsstring) :=
  match documentText with
  | Some text =>
      if string_truthy documentText then option_map Some (escape_loop rounds text)
      else Some documentText
  | None => Some documentText
  end.

(** [value.substring(start)]: a negative [start] counts as 0 and one past
    the end as the length. *)
Definition String_substring (value : jsstring) (start : Z) : jsstring :=
  skipn (Z.to_nat start) value.

Definition endsWith (value suffix : option jsstring) : bool :=
  match value, suffix with
  | Some valueText, Some suffixText =>
      if string_truthy value && string_truthy suffix
         && (Z.of_nat (length valueText) >=? Z.of_nat (length suffixText))
         && string_strictEquals
              (Some (String_substring valueText
                       (Z.of_nat (length valueText) - Z.of_nat (length suffixText))))
              suffix
      then true else false
  | _, _ => false
  end.

(** [for (let i = 0; i < characterIndex; ++i) { if (value[i] === newline) { ++result; } }] *)
Fixpoint getLineIndex_loop (rounds : nat) (value : jsstring) (i result : Z) : Z :=
  match rounds with
  | O => result
  | S rounds =>
      getLineIndex_loop rounds value (i + 1)
        (if string_strictEquals (elementAt None (characters value) i) (Some [10%N])
         then result + 1
         else result)
  end.

Definition getLineIndex (value : option jsstring) (characterIndex : option Z) : option Z :=
  match value, characterIndex with
  | Some text, Some index =>
      if isDefined value && isDefined characterIndex && lessOrEqual (Some 0) characterIndex
      then Some (getLineIndex_loop (Z.to_nat index) text 0 0)
      else None
  | _, _ => None
  end.

(** [for (let i = 0; i < characterIndex; ++i) { if (value[i] === newline) { result = 0; } else { ++result; } }] *)
Fixpoint getColumnIndex_loop (rounds : nat) (value : jsstring) (i result : Z) : Z :=
  match rounds with
  | O => result
  | S rounds =>
      getColumnIndex_loop rounds value (i + 1)
        (if string_strictEquals (elementAt None (characters value) i) (Some [10%N])
         then 0
         else result + 1)
  end.

Definition getColumnIndex (value : option jsstring) (characterIndex : option Z) : option Z :=
  match value, characterIndex with
  | Some text, Some index =>
      if isDefined value && isDefined characterIndex && lessOrEqual (Some 0) characterIndex
      then Some (getColumnIndex_loop (Z.to_nat index) text 0 0)
      else None
  | _, _ => None
  end.

(** * Functions on arrays of lexes

    [getStartIndex], [getAfterEndIndex], [getContiguousLength] and
    [getCombinedText] on an array ([values instanceof Array]) of lexes, or
    on [undefined]. *)

(** [lhs - rhs] on numbers: not a number when a side is [undefined] or is
    not a number itself. *)
Definition number_minus (lhs rhs : option Z) : option Z :=
  match lhs, rhs with
  | Some a, Some b => Some (a - b)
  | _, _ => None
  end.

Definition getStartIndex (values : option (list Lex)) : option Z :=
  match values with
  | Some values =>
      if Z.of_nat (length values) >? 0 then
        match nth_error values 0 with
        | Some value => Lex_startIndex value
        | None => None
        end
      else None
  | None => None
  end.

Definition getAfterEndIndex (values : option (list Lex)) : option Z :=
  match values with
  | Some values =>
      if Z.of_nat (length values) >? 0 then
        match nth_error values (length values - 1) with
        | Some value => Lex_afterEndIndex value
        | None => None
        end
      else None
  | None => None
  end.

Definition getContiguousLength (values : option (list Lex)) : option Z :=
  match values with
  | None => Some 0
  | Some values =>
      if Z.of_nat (length values) >=? 1 then
        match nth_error values (length values - 1), nth_error values 0 with
        | Some lastValue, Some firstValue =>
            number_minus (Lex_afterEndIndex lastValue) (Lex_startIndex firstValue)
        | _, _ => None
        end
      else Some 0
  end.

Definition getCombinedText (values : option (list Lex)) : option jsstring :=
  match values with
  | Some values =>
      fold_left (fun result value => string_plus result (Lex_toString value)) values (Some [])
  | None => Some []
  end.

(** * Specifications *)

Section Specification.

Context {T : Type}.
Variable undefined : T.

(** ** What an iterator stands for

    At any moment an iterator stands for the value it points at, if any, and
    the values that the coming calls of [next] will reach, in order. *)
Definition withCurrent (current : option T) (rest : list T) : list T :=
  match current with
  | Some value => value :: rest
  | None => rest
  end.

Definition currentOr (current : option T) : T :=
  match current with
  | Some value => value
  | None => undefined
  end.

(** [foreach] over a list: the callback runs on the values in order until it breaks. *)
Fixpoint foreach_list {A : Type} (f : T -> A -> A * bool) (values : list T) (a : A) : A :=
  match values with
  | [] => a
  | value :: values =>
      let (a, broken) := f value a in
      if broken then a else foreach_list f values a
  end.

(** The four abstract methods agree with what the iterator stands for. *)
Record LawfulBase {I : Type} (hasCurrent_ next_ : I -> bool * I) (getCurrent_ : I -> T * I)
    (remaining_ : I -> nat) (Rep : I -> option T -> list T -> Prop) : Prop := {
  base_hasCurrent : forall this current rest, Rep this current rest ->
    fst (hasCurrent_ this) = isDefined current /\ Rep (snd (hasCurrent_ this)) current rest;
  base_getCurrent : forall this current rest, Rep this current rest ->
    fst (getCurrent_ this) = currentOr current /\ Rep (snd (getCurrent_ this)) current rest;
  base_next : forall this current rest, Rep this current rest ->
    match rest with
    | [] => fst (next_ this) = false /\ Rep (snd (next_ this)) None []
    | value :: rest' => fst (next_ this) = true /\ Rep (snd (next_ this)) (Some value) rest'
    end;
  base_remaining : forall this current rest, Rep this current rest ->
    (length rest <= remaining_ this)%nat
}.

(** All the methods of the interface agree with it. *)
Record Lawful {I : Type} (iterator : Iterator I) (Rep : I -> option T -> list T -> Prop) : Prop := {
  lawful_base : LawfulBase hasCurrent next getCurrent remaining Rep;
  lawful_getCount : forall this current rest, Rep this current rest ->
    fst (getCount this) = Z.of_nat (length (withCurrent current rest));
  lawful_foreach : forall (A : Type) (f : T -> A -> A * bool) this (a : A) current rest,
    Rep this current rest ->
    fst (foreach A (Some f) this a) = foreach_list f (withCurrent current rest) a
}.

(** ** What the iterators of each class stand for *)

Definition ArrayListForwardIterator_Rep (this : ArrayListIterator) (current : option T)
    (rest : list T) : Prop :=
  match currentIndex this with
  | None => current = None /\ rest = arrayList this
  | Some i =>
      0 <= i <= Z.of_nat (length (arrayList this))
      /\ current = nth_error (arrayList this) (Z.to_nat i)
      /\ rest = skipn (S (Z.to_nat i)) (arrayList this)
  end.

Definition ArrayListReverseIterator_Rep (this : ArrayListIterator) (current : option T)
    (rest : list T) : Prop :=
  match currentIndex this with
  | None => current = None /\ rest = rev (arrayList this)
  | Some i =>
      -1 <= i < Z.of_nat (length (arrayList this))
      /\ current = (if i <? 0 then None else nth_error (arrayList this) (Z.to_nat i))
      /\ rest = rev (firstn (Z.to_nat i) (arrayList this))
  end.

(** The values a [StringIterator] reads from index [from] on, up to its end index. *)
Definition StringIterator_pending (this : StringIterator) (from : Z) : list T :=
  if si_step this >? 0
  then map (fun k => elementAt undefined (si_text this) (from + Z.of_nat k))
         (seq 0 (Z.to_nat (si_endIndex this - from)))
  else map (fun k => elementAt undefined (si_text this) (from - Z.of_nat k))
         (seq 0 (Z.to_nat (from - si_endIndex this))).

Definition StringIterator_Rep (this : StringIterator) (current : option T) (rest : list T) : Prop :=
  (si_step this = 1 \/ si_step this = -1)
  /\ if si_started this then
       if StringIterator_hasMore this then
         current = Some (elementAt undefined (si_text this) (si_currentIndex this))
         /\ rest = StringIterator_pending this (si_currentIndex this + si_step this)
       else current = None /\ rest = []
     else current = None /\ rest = StringIterator_pending this (si_currentIndex this).

Section DecoratorRep.

Context {I : Type}.
Variable Rep : I -> option T -> list T -> Prop.

Definition WhereIterator_Rep (this : WhereIterator I) (current : option T) (rest : list T) : Prop :=
  match where_condition this with
  | None => Rep (where_innerIterator this) current rest
  | Some condition =>
      exists innerRest,
        Rep (where_innerIterator this) current innerRest
        /\ match current with Some value => condition value = true | None => True end
        /\ rest = filter condition innerRest
  end.

Definition SkipIterator_Rep (this : SkipIterator I) (current : option T) (rest : list T) : Prop :=
  match skip_toSkip this with
  | None => Rep (skip_innerIterator this) current rest
  | Some toSkip =>
      if skip_skipped this <? toSkip then
        exists innerRest,
          Rep (skip_innerIterator this) None innerRest
          /\ current = None
          /\ rest = skipn (Z.to_nat (toSkip - skip_skipped this)) innerRest
      else Rep (skip_innerIterator this) current rest
  end.

Definition TakeIterator_Rep (this : TakeIterator I) (current : option T) (rest : list T) : Prop :=
  exists innerCurrent innerRest,
    Rep (take_innerIterator this) innerCurrent innerRest
    /\ match take_toTake this with
       | None => current = None /\ rest = []
       | Some toTake =>
           if take_taken this <=? toTake
           then current = innerCurrent
                /\ rest = firstn (Z.to_nat (toTake - take_taken this)) innerRest
           else current = None /\ rest = []
       end.

Definition MapIterator_Rep (this : MapIterator I) (current : option T) (rest : list T) : Prop :=
  match map_mapFunction this with
  | None => current = None /\ rest = []
  | Some f =>
      exists innerCurrent innerRest,
        Rep (map_innerIterator this) innerCurrent innerRest
        /\ current = option_map f innerCurrent
        /\ rest = map f innerRest
  end.

End DecoratorRep.

(** First the values of [_first], then those of [_second], which is not
    touched before [_first] is exhausted. *)
Definition ConcatenateIterator_Rep {I1 I2 : Type} (Rep1 : I1 -> option T -> list T -> Prop)
    (Rep2 : I2 -> option T -> list T -> Prop) (this : ConcatenateIterator I1 I2)
    (current : option T) (rest : list T) : Prop :=
  (exists rest1 rest2,
      Rep1 (concatenate_first this) current rest1
      /\ Rep2 (concatenate_second this) None rest2
      /\ rest = rest1 ++ rest2)
  \/ (Rep1 (concatenate_first this) None [] /\ Rep2 (concatenate_second this) current rest).

Fixpoint Rep (c : IteratorClass) : instanceOf c -> option T -> list T -> Prop :=
  match c with
  | ArrayListForwardIteratorClass => ArrayListForwardIterator_Rep
  | ArrayListReverseIteratorClass => ArrayListReverseIterator_Rep
  | StringIteratorClass => StringIterator_Rep
  | WhereIteratorClass c => WhereIterator_Rep (Rep c)
  | SkipIteratorClass c => SkipIterator_Rep (Rep c)
  | TakeIteratorClass c => TakeIterator_Rep (Rep c)
  | MapIteratorClass c => MapIterator_Rep (Rep c)
  | ConcatenateIteratorClass c1 c2 => ConcatenateIterator_Rep (Rep c1) (Rep c2)
  end.

(** An iterator object that points at [current] and will then reach [rest]. *)
Definition Represents (this : IteratorObject) (current : option T) (rest : list T) : Prop :=
  Rep (projT1 this) (projT2 this) current rest.

(** An iterator object that points at nothing and will produce [values]. *)
Definition Produces (this : IteratorObject) (values : list T) : Prop :=
  Represents this None values.

(** ** What an iterable stands for *)

(** The values of an iterable, in the order of [iterate()]. *)
Fixpoint elements (this : Iterable (T := T)) : list T :=
  match this with
  | ArrayList data => data
  | StringIterable text => text
  | WhereIterable innerIterable condition => filter condition (elements innerIterable)
  | SkipIterable innerIterable toSkip => skipn (Z.to_nat toSkip) (elements innerIterable)
  | TakeIterable innerIterable toTake => firstn (Z.to_nat toTake) (elements innerIterable)
  | MapIterable innerIterable mapFunction => map mapFunction (elements innerIterable)
  | ConcatenateIterable first second => elements first ++ elements second
  end.

(** The counts kept by [SkipIterable] and [TakeIterable] objects are not
    negative: [skip] and [take] only build them with a positive count. *)
Fixpoint WellFormed (this : Iterable (T := T)) : Prop :=
  match this with
  | ArrayList _ => True
  | StringIterable _ => True
  | WhereIterable innerIterable _ => WellFormed innerIterable
  | SkipIterable innerIterable toSkip => 0 <= toSkip /\ WellFormed innerIterable
  | TakeIterable innerIterable toTake => 0 <= toTake /\ WellFormed innerIterable
  | MapIterable innerIterable _ => WellFormed innerIterable
  | ConcatenateIterable first second => WellFormed first /\ WellFormed second
  end.

(** Two sequences of the same length with [===] values at every index. *)
Fixpoint allStrictEquals (strictEquals : T -> T -> bool) (lhs rhs : list T) : bool :=
  match lhs, rhs with
  | [], [] => true
  | a :: lhs, b :: rhs => strictEquals a b && allStrictEquals strictEquals lhs rhs
  | _, _ => false
  end.

(** The last [count] values of a list. *)
Definition lastValues (count : nat) (values : list T) : list T :=
  skipn (length values - count) values.

(** ** Iterators in any state *)

(** What holds of the methods of an iterator whatever its fields are: asking
    [hasCurrent] again, or after [next], gives the answer already given and
    leaves the iterator as it is, and [getCurrent] is not affected by a call
    of [hasCurrent] before it, nor [hasCurrent] by a call of [getCurrent]. *)
Record Coherent {I : Type} (iterator : Iterator (T := T) I) : Prop := {
  coherent_hasCurrent : forall this answer this',
    hasCurrent this = (answer, this') -> hasCurrent this' = (answer, this');
  coherent_next : forall this answer this',
    next this = (answer, this') -> hasCurrent this' = (answer, this');
  coherent_getCurrent : forall this answer this',
    hasCurrent this = (answer, this') -> getCurrent this' = getCurrent this;
  coherent_current : forall this value this',
    getCurrent this = (value, this') -> fst (hasCurrent this') = fst (hasCurrent this)
}.

Section DecoratorStates.

Context {I : Type} {inner : Iterator (T := T) I}.

(** Nothing is left to skip. *)
Definition SkipIterator_settled (this : SkipIterator I) : Prop :=
  match skip_toSkip this with
  | None => True
  | Some toSkip => (skip_skipped this <? toSkip) = false
  end.

(** The first two steps of [hasCurrent] and of [getCurrent]:
    [if (super.hasCurrent()) { this.skipValues(); }]. *)
Definition SkipIterator_prepare (this : SkipIterator I) : SkipIterator I :=
  let (current, this) := SkipIterator_super_hasCurrent this in
  if current then SkipIterator_skipValues this else this.

(** A [TakeIterator] that can no longer give a value: its count is used up,
    or the next [next()] will use it up while the inner iterator has no
    current value. *)
Definition TakeIterator_spent (this : TakeIterator I) : Prop :=
  TakeIterator_canTakeValue this = false
  \/ (fst (hasCurrent (take_innerIterator this)) = false
      /\ TakeIterator_canTakeValue
           {| take_innerIterator := take_innerIterator this;
              take_toTake := take_toTake this;
              take_taken := take_taken this + 1 |} = false).

Variable exhausted : I -> Prop.

(** A [TakeIterator], a [MapIterator] that gives no value any more. *)
Definition TakeIterator_exhausted (this : TakeIterator I) : Prop :=
  TakeIterator_canTakeValue this = false \/ exhausted (take_innerIterator this).

Definition MapIterator_exhausted (this : MapIterator (T := T) I) : Prop :=
  map_mapFunction this = None \/ exhausted (map_innerIterator this).

End DecoratorStates.

(** ** Views of an iterator

    Two iterator objects are compared by what a caller can see of them: the
    answers to any sequence of calls. *)

Inductive Call : Type := call_hasStarted | call_hasCurrent | call_next | call_getCurrent.

Inductive Answer : Type :=
| answer_boolean (b : bool)
| answer_value (value : T).

Definition perform (call : Call) (this : IteratorObject (T := T)) : Answer * IteratorObject :=
  match call with
  | call_hasStarted => (answer_boolean (Iterator_hasStarted undefined this), this)
  | call_hasCurrent =>
      let (b, this) := Iterator_hasCurrent undefined this in (answer_boolean b, this)
  | call_next => let (b, this) := Iterator_next undefined this in (answer_boolean b, this)
  | call_getCurrent =>
      let (value, this) := Iterator_getCurrent undefined this in (answer_value value, this)
  end.

(** The object after a sequence of calls, and the answers it gave. *)
Fixpoint after (calls : list Call) (this : IteratorObject (T := T)) : IteratorObject :=
  match calls with
  | [] => this
  | call :: calls => after calls (snd (perform call this))
  end.

Fixpoint observe (calls : list Call) (this : IteratorObject (T := T)) : list Answer :=
  match calls with
  | [] => []
  | call :: calls => fst (perform call this) :: observe calls (snd (perform call this))
  end.

(** [view] cannot be told from [this]. *)
Definition IdentityView (view this : IteratorObject (T := T)) : Prop :=
  forall calls, observe calls view = observe calls this.

(** An iterator object without values. *)
Definition Empty (this : IteratorObject (T := T)) : Prop :=
  fst (Iterator_hasCurrent undefined this) = false
  /\ fst (Iterator_next undefined this) = false
  /\ fst (Iterator_getCurrent undefined this) = undefined
  /\ Iterator_toArray undefined this = []
  /\ Iterator_getCount undefined this = 0.

(** [this] has no values and never gets one. *)
Definition EmptyView (this : IteratorObject (T := T)) : Prop :=
  forall calls, Empty (after calls this).

(** A [MapIterator] without a mapping function. *)
Definition unmapped (this : IteratorObject (T := T)) : Prop :=
  exists c fields started,
    this = object (MapIteratorClass c)
             {| map_innerIterator := fields; map_mapFunction := None; map_started := started |}.

(** A [TakeIterator] that is spent. *)
Definition spent (this : IteratorObject (T := T)) : Prop :=
  exists c fields,
    this = object (TakeIteratorClass c) fields
    /\ @TakeIterator_spent (instanceOf c) (methods undefined c) fields.

(** ** Not started, and exhausted *)

(** What is asked of a class for which [fresh] describes the objects no
    [next()] has reached yet and [exhausted] those a [next()] has found at
    the end. *)
Record Lifecycle {I : Type} (iterator : Iterator (T := T) I) (fresh exhausted : I -> Prop)
    : Prop := {
  fresh_hasCurrent : forall this,
    fresh this -> fst (hasCurrent this) = false /\ fresh (snd (hasCurrent this));
  fresh_getCurrent : forall this, fresh this -> fresh (snd (getCurrent this));
  exhausted_hasCurrent : forall this,
    exhausted this -> fst (hasCurrent this) = false /\ exhausted (snd (hasCurrent this));
  exhausted_next : forall this,
    exhausted this -> fst (next this) = false /\ exhausted (snd (next this));
  exhausted_getCurrent : forall this, exhausted this -> exhausted (snd (getCurrent this));
  next_exhausted : forall this, fst (next this) = false -> exhausted (snd (next this))
}.

(** No [next()] has been called on the object or on an iterator it wraps. *)
Fixpoint Fresh (c : IteratorClass) : instanceOf (T := T) c -> Prop :=
  match c with
  | ArrayListForwardIteratorClass => fun this => currentIndex this = None
  | ArrayListReverseIteratorClass => fun this => currentIndex this = None
  | StringIteratorClass => fun this => si_started this = false
  | WhereIteratorClass c => fun this => Fresh c (where_innerIterator this)
  | SkipIteratorClass c => fun this => Fresh c (skip_innerIterator this)
  | TakeIteratorClass c => fun this => Fresh c (take_innerIterator this)
  | MapIteratorClass c => fun this => Fresh c (map_innerIterator this)
  | ConcatenateIteratorClass c1 c2 => fun this =>
      Fresh c1 (concatenate_first this) /\ Fresh c2 (concatenate_second this)
  end.

(** The object is past its last value. *)
Fixpoint Exhausted (c : IteratorClass) : instanceOf (T := T) c -> Prop :=
  match c with
  | ArrayListForwardIteratorClass => fun this => ArrayListForwardIterator_atEnd this = true
  | ArrayListReverseIteratorClass => fun this => ArrayListReverseIterator_atEnd this = true
  | StringIteratorClass => fun this =>
      si_started this = true /\ StringIterator_hasMore this = false
  | WhereIteratorClass c => fun this => Exhausted c (where_innerIterator this)
  | SkipIteratorClass c => fun this => Exhausted c (skip_innerIterator this)
  | TakeIteratorClass c => fun this =>
      TakeIterator_canTakeValue this = false \/ Exhausted c (take_innerIterator this)
  | MapIteratorClass c => fun this =>
      map_mapFunction this = None \/ Exhausted c (map_innerIterator this)
  | ConcatenateIteratorClass c1 c2 => fun this =>
      Exhausted c1 (concatenate_first this) /\ Exhausted c2 (concatenate_second this)
  end.

Definition IsFresh (this : IteratorObject (T := T)) : Prop := Fresh (projT1 this) (projT2 this).

Definition IsExhausted (this : IteratorObject (T := T)) : Prop :=
  Exhausted (projT1 this) (projT2 this).

End Specification.

(** Lists of numbers, on which the theorems are instantiated. *)

Definition numbers (values : list Z) : list (option Z) := map Some values.

Definition number_strictEquals (lhs rhs : option Z) : bool :=
  match lhs, rhs with
  | Some a, Some b => a =? b
  | None, None => true
  | _, _ => false
  end.

(** ** The lexer *)

(** The lexer of [text] with its cursor started and at index [index]. *)
Definition Lexer_at (text : jsstring) (offset index : Z) (lex : option Lex) : Lexer :=
  {| _iterator :=
       {| si_text := characters text; si_startIndex := 0;
          si_endIndex := Z.of_nat (length text); si_currentIndex := index;
          si_started := true; si_step := 1 |};
     _characterStartIndexOffset := offset;
     _currentLex := lex |}.

(** The code units of [text] from index [from] up to, not including, [to]. *)
Definition slice (text : jsstring) (from to : Z) : jsstring :=
  firstn (Z.to_nat (to - from)) (skipn (Z.to_nat from) text).

(** Lexes that follow one another from [start] on, each of them at least one
    code unit long. *)
Fixpoint tiled (start : Z) (lexes : list Lex) : Prop :=
  match lexes with
  | [] => True
  | lex :: lexes =>
      Lex_startIndex lex = Some start
      /\ 0 < Lex_getLength lex
      /\ tiled (start + Lex_getLength lex) lexes
  end.

(** The lex the lexer makes at [index] covers [text] from [index] to [index']. *)
Definition covers (text : jsstring) (offset index index' : Z) (lex : Lex) : Prop :=
  index < index' <= Z.of_nat (length text)
  /\ _text lex = Some (slice text index index')
  /\ _startIndex lex = Some (index + offset).

(** The answers of [count] calls of [next] in a row, and the lexer they leave. *)
Fixpoint Lexer_calls (count : nat) (this : Lexer) : list bool * Lexer :=
  match count with
  | O => ([], this)
  | S count =>
      let (answer, this) := Lexer_next this in
      let (answers, this) := Lexer_calls count this in
      (answer :: answers, this)
  end.

(** [getCombinedLength(lexes)] *)
Definition getCombinedLength (lexes : list Lex) : Z :=
  fold_left (fun result lex => result + Lex_getLength lex) lexes 0.

(** The cursor of the lexer of [text], at index [index]. *)
Definition Cursor_at (text : jsstring) (index : Z) : StringIterator (T := option jsstring) :=
  _iterator (Lexer_at text 0 index None).


(** ** The fields of a list *)

Section ArrayListObjectSpecification.

Context {T : Type}.

(** The values of the list, in order. *)
Definition ArrayListObject_values (this : ArrayListObject (T := T)) : list T :=
  firstn (Z.to_nat (_count this)) (_data this).

(** What every method keeps: [_count] slots of [_data] are in use. *)
Definition ArrayListObject_Inv (this : ArrayListObject (T := T)) : Prop :=
  0 <= _count this <= Z.of_nat (length (_data this)).

(** The test of [indexOf] on a value of the list:
    [comparer ? comparer(element, value) : element === value]. *)
Definition ArrayListObject_matches (strictEquals : T -> T -> bool)
    (comparer : option (T -> T -> bool)) (value element : T) : bool :=
  match comparer with
  | Some c => c element value
  | None => strictEquals element value
  end.

End ArrayListObjectSpecification.

Section MapSpecification.

Context {KeyType ValueType : Type}.

(** The pairs of the map, oldest first. *)
Definition Map_entries (this : Map (KeyType := KeyType) (ValueType := ValueType))
    : list (KeyType * ValueType) :=
  flat_map (fun pair => match pair with Some entry => [entry] | None => [] end)
    (ArrayListObject_values (_pairs this)).

(** What [add] keeps: every value of [_pairs] is a pair, and no two of them
    have the same key. *)
Definition Map_Inv (this : Map (KeyType := KeyType) (ValueType := ValueType)) : Prop :=
  ArrayListObject_Inv (_pairs this)
  /\ ArrayListObject_values (_pairs this) = map Some (Map_entries this)
  /\ NoDup (map fst (Map_entries this)).

(** A map after a sequence of calls of [add] on [new Map()]. *)
Definition Map_of (keyEquals : KeyType -> KeyType -> bool)
    (pairEquals : option (KeyType * ValueType) -> option (KeyType * ValueType) -> bool)
    (raised : bool) (adds : list (KeyType * ValueType)) : Map :=
  fold_left (fun this entry => Map_add keyEquals pairEquals raised this (fst entry) (snd entry))
    adds new_Map.

End MapSpecification.

(** ** Escaped text *)

(** A line feed, a tab and a carriage return are written as a backslash and
    a letter; every other code unit stands for itself. *)
Definition escaped (unit : N) : jsstring :=
  if (unit =? 10)%N then [92%N; 110%N]
  else if (unit =? 9)%N then [92%N; 116%N]
  else if (unit =? 13)%N then [92%N; 114%N]
  else [unit].

(** * Proofs *)

Section IteratorBaseLaws.

Context {T : Type}.
Variable undefined : T.
Context {I : Type}.
Variable hasStarted_ : I -> bool.
Variables hasCurrent_ next_ : I -> bool * I.
Variable getCurrent_ : I -> T * I.
Variable remaining_ : I -> nat.
Variable Rep : I -> option T -> list T -> Prop.
Hypothesis base : LawfulBase undefined hasCurrent_ next_ getCurrent_ remaining_ Rep.

Lemma IteratorBase_getCount_loop_spec : forall rest fuel result this current,
  Rep this current rest -> (length rest < fuel)%nat ->
  fst (IteratorBase_getCount_loop next_ fuel result this) = result + Z.of_nat (length rest).
Proof.
  induction rest as [|value rest IH]; intros fuel result this current HRep Hfuel;
    (destruct fuel as [|fuel]; [simpl in Hfuel; lia|]); cbn [IteratorBase_getCount_loop];
    pose proof (base_next _ _ _ _ _ _ base _ _ _ HRep) as Hnext; simpl in Hnext;
    destruct (next_ this) as [more this'] eqn:E; simpl in Hnext; destruct Hnext as [-> HRep'].
  - simpl. lia.
  - rewrite (IH fuel (result + 1) this' (Some value) HRep') by (simpl in Hfuel; lia).
    cbn [length]. lia.
Qed.

Lemma IteratorBase_getCount_spec : forall this current rest,
  Rep this current rest ->
  fst (IteratorBase_getCount hasCurrent_ next_ remaining_ this)
  = Z.of_nat (length (withCurrent current rest)).
Proof.
  intros this current rest HRep. unfold IteratorBase_getCount.
  pose proof (base_hasCurrent _ _ _ _ _ _ base _ _ _ HRep) as Hcur.
  destruct (hasCurrent_ this) as [b this'] eqn:E. simpl in Hcur. destruct Hcur as [-> HRep'].
  rewrite (IteratorBase_getCount_loop_spec rest _ _ this' current HRep').
  - destruct current; cbn [withCurrent length isDefined]; lia.
  - pose proof (base_remaining _ _ _ _ _ _ base _ _ _ HRep'). lia.
Qed.

Lemma IteratorBase_foreach_loop_spec : forall (A : Type) (f : T -> A -> A * bool) rest fuel broken this a current,
  Rep this current rest -> (length rest < fuel)%nat ->
  fst (IteratorBase_foreach_loop next_ getCurrent_ fuel f broken this a)
  = if broken then a else foreach_list f rest a.
Proof.
  intros A f. induction rest as [|value rest IH]; intros fuel broken this a current HRep Hfuel;
    (destruct fuel as [|fuel]; [simpl in Hfuel; lia|]); simpl;
    (destruct broken; [reflexivity|]);
    pose proof (base_next _ _ _ _ _ _ base _ _ _ HRep) as Hnext; simpl in Hnext;
    destruct (next_ this) as [more this'] eqn:E; simpl in Hnext; destruct Hnext as [-> HRep'].
  - reflexivity.
  - pose proof (base_getCurrent _ _ _ _ _ _ base _ _ _ HRep') as Hget.
    destruct (getCurrent_ this') as [v this''] eqn:E'. simpl in Hget. destruct Hget as [-> HRep''].
    destruct (f value a) as [a' broken'] eqn:Ef.
    rewrite (IH fuel broken' this'' a' (Some value) HRep'') by (simpl in Hfuel; lia).
    reflexivity.
Qed.

Lemma IteratorBase_foreach_spec : forall (A : Type) (f : T -> A -> A * bool) this (a : A) current rest,
  Rep this current rest ->
  fst (IteratorBase_foreach hasCurrent_ next_ getCurrent_ remaining_ A (Some f) this a)
  = foreach_list f (withCurrent current rest) a.
Proof.
  intros A f this a current rest HRep. unfold IteratorBase_foreach.
  pose proof (base_hasCurrent _ _ _ _ _ _ base _ _ _ HRep) as Hcur.
  destruct (hasCurrent_ this) as [b this'] eqn:E. simpl in Hcur. destruct Hcur as [-> HRep'].
  destruct current as [value|]; cbn [isDefined withCurrent foreach_list].
  - pose proof (base_getCurrent _ _ _ _ _ _ base _ _ _ HRep') as Hget.
    destruct (getCurrent_ this') as [v this''] eqn:E'. simpl in Hget. destruct Hget as [-> HRep''].
    destruct (f value a) as [a' broken'] eqn:Ef.
    rewrite (IteratorBase_foreach_loop_spec A f rest _ _ this'' a' (Some value) HRep'').
    + reflexivity.
    + pose proof (base_remaining _ _ _ _ _ _ base _ _ _ HRep''). lia.
  - rewrite (IteratorBase_foreach_loop_spec A f rest _ _ this' a None HRep').
    + reflexivity.
    + pose proof (base_remaining _ _ _ _ _ _ base _ _ _ HRep'). lia.
Qed.

Lemma IteratorBase_lawful :
  Lawful undefined (IteratorBase hasStarted_ hasCurrent_ next_ getCurrent_ remaining_) Rep.
Proof.
  constructor; simpl.
  - exact base.
  - exact IteratorBase_getCount_spec.
  - exact IteratorBase_foreach_spec.
Qed.

End IteratorBaseLaws.

(** ** Lists *)

Section ListFacts.

Context {A : Type}.

Lemma skipn_nth_error : forall (l : list A) (n : nat),
  skipn n l = match nth_error l n with
              | Some value => value :: skipn (S n) l
              | None => []
              end.
Proof.
  induction l as [|a l IH]; intros [|n]; try reflexivity.
  cbn [nth_error]. rewrite skipn_cons. rewrite IH.
  destruct (nth_error l n); reflexivity.
Qed.

Lemma firstn_S_nth_error : forall (l : list A) (n : nat),
  firstn (S n) l = firstn n l ++ match nth_error l n with
                                 | Some value => [value]
                                 | None => []
                                 end.
Proof.
  induction l as [|a l IH]; intros [|n]; try reflexivity.
  cbn [nth_error]. rewrite (firstn_cons (S n)), IH, firstn_cons. reflexivity.
Qed.

Lemma rev_firstn_S : forall (l : list A) (n : nat),
  rev (firstn (S n) l) = match nth_error l n with
                         | Some value => value :: rev (firstn n l)
                         | None => rev (firstn n l)
                         end.
Proof.
  intros l n. rewrite firstn_S_nth_error, rev_app_distr.
  destruct (nth_error l n); reflexivity.
Qed.

Lemma nth_error_defined : forall (l : list A) (n : nat),
  isDefined (nth_error l n) = (n <? length l)%nat.
Proof.
  intros l n. destruct (nth_error l n) eqn:E; simpl; symmetry.
  - apply Nat.ltb_lt. apply nth_error_Some. congruence.
  - apply Nat.ltb_ge. apply nth_error_None. exact E.
Qed.

Lemma elementAt_nth_error : forall (undefined : A) (l : list A) (i : Z),
  0 <= i ->
  elementAt undefined l i = match nth_error l (Z.to_nat i) with
                            | Some value => value
                            | None => undefined
                            end.
Proof.
  intros undefined l i Hi. unfold elementAt.
  destruct (nth_error l (Z.to_nat i)) eqn:E.
  - assert (Z.to_nat i < length l)%nat by (apply nth_error_Some; congruence).
    replace (0 <=? i) with true by (symmetry; apply Z.leb_le; lia).
    replace (i <? Z.of_nat (length l)) with true by (symmetry; apply Z.ltb_lt; lia).
    simpl. apply nth_error_nth. exact E.
  - apply nth_error_None in E.
    replace (i <? Z.of_nat (length l)) with false by (symmetry; apply Z.ltb_ge; lia).
    rewrite andb_false_r. reflexivity.
Qed.

Lemma elementAt_negative : forall (undefined : A) (l : list A) (i : Z),
  i < 0 -> elementAt undefined l i = undefined.
Proof.
  intros undefined l i Hi. unfold elementAt.
  replace (0 <=? i) with false by (symmetry; apply Z.leb_gt; lia). reflexivity.
Qed.

Lemma firstn_plus : forall (n m : nat) (l : list A),
  firstn (n + m) l = firstn n l ++ firstn m (skipn n l).
Proof.
  induction n as [|n IH]; intros m l; [reflexivity|].
  destruct l as [|a l]; cbn [Nat.add firstn skipn app].
  - rewrite firstn_nil. reflexivity.
  - rewrite IH. reflexivity.
Qed.

End ListFacts.

(** ** The array-backed iterators *)

Section LeafLaws.

Context {T : Type}.
Variable undefined : T.

Ltac list_bounds :=
  repeat split; try lia; try congruence;
  try (symmetry; apply nth_error_None; lia);
  try (symmetry; apply skipn_all2; lia).

Lemma ArrayListForwardIterator_base :
  LawfulBase undefined (ArrayListForwardIterator_hasCurrent (T := T))
    ArrayListForwardIterator_next (ArrayListIterator_getCurrent undefined)
    (fun this => length (arrayList this)) ArrayListForwardIterator_Rep.
Proof.
  constructor; intros [data [i|]] current rest; unfold ArrayListForwardIterator_Rep;
    cbn [currentIndex arrayList]; intros H.
  - destruct H as (Hi & -> & ->).
    unfold ArrayListForwardIterator_hasCurrent, ArrayListIterator_hasStarted,
      ArrayListForwardIterator_atEnd, ArrayList_getCount; cbn [currentIndex arrayList fst snd isDefined].
    split; [|auto]. rewrite nth_error_defined.
    destruct (i =? Z.of_nat (length data)) eqn:E; simpl; symmetry.
    + apply Z.eqb_eq in E. apply Nat.ltb_ge. lia.
    + apply Z.eqb_neq in E. apply Nat.ltb_lt. lia.
  - destruct H as (-> & ->). simpl. auto.
  - destruct H as (Hi & -> & ->).
    unfold ArrayListIterator_getCurrent, ArrayList_get; cbn [currentIndex arrayList fst snd].
    split; [|auto]. rewrite elementAt_nth_error by lia.
    destruct (nth_error data (Z.to_nat i)); reflexivity.
  - destruct H as (-> & ->). simpl. auto.
  - destruct H as (Hi & -> & ->).
    unfold ArrayListForwardIterator_next, ArrayListForwardIterator_atEnd, ArrayList_getCount;
      cbn [currentIndex arrayList].
    destruct (i =? Z.of_nat (length data)) eqn:E; cbn [negb currentIndex arrayList fst snd].
    + rewrite E. apply Z.eqb_eq in E.
      rewrite skipn_all2 by lia. cbn [negb]. list_bounds.
    + apply Z.eqb_neq in E.
      replace (S (Z.to_nat i)) with (Z.to_nat (i + 1)) by lia.
      rewrite skipn_nth_error.
      destruct (nth_error data (Z.to_nat (i + 1))) eqn:En.
      * assert (Z.to_nat (i + 1) < length data)%nat by (apply nth_error_Some; congruence).
        replace (i + 1 =? Z.of_nat (length data)) with false by (symmetry; apply Z.eqb_neq; lia).
        cbn [negb]. list_bounds.
      * apply nth_error_None in En.
        replace (i + 1 =? Z.of_nat (length data)) with true by (symmetry; apply Z.eqb_eq; lia).
        cbn [negb]. list_bounds.
  - destruct H as (-> & ->).
    unfold ArrayListForwardIterator_next, ArrayListForwardIterator_atEnd, ArrayList_getCount;
      cbn [currentIndex arrayList fst snd].
    destruct data as [|value data]; cbn [length]; simpl; list_bounds.
  - destruct H as (Hi & -> & ->). cbn [arrayList]. rewrite length_skipn. lia.
  - destruct H as (-> & ->). cbn [arrayList]. lia.
Qed.

Lemma ArrayListReverseIterator_base :
  LawfulBase undefined (ArrayListReverseIterator_hasCurrent (T := T))
    ArrayListReverseIterator_next (ArrayListIterator_getCurrent undefined)
    (fun this => length (arrayList this)) ArrayListReverseIterator_Rep.
Proof.
  constructor; intros [data [i|]] current rest; unfold ArrayListReverseIterator_Rep;
    cbn [currentIndex arrayList]; intros H.
  - destruct H as (Hi & -> & ->).
    unfold ArrayListReverseIterator_hasCurrent, ArrayListIterator_hasStarted,
      ArrayListReverseIterator_atEnd, lessThan; cbn [currentIndex arrayList fst snd isDefined].
    split; [|auto]. destruct (i <? 0) eqn:E; simpl; [reflexivity|].
    apply Z.ltb_ge in E. rewrite nth_error_defined. symmetry. apply Nat.ltb_lt. lia.
  - destruct H as (-> & ->). simpl. auto.
  - destruct H as (Hi & -> & ->).
    unfold ArrayListIterator_getCurrent, ArrayList_get; cbn [currentIndex arrayList fst snd].
    split; [|auto]. destruct (i <? 0) eqn:E.
    + apply Z.ltb_lt in E. apply elementAt_negative. exact E.
    + apply Z.ltb_ge in E. rewrite elementAt_nth_error by lia.
      destruct (nth_error data (Z.to_nat i)); reflexivity.
  - destruct H as (-> & ->). simpl. auto.
  - destruct H as (Hi & -> & ->).
    unfold ArrayListReverseIterator_next, ArrayListReverseIterator_atEnd, lessThan;
      cbn [currentIndex arrayList].
    destruct (i <? 0) eqn:E; cbn [negb currentIndex arrayList fst snd].
    + rewrite E. apply Z.ltb_lt in E. replace (Z.to_nat i) with O by lia.
      cbn [negb]. list_bounds.
    + apply Z.ltb_ge in E. destruct (Z.eq_dec i 0) as [->|Hne].
      * cbn [negb]. list_bounds.
      * remember (Z.to_nat (i - 1)) as n eqn:En'.
        replace (Z.to_nat i) with (S n) by lia.
        rewrite rev_firstn_S.
        destruct (nth_error data n) eqn:En.
        -- replace (i - 1 <? 0) with false by (symmetry; apply Z.ltb_ge; lia).
           cbn [negb]. list_bounds.
        -- apply nth_error_None in En. lia.
  - destruct H as (-> & ->).
    unfold ArrayListReverseIterator_next, ArrayListReverseIterator_atEnd, lessThan, ArrayList_getCount;
      cbn [currentIndex arrayList fst snd].
    replace (rev data) with (rev (firstn (length data) data)) by (rewrite firstn_all; reflexivity).
    destruct (length data) as [|n] eqn:El.
    + cbn [negb]. list_bounds.
    + rewrite rev_firstn_S.
      replace (Z.to_nat (Z.of_nat (S n) - 1)) with n by lia.
      destruct (nth_error data n) eqn:En.
      * replace (Z.of_nat (S n) - 1 <? 0) with false by (symmetry; apply Z.ltb_ge; lia).
        cbn [negb]. list_bounds.
      * apply nth_error_None in En. lia.
  - destruct H as (Hi & -> & ->). cbn [arrayList]. rewrite length_rev, length_firstn. lia.
  - destruct H as (-> & ->). cbn [arrayList]. rewrite length_rev. lia.
Qed.

(** ** The string-backed iterator *)

Lemma StringIterator_pending_forward : forall (this : StringIterator (T := T)) from,
  si_step this = 1 ->
  StringIterator_pending undefined this from
  = if from <? si_endIndex this
    then elementAt undefined (si_text this) from :: StringIterator_pending undefined this (from + 1)
    else [].
Proof.
  intros this from Hstep. unfold StringIterator_pending. rewrite Hstep. cbn [Z.gtb Z.compare].
  destruct (from <? si_endIndex this) eqn:E.
  - apply Z.ltb_lt in E.
    replace (Z.to_nat (si_endIndex this - from))
      with (S (Z.to_nat (si_endIndex this - (from + 1)))) by lia.
    cbn [seq map]. f_equal; [f_equal; lia|].
    rewrite <- seq_shift, map_map. apply map_ext. intros k. f_equal. lia.
  - apply Z.ltb_ge in E. replace (Z.to_nat (si_endIndex this - from)) with O by lia. reflexivity.
Qed.

Lemma StringIterator_pending_backward : forall (this : StringIterator (T := T)) from,
  si_step this = -1 ->
  StringIterator_pending undefined this from
  = if from >? si_endIndex this
    then elementAt undefined (si_text this) from :: StringIterator_pending undefined this (from + -1)
    else [].
Proof.
  intros this from Hstep. unfold StringIterator_pending. rewrite Hstep. cbn [Z.gtb Z.compare].
  destruct (from >? si_endIndex this) eqn:E.
  - apply Z.gtb_lt in E.
    replace (Z.to_nat (from - si_endIndex this))
      with (S (Z.to_nat (from + -1 - si_endIndex this))) by lia.
    cbn [seq map]. f_equal; [f_equal; lia|].
    rewrite <- seq_shift, map_map. apply map_ext. intros k. f_equal. lia.
  - assert (from <= si_endIndex this) by (rewrite Z.gtb_ltb in E; apply Z.ltb_ge in E; lia).
    replace (Z.to_nat (from - si_endIndex this)) with O by lia. reflexivity.
Qed.

Lemma StringIterator_pending_step : forall (this : StringIterator (T := T)) from,
  si_step this = 1 \/ si_step this = -1 ->
  StringIterator_pending undefined this from
  = if (if si_step this >? 0 then from <? si_endIndex this else from >? si_endIndex this)
    then elementAt undefined (si_text this) from
         :: StringIterator_pending undefined this (from + si_step this)
    else [].
Proof.
  intros this from [Hstep|Hstep].
  - rewrite (StringIterator_pending_forward this from Hstep), Hstep. reflexivity.
  - rewrite (StringIterator_pending_backward this from Hstep), Hstep. reflexivity.
Qed.

Lemma StringIterator_pending_length : forall (this : StringIterator (T := T)) from,
  (length (StringIterator_pending undefined this from)
   <= Z.to_nat (Z.abs (si_endIndex this - from)))%nat.
Proof.
  intros this from. unfold StringIterator_pending.
  destruct (si_step this >? 0); rewrite length_map, length_seq; lia.
Qed.

Lemma StringIterator_base :
  LawfulBase undefined (StringIterator_hasCurrent (T := T)) StringIterator_next
    (StringIterator_getCurrent undefined)
    (fun this => Z.to_nat (Z.abs (si_endIndex this - si_currentIndex this)))
    (StringIterator_Rep undefined).
Proof.
  constructor; intros this current rest [Hstep H].
  - unfold StringIterator_hasCurrent, StringIterator_hasStarted. cbn [fst snd].
    split; [|split; assumption].
    destruct (si_started this); [destruct (StringIterator_hasMore this)|];
      destruct H as (-> & _); reflexivity.
  - unfold StringIterator_getCurrent, StringIterator_hasCurrent, StringIterator_hasStarted.
    cbn [fst snd]. split; [|split; assumption].
    destruct (si_started this); [destruct (StringIterator_hasMore this)|];
      destruct H as (-> & _); reflexivity.
  - destruct this as [text startIndex endIndex index started step].
    unfold StringIterator_next, StringIterator_hasMore, StringIterator_Rep in *.
    cbn [si_text si_startIndex si_endIndex si_currentIndex si_started si_step] in *.
    destruct started; cbn [negb].
    + destruct (if step >? 0 then index <? endIndex else index >? endIndex) eqn:Emore;
        destruct H as (-> & ->);
        cbn [si_text si_startIndex si_endIndex si_currentIndex si_started si_step fst snd].
      * rewrite StringIterator_pending_step by exact Hstep.
        unfold StringIterator_hasMore.
        cbn [si_text si_startIndex si_endIndex si_currentIndex si_started si_step].
        destruct (if step >? 0 then index + step <? endIndex else index + step >? endIndex);
          repeat split; auto.
      * unfold StringIterator_hasMore.
        cbn [si_text si_startIndex si_endIndex si_currentIndex si_started si_step].
        rewrite Emore. repeat split; auto.
    + destruct H as (-> & ->).
      cbn [si_text si_startIndex si_endIndex si_currentIndex si_started si_step fst snd].
      rewrite StringIterator_pending_step by exact Hstep.
      unfold StringIterator_hasMore.
      cbn [si_text si_startIndex si_endIndex si_currentIndex si_started si_step].
      destruct (if step >? 0 then index <? endIndex else index >? endIndex);
        repeat split; auto.
  - destruct this as [text startIndex endIndex index started step].
    unfold StringIterator_hasMore, StringIterator_Rep in *.
    cbn [si_text si_startIndex si_endIndex si_currentIndex si_started si_step] in *.
    destruct started.
    + destruct (if step >? 0 then index <? endIndex else index >? endIndex) eqn:Emore;
        destruct H as (-> & ->); [|simpl; lia].
      pose proof (StringIterator_pending_length
        {| si_text := text; si_startIndex := startIndex; si_endIndex := endIndex;
           si_currentIndex := index; si_started := true; si_step := step |} (index + step)) as Hlen.
      cbn [si_endIndex] in Hlen.
      destruct Hstep as [-> | ->]; cbn [Z.gtb Z.compare] in Emore.
      * apply Z.ltb_lt in Emore. lia.
      * apply Z.gtb_lt in Emore. lia.
    + destruct H as (-> & ->).
      apply (StringIterator_pending_length
        {| si_text := text; si_startIndex := startIndex; si_endIndex := endIndex;
           si_currentIndex := index; si_started := false; si_step := step |} index).
Qed.

End LeafLaws.

(** ** The decorators *)

Section LawfulBaseFacts.

Context {T : Type}.
Variable undefined : T.
Context {I : Type}.
Variables hasCurrent_ next_ : I -> bool * I.
Variable getCurrent_ : I -> T * I.
Variable remaining_ : I -> nat.
Variable RepI : I -> option T -> list T -> Prop.
Hypothesis base : LawfulBase undefined hasCurrent_ next_ getCurrent_ remaining_ RepI.

Lemma law_hasCurrent : forall this current rest, RepI this current rest ->
  exists this', hasCurrent_ this = (isDefined current, this') /\ RepI this' current rest.
Proof.
  intros this current rest H. destruct (base_hasCurrent _ _ _ _ _ _ base _ _ _ H) as [E H'].
  exists (snd (hasCurrent_ this)). split; [|exact H'].
  rewrite <- E. destruct (hasCurrent_ this); reflexivity.
Qed.

Lemma law_getCurrent : forall this current rest, RepI this current rest ->
  exists this', getCurrent_ this = (currentOr undefined current, this') /\ RepI this' current rest.
Proof.
  intros this current rest H. destruct (base_getCurrent _ _ _ _ _ _ base _ _ _ H) as [E H'].
  exists (snd (getCurrent_ this)). split; [|exact H'].
  rewrite <- E. destruct (getCurrent_ this); reflexivity.
Qed.

Lemma law_next_nil : forall this current, RepI this current [] ->
  exists this', next_ this = (false, this') /\ RepI this' None [].
Proof.
  intros this current H. destruct (base_next _ _ _ _ _ _ base _ _ _ H) as [E H'].
  exists (snd (next_ this)). split; [|exact H'].
  rewrite <- E. destruct (next_ this); reflexivity.
Qed.

Lemma law_next_cons : forall this current value rest, RepI this current (value :: rest) ->
  exists this', next_ this = (true, this') /\ RepI this' (Some value) rest.
Proof.
  intros this current value rest H. destruct (base_next _ _ _ _ _ _ base _ _ _ H) as [E H'].
  exists (snd (next_ this)). split; [|exact H'].
  rewrite <- E. destruct (next_ this); reflexivity.
Qed.

Lemma law_remaining : forall this current rest, RepI this current rest ->
  (length rest <= remaining_ this)%nat.
Proof. exact (base_remaining _ _ _ _ _ _ base). Qed.

End LawfulBaseFacts.

Section DecoratorLaws.

Context {T : Type}.
Variable undefined : T.
Context {I : Type} {inner : Iterator (T := T) I}.
Variable RepI : I -> option T -> list T -> Prop.
Hypothesis innerLawful : Lawful undefined inner RepI.

Let innerBase := lawful_base _ _ _ innerLawful.

Ltac inner_hasCurrent H i' E H' :=
  destruct (law_hasCurrent undefined _ _ _ _ _ innerBase _ _ _ H) as (i' & E & H').
Ltac inner_getCurrent H i' E H' :=
  destruct (law_getCurrent undefined _ _ _ _ _ innerBase _ _ _ H) as (i' & E & H').
Ltac inner_next_nil H i' E H' :=
  destruct (law_next_nil undefined _ _ _ _ _ innerBase _ _ H) as (i' & E & H').
Ltac inner_next_cons H i' E H' :=
  destruct (law_next_cons undefined _ _ _ _ _ innerBase _ _ _ _ H) as (i' & E & H').

(** *** WhereIterator *)

Lemma WhereIterator_next_loop_spec : forall condition innerRest fuel i current,
  RepI i current innerRest -> (length innerRest < fuel)%nat ->
  match filter condition innerRest with
  | [] => RepI (WhereIterator_next_loop fuel condition i) None []
  | value :: rest =>
      exists innerRest',
        RepI (WhereIterator_next_loop fuel condition i) (Some value) innerRest'
        /\ condition value = true /\ rest = filter condition innerRest'
  end.
Proof.
  intros condition. induction innerRest as [|value innerRest IH]; intros fuel i current H Hfuel;
    (destruct fuel as [|fuel]; [simpl in Hfuel; lia|]); cbn [WhereIterator_next_loop filter].
  - inner_next_nil H i' E H'. rewrite E. exact H'.
  - inner_next_cons H i' E H'. rewrite E.
    inner_getCurrent H' i'' E' H''. rewrite E'. cbn [currentOr].
    destruct (condition value) eqn:Ec; cbn [negb].
    + exists innerRest. auto.
    + apply (IH fuel i'' (Some value) H''). simpl in Hfuel. lia.
Qed.

Lemma WhereIterator_base :
  LawfulBase undefined WhereIterator_hasCurrent WhereIterator_next WhereIterator_getCurrent
    (fun this => remaining (where_innerIterator this)) (WhereIterator_Rep RepI).
Proof.
  constructor; intros [i [condition|]] current rest; unfold WhereIterator_Rep;
    cbn [where_condition where_innerIterator]; intros H.
  - destruct H as (innerRest & H & Hc & ->). unfold WhereIterator_hasCurrent.
    cbn [where_condition where_innerIterator]. inner_hasCurrent H i' E H'. rewrite E.
    cbn [fst snd where_condition where_innerIterator]. split; [reflexivity|]. exists innerRest. auto.
  - unfold WhereIterator_hasCurrent. cbn [where_condition where_innerIterator].
    inner_hasCurrent H i' E H'. rewrite E. cbn [fst snd where_condition where_innerIterator]. auto.
  - destruct H as (innerRest & H & Hc & ->). unfold WhereIterator_getCurrent.
    cbn [where_condition where_innerIterator]. inner_getCurrent H i' E H'. rewrite E.
    cbn [fst snd where_condition where_innerIterator]. split; [reflexivity|]. exists innerRest. auto.
  - unfold WhereIterator_getCurrent. cbn [where_condition where_innerIterator].
    inner_getCurrent H i' E H'. rewrite E. cbn [fst snd where_condition where_innerIterator]. auto.
  - destruct H as (innerRest & H & Hc & ->).
    unfold WhereIterator_next, WhereIterator_hasCurrent. cbn [where_condition where_innerIterator].
    pose proof (WhereIterator_next_loop_spec condition innerRest (S (remaining i)) i current H) as Hloop.
    assert (Hfuel : (length innerRest < S (remaining i))%nat).
    { pose proof (law_remaining undefined _ _ _ _ _ innerBase _ _ _ H). lia. }
    specialize (Hloop Hfuel).
    destruct (filter condition innerRest) as [|value rest].
    + inner_hasCurrent Hloop i' E H'. rewrite E.
      cbn [fst snd isDefined where_condition where_innerIterator]. split; [reflexivity|].
      exists []. auto.
    + destruct Hloop as (innerRest' & Hloop & Hv & ->).
      inner_hasCurrent Hloop i' E H'. rewrite E.
      cbn [fst snd isDefined where_condition where_innerIterator]. split; [reflexivity|].
      exists innerRest'. auto.
  - unfold WhereIterator_next, WhereIterator_hasCurrent. cbn [where_condition where_innerIterator].
    destruct rest as [|value rest].
    + inner_next_nil H i' E H'. rewrite E. cbn [snd].
      inner_hasCurrent H' i'' E' H''. rewrite E'.
      cbn [fst snd isDefined where_condition where_innerIterator]. auto.
    + inner_next_cons H i' E H'. rewrite E. cbn [snd].
      inner_hasCurrent H' i'' E' H''. rewrite E'.
      cbn [fst snd isDefined where_condition where_innerIterator]. auto.
  - destruct H as (innerRest & H & Hc & ->).
    pose proof (law_remaining undefined _ _ _ _ _ innerBase _ _ _ H).
    pose proof (filter_length_le condition innerRest). lia.
  - exact (law_remaining undefined _ _ _ _ _ innerBase _ _ _ H).
Qed.

Lemma WhereIterator_lawful : Lawful undefined WhereIterator_Iterator (WhereIterator_Rep RepI).
Proof. apply IteratorBase_lawful. exact WhereIterator_base. Qed.

(** *** SkipIterator *)

Lemma SkipIterator_skipValues_loop_spec : forall toSkip d fuel i skipped current innerRest,
  d = Z.to_nat (toSkip - skipped) -> (d < fuel)%nat -> RepI i current innerRest ->
  exists i' skipped',
    SkipIterator_skipValues_loop fuel toSkip i skipped = (i', skipped')
    /\ (skipped' <? toSkip) = false
    /\ match d with
       | O => RepI i' current innerRest /\ skipped' = skipped
       | S d' => RepI i' (nth_error innerRest d') (skipn d innerRest)
       end.
Proof.
  intros toSkip. induction d as [|d IH]; intros fuel i skipped current innerRest Hd Hfuel H;
    (destruct fuel as [|fuel]; [lia|]); cbn [SkipIterator_skipValues_loop].
  - replace (skipped <? toSkip) with false by (symmetry; apply Z.ltb_ge; lia).
    exists i, skipped. repeat split; auto. apply Z.ltb_ge. lia.
  - replace (skipped <? toSkip) with true by (symmetry; apply Z.ltb_lt; lia).
    destruct innerRest as [|value innerRest].
    + inner_next_nil H i' E H'. rewrite E. cbn [negb].
      destruct fuel as [|fuel]; [lia|]. cbn [SkipIterator_skipValues_loop].
      rewrite Z.ltb_irrefl.
      exists i', toSkip. repeat split; auto using Z.ltb_irrefl. destruct d; exact H'.
    + inner_next_cons H i' E H'. rewrite E. cbn [negb].
      destruct (IH fuel i' (skipped + 1) (Some value) innerRest ltac:(lia) ltac:(lia) H')
        as (i'' & k & El & Hk & Hr).
      exists i'', k. repeat split; auto.
      destruct d as [|d']; cbn [nth_error skipn] in *.
      * destruct Hr as [Hr _]. exact Hr.
      * exact Hr.
Qed.

Lemma SkipIterator_skipValues_done : forall (this : SkipIterator I) toSkip current rest,
  skip_toSkip this = Some toSkip -> (skip_skipped this <? toSkip) = false ->
  RepI (skip_innerIterator this) current rest ->
  exists i,
    SkipIterator_skipValues this
    = {| skip_innerIterator := i; skip_toSkip := Some toSkip; skip_skipped := skip_skipped this |}
    /\ RepI i current rest.
Proof.
  intros [i toSkip' skipped] toSkip current rest E Hs H.
  cbn [skip_toSkip skip_skipped skip_innerIterator] in *. subst toSkip'.
  unfold SkipIterator_skipValues. cbn [skip_toSkip skip_skipped skip_innerIterator].
  apply Z.ltb_ge in Hs.
  destruct (SkipIterator_skipValues_loop_spec toSkip O (S (Z.to_nat (toSkip - skipped))) i skipped
              current rest ltac:(lia) ltac:(lia) H) as (i' & k & El & Hk & Hr & ->).
  rewrite El. exists i'. auto.
Qed.

Lemma SkipIterator_skipValues_pending : forall (this : SkipIterator I) toSkip current rest,
  skip_toSkip this = Some toSkip -> (skip_skipped this <? toSkip) = true ->
  RepI (skip_innerIterator this) current rest ->
  exists i skipped,
    SkipIterator_skipValues this
    = {| skip_innerIterator := i; skip_toSkip := Some toSkip; skip_skipped := skipped |}
    /\ (skipped <? toSkip) = false
    /\ RepI i (nth_error rest (pred (Z.to_nat (toSkip - skip_skipped this))))
         (skipn (Z.to_nat (toSkip - skip_skipped this)) rest).
Proof.
  intros [i toSkip' skipped] toSkip current rest E Hs H.
  cbn [skip_toSkip skip_skipped skip_innerIterator] in *. subst toSkip'.
  unfold SkipIterator_skipValues. cbn [skip_toSkip skip_skipped skip_innerIterator].
  apply Z.ltb_lt in Hs.
  destruct (SkipIterator_skipValues_loop_spec toSkip (Z.to_nat (toSkip - skipped))
              (S (Z.to_nat (toSkip - skipped))) i skipped
              current rest eq_refl ltac:(lia) H) as (i' & k & El & Hk & Hr).
  rewrite El. exists i', k. repeat split; auto.
  destruct (Z.to_nat (toSkip - skipped)) as [|d] eqn:Ed; [lia|]. exact Hr.
Qed.

Lemma SkipIterator_base :
  LawfulBase undefined SkipIterator_hasCurrent SkipIterator_next SkipIterator_getCurrent
    (fun this => remaining (skip_innerIterator this)) (SkipIterator_Rep RepI).
Proof.
  constructor; intros [i [toSkip|] skipped] current rest; unfold SkipIterator_Rep;
    cbn [skip_toSkip skip_skipped skip_innerIterator]; intros H.
  - (* hasCurrent, a number to skip *)
    unfold SkipIterator_hasCurrent, SkipIterator_super_hasCurrent.
    cbn [skip_toSkip skip_skipped skip_innerIterator].
    destruct (skipped <? toSkip) eqn:Es.
    + destruct H as (innerRest & H & -> & ->).
      inner_hasCurrent H i' E H'. rewrite E. cbn [isDefined skip_innerIterator skip_toSkip skip_skipped].
      inner_hasCurrent H' i'' E' H''. rewrite E'.
      cbn [fst snd isDefined skip_innerIterator skip_toSkip skip_skipped]. rewrite Es.
      split; [reflexivity|]. exists innerRest. auto.
    + inner_hasCurrent H i' E H'. rewrite E.
      destruct (SkipIterator_skipValues_done
                  {| skip_innerIterator := i'; skip_toSkip := Some toSkip; skip_skipped := skipped |}
                  toSkip current rest eq_refl Es H') as (i2 & Esk & H2).
      assert (Hthis : RepI (skip_innerIterator
                (if isDefined current
                 then SkipIterator_skipValues
                        {| skip_innerIterator := i'; skip_toSkip := Some toSkip; skip_skipped := skipped |}
                 else {| skip_innerIterator := i'; skip_toSkip := Some toSkip; skip_skipped := skipped |}))
                current rest
              /\ skip_toSkip (if isDefined current
                 then SkipIterator_skipValues
                        {| skip_innerIterator := i'; skip_toSkip := Some toSkip; skip_skipped := skipped |}
                 else {| skip_innerIterator := i'; skip_toSkip := Some toSkip; skip_skipped := skipped |})
                 = Some toSkip
              /\ skip_skipped (if isDefined current
                 then SkipIterator_skipValues
                        {| skip_innerIterator := i'; skip_toSkip := Some toSkip; skip_skipped := skipped |}
                 else {| skip_innerIterator := i'; skip_toSkip := Some toSkip; skip_skipped := skipped |})
                 = skipped).
      { destruct (isDefined current); [rewrite Esk|]; cbn; auto. }
      destruct Hthis as (H3 & Et & Ek).
      inner_hasCurrent H3 i3 E3 H3'. rewrite E3.
      cbn [fst snd skip_innerIterator skip_toSkip skip_skipped]. rewrite Et, Ek, Es. auto.
  - (* hasCurrent, nothing to skip *)
    unfold SkipIterator_hasCurrent, SkipIterator_super_hasCurrent, SkipIterator_skipValues.
    cbn [skip_toSkip skip_skipped skip_innerIterator].
    inner_hasCurrent H i' E H'. inner_hasCurrent H' i'' E' H''. rewrite E.
    destruct (isDefined current); cbn [skip_toSkip skip_skipped skip_innerIterator];
      rewrite E'; cbn [fst snd skip_innerIterator skip_toSkip skip_skipped]; auto.
  - (* getCurrent, a number to skip *)
    unfold SkipIterator_getCurrent, SkipIterator_super_hasCurrent, SkipIterator_super_getCurrent.
    cbn [skip_toSkip skip_skipped skip_innerIterator].
    destruct (skipped <? toSkip) eqn:Es.
    + destruct H as (innerRest & H & -> & ->).
      inner_hasCurrent H i' E H'. rewrite E. cbn [isDefined skip_innerIterator skip_toSkip skip_skipped].
      inner_getCurrent H' i'' E' H''. rewrite E'.
      cbn [fst snd isDefined skip_innerIterator skip_toSkip skip_skipped]. rewrite Es.
      split; [reflexivity|]. exists innerRest. auto.
    + inner_hasCurrent H i' E H'. rewrite E.
      destruct (SkipIterator_skipValues_done
                  {| skip_innerIterator := i'; skip_toSkip := Some toSkip; skip_skipped := skipped |}
                  toSkip current rest eq_refl Es H') as (i2 & Esk & H2).
      assert (Hthis : exists i3,
                (if isDefined current
                 then SkipIterator_skipValues
                        {| skip_innerIterator := i'; skip_toSkip := Some toSkip; skip_skipped := skipped |}
                 else {| skip_innerIterator := i'; skip_toSkip := Some toSkip; skip_skipped := skipped |})
                = {| skip_innerIterator := i3; skip_toSkip := Some toSkip; skip_skipped := skipped |}
                /\ RepI i3 current rest).
      { destruct (isDefined current); [rewrite Esk|]; eauto. }
      destruct Hthis as (i3 & -> & H3). cbn [skip_innerIterator skip_toSkip skip_skipped].
      inner_getCurrent H3 i4 E4 H4. rewrite E4.
      cbn [fst snd skip_innerIterator skip_toSkip skip_skipped]. rewrite Es. auto.
  - (* getCurrent, nothing to skip *)
    unfold SkipIterator_getCurrent, SkipIterator_super_hasCurrent, SkipIterator_super_getCurrent,
      SkipIterator_skipValues.
    cbn [skip_toSkip skip_skipped skip_innerIterator].
    inner_hasCurrent H i' E H'. inner_getCurrent H' i'' E' H''. rewrite E.
    destruct (isDefined current); cbn [skip_toSkip skip_skipped skip_innerIterator];
      rewrite E'; cbn [fst snd skip_innerIterator skip_toSkip skip_skipped]; auto.
  - (* next, a number to skip *)
    unfold SkipIterator_next, SkipIterator_super_next.
    destruct (skipped <? toSkip) eqn:Es.
    + destruct H as (innerRest & H & -> & ->).
      destruct (SkipIterator_skipValues_pending
                  {| skip_innerIterator := i; skip_toSkip := Some toSkip; skip_skipped := skipped |}
                  toSkip None innerRest eq_refl Es H) as (i2 & k & -> & Hk & H2).
      cbn [skip_innerIterator skip_toSkip skip_skipped] in *.
      destruct (skipn (Z.to_nat (toSkip - skipped)) innerRest) as [|value rest].
      * inner_next_nil H2 i3 E3 H3. rewrite E3.
        cbn [fst snd skip_innerIterator skip_toSkip skip_skipped]. rewrite Hk. auto.
      * inner_next_cons H2 i3 E3 H3. rewrite E3.
        cbn [fst snd skip_innerIterator skip_toSkip skip_skipped]. rewrite Hk. auto.
    + destruct (SkipIterator_skipValues_done
                  {| skip_innerIterator := i; skip_toSkip := Some toSkip; skip_skipped := skipped |}
                  toSkip current rest eq_refl Es H) as (i2 & -> & H2).
      cbn [skip_innerIterator skip_toSkip skip_skipped] in *.
      destruct rest as [|value rest].
      * inner_next_nil H2 i3 E3 H3. rewrite E3.
        cbn [fst snd skip_innerIterator skip_toSkip skip_skipped]. rewrite Es. auto.
      * inner_next_cons H2 i3 E3 H3. rewrite E3.
        cbn [fst snd skip_innerIterator skip_toSkip skip_skipped]. rewrite Es. auto.
  - (* next, nothing to skip *)
    unfold SkipIterator_next, SkipIterator_super_next, SkipIterator_skipValues.
    cbn [skip_toSkip skip_skipped skip_innerIterator].
    destruct rest as [|value rest].
    + inner_next_nil H i3 E3 H3. rewrite E3.
      cbn [fst snd skip_innerIterator skip_toSkip skip_skipped]. auto.
    + inner_next_cons H i3 E3 H3. rewrite E3.
      cbn [fst snd skip_innerIterator skip_toSkip skip_skipped]. auto.
  - destruct (skipped <? toSkip).
    + destruct H as (innerRest & H & -> & ->).
      pose proof (law_remaining undefined _ _ _ _ _ innerBase _ _ _ H).
      rewrite length_skipn. lia.
    + exact (law_remaining undefined _ _ _ _ _ innerBase _ _ _ H).
  - exact (law_remaining undefined _ _ _ _ _ innerBase _ _ _ H).
Qed.

Lemma SkipIterator_lawful : Lawful undefined SkipIterator_Iterator (SkipIterator_Rep RepI).
Proof. apply IteratorBase_lawful. exact SkipIterator_base. Qed.

(** *** TakeIterator *)

Lemma TakeIterator_base :
  LawfulBase undefined TakeIterator_hasCurrent TakeIterator_next (TakeIterator_getCurrent undefined)
    (fun this => remaining (take_innerIterator this)) (TakeIterator_Rep RepI).
Proof.
  constructor; intros [i toTake taken] current rest; unfold TakeIterator_Rep;
    cbn [take_toTake take_taken take_innerIterator]; intros (innerCurrent & innerRest & H & Hview).
  - unfold TakeIterator_hasCurrent, TakeIterator_canTakeValue, lessOrEqual.
    cbn [take_toTake take_taken take_innerIterator].
    inner_hasCurrent H i' E H'. rewrite E. cbn [fst snd take_toTake take_taken take_innerIterator].
    split; [|exists innerCurrent, innerRest; auto].
    destruct toTake as [toTake|]; cbn [isDefined andb].
    + destruct (taken <=? toTake); destruct Hview as (-> & _);
        [rewrite andb_true_r|rewrite andb_false_r]; reflexivity.
    + destruct Hview as (-> & _). rewrite andb_false_r. reflexivity.
  - unfold TakeIterator_getCurrent, TakeIterator_hasCurrent, TakeIterator_canTakeValue, lessOrEqual.
    cbn [take_toTake take_taken take_innerIterator].
    inner_hasCurrent H i' E H'. rewrite E. cbn [fst snd take_toTake take_taken take_innerIterator].
    inner_getCurrent H' i'' E' H''.
    destruct toTake as [toTake|]; cbn [isDefined andb].
    + destruct (taken <=? toTake) eqn:Et; destruct Hview as (-> & ->).
      * rewrite andb_true_r. destruct innerCurrent; cbn [isDefined].
        -- cbn [take_innerIterator take_toTake take_taken]. rewrite E'. cbn [fst snd].
           split; [reflexivity|]. eexists _, _. split; [exact H''|].
           cbn [take_toTake take_taken]. rewrite Et. auto.
        -- cbn [fst snd]. split; [reflexivity|]. eexists _, _. split; [exact H'|].
           cbn [take_toTake take_taken]. rewrite Et. auto.
      * rewrite andb_false_r. cbn [fst snd]. split; [reflexivity|].
        eexists _, _. split; [exact H'|]. cbn [take_toTake take_taken]. rewrite Et. auto.
    + destruct Hview as (-> & ->). rewrite andb_false_r. cbn [fst snd]. split; [reflexivity|].
      eexists _, _. split; [exact H'|]. cbn [take_toTake take_taken]. auto.
  - unfold TakeIterator_next, TakeIterator_hasCurrent, TakeIterator_canTakeValue, lessOrEqual.
    cbn [take_toTake take_taken take_innerIterator].
    destruct toTake as [toTake|]; cbn [isDefined andb].
    + destruct (taken <=? toTake) eqn:Et.
      * apply Z.leb_le in Et. destruct Hview as (-> & ->).
        cbn [take_toTake take_taken take_innerIterator].
        destruct innerRest as [|value innerRest].
        -- inner_next_nil H i' E H'. rewrite E. cbn [snd].
           inner_hasCurrent H' i'' E' H''. rewrite E'.
           rewrite firstn_nil. cbn [fst snd isDefined andb]. split; [reflexivity|].
           exists None, []. split; [exact H''|]. cbn [take_toTake take_taken].
           rewrite firstn_nil. destruct (taken + 1 <=? toTake); auto.
        -- inner_next_cons H i' E H'. rewrite E. cbn [snd].
           inner_hasCurrent H' i'' E' H''. rewrite E'. cbn [fst snd isDefined andb].
           destruct (taken + 1 <=? toTake) eqn:Et'.
           ++ apply Z.leb_le in Et'.
              replace (Z.to_nat (toTake - taken)) with (S (Z.to_nat (toTake - (taken + 1)))) by lia.
              cbn [firstn]. split; [reflexivity|].
              exists (Some value), innerRest. split; [exact H''|]. cbn [take_toTake take_taken].
              replace (taken + 1 <=? toTake) with true by (symmetry; apply Z.leb_le; lia). auto.
           ++ apply Z.leb_gt in Et'.
              replace (Z.to_nat (toTake - taken)) with O by lia.
              cbn [firstn]. split; [reflexivity|].
              exists (Some value), innerRest. split; [exact H''|]. cbn [take_toTake take_taken].
              replace (taken + 1 <=? toTake) with false by (symmetry; apply Z.leb_gt; lia). auto.
      * destruct Hview as (-> & ->). cbn [take_toTake take_taken take_innerIterator].
        inner_hasCurrent H i' E H'. rewrite E. cbn [fst snd take_toTake take_taken isDefined].
        rewrite Et, andb_false_r. split; [reflexivity|].
        exists innerCurrent, innerRest. split; [exact H'|]. cbn [take_toTake take_taken].
        try rewrite Et. auto.
    + destruct Hview as (-> & ->). cbn [take_toTake take_taken take_innerIterator].
      inner_hasCurrent H i' E H'. rewrite E. cbn [fst snd take_toTake take_taken isDefined].
      rewrite andb_false_r. split; [reflexivity|].
      exists innerCurrent, innerRest. split; [exact H'|]. cbn [take_toTake take_taken]. auto.
  - pose proof (law_remaining undefined _ _ _ _ _ innerBase _ _ _ H) as Hlen.
    destruct toTake as [toTake|]; [destruct (taken <=? toTake)|]; destruct Hview as (-> & ->);
      cbn [length]; try lia.
    rewrite length_firstn. lia.
Qed.

Lemma TakeIterator_lawful :
  Lawful undefined (TakeIterator_Iterator undefined) (TakeIterator_Rep RepI).
Proof. apply IteratorBase_lawful. exact TakeIterator_base. Qed.

(** *** MapIterator *)

Lemma foreach_list_map : forall (A : Type) (g : T -> A -> A * bool) (f : T -> T) values (a : A),
  foreach_list (fun innerValue a => g (f innerValue) a) values a = foreach_list g (map f values) a.
Proof.
  intros A g f. induction values as [|value values IH]; intros a; cbn [foreach_list map].
  - reflexivity.
  - destruct (g (f value) a) as [a' broken]. destruct broken; [reflexivity|apply IH].
Qed.

Lemma MapIterator_lawful :
  Lawful undefined (MapIterator_Iterator undefined) (MapIterator_Rep RepI).
Proof.
  constructor; [constructor|..]; cbn [hasCurrent next getCurrent remaining getCount foreach
    MapIterator_Iterator].
  - intros [i [f|] started] current rest; unfold MapIterator_Rep, MapIterator_hasCurrent;
      cbn [map_mapFunction map_innerIterator map_started].
    + intros (innerCurrent & innerRest & H & -> & ->).
      inner_hasCurrent H i' E H'. rewrite E. cbn [fst snd map_mapFunction map_innerIterator].
      split; [destruct innerCurrent; reflexivity|]. exists innerCurrent, innerRest. auto.
    + intros (-> & ->). cbn [fst snd map_mapFunction]. auto.
  - intros [i [f|] started] current rest;
      unfold MapIterator_Rep, MapIterator_getCurrent, MapIterator_hasCurrent;
      cbn [map_mapFunction map_innerIterator map_started].
    + intros (innerCurrent & innerRest & H & -> & ->).
      inner_hasCurrent H i' E H'. rewrite E. inner_getCurrent H' i'' E' H''.
      destruct innerCurrent as [value|]; cbn [isDefined map_mapFunction map_innerIterator].
      * rewrite E'. cbn [fst snd map_mapFunction map_innerIterator currentOr option_map].
        split; [reflexivity|]. exists (Some value), innerRest. auto.
      * cbn [fst snd map_mapFunction map_innerIterator currentOr option_map].
        split; [reflexivity|]. exists None, innerRest. auto.
    + intros (-> & ->). cbn [fst snd map_mapFunction]. auto.
  - intros [i [f|] started] current rest; unfold MapIterator_Rep, MapIterator_next;
      cbn [map_mapFunction map_innerIterator map_started isDefined].
    + intros (innerCurrent & innerRest & H & -> & ->).
      destruct innerRest as [|value innerRest]; cbn [map].
      * inner_next_nil H i' E H'. rewrite E. cbn [fst snd map_mapFunction map_innerIterator].
        split; [reflexivity|]. exists None, []. auto.
      * inner_next_cons H i' E H'. rewrite E. cbn [fst snd map_mapFunction map_innerIterator].
        split; [reflexivity|]. exists (Some value), innerRest. auto.
    + intros (-> & ->). cbn [fst snd map_mapFunction]. auto.
  - intros [i [f|] started] current rest; unfold MapIterator_Rep;
      cbn [map_mapFunction map_innerIterator map_started].
    + intros (innerCurrent & innerRest & H & -> & ->). rewrite length_map.
      exact (law_remaining undefined _ _ _ _ _ innerBase _ _ _ H).
    + intros (-> & ->). cbn [length]. lia.
  - intros [i [f|] started] current rest; unfold MapIterator_Rep, MapIterator_getCount;
      cbn [map_mapFunction map_innerIterator map_started isDefined].
    + intros (innerCurrent & innerRest & H & -> & ->).
      pose proof (lawful_getCount _ _ _ innerLawful _ _ _ H) as Hcount.
      destruct (getCount i) as [result i']. cbn [fst] in *. rewrite Hcount.
      destruct innerCurrent; cbn [withCurrent option_map length]; rewrite length_map; reflexivity.
    + intros (-> & ->). reflexivity.
  - intros A g [i [f|] started] a current rest; unfold MapIterator_Rep, MapIterator_foreach;
      cbn [map_mapFunction map_innerIterator map_started].
    + intros (innerCurrent & innerRest & H & -> & ->).
      pose proof (lawful_foreach _ _ _ innerLawful A (fun innerValue a => g (f innerValue) a)
                    _ a _ _ H) as Hfor.
      destruct (foreach A (Some (fun innerValue a0 => g (f innerValue) a0)) i a) as [a' i'].
      cbn [fst] in *. rewrite Hfor, foreach_list_map.
      destruct innerCurrent; reflexivity.
    + intros (-> & ->). reflexivity.
Qed.

End DecoratorLaws.

Section ConcatenateLaws.

Context {T : Type}.
Variable undefined : T.
Context {I1 I2 : Type} {first : Iterator (T := T) I1} {second : Iterator (T := T) I2}.
Variable Rep1 : I1 -> option T -> list T -> Prop.
Variable Rep2 : I2 -> option T -> list T -> Prop.
Hypothesis firstLawful : Lawful undefined first Rep1.
Hypothesis secondLawful : Lawful undefined second Rep2.

Let firstBase := lawful_base _ _ _ firstLawful.
Let secondBase := lawful_base _ _ _ secondLawful.

Lemma ConcatenateIterator_base :
  LawfulBase undefined ConcatenateIterator_hasCurrent ConcatenateIterator_next
    ConcatenateIterator_getCurrent
    (fun this => (remaining (concatenate_first this) + remaining (concatenate_second this))%nat)
    (ConcatenateIterator_Rep Rep1 Rep2).
Proof.
  constructor; intros [f s] current rest; unfold ConcatenateIterator_Rep;
    cbn [concatenate_first concatenate_second];
    intros [(rest1 & rest2 & H1 & H2 & ->) | (H1 & H2)].
  - unfold ConcatenateIterator_hasCurrent. cbn [concatenate_first concatenate_second].
    destruct (law_hasCurrent undefined _ _ _ _ _ firstBase _ _ _ H1) as (f' & E1 & H1').
    destruct (law_hasCurrent undefined _ _ _ _ _ secondBase _ _ _ H2) as (s' & E2 & H2').
    rewrite E1. destruct current; cbn [isDefined].
    + cbn [fst snd concatenate_first concatenate_second]. split; [reflexivity|].
      left. exists rest1, rest2. auto.
    + rewrite E2. cbn [fst snd isDefined concatenate_first concatenate_second].
      split; [reflexivity|]. left. exists rest1, rest2. auto.
  - unfold ConcatenateIterator_hasCurrent. cbn [concatenate_first concatenate_second].
    destruct (law_hasCurrent undefined _ _ _ _ _ firstBase _ _ _ H1) as (f' & E1 & H1').
    destruct (law_hasCurrent undefined _ _ _ _ _ secondBase _ _ _ H2) as (s' & E2 & H2').
    rewrite E1. cbn [isDefined]. rewrite E2. cbn [fst snd concatenate_first concatenate_second].
    auto.
  - unfold ConcatenateIterator_getCurrent. cbn [concatenate_first concatenate_second].
    destruct (law_hasCurrent undefined _ _ _ _ _ firstBase _ _ _ H1) as (f' & E1 & H1').
    destruct (law_getCurrent undefined _ _ _ _ _ firstBase _ _ _ H1') as (f'' & E1' & H1'').
    destruct (law_getCurrent undefined _ _ _ _ _ secondBase _ _ _ H2) as (s' & E2 & H2').
    rewrite E1. destruct current; cbn [isDefined].
    + rewrite E1'. cbn [fst snd concatenate_first concatenate_second]. split; [reflexivity|].
      left. exists rest1, rest2. auto.
    + rewrite E2. cbn [fst snd concatenate_first concatenate_second]. split; [reflexivity|].
      left. exists rest1, rest2. auto.
  - unfold ConcatenateIterator_getCurrent. cbn [concatenate_first concatenate_second].
    destruct (law_hasCurrent undefined _ _ _ _ _ firstBase _ _ _ H1) as (f' & E1 & H1').
    destruct (law_getCurrent undefined _ _ _ _ _ secondBase _ _ _ H2) as (s' & E2 & H2').
    rewrite E1. cbn [isDefined]. rewrite E2. cbn [fst snd concatenate_first concatenate_second].
    auto.
  - unfold ConcatenateIterator_next. cbn [concatenate_first concatenate_second].
    destruct rest1 as [|value rest1]; cbn [app].
    + destruct (law_next_nil undefined _ _ _ _ _ firstBase _ _ H1) as (f' & E1 & H1').
      rewrite E1. destruct rest2 as [|value rest2].
      * destruct (law_next_nil undefined _ _ _ _ _ secondBase _ _ H2) as (s' & E2 & H2').
        rewrite E2. cbn [fst snd concatenate_first concatenate_second]. auto.
      * destruct (law_next_cons undefined _ _ _ _ _ secondBase _ _ _ _ H2) as (s' & E2 & H2').
        rewrite E2. cbn [fst snd concatenate_first concatenate_second]. auto.
    + destruct (law_next_cons undefined _ _ _ _ _ firstBase _ _ _ _ H1) as (f' & E1 & H1').
      rewrite E1. cbn [fst snd concatenate_first concatenate_second]. split; [reflexivity|].
      left. exists rest1, rest2. auto.
  - unfold ConcatenateIterator_next. cbn [concatenate_first concatenate_second].
    destruct (law_next_nil undefined _ _ _ _ _ firstBase _ _ H1) as (f' & E1 & H1').
    rewrite E1. destruct rest as [|value rest].
    + destruct (law_next_nil undefined _ _ _ _ _ secondBase _ _ H2) as (s' & E2 & H2').
      rewrite E2. cbn [fst snd concatenate_first concatenate_second]. auto.
    + destruct (law_next_cons undefined _ _ _ _ _ secondBase _ _ _ _ H2) as (s' & E2 & H2').
      rewrite E2. cbn [fst snd concatenate_first concatenate_second]. auto.
  - pose proof (law_remaining undefined _ _ _ _ _ firstBase _ _ _ H1).
    pose proof (law_remaining undefined _ _ _ _ _ secondBase _ _ _ H2).
    rewrite length_app. lia.
  - pose proof (law_remaining undefined _ _ _ _ _ secondBase _ _ _ H2). lia.
Qed.

Lemma ConcatenateIterator_lawful :
  Lawful undefined ConcatenateIterator_Iterator (ConcatenateIterator_Rep Rep1 Rep2).
Proof. apply IteratorBase_lawful. exact ConcatenateIterator_base. Qed.

End ConcatenateLaws.

(** ** Every iterator object is lawful *)

Section ObjectLaws.

Context {T : Type}.
Variable undefined : T.

Lemma Rep_lawful : forall c : IteratorClass, Lawful undefined (methods undefined c) (Rep undefined c).
Proof.
  induction c as [| | |c IH|c IH|c IH|c IH|c1 IH1 c2 IH2]; cbn [methods Rep instanceOf].
  - apply IteratorBase_lawful, ArrayListForwardIterator_base.
  - apply IteratorBase_lawful, ArrayListReverseIterator_base.
  - apply IteratorBase_lawful, StringIterator_base.
  - apply WhereIterator_lawful, IH.
  - apply SkipIterator_lawful, IH.
  - apply TakeIterator_lawful, IH.
  - apply MapIterator_lawful, IH.
  - apply ConcatenateIterator_lawful; assumption.
Qed.

Lemma foreach_list_push : forall (values result : list T),
  foreach_list (fun value result => (result ++ [value], false)) values result = result ++ values.
Proof.
  induction values as [|value values IH]; intros result; cbn [foreach_list].
  - rewrite app_nil_r. reflexivity.
  - rewrite IH, <- app_assoc. reflexivity.
Qed.

(** [toArray], [getCount] and [foreach] of an iterator that has not been advanced. *)
Lemma Produces_toArray : forall (this : IteratorObject (T := T)) values,
  Produces undefined this values -> Iterator_toArray undefined this = values.
Proof.
  intros [c fields] values H. unfold Produces, Represents, Iterator_toArray, toArray in *.
  cbn [projT1 projT2] in *.
  rewrite (lawful_foreach _ _ _ (Rep_lawful c) (list T) _ fields [] None values H).
  cbn [withCurrent]. apply foreach_list_push.
Qed.

Lemma Produces_getCount : forall (this : IteratorObject (T := T)) values,
  Produces undefined this values -> Iterator_getCount undefined this = Z.of_nat (length values).
Proof.
  intros [c fields] values H. unfold Produces, Represents, Iterator_getCount in *.
  cbn [projT1 projT2] in *.
  exact (lawful_getCount _ _ _ (Rep_lawful c) fields None values H).
Qed.

Lemma Produces_foreach : forall (A : Type) (f : T -> A -> A * bool)
    (this : IteratorObject (T := T)) values (a : A),
  Produces undefined this values ->
  Iterator_foreach undefined this (Some f) a = foreach_list f values a.
Proof.
  intros A f [c fields] values a H. unfold Produces, Represents, Iterator_foreach in *.
  cbn [projT1 projT2] in *.
  exact (lawful_foreach _ _ _ (Rep_lawful c) A f fields a None values H).
Qed.

Lemma Produces_remaining : forall (this : IteratorObject (T := T)) values,
  Produces undefined this values -> (length values <= Iterator_remaining undefined this)%nat.
Proof.
  intros [c fields] values H. unfold Produces, Represents, Iterator_remaining in *.
  cbn [projT1 projT2] in *.
  exact (base_remaining _ _ _ _ _ _ (lawful_base _ _ _ (Rep_lawful c)) fields None values H).
Qed.

(** ** Iterables *)

Lemma Produces_where : forall (this : IteratorObject (T := T)) values condition,
  Produces undefined this values ->
  Produces undefined (Iterator_where undefined this (Some condition)) (filter condition values).
Proof.
  intros [c fields] values condition H. unfold Produces, Represents, Iterator_where, new_WhereIterator in *.
  cbn [projT1 projT2 object Rep] in *. unfold WhereIterator_Rep.
  cbn [where_condition where_innerIterator WhereIterator_constructor_loop].
  destruct (law_hasCurrent undefined _ _ _ _ _ (lawful_base _ _ _ (Rep_lawful c)) _ _ _ H)
    as (fields' & E & H').
  rewrite E. cbn [isDefined]. exists values. auto.
Qed.

Lemma Produces_skip : forall (this : IteratorObject (T := T)) values toSkip,
  Produces undefined this values ->
  Produces undefined (Iterator_skip this (Some toSkip)) (skipn (Z.to_nat toSkip) values).
Proof.
  intros [c fields] values toSkip H. unfold Produces, Represents, Iterator_skip, new_SkipIterator in *.
  cbn [projT1 projT2 object Rep] in *. unfold SkipIterator_Rep.
  cbn [skip_toSkip skip_skipped skip_innerIterator].
  destruct (0 <? toSkip) eqn:E.
  - exists values. rewrite Z.sub_0_r. auto.
  - apply Z.ltb_ge in E. replace (Z.to_nat toSkip) with O by lia. exact H.
Qed.

Lemma Produces_take : forall (this : IteratorObject (T := T)) values toTake,
  Produces undefined this values ->
  Produces undefined (Iterator_take undefined this (Some toTake)) (firstn (Z.to_nat toTake) values).
Proof.
  intros [c fields] values toTake H. unfold Produces, Represents, Iterator_take, new_TakeIterator in *.
  cbn [projT1 projT2 object Rep] in *.
  destruct (law_hasCurrent undefined _ _ _ _ _ (lawful_base _ _ _ (Rep_lawful c)) _ _ _ H)
    as (fields' & E & H').
  rewrite E. cbn [isDefined]. unfold TakeIterator_Rep.
  cbn [take_toTake take_taken take_innerIterator].
  exists None, values. split; [exact H'|].
  destruct (0 <=? toTake) eqn:Et.
  - rewrite Z.sub_0_r. auto.
  - apply Z.leb_gt in Et. replace (Z.to_nat toTake) with O by lia. auto.
Qed.

Lemma Produces_map : forall (this : IteratorObject (T := T)) values mapFunction,
  Produces undefined this values ->
  Produces undefined (Iterator_map undefined this (Some mapFunction)) (map mapFunction values).
Proof.
  intros [c fields] values mapFunction H. unfold Produces, Represents, Iterator_map, new_MapIterator in *.
  cbn [projT1 projT2 object Rep] in *. unfold MapIterator_Rep.
  cbn [map_mapFunction map_innerIterator]. exists None, values. auto.
Qed.

Lemma Produces_concatenate : forall (this toConcatenate : IteratorObject (T := T)) values1 values2,
  Produces undefined this values1 -> Produces undefined toConcatenate values2 ->
  Produces undefined (Iterator_concatenate this toConcatenate) (values1 ++ values2).
Proof.
  intros [c1 fields1] [c2 fields2] values1 values2 H1 H2.
  unfold Produces, Represents, Iterator_concatenate, new_ConcatenateIterator in *.
  cbn [projT1 projT2 object Rep] in *. left. exists values1, values2. auto.
Qed.

Lemma elementAt_seq_forward : forall (text : list T),
  map (fun k => elementAt undefined text (0 + Z.of_nat k)) (seq 0 (length text)) = text.
Proof.
  intros text. apply nth_error_ext. intros n.
  rewrite nth_error_map. destruct (nth_error text n) eqn:E.
  - assert (n < length text)%nat by (apply nth_error_Some; congruence).
    rewrite nth_error_seq. replace (n <? length text)%nat with true by (symmetry; apply Nat.ltb_lt; lia).
    cbn [option_map]. rewrite elementAt_nth_error by lia.
    replace (Z.to_nat (0 + Z.of_nat (0 + n))) with n by lia. rewrite E. reflexivity.
  - apply nth_error_None in E. rewrite nth_error_seq.
    replace (n <? length text)%nat with false by (symmetry; apply Nat.ltb_ge; lia). reflexivity.
Qed.

Lemma elementAt_seq_backward : forall (text : list T),
  map (fun k => elementAt undefined text (Z.of_nat (length text) - 1 - Z.of_nat k))
    (seq 0 (length text)) = rev text.
Proof.
  intros text. apply nth_error_ext. intros n.
  rewrite nth_error_map, nth_error_seq.
  destruct (n <? length text)%nat eqn:E.
  - apply Nat.ltb_lt in E. cbn [option_map]. rewrite elementAt_nth_error by lia.
    rewrite nth_error_rev.
    replace (n <? length text)%nat with true by (symmetry; apply Nat.ltb_lt; exact E).
    replace (Z.to_nat (Z.of_nat (length text) - 1 - Z.of_nat (0 + n))) with (length text - S n)%nat by lia.
    destruct (nth_error text (length text - S n)) eqn:En; [reflexivity|].
    apply nth_error_None in En. lia.
  - apply Nat.ltb_ge in E. cbn [option_map]. symmetry. apply nth_error_None.
    rewrite length_rev. exact E.
Qed.

Lemma Produces_StringIterable_iterate : forall text : list T,
  Produces undefined (Iterable_iterate undefined (StringIterable text)) text.
Proof.
  intros text. unfold Produces, Represents. cbn [Iterable_iterate projT1 projT2 object Rep].
  unfold new_StringIterator, StringIterator_Rep, StringIterator_pending, getLength.
  cbn [si_text si_startIndex si_endIndex si_currentIndex si_started si_step].
  replace (Z.of_nat (length text) >=? 0) with true by (symmetry; apply Z.geb_le; lia).
  cbn [Z.gtb Z.compare]. repeat split; auto.
  rewrite Z.sub_0_r, Nat2Z.id. symmetry. apply elementAt_seq_forward.
Qed.

Lemma Produces_StringIterable_iterateReverse : forall text : list T,
  Produces undefined (Iterable_iterateReverse undefined (StringIterable text)) (rev text).
Proof.
  intros text. unfold Produces, Represents. cbn [Iterable_iterateReverse projT1 projT2 object Rep].
  unfold new_StringIterator, StringIterator_Rep, StringIterator_pending, getLength.
  cbn [si_text si_startIndex si_endIndex si_currentIndex si_started si_step].
  destruct text as [|value text].
  - cbn. auto.
  - replace (-1 >=? Z.of_nat (length (value :: text)) - 1) with false
      by (symmetry; rewrite Z.geb_leb; apply Z.leb_gt; cbn [length]; lia).
    cbn [Z.gtb Z.compare]. repeat split; auto.
    replace (Z.to_nat (Z.of_nat (length (value :: text)) - 1 - -1)) with (length (value :: text))
      by lia.
    symmetry. apply elementAt_seq_backward.
Qed.

Lemma Iterable_iterate_elements : forall this : Iterable (T := T),
  Produces undefined (Iterable_iterate undefined this) (elements this).
Proof.
  induction this as [data|text|inner IH condition|inner IH toSkip|inner IH toTake
                     |inner IH mapFunction|first IH1 second IH2];
    cbn [Iterable_iterate elements].
  - unfold Produces, Represents. cbn. auto.
  - apply Produces_StringIterable_iterate.
  - apply Produces_where, IH.
  - apply Produces_skip, IH.
  - apply Produces_take, IH.
  - apply Produces_map, IH.
  - apply Produces_concatenate; assumption.
Qed.

Lemma Iterable_toArray_elements : forall this : Iterable (T := T),
  Iterable_toArray undefined this = elements this.
Proof. intros this. apply Produces_toArray, Iterable_iterate_elements. Qed.

Lemma Iterable_getCount_elements : forall this : Iterable (T := T),
  WellFormed this -> Iterable_getCount undefined this = Z.of_nat (length (elements this)).
Proof.
  induction this as [data|text|inner IH condition|inner IH toSkip|inner IH toTake
                     |inner IH mapFunction|first IH1 second IH2];
    cbn [Iterable_getCount WellFormed]; intros Hwf;
    try (apply Produces_getCount, Iterable_iterate_elements).
  - reflexivity.
  - destruct Hwf as [Hn Hwf]. rewrite (IH Hwf). cbn [elements]. rewrite length_skipn.
    destruct (Z.of_nat (length (elements inner)) <=? toSkip) eqn:E;
      [apply Z.leb_le in E|apply Z.leb_gt in E]; lia.
  - destruct Hwf as [Hn Hwf]. rewrite (IH Hwf). cbn [elements]. rewrite length_firstn.
    destruct (toTake <? Z.of_nat (length (elements inner))) eqn:E;
      [apply Z.ltb_lt in E|apply Z.ltb_ge in E]; lia.
  - rewrite (IH Hwf). cbn [elements]. rewrite length_map. reflexivity.
Qed.

Lemma Iterable_iterateReverse_elements : forall this : Iterable (T := T),
  WellFormed this ->
  Produces undefined (Iterable_iterateReverse undefined this) (rev (elements this)).
Proof.
  induction this as [data|text|inner IH condition|inner IH toSkip|inner IH toTake
                     |inner IH mapFunction|first IH1 second IH2];
    cbn [Iterable_iterateReverse elements WellFormed]; intros Hwf.
  - unfold Produces, Represents. cbn. auto.
  - apply Produces_StringIterable_iterateReverse.
  - rewrite <- filter_rev. apply Produces_where, IH, Hwf.
  - destruct Hwf as [Hn Hwf].
    pose proof (Produces_take _ _ (Iterable_getCount undefined (SkipIterable inner toSkip))
                  (IH Hwf)) as H.
    cbn [Iterable_getCount] in *. rewrite (Iterable_getCount_elements inner Hwf) in *.
    rewrite firstn_rev in H.
    replace (skipn (Z.to_nat toSkip) (elements inner))
      with (skipn (length (elements inner)
                   - Z.to_nat (if Z.of_nat (length (elements inner)) <=? toSkip then 0
                               else Z.of_nat (length (elements inner)) - toSkip))
              (elements inner)); [exact H|].
    destruct (Z.of_nat (length (elements inner)) <=? toSkip) eqn:E.
    + apply Z.leb_le in E. rewrite !skipn_all2 by lia. reflexivity.
    + apply Z.leb_gt in E. f_equal. lia.
  - destruct Hwf as [Hn Hwf].
    pose proof (Produces_skip _ _ (Iterable_getCount undefined inner - toTake) (IH Hwf)) as H.
    rewrite (Iterable_getCount_elements inner Hwf) in *. rewrite skipn_rev in H.
    replace (firstn (Z.to_nat toTake) (elements inner))
      with (firstn (length (elements inner)
                    - Z.to_nat (Z.of_nat (length (elements inner)) - toTake))
              (elements inner)); [exact H|].
    destruct (Z_le_gt_dec toTake (Z.of_nat (length (elements inner)))) as [E|E].
    + f_equal. lia.
    + rewrite !firstn_all2 by lia. reflexivity.
  - rewrite <- map_rev. apply Produces_map, IH, Hwf.
  - destruct Hwf as [Hwf1 Hwf2]. rewrite rev_app_distr.
    apply Produces_concatenate; auto.
Qed.

Lemma new_ArrayList_array : forall array : list T,
  new_ArrayList undefined (Some (inl array)) = ArrayList array.
Proof.
  intros array. cbn [new_ArrayList]. f_equal.
  assert (H : forall data, fold_left (fun data value => data ++ [value]) array data = data ++ array).
  { induction array as [|value array IH]; intros data; cbn [fold_left].
    - rewrite app_nil_r. reflexivity.
    - rewrite IH, <- app_assoc. reflexivity. }
  apply H.
Qed.

Lemma new_ArrayList_iterable : forall iterable : Iterable (T := T),
  new_ArrayList undefined (Some (inr iterable)) = ArrayList (elements iterable).
Proof.
  intros iterable. cbn [new_ArrayList Iterable_foreach]. f_equal.
  rewrite (Produces_foreach _ _ _ _ _ (Iterable_iterate_elements iterable)).
  apply foreach_list_push.
Qed.

(** ** The methods of iterator objects *)

Lemma Iterator_hasCurrent_spec : forall (this : IteratorObject (T := T)) current rest,
  Represents undefined this current rest ->
  exists this', Iterator_hasCurrent undefined this = (isDefined current, this')
                /\ Represents undefined this' current rest.
Proof.
  intros [c fields] current rest H. unfold Represents, Iterator_hasCurrent in *.
  cbn [projT1 projT2] in *.
  destruct (law_hasCurrent undefined _ _ _ _ _ (lawful_base _ _ _ (Rep_lawful c)) _ _ _ H)
    as (fields' & E & H').
  rewrite E. exists (object c fields'). auto.
Qed.

Lemma Iterator_getCurrent_spec : forall (this : IteratorObject (T := T)) current rest,
  Represents undefined this current rest ->
  exists this', Iterator_getCurrent undefined this = (currentOr undefined current, this')
                /\ Represents undefined this' current rest.
Proof.
  intros [c fields] current rest H. unfold Represents, Iterator_getCurrent in *.
  cbn [projT1 projT2] in *.
  destruct (law_getCurrent undefined _ _ _ _ _ (lawful_base _ _ _ (Rep_lawful c)) _ _ _ H)
    as (fields' & E & H').
  rewrite E. exists (object c fields'). auto.
Qed.

Lemma Iterator_next_nil : forall (this : IteratorObject (T := T)) current,
  Represents undefined this current [] ->
  exists this', Iterator_next undefined this = (false, this')
                /\ Represents undefined this' None [].
Proof.
  intros [c fields] current H. unfold Represents, Iterator_next in *.
  cbn [projT1 projT2] in *.
  destruct (law_next_nil undefined _ _ _ _ _ (lawful_base _ _ _ (Rep_lawful c)) _ _ H)
    as (fields' & E & H').
  rewrite E. exists (object c fields'). auto.
Qed.

Lemma Iterator_next_cons : forall (this : IteratorObject (T := T)) current value rest,
  Represents undefined this current (value :: rest) ->
  exists this', Iterator_next undefined this = (true, this')
                /\ Represents undefined this' (Some value) rest.
Proof.
  intros [c fields] current value rest H. unfold Represents, Iterator_next in *.
  cbn [projT1 projT2] in *.
  destruct (law_next_cons undefined _ _ _ _ _ (lawful_base _ _ _ (Rep_lawful c)) _ _ _ _ H)
    as (fields' & E & H').
  rewrite E. exists (object c fields'). auto.
Qed.

(** ** endsWith *)

Section EndsWith.

Variable strictEquals : T -> T -> bool.

Lemma Iterable_endsWith_loop_spec : forall lhs rhs fuel (a b : IteratorObject (T := T)) ca cb,
  Represents undefined a ca lhs -> Represents undefined b cb rhs ->
  length lhs = length rhs -> (length lhs < fuel)%nat ->
  Iterable_endsWith_loop undefined strictEquals fuel a b = allStrictEquals strictEquals lhs rhs.
Proof.
  induction lhs as [|x lhs IH]; intros [|y rhs] fuel a b ca cb Ha Hb Hlen Hfuel;
    try discriminate Hlen; (destruct fuel as [|fuel]; [cbn [length] in Hfuel; lia|]);
    cbn [Iterable_endsWith_loop allStrictEquals].
  - destruct (Iterator_next_nil _ _ Ha) as (a' & Ea & Ha').
    destruct (Iterator_next_nil _ _ Hb) as (b' & Eb & Hb').
    rewrite Ea, Eb. cbn [Bool.eqb].
    destruct (Iterator_hasCurrent_spec _ _ _ Ha') as (a'' & Ea' & Ha'').
    rewrite Ea'. reflexivity.
  - destruct (Iterator_next_cons _ _ _ _ Ha) as (a' & Ea & Ha').
    destruct (Iterator_next_cons _ _ _ _ Hb) as (b' & Eb & Hb').
    rewrite Ea, Eb. cbn [Bool.eqb].
    destruct (Iterator_hasCurrent_spec _ _ _ Ha') as (a'' & Ea' & Ha'').
    rewrite Ea'. cbn [isDefined].
    destruct (Iterator_getCurrent_spec _ _ _ Ha'') as (a3 & Ea3 & Ha3).
    destruct (Iterator_getCurrent_spec _ _ _ Hb') as (b3 & Eb3 & Hb3).
    rewrite Ea3, Eb3. cbn [currentOr].
    destruct (strictEquals x y); cbn [negb andb]; [|reflexivity].
    apply (IH rhs fuel a3 b3 (Some x) (Some y) Ha3 Hb3).
    + cbn [length] in Hlen. lia.
    + cbn [length] in Hfuel. lia.
Qed.

Lemma Iterable_takeLast_elements : forall (this : Iterable (T := T)) count,
  WellFormed this -> 0 < count ->
  elements (Iterable_takeLast undefined this (Some count))
  = lastValues (Z.to_nat count) (elements this).
Proof.
  intros this count Hwf Hcount. unfold Iterable_takeLast, truthy, lessThan, lastValues.
  replace (count =? 0) with false by (symmetry; apply Z.eqb_neq; lia).
  replace (count <? 0) with false by (symmetry; apply Z.ltb_ge; lia).
  cbn [negb orb]. rewrite (Iterable_getCount_elements this Hwf).
  destruct (Z.of_nat (length (elements this)) <=? count) eqn:E.
  - apply Z.leb_le in E.
    replace (length (elements this) - Z.to_nat count)%nat with O by lia. reflexivity.
  - apply Z.leb_gt in E. unfold Iterable_skip, truthy, lessThan.
    replace (Z.of_nat (length (elements this)) - count =? 0) with false
      by (symmetry; apply Z.eqb_neq; lia).
    replace (0 <? Z.of_nat (length (elements this)) - count) with true
      by (symmetry; apply Z.ltb_lt; lia).
    cbn [negb andb elements]. f_equal. lia.
Qed.

Lemma Iterable_endsWith_spec : forall (this values : Iterable (T := T)),
  WellFormed this -> WellFormed values ->
  Iterable_endsWith undefined strictEquals this (Some values)
  = negb (length (elements values) =? 0)%nat
    && (length (elements values) <=? length (elements this))%nat
    && allStrictEquals strictEquals
         (lastValues (length (elements values)) (elements this)) (elements values).
Proof.
  intros this values Hthis Hvalues. unfold Iterable_endsWith.
  rewrite (Iterable_getCount_elements this Hthis), (Iterable_getCount_elements values Hvalues).
  destruct (length (elements values)) as [|n] eqn:En.
  - reflexivity.
  - replace (Z.of_nat (S n) =? 0) with false by (symmetry; apply Z.eqb_neq; lia).
    cbn [Nat.eqb negb andb].
    destruct (Z.of_nat (length (elements this)) <? Z.of_nat (S n)) eqn:E.
    + apply Z.ltb_lt in E.
      replace (S n <=? length (elements this))%nat with false
        by (symmetry; apply Nat.leb_gt; lia).
      reflexivity.
    + apply Z.ltb_ge in E.
      replace (S n <=? length (elements this))%nat with true
        by (symmetry; apply Nat.leb_le; lia).
      cbn [andb].
      pose proof (Iterable_iterate_elements
                    (Iterable_takeLast undefined this (Some (Z.of_nat (S n))))) as Ha.
      rewrite (Iterable_takeLast_elements this (Z.of_nat (S n)) Hthis ltac:(lia)) in Ha.
      rewrite Nat2Z.id in Ha.
      pose proof (Iterable_iterate_elements values) as Hb.
      assert (Hlen : length (lastValues (S n) (elements this)) = length (elements values)).
      { unfold lastValues. rewrite length_skipn. lia. }
      apply (Iterable_endsWith_loop_spec _ _ _ _ _ None None Ha Hb Hlen).
      pose proof (Produces_remaining _ _ Ha). lia.
Qed.

End EndsWith.

End ObjectLaws.

(** * The claims about iterables *)

Section IterableClaims.

Context {T : Type}.
Variable undefined : T.
Variable strictEquals : T -> T -> bool.

Lemma allStrictEquals_Forall2 : forall lhs rhs : list T,
  allStrictEquals strictEquals lhs rhs = true
  <-> Forall2 (fun a b => strictEquals a b = true) lhs rhs.
Proof.
  induction lhs as [|a lhs IH]; intros [|b rhs]; cbn [allStrictEquals]; split; intros H;
    try discriminate; try (inversion H; fail); try constructor.
  - apply andb_true_iff in H. tauto.
  - apply IH. apply andb_true_iff in H. tauto.
  - inversion H; subst. apply andb_true_iff. split; [assumption|]. apply IH. assumption.
Qed.

(** C1, amended. For every iterable [x] and integer [n], [x.take(n).iterateReverse().toArray()]
    equals [x.iterateReverse().skip(x.getCount() - n).toArray()]; both are the
    first [n] values of [x] in reverse order. *)
Theorem C1_reverse_take_duality : forall (x : Iterable (T := T)) (n : Z),
  WellFormed x ->
  Iterator_toArray undefined (Iterable_iterateReverse undefined (Iterable_take undefined x (Some n)))
  = Iterator_toArray undefined
      (Iterator_skip (Iterable_iterateReverse undefined x)
         (Some (Iterable_getCount undefined x - n)))
  /\ Iterator_toArray undefined
       (Iterable_iterateReverse undefined (Iterable_take undefined x (Some n)))
     = rev (firstn (Z.to_nat n) (Iterable_toArray undefined x)).
Proof.
  intros x n Hwf. rewrite Iterable_toArray_elements.
  assert (Hskip : Iterator_toArray undefined
            (Iterator_skip (Iterable_iterateReverse undefined x)
               (Some (Iterable_getCount undefined x - n)))
          = rev (firstn (Z.to_nat n) (elements x))).
  { rewrite (Produces_toArray undefined _ _
               (Produces_skip undefined _ _ _ (Iterable_iterateReverse_elements undefined x Hwf))).
    rewrite (Iterable_getCount_elements undefined x Hwf), skipn_rev.
    destruct (Z_le_gt_dec n (Z.of_nat (length (elements x)))) as [E|E].
    - do 2 f_equal. lia.
    - rewrite !firstn_all2 by lia. reflexivity. }
  rewrite Hskip. unfold Iterable_take, truthy, lessThan.
  destruct (0 <? n) eqn:E.
  - apply Z.ltb_lt in E. replace (n =? 0) with false by (symmetry; apply Z.eqb_neq; lia).
    cbn [negb andb Iterable_iterateReverse]. rewrite Hskip. auto.
  - apply Z.ltb_ge in E. rewrite andb_false_r. cbn [new_ArrayList].
    replace (Z.to_nat n) with O by lia. cbn [firstn rev].
    split; apply (Produces_toArray undefined); unfold Produces, Represents; cbn; auto.
Qed.

(** C8. For every iterable [x] and every [n >= 0], [x.skip(n).toArray()] is
    [x.toArray()] without its first [n] values; it is empty when [n] is at
    least the length of [x], and nothing fails when [x] is shorter than [n]. *)
Theorem C8_skip_toArray : forall (x : Iterable (T := T)) (n : Z),
  0 <= n ->
  Iterable_toArray undefined (Iterable_skip x (Some n))
  = skipn (Z.to_nat n) (Iterable_toArray undefined x)
  /\ (Z.of_nat (length (Iterable_toArray undefined x)) <= n ->
      Iterable_toArray undefined (Iterable_skip x (Some n)) = []).
Proof.
  intros x n Hn.
  assert (H : Iterable_toArray undefined (Iterable_skip x (Some n))
              = skipn (Z.to_nat n) (Iterable_toArray undefined x)).
  { rewrite !Iterable_toArray_elements. unfold Iterable_skip, truthy, lessThan.
    destruct (0 <? n) eqn:E.
    - apply Z.ltb_lt in E. replace (n =? 0) with false by (symmetry; apply Z.eqb_neq; lia).
      reflexivity.
    - apply Z.ltb_ge in E. rewrite andb_false_r. replace (Z.to_nat n) with O by lia.
      reflexivity. }
  split; [exact H|]. intros Hlen. rewrite H. apply skipn_all2. lia.
Qed.

(** C9. For all iterables [x] and [y], [x.concatenate(y).toArray()] is
    [x.toArray()] followed by [y.toArray()], and [x.concatenate(y).iterateReverse()]
    produces the values of [y] in reverse order followed by the values of [x]
    in reverse order, which is what [y.iterateReverse()] followed by
    [x.iterateReverse()] produce. *)
Theorem C9_concatenate : forall x y : Iterable (T := T),
  WellFormed x -> WellFormed y ->
  Iterable_toArray undefined (Iterable_concatenate undefined x (Some (inr y)))
  = Iterable_toArray undefined x ++ Iterable_toArray undefined y
  /\ Iterator_toArray undefined
       (Iterable_iterateReverse undefined (Iterable_concatenate undefined x (Some (inr y))))
     = rev (Iterable_toArray undefined y) ++ rev (Iterable_toArray undefined x)
  /\ Iterator_toArray undefined
       (Iterable_iterateReverse undefined (Iterable_concatenate undefined x (Some (inr y))))
     = Iterator_toArray undefined (Iterable_iterateReverse undefined y)
       ++ Iterator_toArray undefined (Iterable_iterateReverse undefined x).
Proof.
  intros x y Hx Hy. unfold Iterable_concatenate, new_ConcatenateIterable.
  rewrite new_ArrayList_iterable, !Iterable_toArray_elements.
  assert (Hwf : WellFormed (ConcatenateIterable x (ArrayList (elements y))))
    by (cbn [WellFormed]; auto).
  rewrite (Produces_toArray undefined _ _ (Iterable_iterateReverse_elements undefined _ Hwf)).
  rewrite (Produces_toArray undefined _ _ (Iterable_iterateReverse_elements undefined _ Hx)).
  rewrite (Produces_toArray undefined _ _ (Iterable_iterateReverse_elements undefined _ Hy)).
  cbn [elements]. rewrite rev_app_distr. auto.
Qed.

(** C2. [x.endsWith(y)] is true exactly when [y] is present and not empty,
    [y.getCount() <= x.getCount()], and the last [y.getCount()] values of [x]
    are [===] to the values of [y], one by one; so it is false when [y] is
    absent, empty, or longer than [x]. *)
Theorem C2_endsWith : forall (x : Iterable (T := T)) (y : option Iterable),
  WellFormed x ->
  match y with Some values => WellFormed values | None => True end ->
  (Iterable_endsWith undefined strictEquals x y = true
   <-> exists values,
         y = Some values
         /\ Iterable_getCount undefined values <> 0
         /\ Iterable_getCount undefined values <= Iterable_getCount undefined x
         /\ Forall2 (fun a b => strictEquals a b = true)
              (lastValues (Z.to_nat (Iterable_getCount undefined values))
                 (Iterable_toArray undefined x))
              (Iterable_toArray undefined values))
  /\ (y = None -> Iterable_endsWith undefined strictEquals x y = false)
  /\ (forall values, y = Some values ->
        Iterable_getCount undefined values = 0
        \/ Iterable_getCount undefined x < Iterable_getCount undefined values ->
        Iterable_endsWith undefined strictEquals x y = false).
Proof.
  intros x [values|] Hx Hy.
  - rewrite (Iterable_endsWith_spec undefined strictEquals x values Hx Hy).
    pose proof (Iterable_getCount_elements undefined x Hx) as Ex.
    pose proof (Iterable_getCount_elements undefined values Hy) as Ey.
    split; [split|split].
    + intros H. apply andb_true_iff in H. destruct H as [H Hall].
      apply andb_true_iff in H. destruct H as [Hne Hle].
      apply negb_true_iff, Nat.eqb_neq in Hne. apply Nat.leb_le in Hle.
      exists values. rewrite !Iterable_toArray_elements, Ex, Ey. repeat split; try lia.
      rewrite Nat2Z.id. apply allStrictEquals_Forall2. exact Hall.
    + intros (values' & E & Hne & Hle & Hall). inversion E; subst values'.
      rewrite !Iterable_toArray_elements in Hall. rewrite Ex, Ey in *.
      rewrite Nat2Z.id in Hall.
      apply andb_true_iff. split; [apply andb_true_iff; split|].
      * apply negb_true_iff, Nat.eqb_neq. lia.
      * apply Nat.leb_le. lia.
      * apply allStrictEquals_Forall2. exact Hall.
    + discriminate.
    + intros values' E Hcase. inversion E; subst values'.
      rewrite Ex, Ey in Hcase.
      destruct Hcase as [H0|Hlt].
      * replace (length (elements values) =? 0)%nat with true
          by (symmetry; apply Nat.eqb_eq; lia).
        reflexivity.
      * replace (length (elements values) <=? length (elements x))%nat with false
          by (symmetry; apply Nat.leb_gt; lia).
        rewrite andb_false_r. reflexivity.
  - cbn [Iterable_endsWith]. split; [split|split].
    + discriminate.
    + intros (values & E & _). discriminate.
    + reflexivity.
    + intros values E. discriminate.
Qed.

End IterableClaims.

Lemma C1_reverse_take_duality_witness :
  WellFormed (SkipIterable (ArrayList (numbers [1; 2; 3; 4])) 1)
  /\ Iterator_toArray None
       (Iterable_iterateReverse None
          (Iterable_take None (SkipIterable (ArrayList (numbers [1; 2; 3; 4])) 1) (Some 2)))
     = numbers [3; 2].
Proof.
  split.
  - simpl. split; [lia|exact I].
  - rewrite (proj2 (C1_reverse_take_duality None
               (SkipIterable (ArrayList (numbers [1; 2; 3; 4])) 1) 2 (conj (Z.le_0_1) I))).
    reflexivity.
Defined.

(** C1, as written for every number [n], fails at the number that is not a
    number: [NaN] is falsy and no comparison with it holds, as [None] in
    [truthy] and [lessThan].  On the list [1, 2, 3], [take(NaN)] is the empty
    list, whereas [getCount() - NaN] is [NaN] again and [skip(NaN)] skips
    nothing. *)
Lemma C1_not_a_number_counterexample :
  Iterator_toArray None
    (Iterable_iterateReverse None (Iterable_take None (ArrayList (numbers [1; 2; 3])) None))
  = []
  /\ Iterator_toArray None
       (Iterator_skip (Iterable_iterateReverse None (ArrayList (numbers [1; 2; 3])))
          (number_minus (Some (Iterable_getCount None (ArrayList (numbers [1; 2; 3])))) None))
     = numbers [3; 2; 1]
  /\ Iterator_toArray None
       (Iterable_iterateReverse None (Iterable_take None (ArrayList (numbers [1; 2; 3])) None))
     <> Iterator_toArray None
          (Iterator_skip (Iterable_iterateReverse None (ArrayList (numbers [1; 2; 3])))
             (number_minus (Some (Iterable_getCount None (ArrayList (numbers [1; 2; 3]))))
                None)).
Proof.
  split; [vm_compute; reflexivity|split; [vm_compute; reflexivity|]].
  vm_compute. discriminate.
Qed.

Lemma C8_skip_toArray_witness :
  0 <= 2
  /\ Iterable_toArray None (Iterable_skip (ArrayList (numbers [1; 2; 3])) (Some 2)) = numbers [3].
Proof.
  split.
  - lia.
  - rewrite (proj1 (C8_skip_toArray None (ArrayList (numbers [1; 2; 3])) 2 ltac:(lia))).
    reflexivity.
Defined.

Lemma C9_concatenate_witness :
  WellFormed (ArrayList (numbers [1; 2])) /\ WellFormed (StringIterable (numbers [3; 4]))
  /\ Iterator_toArray None
       (Iterable_iterateReverse None
          (Iterable_concatenate None (ArrayList (numbers [1; 2]))
             (Some (inr (StringIterable (numbers [3; 4]))))))
     = numbers [4; 3; 2; 1].
Proof.
  split; [exact I|split; [exact I|]].
  rewrite (proj1 (proj2 (C9_concatenate None (ArrayList (numbers [1; 2]))
                           (StringIterable (numbers [3; 4])) I I))).
  reflexivity.
Defined.

Lemma C2_endsWith_witness :
  WellFormed (ArrayList (numbers [1; 2; 3]))
  /\ WellFormed (ArrayList (numbers [2; 3]))
  /\ Iterable_endsWith None number_strictEquals (ArrayList (numbers [1; 2; 3]))
       (Some (ArrayList (numbers [2; 3]))) = true.
Proof.
  split; [exact I|split; [exact I|]].
  apply (proj1 (C2_endsWith None number_strictEquals (ArrayList (numbers [1; 2; 3]))
                  (Some (ArrayList (numbers [2; 3]))) I I)).
  exists (ArrayList (numbers [2; 3])). repeat split.
  - discriminate.
  - discriminate.
  - repeat constructor.
Defined.

(** * The lexer *)

(** ** Characters *)

Lemma characters_length : forall text, length (characters text) = length text.
Proof. intros text. apply length_map. Qed.

Lemma characters_elementAt : forall text index unit,
  0 <= index -> nth_error text (Z.to_nat index) = Some unit ->
  elementAt None (characters text) index = Some [unit].
Proof.
  intros text index unit Hi Hn. rewrite elementAt_nth_error by exact Hi.
  unfold characters. rewrite nth_error_map, Hn. reflexivity.
Qed.

Lemma slice_empty : forall text index, slice text index index = [].
Proof. intros text index. unfold slice. rewrite Z.sub_diag. reflexivity. Qed.

Lemma slice_snoc : forall text from to unit,
  0 <= from <= to -> nth_error text (Z.to_nat to) = Some unit ->
  slice text from (to + 1) = slice text from to ++ [unit].
Proof.
  intros text from to unit Hi Hn. unfold slice.
  replace (Z.to_nat (to + 1 - from)) with (S (Z.to_nat (to - from))) by lia.
  rewrite firstn_S_nth_error. f_equal.
  rewrite nth_error_skipn. replace (Z.to_nat from + Z.to_nat (to - from))%nat with (Z.to_nat to) by lia.
  rewrite Hn. reflexivity.
Qed.

Lemma slice_one : forall text index unit,
  0 <= index -> nth_error text (Z.to_nat index) = Some unit ->
  slice text index (index + 1) = [unit].
Proof.
  intros text index unit Hi Hn. rewrite (slice_snoc text index index unit) by (auto; lia).
  rewrite slice_empty. reflexivity.
Qed.

Lemma slice_all : forall text, slice text 0 (Z.of_nat (length text)) = text.
Proof.
  intros text. unfold slice. cbn [Z.to_nat skipn]. rewrite Z.sub_0_r, Nat2Z.id.
  apply firstn_all.
Qed.

Lemma slice_app : forall text from middle to,
  0 <= from <= middle -> middle <= to ->
  slice text from middle ++ slice text middle to = slice text from to.
Proof.
  intros text from middle to H1 H2. unfold slice.
  replace (Z.to_nat (to - from)) with (Z.to_nat (middle - from) + Z.to_nat (to - middle))%nat by lia.
  rewrite firstn_plus. f_equal. rewrite skipn_skipn. do 2 f_equal. lia.
Qed.

Lemma isCase_character : forall unit label,
  isCase (Some [unit]) [label] = true -> unit = label.
Proof.
  intros unit label H. unfold isCase, string_strictEquals in H. cbn [jsstring_compare] in H.
  destruct (N.compare unit label) eqn:E; try discriminate. apply N.compare_eq_iff. exact E.
Qed.

(** ** One step of the cursor *)

Lemma Lexer_at_hasCurrentCharacter : forall text offset index lex,
  Lexer_hasCurrentCharacter (Lexer_at text offset index lex)
  = (index <? Z.of_nat (length text)).
Proof. reflexivity. Qed.

Lemma Lexer_at_getCurrentCharacter : forall text offset index lex unit,
  0 <= index -> nth_error text (Z.to_nat index) = Some unit ->
  Lexer_getCurrentCharacter (Lexer_at text offset index lex) = Some [unit].
Proof.
  intros text offset index lex unit Hi Hn.
  assert (Z.to_nat index < length text)%nat by (apply nth_error_Some; congruence).
  unfold Lexer_getCurrentCharacter, StringIterator_getCurrent, StringIterator_hasCurrent,
    StringIterator_hasStarted, StringIterator_hasMore, Lexer_at.
  cbn [_iterator si_text si_endIndex si_currentIndex si_started si_step fst snd Z.gtb Z.compare andb].
  replace (index <? Z.of_nat (length text)) with true by (symmetry; apply Z.ltb_lt; lia).
  apply characters_elementAt; assumption.
Qed.

Lemma Lexer_at_getCurrentCharacter_end : forall text offset index lex,
  Z.of_nat (length text) <= index ->
  Lexer_getCurrentCharacter (Lexer_at text offset index lex) = None.
Proof.
  intros text offset index lex Hi.
  unfold Lexer_getCurrentCharacter, StringIterator_getCurrent, StringIterator_hasCurrent,
    StringIterator_hasStarted, StringIterator_hasMore, Lexer_at.
  cbn [_iterator si_text si_endIndex si_currentIndex si_started si_step fst snd Z.gtb Z.compare andb].
  replace (index <? Z.of_nat (length text)) with false by (symmetry; apply Z.ltb_ge; lia).
  reflexivity.
Qed.

Lemma Lexer_at_nextCharacter : forall text offset index lex,
  index < Z.of_nat (length text) ->
  Lexer_nextCharacter (Lexer_at text offset index lex)
  = (index + 1 <? Z.of_nat (length text), Lexer_at text offset (index + 1) lex).
Proof.
  intros text offset index lex Hi.
  unfold Lexer_nextCharacter, StringIterator_next, StringIterator_hasMore, Lexer_at.
  cbn [_iterator si_text si_startIndex si_endIndex si_currentIndex si_started si_step
       _characterStartIndexOffset _currentLex negb Z.gtb Z.compare].
  replace (index <? Z.of_nat (length text)) with true by (symmetry; apply Z.ltb_lt; lia).
  cbn [si_text si_startIndex si_endIndex si_currentIndex si_started si_step Z.gtb Z.compare].
  reflexivity.
Qed.

Lemma Lexer_at_single : forall text offset index lex lex' unit,
  0 <= index -> nth_error text (Z.to_nat index) = Some unit ->
  _text lex' = Some [unit] -> _startIndex lex' = Some (index + offset) ->
  exists index',
    Lexer_single (Lexer_at text offset index lex) lex' = Lexer_at text offset index' (Some lex')
    /\ covers text offset index index' lex'.
Proof.
  intros text offset index lex lex' unit Hi Hn Htext Hstart.
  assert (Z.to_nat index < length text)%nat by (apply nth_error_Some; congruence).
  exists (index + 1). unfold Lexer_single.
  change (Lexer_setCurrentLex (Lexer_at text offset index lex) (Some lex'))
    with (Lexer_at text offset index (Some lex')).
  rewrite Lexer_at_nextCharacter by lia. cbn [snd]. split; [reflexivity|].
  unfold covers. rewrite (slice_one text index unit) by assumption. repeat split; auto; lia.
Qed.

(** ** Runs of letters and digits *)

Lemma Cursor_at_next : forall text index,
  index < Z.of_nat (length text) ->
  StringIterator_next (Cursor_at text index)
  = (index + 1 <? Z.of_nat (length text), Cursor_at text (index + 1)).
Proof.
  intros text index Hi.
  pose proof (Lexer_at_nextCharacter text 0 index None Hi) as H.
  unfold Lexer_nextCharacter in H. unfold Cursor_at.
  destruct (StringIterator_next (_iterator (Lexer_at text 0 index None))) as [more iterator].
  inversion H. reflexivity.
Qed.

Lemma Cursor_at_getCurrent : forall text index unit,
  0 <= index -> nth_error text (Z.to_nat index) = Some unit ->
  StringIterator_getCurrent None (Cursor_at text index) = (Some [unit], Cursor_at text index).
Proof.
  intros text index unit Hi Hn.
  pose proof (Lexer_at_getCurrentCharacter text 0 index None unit Hi Hn) as H.
  unfold Lexer_getCurrentCharacter in H. unfold Cursor_at.
  destruct (StringIterator_getCurrent None (_iterator (Lexer_at text 0 index None)))
    as [value iterator] eqn:E.
  cbn [fst] in H. subst value. unfold StringIterator_getCurrent in E. inversion E. reflexivity.
Qed.

Lemma readWhile_loop_Cursor_at : forall condition text fuel index result,
  0 <= index < Z.of_nat (length text) ->
  (Z.to_nat (Z.of_nat (length text) - index) <= fuel)%nat ->
  exists index',
    readWhile_loop fuel condition (Some result) (Cursor_at text index)
    = (Some (result ++ slice text (index + 1) index'), Cursor_at text index')
    /\ index < index' <= Z.of_nat (length text).
Proof.
  intros condition text. induction fuel as [|fuel IH]; intros index result Hi Hfuel; [lia|].
  cbn [readWhile_loop next getCurrent Lexer_characterIterator StringIterator_Iterator IteratorBase].
  rewrite Cursor_at_next by lia.
  destruct (index + 1 <? Z.of_nat (length text)) eqn:Emore.
  - apply Z.ltb_lt in Emore.
    destruct (nth_error text (Z.to_nat (index + 1))) as [unit|] eqn:En;
      [|apply nth_error_None in En; lia].
    rewrite (Cursor_at_getCurrent text (index + 1) unit) by (auto; lia).
    destruct (condition (Some [unit])).
    + rewrite (Cursor_at_getCurrent text (index + 1) unit) by (auto; lia).
      change (string_plus (Some result) (Some [unit])) with (Some (result ++ [unit])).
      destruct (IH (index + 1) (result ++ [unit])) as (index' & E & Hi'); [lia|lia|].
      exists index'. split; [|lia].
      transitivity (Some ((result ++ [unit]) ++ slice text (index + 1 + 1) index'),
                    Cursor_at text index'); [exact E|].
      do 2 f_equal. rewrite <- app_assoc. f_equal.
      rewrite <- (slice_app text (index + 1) (index + 1 + 1) index') by lia.
      rewrite (slice_one text (index + 1) unit) by (auto; lia). reflexivity.
    + exists (index + 1). rewrite slice_empty, app_nil_r. split; [reflexivity|lia].
  - apply Z.ltb_ge in Emore. exists (index + 1).
    rewrite slice_empty, app_nil_r. split; [reflexivity|lia].
Qed.

Lemma Lexer_at_run : forall condition text offset index lex unit (make : option jsstring -> Lex),
  0 <= index -> nth_error text (Z.to_nat index) = Some unit ->
  (forall value, _text (make value) = value) ->
  (forall value, _startIndex (make value) = Some (index + offset)) ->
  exists index' lex',
    Lexer_run (Lexer_at text offset index lex)
      (fun iterator => readWhile iterator condition) make
    = Lexer_at text offset index' (Some lex')
    /\ covers text offset index index' lex'.
Proof.
  intros condition text offset index lex unit make Hi Hn Htext Hstart.
  assert (Z.to_nat index < length text)%nat by (apply nth_error_Some; congruence).
  unfold Lexer_run, readWhile.
  change (_iterator (Lexer_at text offset index lex)) with (Cursor_at text index).
  cbn [next getCurrent remaining Lexer_characterIterator StringIterator_Iterator IteratorBase].
  rewrite (Cursor_at_getCurrent text index unit) by assumption.
  destruct (readWhile_loop_Cursor_at condition text
              (S (Z.to_nat (Z.abs (si_endIndex (Cursor_at text index)
                                   - si_currentIndex (Cursor_at text index)))))
              index [unit]) as (index' & E & Hi').
  - lia.
  - cbn [Cursor_at Lexer_at _iterator si_endIndex si_currentIndex]. lia.
  - exists index', (make (Some ([unit] ++ slice text (index + 1) index'))).
    split.
    + match goal with
      | |- (let (_, _) := ?loop in _) = _ =>
          replace loop
            with (Some ([unit] ++ slice text (index + 1) index'), Cursor_at text index')
            by (symmetry; exact E)
      end.
      reflexivity.
    + unfold covers. rewrite Htext, Hstart. repeat split; try lia.
      do 2 f_equal. rewrite <- (slice_app text index (index + 1) index') by lia.
      rewrite (slice_one text index unit) by assumption. reflexivity.
Qed.

(** ** One lex *)

Lemma Lexer_at_carriageReturn : forall text offset index lex,
  0 <= index -> nth_error text (Z.to_nat index) = Some 13%N ->
  let peek := Lexer_getCurrentCharacter (Lexer_at text offset (index + 1) lex) in
  (let (more, this) := Lexer_nextCharacter (Lexer_at text offset index lex) in
   if negb more || negb (string_strictEquals (Lexer_getCurrentCharacter this) (Some [10%N]))
   then Lexer_setCurrentLex this (Some (CarriageReturn (Some (index + offset))))
   else Lexer_single this (CarriageReturnNewLine (Some (index + offset))))
  = if string_strictEquals peek (Some [10%N])
    then Lexer_at text offset (index + 2) (Some (CarriageReturnNewLine (Some (index + offset))))
    else Lexer_at text offset (index + 1) (Some (CarriageReturn (Some (index + offset)))).
Proof.
  intros text offset index lex Hi Hn peek. subst peek.
  assert (Z.to_nat index < length text)%nat by (apply nth_error_Some; congruence).
  rewrite Lexer_at_nextCharacter by lia.
  destruct (index + 1 <? Z.of_nat (length text)) eqn:Emore; cbn [negb orb].
  - apply Z.ltb_lt in Emore.
    destruct (string_strictEquals (Lexer_getCurrentCharacter (Lexer_at text offset (index + 1) lex))
                (Some [10%N])); cbn [negb]; [|reflexivity].
    unfold Lexer_single.
    change (Lexer_setCurrentLex (Lexer_at text offset (index + 1) lex)
              (Some (CarriageReturnNewLine (Some (index + offset)))))
      with (Lexer_at text offset (index + 1) (Some (CarriageReturnNewLine (Some (index + offset))))).
    rewrite Lexer_at_nextCharacter by lia. cbn [snd].
    replace (index + 1 + 1) with (index + 2) by lia. reflexivity.
  - apply Z.ltb_ge in Emore. rewrite Lexer_at_getCurrentCharacter_end by lia. reflexivity.
Qed.

Lemma Lexer_switch_covers : forall text offset index lex unit,
  0 <= index -> nth_error text (Z.to_nat index) = Some unit ->
  exists index' lex',
    Lexer_switch (Lexer_at text offset index lex) (Some (index + offset))
    = Lexer_at text offset index' (Some lex')
    /\ covers text offset index index' lex'.
Proof.
  intros text offset index lex unit Hi Hn.
  assert (Hlen : (Z.to_nat index < length text)%nat) by (apply nth_error_Some; congruence).
  set (P := fun result : Lexer =>
              exists index' lex',
                result = Lexer_at text offset index' (Some lex')
                /\ covers text offset index index' lex').
  change (P (Lexer_switch (Lexer_at text offset index lex) (Some (index + offset)))).
  unfold Lexer_switch.
  rewrite (Lexer_at_getCurrentCharacter text offset index lex unit Hi Hn). cbv zeta.
  repeat match goal with
  | |- P (if isCase (Some [unit]) ?label then Lexer_single _ ?lex' else _) =>
      let E := fresh "E" in
      destruct (isCase (Some [unit]) label) eqn:E;
      [ apply isCase_character in E;
        destruct (Lexer_at_single text offset index lex lex' unit Hi Hn
                    ltac:(rewrite E; reflexivity) eq_refl) as (index' & E1 & Hc);
        exists index', lex'; split; assumption
      | clear E ]
  end.
  - (* "\r" *)
    destruct (isCase (Some [unit]) [13%N]) eqn:E.
    + apply isCase_character in E. subst unit.
      rewrite (Lexer_at_carriageReturn text offset index lex Hi Hn).
      destruct (string_strictEquals (Lexer_getCurrentCharacter (Lexer_at text offset (index + 1) lex))
                  (Some [10%N])) eqn:Epeek.
      * assert (Hmore : index + 1 < Z.of_nat (length text)).
        { destruct (Z_lt_ge_dec (index + 1) (Z.of_nat (length text))) as [Hlt|Hge]; [exact Hlt|].
          rewrite Lexer_at_getCurrentCharacter_end in Epeek by lia. discriminate. }
        destruct (nth_error text (Z.to_nat (index + 1))) as [unit'|] eqn:En;
          [|apply nth_error_None in En; lia].
        rewrite (Lexer_at_getCurrentCharacter text offset (index + 1) lex unit') in Epeek
          by (auto; lia).
        apply (isCase_character unit' 10%N) in Epeek. subst unit'.
        exists (index + 2), (CarriageReturnNewLine (Some (index + offset))).
        split; [reflexivity|]. unfold covers. cbn [CarriageReturnNewLine _text _startIndex].
        repeat split; try lia. f_equal.
        rewrite <- (slice_app text index (index + 1) (index + 2)) by lia.
        rewrite (slice_one text index 13%N) by assumption.
        replace (index + 2) with (index + 1 + 1) by lia.
        rewrite (slice_one text (index + 1) 10%N) by (auto; lia). reflexivity.
      * exists (index + 1), (CarriageReturn (Some (index + offset))).
        split; [reflexivity|]. unfold covers. cbn [CarriageReturn _text _startIndex].
        rewrite (slice_one text index 13%N) by assumption. repeat split; lia.
    + clear E.
      repeat match goal with
      | |- P (if isCase (Some [unit]) ?label then Lexer_single _ ?lex' else _) =>
          let E := fresh "E" in
          destruct (isCase (Some [unit]) label) eqn:E;
          [ apply isCase_character in E;
            destruct (Lexer_at_single text offset index lex lex' unit Hi Hn
                        ltac:(rewrite E; reflexivity) eq_refl) as (index' & E1 & Hc);
            exists index', lex'; split; assumption
          | clear E ]
      end.
      destruct (isLetter (Some [unit])); [|destruct (isDigit (Some [unit]))].
      * apply (Lexer_at_run isLetter text offset index lex unit
                 (fun value => Letters value (Some (index + offset))) Hi Hn);
          intros value; reflexivity.
      * apply (Lexer_at_run isDigit text offset index lex unit
                 (fun value => Digits value (Some (index + offset))) Hi Hn);
          intros value; reflexivity.
      * destruct (Lexer_at_single text offset index lex
                    (Unrecognized (Some [unit]) (Some (index + offset))) unit Hi Hn
                    eq_refl eq_refl) as (index' & E1 & Hc).
        exists index', (Unrecognized (Some [unit]) (Some (index + offset))).
        split; assumption.
Qed.

(** ** next *)

Lemma Lexer_at_next : forall text offset index lex,
  0 <= index < Z.of_nat (length text) ->
  exists index' lex',
    Lexer_next (Lexer_at text offset index lex) = (true, Lexer_at text offset index' (Some lex'))
    /\ covers text offset index index' lex'.
Proof.
  intros text offset index lex Hi.
  destruct (nth_error text (Z.to_nat index)) as [unit|] eqn:En;
    [|apply nth_error_None in En; lia].
  destruct (Lexer_switch_covers text offset index lex unit ltac:(lia) En)
    as (index' & lex' & E & Hc).
  exists index', lex'. split; [|exact Hc]. unfold Lexer_next.
  change (Lexer_hasStarted (Lexer_at text offset index lex)) with true. cbn [negb].
  rewrite Lexer_at_hasCurrentCharacter.
  replace (index <? Z.of_nat (length text)) with true by (symmetry; apply Z.ltb_lt; lia).
  replace (Lexer_getCurrentCharacterStartIndex (Lexer_at text offset index lex))
    with (Some (index + offset)).
  - rewrite E. reflexivity.
  - unfold Lexer_getCurrentCharacterStartIndex, StringIterator_currentIndex.
    change (fst (StringIterator_hasCurrent (_iterator (Lexer_at text offset index lex))))
      with (Lexer_hasCurrentCharacter (Lexer_at text offset index lex)).
    rewrite Lexer_at_hasCurrentCharacter.
    replace (index <? Z.of_nat (length text)) with true by (symmetry; apply Z.ltb_lt; lia).
    reflexivity.
Qed.

Lemma Lexer_at_next_end : forall text offset index lex,
  Z.of_nat (length text) <= index ->
  Lexer_next (Lexer_at text offset index lex) = (false, Lexer_at text offset index None).
Proof.
  intros text offset index lex Hi. unfold Lexer_next.
  change (Lexer_hasStarted (Lexer_at text offset index lex)) with true. cbn [negb].
  rewrite Lexer_at_hasCurrentCharacter.
  replace (index <? Z.of_nat (length text)) with false by (symmetry; apply Z.ltb_ge; lia).
  reflexivity.
Qed.

Lemma new_Lexer_next : forall text offset,
  Lexer_next (new_Lexer text (Some offset)) = Lexer_next (Lexer_at text offset 0 None).
Proof.
  intros text offset. unfold Lexer_next at 1.
  change (Lexer_hasStarted (new_Lexer text (Some offset))) with false. cbn [negb].
  replace (snd (Lexer_nextCharacter (new_Lexer text (Some offset))))
    with (Lexer_at text offset 0 None); [reflexivity|].
  unfold Lexer_nextCharacter, StringIterator_next, new_Lexer, new_StringIterator, Lexer_at, getLength.
  cbn [_iterator si_text si_startIndex si_endIndex si_currentIndex si_started si_step
       _characterStartIndexOffset _currentLex negb snd].
  rewrite characters_length.
  replace (Z.of_nat (length text) >=? 0) with true by (symmetry; apply Z.geb_le; lia).
  reflexivity.
Qed.

(** ** All the lexes of a text *)

Lemma Lexer_foreach_loop : forall text offset fuel index lex (result : list (option Lex)),
  0 <= index <= Z.of_nat (length text) ->
  (Z.to_nat (Z.of_nat (length text) - index) < fuel)%nat ->
  exists lexes pieces,
    fst (IteratorBase_foreach_loop Lexer_next Lexer_getCurrent fuel
           (fun value result => (result ++ [value], false)) false
           (Lexer_at text offset index lex) result)
    = result ++ map Some lexes
    /\ map Lex_toString lexes = map Some pieces
    /\ concat pieces = slice text index (Z.of_nat (length text))
    /\ tiled (index + offset) lexes.
Proof.
  intros text offset. induction fuel as [|fuel IH]; intros index lex result Hi Hfuel; [lia|].
  cbn [IteratorBase_foreach_loop].
  destruct (Z_lt_ge_dec index (Z.of_nat (length text))) as [Hlt|Hge].
  - destruct (Lexer_at_next text offset index lex ltac:(lia)) as (index' & lex' & E & Hc).
    rewrite E. cbn [Lexer_getCurrent Lexer_at _currentLex].
    destruct Hc as (Hi' & Htext & Hstart).
    destruct (IH index' (Some lex') (result ++ [Some lex']) ltac:(lia) ltac:(lia))
      as (lexes & pieces & E' & Htexts & Hconcat & Htiled).
    exists (lex' :: lexes), (slice text index index' :: pieces).
    assert (Hlen : Lex_getLength lex' = index' - index).
    { unfold Lex_getLength. rewrite Htext. unfold slice.
      rewrite length_firstn, length_skipn. lia. }
    repeat split.
    + transitivity ((result ++ [Some lex']) ++ map Some lexes); [exact E'|].
      rewrite <- app_assoc. reflexivity.
    + cbn [map]. unfold Lex_toString at 1. rewrite Htext, Htexts. reflexivity.
    + cbn [concat]. rewrite Hconcat. apply slice_app; lia.
    + exact Hstart.
    + lia.
    + rewrite Hlen. replace (index + offset + (index' - index)) with (index' + offset) by lia.
      exact Htiled.
  - rewrite Lexer_at_next_end by lia. exists [], []. cbn [map concat tiled fst].
    rewrite app_nil_r. replace index with (Z.of_nat (length text)) by lia.
    rewrite slice_empty. auto.
Qed.

Lemma Lexer_toArray_tiles : forall text offset,
  exists lexes pieces,
    Lexer_toArray text (Some offset) = map Some lexes
    /\ map Lex_toString lexes = map Some pieces
    /\ concat pieces = text
    /\ tiled offset lexes.
Proof.
  intros text offset. unfold Lexer_toArray, toArray.
  cbn [foreach Lexer_Iterator IteratorBase]. unfold IteratorBase_foreach.
  cbn [Lexer_hasCurrent new_Lexer _currentLex isDefined].
  set (fuel := remaining (_iterator (new_Lexer text (Some offset)))).
  cbn [IteratorBase_foreach_loop]. rewrite new_Lexer_next.
  destruct text as [|unit text].
  - rewrite Lexer_at_next_end by (cbn [length]; lia). exists [], []. cbn. auto.
  - destruct (Lexer_at_next (unit :: text) offset 0 None ltac:(cbn [length]; lia))
      as (index' & lex' & E & Hi' & Htext & Hstart).
    rewrite E. cbn [Lexer_getCurrent Lexer_at _currentLex app].
    destruct (Lexer_foreach_loop (unit :: text) offset fuel index' (Some lex') [Some lex'])
      as (lexes & pieces & E' & Htexts & Hconcat & Htiled).
    + lia.
    + subst fuel.
      cbn [remaining Lexer_characterIterator StringIterator_Iterator IteratorBase new_Lexer
           _iterator new_StringIterator si_endIndex si_currentIndex getLength].
      unfold getLength. rewrite characters_length. lia.
    + exists (lex' :: lexes), (slice (unit :: text) 0 index' :: pieces).
      assert (Hlen : Lex_getLength lex' = index').
      { unfold Lex_getLength. rewrite Htext. unfold slice.
        rewrite length_firstn, length_skipn. lia. }
      repeat split.
      * exact E'.
      * cbn [map]. unfold Lex_toString at 1. rewrite Htext, Htexts. reflexivity.
      * cbn [concat]. rewrite Hconcat.
        rewrite (slice_app (unit :: text) 0 index' (Z.of_nat (length (unit :: text)))) by lia.
        apply slice_all.
      * exact Hstart.
      * lia.
      * rewrite Hlen. replace (offset + index') with (index' + offset) by lia. exact Htiled.
Qed.

(** * The claims about the lexer *)

(** C3, as written, fails on its last clause: on ["ab12 }"] the fourth call of
    [next] answers [true] and leaves a current lex. *)
Lemma C3_fourth_next_counterexample :
  ~ (nth_error (fst (Lexer_calls 4 (new_Lexer (str "ab12 }") (Some 0)))) 3 = Some false
     /\ fst (Lexer_hasCurrent (snd (Lexer_calls 4 (new_Lexer (str "ab12 }") (Some 0))))) = false).
Proof. intros [H _]. vm_compute in H. discriminate H. Qed.

(** C3, amended. Lexing ["ab12 }"] from offset 0 yields exactly Letters "ab"
    (start 0, length 2), Digits "12" (start 2, length 2), Space (start 4,
    length 1) and RightCurlyBracket (start 5, length 1), 6 code units in all;
    the first four calls of [next] answer [true], the fifth answers [false],
    and [hasCurrent()] is false after it. *)
Theorem C3_lexer_scenario :
  Lexer_toArray (str "ab12 }") (Some 0)
  = [Some (Letters (Some (str "ab")) (Some 0)); Some (Digits (Some (str "12")) (Some 2));
     Some (Space (Some 4)); Some (RightCurlyBracket (Some 5))]
  /\ map Lex_getLength
       [Letters (Some (str "ab")) (Some 0); Digits (Some (str "12")) (Some 2);
        Space (Some 4); RightCurlyBracket (Some 5)]
     = [2; 2; 1; 1]
  /\ getCombinedLength
       [Letters (Some (str "ab")) (Some 0); Digits (Some (str "12")) (Some 2);
        Space (Some 4); RightCurlyBracket (Some 5)]
     = 6
  /\ Lex_afterEndIndex (RightCurlyBracket (Some 5)) = Some 6
  /\ fst (Lexer_calls 5 (new_Lexer (str "ab12 }") (Some 0))) = [true; true; true; true; false]
  /\ fst (Lexer_hasCurrent (snd (Lexer_calls 5 (new_Lexer (str "ab12 }") (Some 0))))) = false.
Proof. repeat split; vm_compute; reflexivity. Qed.

(** C4. Lexing a carriage return followed by a line feed yields one lex, of
    text "\r\n" and length 2, for which [isNewLine()] is true and
    [isWhitespace()] false.  In general, with the cursor on a carriage return,
    [next] makes the two-character lex and moves the cursor by two when a
    line feed follows, and otherwise makes a one-character CarriageReturn lex,
    which is whitespace, and moves the cursor by one. *)
Theorem C4_carriage_return : forall text offset index lex,
  0 <= index -> nth_error text (Z.to_nat index) = Some 13%N ->
  (exists lex',
      Lexer_toArray [13%N; 10%N] None = [Some lex']
      /\ Lex_toString lex' = Some [13%N; 10%N] /\ Lex_getLength lex' = 2
      /\ Lex_isNewLine lex' = true /\ Lex_isWhitespace lex' = false)
  /\ (nth_error text (Z.to_nat (index + 1)) = Some 10%N ->
      Lexer_next (Lexer_at text offset index lex)
      = (true, Lexer_at text offset (index + 2)
                 (Some (CarriageReturnNewLine (Some (index + offset)))))
      /\ Lex_toString (CarriageReturnNewLine (Some (index + offset))) = Some [13%N; 10%N]
      /\ Lex_isNewLine (CarriageReturnNewLine (Some (index + offset))) = true
      /\ Lex_isWhitespace (CarriageReturnNewLine (Some (index + offset))) = false)
  /\ (nth_error text (Z.to_nat (index + 1)) <> Some 10%N ->
      Lexer_next (Lexer_at text offset index lex)
      = (true, Lexer_at text offset (index + 1) (Some (CarriageReturn (Some (index + offset)))))
      /\ Lex_toString (CarriageReturn (Some (index + offset))) = Some [13%N]
      /\ Lex_isWhitespace (CarriageReturn (Some (index + offset))) = true
      /\ Lex_isNewLine (CarriageReturn (Some (index + offset))) = false).
Proof.
  intros text offset index lex Hi Hn.
  assert (Hlen : (Z.to_nat index < length text)%nat) by (apply nth_error_Some; congruence).
  assert (Hnext : Lexer_next (Lexer_at text offset index lex)
                  = (true,
                     if string_strictEquals
                          (Lexer_getCurrentCharacter (Lexer_at text offset (index + 1) lex))
                          (Some [10%N])
                     then Lexer_at text offset (index + 2)
                            (Some (CarriageReturnNewLine (Some (index + offset))))
                     else Lexer_at text offset (index + 1)
                            (Some (CarriageReturn (Some (index + offset)))))).
  { unfold Lexer_next.
    change (Lexer_hasStarted (Lexer_at text offset index lex)) with true. cbn [negb].
    rewrite Lexer_at_hasCurrentCharacter.
    replace (index <? Z.of_nat (length text)) with true by (symmetry; apply Z.ltb_lt; lia).
    replace (Lexer_getCurrentCharacterStartIndex (Lexer_at text offset index lex))
      with (Some (index + offset)).
    - unfold Lexer_switch.
      rewrite (Lexer_at_getCurrentCharacter text offset index lex 13%N Hi Hn). cbv zeta.
      change (isCase (Some [13%N]) [13%N]) with true.
      repeat match goal with
      | |- context [if isCase (Some [13%N]) ?label then _ else _] =>
          change (isCase (Some [13%N]) label) with false
      end.
      cbv iota. rewrite (Lexer_at_carriageReturn text offset index lex Hi Hn).
      destruct (string_strictEquals (Lexer_getCurrentCharacter (Lexer_at text offset (index + 1) lex))
                  (Some [10%N])); reflexivity.
    - unfold Lexer_getCurrentCharacterStartIndex, StringIterator_currentIndex.
      change (fst (StringIterator_hasCurrent (_iterator (Lexer_at text offset index lex))))
        with (Lexer_hasCurrentCharacter (Lexer_at text offset index lex)).
      rewrite Lexer_at_hasCurrentCharacter.
      replace (index <? Z.of_nat (length text)) with true by (symmetry; apply Z.ltb_lt; lia).
      reflexivity. }
  split; [|split].
  - exists (CarriageReturnNewLine (Some 0)). repeat split; vm_compute; reflexivity.
  - intros Hlf. rewrite Hnext.
    rewrite (Lexer_at_getCurrentCharacter text offset (index + 1) lex 10%N) by (auto; lia).
    repeat split.
  - intros Hlf. rewrite Hnext.
    destruct (nth_error text (Z.to_nat (index + 1))) as [unit|] eqn:En.
    + rewrite (Lexer_at_getCurrentCharacter text offset (index + 1) lex unit) by (auto; lia).
      destruct (string_strictEquals (Some [unit]) (Some [10%N])) eqn:E.
      * apply (isCase_character unit 10%N) in E. congruence.
      * repeat split.
    + apply nth_error_None in En.
      rewrite Lexer_at_getCurrentCharacter_end by lia. repeat split.
Qed.

Lemma C4_carriage_return_witness :
  0 <= 1 /\ nth_error (str "a" ++ [13%N; 10%N]) (Z.to_nat 1) = Some 13%N
  /\ Lexer_next (Lexer_at (str "a" ++ [13%N; 10%N]) 0 1 None)
     = (true, Lexer_at (str "a" ++ [13%N; 10%N]) 0 3 (Some (CarriageReturnNewLine (Some 1)))).
Proof.
  split; [lia|split; [reflexivity|]].
  exact (proj1 (proj1 (proj2 (C4_carriage_return (str "a" ++ [13%N; 10%N]) 0 1 None
                                ltac:(lia) eq_refl)) eq_refl)).
Defined.

(** C5. The claim does not hold of the code: the lexes of a line feed and of
    a carriage return followed by a line feed have the same type, NewLine,
    which is none of Letters, Digits and Unrecognized, and different texts. *)
Theorem C5_newline_type_has_two_texts :
  exists lex1 lex2,
    Lexer_toArray [10%N] None = [Some lex1]
    /\ Lexer_toArray [13%N; 10%N] None = [Some lex2]
    /\ Lex_getType lex1 = LexType_NewLine
    /\ Lex_getType lex2 = LexType_NewLine
    /\ Lex_toString lex1 = Some [10%N]
    /\ Lex_toString lex2 = Some [13%N; 10%N]
    /\ Lex_toString lex1 <> Lex_toString lex2.
Proof.
  exists (NewLine (Some 0)), (CarriageReturnNewLine (Some 0)).
  repeat split; try (vm_compute; reflexivity). discriminate.
Qed.

(** C10. For every text and every starting offset, the lexes that the lexer
    produces until it is exhausted have texts whose concatenation is the
    text, and each lex starts where the one before it ends, the first at the
    offset, and is at least one code unit long. *)
Theorem C10_lexer_tiling : forall (text : jsstring) (offset : Z),
  exists lexes pieces,
    Lexer_toArray text (Some offset) = map Some lexes
    /\ map Lex_toString lexes = map Some pieces
    /\ concat pieces = text
    /\ tiled offset lexes.
Proof. exact Lexer_toArray_tiles. Qed.

(** * Iterators in any state *)

Section Coherence.

Context {T : Type}.
Variable undefined : T.

Lemma ArrayListForwardIterator_coherent :
  Coherent (ArrayListForwardIterator_Iterator undefined).
Proof.
  constructor; cbn [hasCurrent next getCurrent ArrayListForwardIterator_Iterator IteratorBase];
    intros [data index] answer this' H.
  - unfold ArrayListForwardIterator_hasCurrent in *. inversion H; subst. reflexivity.
  - unfold ArrayListForwardIterator_next, ArrayListForwardIterator_hasCurrent,
      ArrayListIterator_hasStarted, ArrayListForwardIterator_atEnd in *.
    cbn [currentIndex arrayList] in *.
    destruct index as [i|]; [destruct (i =? ArrayList_getCount data) eqn:E|];
      cbn [negb currentIndex arrayList] in H; inversion H; subst;
      cbn [currentIndex arrayList isDefined andb]; try rewrite E; reflexivity.
  - unfold ArrayListForwardIterator_hasCurrent in *. inversion H; subst. reflexivity.
  - unfold ArrayListIterator_getCurrent in *. inversion H; subst. reflexivity.
Qed.

Lemma ArrayListReverseIterator_coherent :
  Coherent (ArrayListReverseIterator_Iterator undefined).
Proof.
  constructor; cbn [hasCurrent next getCurrent ArrayListReverseIterator_Iterator IteratorBase];
    intros [data index] answer this' H.
  - unfold ArrayListReverseIterator_hasCurrent in *. inversion H; subst. reflexivity.
  - unfold ArrayListReverseIterator_next, ArrayListReverseIterator_hasCurrent,
      ArrayListIterator_hasStarted, ArrayListReverseIterator_atEnd, lessThan in *.
    cbn [currentIndex arrayList] in *.
    destruct index as [i|]; [destruct (i <? 0) eqn:E|];
      cbn [negb currentIndex arrayList] in H; inversion H; subst;
      cbn [currentIndex arrayList isDefined andb]; try rewrite E; reflexivity.
  - unfold ArrayListReverseIterator_hasCurrent in *. inversion H; subst. reflexivity.
  - unfold ArrayListIterator_getCurrent in *. inversion H; subst. reflexivity.
Qed.

Lemma StringIterator_coherent : Coherent (StringIterator_Iterator undefined).
Proof.
  constructor; cbn [hasCurrent next getCurrent StringIterator_Iterator IteratorBase];
    intros [text startIndex endIndex index started step] answer this' H.
  - unfold StringIterator_hasCurrent in *. inversion H; subst. reflexivity.
  - unfold StringIterator_next, StringIterator_hasCurrent, StringIterator_hasStarted in *.
    cbn [si_started] in *.
    destruct started; cbn [negb] in H.
    + destruct (StringIterator_hasMore
                  {| si_text := text; si_startIndex := startIndex; si_endIndex := endIndex;
                     si_currentIndex := index; si_started := true; si_step := step |});
        inversion H; subst; reflexivity.
    + inversion H; subst. reflexivity.
  - unfold StringIterator_hasCurrent in *. inversion H; subst. reflexivity.
  - unfold StringIterator_getCurrent in *. inversion H; subst. reflexivity.
Qed.

Section Decorators.

Context {I : Type} {inner : Iterator (T := T) I}.
Hypothesis innerCoherent : Coherent inner.

Lemma WhereIterator_coherent : Coherent (@WhereIterator_Iterator T I inner).
Proof.
  assert (B : forall this answer this',
             WhereIterator_hasCurrent this = (answer, this') ->
             WhereIterator_hasCurrent this' = (answer, this')).
  { intros [i condition] answer this' H. unfold WhereIterator_hasCurrent in *.
    cbn [where_innerIterator where_condition] in *.
    destruct (hasCurrent i) as [b i1] eqn:E. inversion H; subst.
    cbn [where_innerIterator where_condition].
    rewrite (coherent_hasCurrent _ innerCoherent _ _ _ E). reflexivity. }
  constructor; cbn [hasCurrent next getCurrent WhereIterator_Iterator IteratorBase].
  - exact B.
  - intros this answer this' H. unfold WhereIterator_next in H. apply B in H. exact H.
  - intros [i condition] answer this' H.
    unfold WhereIterator_hasCurrent, WhereIterator_getCurrent in *.
    cbn [where_innerIterator where_condition] in *.
    destruct (hasCurrent i) as [b i1] eqn:E. inversion H; subst.
    cbn [where_innerIterator where_condition].
    rewrite (coherent_getCurrent _ innerCoherent _ _ _ E). reflexivity.
  - intros [i condition] value this' H.
    unfold WhereIterator_hasCurrent, WhereIterator_getCurrent in *.
    cbn [where_innerIterator where_condition] in *.
    destruct (getCurrent i) as [v i1] eqn:E. inversion H; subst.
    cbn [where_innerIterator where_condition].
    pose proof (coherent_current _ innerCoherent _ _ _ E) as Hc.
    destruct (hasCurrent i1), (hasCurrent i). exact Hc.
Qed.

(** *** SkipIterator *)

Lemma SkipIterator_skipValues_loop_settled : forall fuel toSkip (i : I) skipped,
  (Z.to_nat (toSkip - skipped) < fuel)%nat ->
  (snd (SkipIterator_skipValues_loop fuel toSkip i skipped) <? toSkip) = false.
Proof.
  induction fuel as [|fuel IH]; intros toSkip i skipped Hfuel; [lia|].
  cbn [SkipIterator_skipValues_loop]. destruct (skipped <? toSkip) eqn:E.
  - apply Z.ltb_lt in E. destruct (next i) as [more i'].
    destruct more; cbn [negb].
    + apply IH. lia.
    + destruct fuel as [|fuel]; cbn [SkipIterator_skipValues_loop snd];
        [|rewrite Z.ltb_irrefl; cbn [snd]]; apply Z.ltb_irrefl.
  - exact E.
Qed.

Lemma SkipIterator_skipValues_settled : forall this : SkipIterator I,
  SkipIterator_settled (SkipIterator_skipValues this).
Proof.
  intros [i [toSkip|] skipped]; unfold SkipIterator_skipValues, SkipIterator_settled;
    cbn [skip_toSkip skip_skipped skip_innerIterator]; [|exact Logic.I].
  pose proof (SkipIterator_skipValues_loop_settled (S (Z.to_nat (toSkip - skipped))) toSkip i skipped
                ltac:(lia)) as H.
  destruct (SkipIterator_skipValues_loop (S (Z.to_nat (toSkip - skipped))) toSkip i skipped)
    as [i' skipped'].
  exact H.
Qed.

Lemma SkipIterator_skipValues_same : forall this : SkipIterator I,
  SkipIterator_settled this -> SkipIterator_skipValues this = this.
Proof.
  intros [i [toSkip|] skipped]; unfold SkipIterator_skipValues, SkipIterator_settled;
    cbn [skip_toSkip skip_skipped skip_innerIterator SkipIterator_skipValues_loop];
    intros H; [rewrite H|]; reflexivity.
Qed.

Lemma SkipIterator_skipValues_toSkip : forall this : SkipIterator I,
  skip_toSkip (SkipIterator_skipValues this) = skip_toSkip this.
Proof.
  intros [i [toSkip|] skipped]; unfold SkipIterator_skipValues;
    cbn [skip_toSkip skip_skipped skip_innerIterator]; [|reflexivity].
  destruct (SkipIterator_skipValues_loop (S (Z.to_nat (toSkip - skipped))) toSkip i skipped).
  reflexivity.
Qed.

Lemma SkipIterator_prepare_quiet : forall this : SkipIterator I,
  SkipIterator_settled (SkipIterator_prepare this)
  \/ fst (hasCurrent (skip_innerIterator (SkipIterator_prepare this))) = false.
Proof.
  intros [i toSkip skipped]. unfold SkipIterator_prepare, SkipIterator_super_hasCurrent.
  cbn [skip_toSkip skip_skipped skip_innerIterator].
  destruct (hasCurrent i) as [b i1] eqn:E. destruct b.
  - left. apply SkipIterator_skipValues_settled.
  - right. cbn [skip_innerIterator].
    rewrite (coherent_hasCurrent _ innerCoherent _ _ _ E). reflexivity.
Qed.

Lemma SkipIterator_prepare_again : forall (this : SkipIterator I) answer i,
  SkipIterator_settled this \/ fst (hasCurrent (skip_innerIterator this)) = false ->
  hasCurrent (skip_innerIterator this) = (answer, i) ->
  SkipIterator_prepare this
  = {| skip_innerIterator := i; skip_toSkip := skip_toSkip this;
       skip_skipped := skip_skipped this |}.
Proof.
  intros [i0 toSkip skipped] answer i Hq E. unfold SkipIterator_prepare, SkipIterator_super_hasCurrent.
  cbn [skip_toSkip skip_skipped skip_innerIterator] in *. rewrite E.
  destruct answer; [|reflexivity].
  destruct Hq as [Hs|Hf]; [|rewrite E in Hf; discriminate Hf].
  apply SkipIterator_skipValues_same. exact Hs.
Qed.

Lemma SkipIterator_hasCurrent_prepare : forall this : SkipIterator I,
  SkipIterator_hasCurrent this = SkipIterator_super_hasCurrent (SkipIterator_prepare this).
Proof.
  intros this. unfold SkipIterator_hasCurrent, SkipIterator_prepare.
  destruct (SkipIterator_super_hasCurrent this) as [b s1]. reflexivity.
Qed.

Lemma SkipIterator_getCurrent_prepare : forall this : SkipIterator I,
  SkipIterator_getCurrent this = SkipIterator_super_getCurrent (SkipIterator_prepare this).
Proof.
  intros this. unfold SkipIterator_getCurrent, SkipIterator_prepare.
  destruct (SkipIterator_super_hasCurrent this) as [b s1]. reflexivity.
Qed.

Lemma SkipIterator_quiet_hasCurrent : forall (this : SkipIterator I) answer this',
  SkipIterator_settled this \/ fst (hasCurrent (skip_innerIterator this)) = false ->
  SkipIterator_super_hasCurrent this = (answer, this') ->
  SkipIterator_prepare this' = this'
  /\ SkipIterator_super_hasCurrent this' = (answer, this')
  /\ SkipIterator_super_getCurrent this' = SkipIterator_super_getCurrent this.
Proof.
  intros [i toSkip skipped] answer this' Hq H.
  unfold SkipIterator_super_hasCurrent, SkipIterator_super_getCurrent in *.
  cbn [skip_toSkip skip_skipped skip_innerIterator] in *.
  destruct (hasCurrent i) as [b i1] eqn:E. inversion H; subst. clear H.
  pose proof (coherent_hasCurrent _ innerCoherent _ _ _ E) as E1.
  cbn [skip_toSkip skip_skipped skip_innerIterator].
  rewrite E1, (coherent_getCurrent _ innerCoherent _ _ _ E).
  repeat split.
  apply (SkipIterator_prepare_again
           {| skip_innerIterator := i1; skip_toSkip := toSkip; skip_skipped := skipped |}
           answer i1); cbn [skip_innerIterator]; [|exact E1].
  destruct Hq as [Hs|Hf]; [left; exact Hs|right].
  cbn [fst] in Hf. subst answer. rewrite E1. reflexivity.
Qed.

Lemma SkipIterator_coherent : Coherent (@SkipIterator_Iterator T I inner).
Proof.
  constructor; cbn [hasCurrent next getCurrent SkipIterator_Iterator IteratorBase].
  - intros this answer this' H. rewrite SkipIterator_hasCurrent_prepare in *.
    destruct (SkipIterator_quiet_hasCurrent _ _ _ (SkipIterator_prepare_quiet this) H)
      as (Hp & Hh & _).
    rewrite Hp. exact Hh.
  - intros this answer this' H. unfold SkipIterator_next, SkipIterator_super_next in H.
    destruct (next (skip_innerIterator (SkipIterator_skipValues this))) as [b i1] eqn:E.
    inversion H; subst. clear H.
    pose proof (coherent_next _ innerCoherent _ _ _ E) as E1.
    rewrite SkipIterator_hasCurrent_prepare.
    rewrite (SkipIterator_prepare_again _ answer i1); cbn [skip_innerIterator skip_toSkip skip_skipped].
    + unfold SkipIterator_super_hasCurrent. cbn [skip_innerIterator skip_toSkip skip_skipped].
      rewrite E1. reflexivity.
    + left. exact (SkipIterator_skipValues_settled this).
    + exact E1.
  - intros this answer this' H. rewrite SkipIterator_hasCurrent_prepare in H.
    rewrite !SkipIterator_getCurrent_prepare.
    destruct (SkipIterator_quiet_hasCurrent _ _ _ (SkipIterator_prepare_quiet this) H)
      as (Hp & _ & Hg).
    rewrite Hp. exact Hg.
  - intros this value this' H. rewrite SkipIterator_getCurrent_prepare in H.
    rewrite !SkipIterator_hasCurrent_prepare.
    pose proof (SkipIterator_prepare_quiet this) as Hq.
    destruct (SkipIterator_prepare this) as [i toSkip skipped].
    unfold SkipIterator_super_getCurrent, SkipIterator_super_hasCurrent in *.
    cbn [skip_toSkip skip_skipped skip_innerIterator] in *.
    destruct (getCurrent i) as [v i1] eqn:E. inversion H; subst. clear H.
    pose proof (coherent_current _ innerCoherent _ _ _ E) as Hc.
    destruct (hasCurrent i1) as [b i2] eqn:E2. cbn [fst] in Hc.
    rewrite (SkipIterator_prepare_again
               {| skip_innerIterator := i1; skip_toSkip := toSkip; skip_skipped := skipped |}
               b i2); cbn [skip_innerIterator skip_toSkip skip_skipped].
    + rewrite (coherent_hasCurrent _ innerCoherent _ _ _ E2).
      destruct (hasCurrent i). cbn [fst] in *. exact Hc.
    + destruct Hq as [Hs|Hf]; [left; exact Hs|right].
      rewrite E2. cbn [fst]. congruence.
    + exact E2.
Qed.

(** *** TakeIterator *)

Lemma TakeIterator_hasCurrent_again : forall (this : TakeIterator I) answer this',
  TakeIterator_hasCurrent this = (answer, this') ->
  TakeIterator_hasCurrent this' = (answer, this').
Proof.
  intros [i toTake taken] answer this' H. unfold TakeIterator_hasCurrent in *.
  cbn [take_innerIterator take_toTake take_taken] in *.
  destruct (hasCurrent i) as [b i1] eqn:E. inversion H; subst. clear H.
  cbn [take_innerIterator take_toTake take_taken].
  rewrite (coherent_hasCurrent _ innerCoherent _ _ _ E). reflexivity.
Qed.

Lemma TakeIterator_coherent : Coherent (@TakeIterator_Iterator T undefined I inner).
Proof.
  constructor; cbn [hasCurrent next getCurrent TakeIterator_Iterator IteratorBase].
  - exact TakeIterator_hasCurrent_again.
  - intros this answer this' H. unfold TakeIterator_next in H.
    exact (TakeIterator_hasCurrent_again _ _ _ H).
  - intros this answer this' H. unfold TakeIterator_getCurrent.
    rewrite H, (TakeIterator_hasCurrent_again _ _ _ H). reflexivity.
  - intros [i0 toTake taken] value this' H.
    unfold TakeIterator_getCurrent, TakeIterator_hasCurrent, TakeIterator_canTakeValue in *.
    cbn [take_innerIterator take_toTake take_taken] in *.
    destruct (hasCurrent i0) as [b i] eqn:E0.
    pose proof (coherent_hasCurrent _ innerCoherent _ _ _ E0) as E0'.
    cbn [fst take_innerIterator take_toTake take_taken] in *.
    destruct (b && (isDefined toTake && lessOrEqual (Some taken) toTake)) eqn:Eb.
    + destruct (getCurrent i) as [v i1] eqn:Eg. inversion H; subst. clear H.
      cbn [take_innerIterator take_toTake take_taken].
      pose proof (coherent_current _ innerCoherent _ _ _ Eg) as Hc.
      rewrite E0' in Hc. destruct (hasCurrent i1) as [b1 i2]. cbn [fst] in *. subst b1.
      exact Eb.
    + inversion H; subst. clear H. cbn [take_innerIterator take_toTake take_taken].
      rewrite E0'. exact Eb.
Qed.

(** *** MapIterator *)

Lemma MapIterator_hasCurrent_again : forall (this : MapIterator I) answer this',
  MapIterator_hasCurrent this = (answer, this') ->
  MapIterator_hasCurrent this' = (answer, this').
Proof.
  intros [i [f|] started] answer this' H; unfold MapIterator_hasCurrent in *;
    cbn [map_innerIterator map_mapFunction map_started] in *.
  - destruct (hasCurrent i) as [b i1] eqn:E. inversion H; subst. clear H.
    cbn [map_innerIterator map_mapFunction map_started].
    rewrite (coherent_hasCurrent _ innerCoherent _ _ _ E). reflexivity.
  - inversion H; subst. reflexivity.
Qed.

Lemma MapIterator_coherent : Coherent (@MapIterator_Iterator T undefined I inner).
Proof.
  constructor; cbn [hasCurrent next getCurrent MapIterator_Iterator].
  - exact MapIterator_hasCurrent_again.
  - intros [i [f|] started] answer this' H; unfold MapIterator_next, MapIterator_hasCurrent in *;
      cbn [map_innerIterator map_mapFunction map_started isDefined] in *.
    + destruct (next i) as [b i1] eqn:E. inversion H; subst. clear H.
      cbn [map_innerIterator map_mapFunction map_started].
      rewrite (coherent_next _ innerCoherent _ _ _ E). reflexivity.
    + inversion H; subst. reflexivity.
  - intros this answer this' H. unfold MapIterator_getCurrent.
    rewrite H, (MapIterator_hasCurrent_again _ _ _ H). reflexivity.
  - intros this value this' H. unfold MapIterator_getCurrent in H.
    destruct (MapIterator_hasCurrent this) as [b s1] eqn:E.
    pose proof (MapIterator_hasCurrent_again _ _ _ E) as E1.
    destruct b.
    + destruct s1 as [i [f|] started]; cbn [map_innerIterator map_mapFunction map_started] in *.
      * destruct (getCurrent i) as [v i1] eqn:Eg. inversion H; subst. clear H.
        pose proof (coherent_current _ innerCoherent _ _ _ Eg) as Hc.
        unfold MapIterator_hasCurrent in *.
        cbn [map_innerIterator map_mapFunction map_started] in *.
        destruct (hasCurrent i1) as [b1 i2]. destruct (hasCurrent i) as [b2 i3].
        cbn [fst] in *. inversion E1; subst. reflexivity.
      * inversion H; subst. rewrite E1. reflexivity.
    + inversion H; subst. rewrite E1. reflexivity.
Qed.

(** *** Decorators built with an absent argument *)

Lemma WhereIterator_next_absent : forall i : I,
  WhereIterator_next {| where_innerIterator := i; where_condition := None |}
  = (fst (next i), {| where_innerIterator := snd (next i); where_condition := None |}).
Proof.
  intros i. unfold WhereIterator_next, WhereIterator_hasCurrent.
  cbn [where_innerIterator where_condition].
  destruct (next i) as [answer i1] eqn:E. cbn [fst snd].
  rewrite (coherent_next _ innerCoherent _ _ _ E). reflexivity.
Qed.

Lemma SkipIterator_settled_next : forall this : SkipIterator I,
  SkipIterator_settled this ->
  SkipIterator_next this = SkipIterator_super_next this.
Proof.
  intros this H. unfold SkipIterator_next.
  rewrite (SkipIterator_skipValues_same this H). reflexivity.
Qed.

Lemma SkipIterator_settled_prepare : forall this : SkipIterator I,
  SkipIterator_settled this ->
  SkipIterator_prepare this = snd (SkipIterator_super_hasCurrent this).
Proof.
  intros [i toSkip skipped] H. unfold SkipIterator_prepare, SkipIterator_super_hasCurrent.
  cbn [skip_innerIterator skip_toSkip skip_skipped].
  destruct (hasCurrent i) as [current i1]. cbn [snd].
  destruct current; [|reflexivity].
  apply SkipIterator_skipValues_same. exact H.
Qed.

Lemma SkipIterator_settled_hasCurrent : forall this : SkipIterator I,
  SkipIterator_settled this ->
  SkipIterator_hasCurrent this = SkipIterator_super_hasCurrent this.
Proof.
  intros this H.
  rewrite SkipIterator_hasCurrent_prepare, (SkipIterator_settled_prepare this H).
  destruct this as [i toSkip skipped]. unfold SkipIterator_super_hasCurrent.
  cbn [skip_innerIterator skip_toSkip skip_skipped].
  destruct (hasCurrent i) as [current i1] eqn:E.
  cbn [snd skip_innerIterator skip_toSkip skip_skipped].
  rewrite (coherent_hasCurrent _ innerCoherent _ _ _ E). reflexivity.
Qed.

Lemma SkipIterator_settled_getCurrent : forall this : SkipIterator I,
  SkipIterator_settled this ->
  SkipIterator_getCurrent this = SkipIterator_super_getCurrent this.
Proof.
  intros this H.
  rewrite SkipIterator_getCurrent_prepare, (SkipIterator_settled_prepare this H).
  destruct this as [i toSkip skipped].
  unfold SkipIterator_super_hasCurrent, SkipIterator_super_getCurrent.
  cbn [skip_innerIterator skip_toSkip skip_skipped].
  destruct (hasCurrent i) as [current i1] eqn:E.
  cbn [snd skip_innerIterator skip_toSkip skip_skipped].
  rewrite (coherent_getCurrent _ innerCoherent _ _ _ E). reflexivity.
Qed.

Lemma new_TakeIterator_spent : forall (innerIterator : I) (toTake : option Z),
  match toTake with Some n => n <= 0 | None => True end ->
  TakeIterator_spent (new_TakeIterator innerIterator toTake).
Proof.
  intros i toTake H. unfold new_TakeIterator, TakeIterator_spent, TakeIterator_canTakeValue.
  destruct (hasCurrent i) as [current i1] eqn:E.
  cbn [take_innerIterator take_toTake take_taken].
  destruct toTake as [n|]; [|left; reflexivity].
  unfold lessOrEqual. cbn [isDefined andb].
  destruct current.
  - left. apply Z.leb_gt. lia.
  - right. rewrite (coherent_hasCurrent _ innerCoherent _ _ _ E). split; [reflexivity|].
    apply Z.leb_gt. lia.
Qed.

Lemma TakeIterator_spent_hasCurrent : forall this : TakeIterator I,
  TakeIterator_spent this ->
  fst (TakeIterator_hasCurrent this) = false
  /\ TakeIterator_spent (snd (TakeIterator_hasCurrent this)).
Proof.
  intros [i toTake taken] H.
  unfold TakeIterator_spent, TakeIterator_hasCurrent, TakeIterator_canTakeValue in *.
  cbn [take_innerIterator take_toTake take_taken] in *.
  destruct (hasCurrent i) as [current i1] eqn:E.
  cbn [fst snd take_innerIterator take_toTake take_taken] in *.
  rewrite (coherent_hasCurrent _ innerCoherent _ _ _ E). cbn [fst].
  destruct H as [H|[H1 H2]].
  - rewrite H. split; [apply andb_false_r|left; reflexivity].
  - subst current. split; [reflexivity|right; split; [reflexivity|exact H2]].
Qed.

Lemma TakeIterator_spent_next : forall this : TakeIterator I,
  TakeIterator_spent this ->
  fst (TakeIterator_next this) = false /\ TakeIterator_spent (snd (TakeIterator_next this)).
Proof.
  intros this H. unfold TakeIterator_next.
  apply TakeIterator_spent_hasCurrent.
  destruct (TakeIterator_canTakeValue this) eqn:E; [|exact H].
  destruct H as [H|[_ H]]; [congruence|].
  left. exact H.
Qed.

Lemma TakeIterator_spent_getCurrent : forall this : TakeIterator I,
  TakeIterator_spent this ->
  fst (TakeIterator_getCurrent undefined this) = undefined
  /\ TakeIterator_spent (snd (TakeIterator_getCurrent undefined this)).
Proof.
  intros this H. unfold TakeIterator_getCurrent.
  destruct (TakeIterator_spent_hasCurrent this H) as [H1 H2].
  destruct (TakeIterator_hasCurrent this) as [current this1].
  cbn [fst snd] in *. subst current. split; [reflexivity|exact H2].
Qed.

Lemma TakeIterator_spent_toArray : forall this : TakeIterator I,
  TakeIterator_spent this ->
  fst (toArray (iterator := TakeIterator_Iterator undefined) this) = []
  /\ fst (getCount (Iterator := TakeIterator_Iterator undefined) this) = 0.
Proof.
  intros this H.
  destruct (TakeIterator_spent_hasCurrent this H) as [H1 H1'].
  destruct (TakeIterator_spent_next _ H1') as [H2 _].
  unfold toArray.
  cbn [foreach getCount TakeIterator_Iterator IteratorBase].
  unfold IteratorBase_foreach, IteratorBase_getCount.
  destruct (TakeIterator_hasCurrent this) as [b this1]. cbn [fst snd] in *. subst b.
  cbn [IteratorBase_foreach_loop IteratorBase_getCount_loop].
  destruct (TakeIterator_next this1) as [b this2]. cbn [fst] in *. subst b.
  split; reflexivity.
Qed.

End Decorators.

Section Concatenate.

Context {I1 I2 : Type} {first : Iterator (T := T) I1} {second : Iterator (T := T) I2}.
Hypothesis firstCoherent : Coherent first.
Hypothesis secondCoherent : Coherent second.

Lemma ConcatenateIterator_coherent :
  Coherent (@ConcatenateIterator_Iterator T I1 I2 first second).
Proof.
  constructor; cbn [hasCurrent next getCurrent ConcatenateIterator_Iterator IteratorBase].
  - intros [f s] answer this' H. unfold ConcatenateIterator_hasCurrent in *.
    cbn [concatenate_first concatenate_second] in *.
    destruct (hasCurrent f) as [b1 f1] eqn:E1.
    pose proof (coherent_hasCurrent _ firstCoherent _ _ _ E1) as E1'.
    destruct b1.
    + inversion H; subst. cbn [concatenate_first concatenate_second]. rewrite E1'. reflexivity.
    + destruct (hasCurrent s) as [b2 s2] eqn:E2. inversion H; subst.
      cbn [concatenate_first concatenate_second].
      rewrite E1', (coherent_hasCurrent _ secondCoherent _ _ _ E2). reflexivity.
  - intros [f s] answer this' H.
    unfold ConcatenateIterator_next, ConcatenateIterator_hasCurrent in *.
    cbn [concatenate_first concatenate_second] in *.
    destruct (next f) as [b1 f1] eqn:E1.
    pose proof (coherent_next _ firstCoherent _ _ _ E1) as E1'.
    destruct b1.
    + inversion H; subst. cbn [concatenate_first concatenate_second]. rewrite E1'. reflexivity.
    + destruct (next s) as [b2 s2] eqn:E2. inversion H; subst.
      cbn [concatenate_first concatenate_second].
      rewrite E1', (coherent_next _ secondCoherent _ _ _ E2). reflexivity.
  - intros [f s] answer this' H.
    unfold ConcatenateIterator_getCurrent, ConcatenateIterator_hasCurrent in *.
    cbn [concatenate_first concatenate_second] in *.
    destruct (hasCurrent f) as [b1 f1] eqn:E1.
    pose proof (coherent_hasCurrent _ firstCoherent _ _ _ E1) as E1'.
    destruct b1.
    + inversion H; subst. cbn [concatenate_first concatenate_second]. rewrite E1'. reflexivity.
    + destruct (hasCurrent s) as [b2 s2] eqn:E2. inversion H; subst.
      cbn [concatenate_first concatenate_second].
      rewrite E1', (coherent_getCurrent _ secondCoherent _ _ _ E2). reflexivity.
  - intros [f s] value this' H.
    unfold ConcatenateIterator_getCurrent, ConcatenateIterator_hasCurrent in *.
    cbn [concatenate_first concatenate_second] in *.
    destruct (hasCurrent f) as [b1 f1] eqn:E1.
    pose proof (coherent_hasCurrent _ firstCoherent _ _ _ E1) as E1'.
    destruct b1.
    + destruct (getCurrent f1) as [v f2] eqn:Eg. inversion H; subst.
      cbn [concatenate_first concatenate_second].
      pose proof (coherent_current _ firstCoherent _ _ _ Eg) as Hc.
      rewrite E1' in Hc. destruct (hasCurrent f2) as [b f3]. cbn [fst] in Hc. subst b.
      reflexivity.
    + destruct (getCurrent s) as [v s2] eqn:Eg. inversion H; subst.
      cbn [concatenate_first concatenate_second]. rewrite E1'.
      pose proof (coherent_current _ secondCoherent _ _ _ Eg) as Hc.
      destruct (hasCurrent s2), (hasCurrent s). exact Hc.
Qed.

End Concatenate.

Lemma methods_coherent : forall c : IteratorClass, Coherent (methods undefined c).
Proof.
  induction c as [| | |c IH|c IH|c IH|c IH|c1 IH1 c2 IH2]; cbn [methods instanceOf].
  - apply ArrayListForwardIterator_coherent.
  - apply ArrayListReverseIterator_coherent.
  - apply StringIterator_coherent.
  - apply WhereIterator_coherent, IH.
  - apply SkipIterator_coherent, IH.
  - apply TakeIterator_coherent, IH.
  - apply MapIterator_coherent, IH.
  - apply ConcatenateIterator_coherent; assumption.
Qed.

End Coherence.

(** * Decorators built with an absent argument *)

Section Views.

Context {T : Type}.
Variable undefined : T.

Lemma Iterator_hasCurrent_object : forall c (fields : instanceOf c),
  Iterator_hasCurrent undefined (object c fields)
  = (fst (hasCurrent (Iterator := methods undefined c) fields),
     object c (snd (hasCurrent (Iterator := methods undefined c) fields))).
Proof.
  intros c fields. unfold Iterator_hasCurrent, object. cbn [projT1 projT2].
  destruct (hasCurrent (Iterator := methods undefined c) fields); reflexivity.
Qed.

Lemma Iterator_next_object : forall c (fields : instanceOf c),
  Iterator_next undefined (object c fields)
  = (fst (next (Iterator := methods undefined c) fields),
     object c (snd (next (Iterator := methods undefined c) fields))).
Proof.
  intros c fields. unfold Iterator_next, object. cbn [projT1 projT2].
  destruct (next (Iterator := methods undefined c) fields); reflexivity.
Qed.

Lemma Iterator_getCurrent_object : forall c (fields : instanceOf c),
  Iterator_getCurrent undefined (object c fields)
  = (fst (getCurrent (Iterator := methods undefined c) fields),
     object c (snd (getCurrent (Iterator := methods undefined c) fields))).
Proof.
  intros c fields. unfold Iterator_getCurrent, object. cbn [projT1 projT2].
  destruct (getCurrent (Iterator := methods undefined c) fields); reflexivity.
Qed.

Lemma perform_hasCurrent : forall c (fields : instanceOf c),
  perform undefined call_hasCurrent (object c fields)
  = (answer_boolean (fst (hasCurrent (Iterator := methods undefined c) fields)),
     object c (snd (hasCurrent (Iterator := methods undefined c) fields))).
Proof. intros c fields. unfold perform. rewrite Iterator_hasCurrent_object. reflexivity. Qed.

Lemma perform_next : forall c (fields : instanceOf c),
  perform undefined call_next (object c fields)
  = (answer_boolean (fst (next (Iterator := methods undefined c) fields)),
     object c (snd (next (Iterator := methods undefined c) fields))).
Proof. intros c fields. unfold perform. rewrite Iterator_next_object. reflexivity. Qed.

Lemma perform_getCurrent : forall c (fields : instanceOf c),
  perform undefined call_getCurrent (object c fields)
  = (answer_value (fst (getCurrent (Iterator := methods undefined c) fields)),
     object c (snd (getCurrent (Iterator := methods undefined c) fields))).
Proof. intros c fields. unfold perform. rewrite Iterator_getCurrent_object. reflexivity. Qed.

Lemma observe_view : forall view : IteratorObject (T := T) -> IteratorObject,
  (forall call this,
     perform undefined call (view this)
     = (fst (perform undefined call this), view (snd (perform undefined call this)))) ->
  forall calls this, observe undefined calls (view this) = observe undefined calls this.
Proof.
  intros view H calls. induction calls as [|call calls IH]; intros this; [reflexivity|].
  cbn [observe]. rewrite H. cbn [fst snd]. rewrite IH. reflexivity.
Qed.

Lemma after_invariant : forall P : IteratorObject (T := T) -> Prop,
  (forall call this, P this -> P (snd (perform undefined call this))) ->
  forall calls this, P this -> P (after undefined calls this).
Proof.
  intros P H calls. induction calls as [|call calls IH]; intros this Hthis; [exact Hthis|].
  cbn [after]. apply IH, H, Hthis.
Qed.

Lemma Iterator_where_absent : forall this : IteratorObject (T := T),
  IdentityView undefined (Iterator_where undefined this None) this.
Proof.
  intros this calls. revert this.
  apply (observe_view (fun this => Iterator_where undefined this None)).
  intros call [c fields]. pose proof (methods_coherent undefined c) as HC.
  destruct call; unfold perform, Iterator_where, Iterator_hasStarted, Iterator_hasCurrent,
    Iterator_next, Iterator_getCurrent, object;
    cbn [projT1 projT2 methods instanceOf new_WhereIterator hasStarted hasCurrent next getCurrent
         WhereIterator_Iterator IteratorBase].
  - reflexivity.
  - unfold WhereIterator_hasCurrent. cbn [where_innerIterator where_condition].
    destruct (hasCurrent fields); reflexivity.
  - rewrite (WhereIterator_next_absent HC). destruct (next fields); reflexivity.
  - unfold WhereIterator_getCurrent. cbn [where_innerIterator where_condition].
    destruct (getCurrent fields); reflexivity.
Qed.

Lemma Iterator_skip_nothing : forall (this : IteratorObject (T := T)) (toSkip : option Z),
  match toSkip with Some n => n <= 0 | None => True end ->
  IdentityView undefined (Iterator_skip this toSkip) this.
Proof.
  intros this toSkip H calls. revert this.
  apply (observe_view (fun this => Iterator_skip this toSkip)).
  intros call [c fields]. pose proof (methods_coherent undefined c) as HC.
  assert (Hsettled : SkipIterator_settled (new_SkipIterator fields toSkip)).
  { unfold SkipIterator_settled, new_SkipIterator. cbn [skip_toSkip skip_skipped].
    destruct toSkip as [n|]; [apply Z.ltb_ge; exact H|exact I]. }
  destruct call; unfold perform, Iterator_skip, Iterator_hasStarted, Iterator_hasCurrent,
    Iterator_next, Iterator_getCurrent, object;
    cbn [projT1 projT2 methods instanceOf hasStarted hasCurrent next getCurrent
         SkipIterator_Iterator IteratorBase].
  - reflexivity.
  - rewrite (SkipIterator_settled_hasCurrent HC _ Hsettled).
    unfold SkipIterator_super_hasCurrent, new_SkipIterator.
    cbn [skip_innerIterator skip_toSkip skip_skipped].
    destruct (hasCurrent fields); reflexivity.
  - rewrite (SkipIterator_settled_next _ Hsettled).
    unfold SkipIterator_super_next, new_SkipIterator.
    cbn [skip_innerIterator skip_toSkip skip_skipped].
    destruct (next fields); reflexivity.
  - rewrite (SkipIterator_settled_getCurrent HC _ Hsettled).
    unfold SkipIterator_super_getCurrent, new_SkipIterator.
    cbn [skip_innerIterator skip_toSkip skip_skipped].
    destruct (getCurrent fields); reflexivity.
Qed.

Lemma unmapped_perform : forall call this, unmapped this -> unmapped (snd (perform undefined call this)).
Proof.
  intros call this (c & fields & started & ->).
  destruct call; cbn; eexists c, fields, _; reflexivity.
Qed.

Lemma unmapped_Empty : forall this, unmapped this -> Empty undefined this.
Proof.
  intros this (c & fields & started & ->). repeat split.
Qed.

Lemma Iterator_map_absent : forall this : IteratorObject (T := T),
  EmptyView undefined (Iterator_map undefined this None).
Proof.
  intros [c fields] calls. apply unmapped_Empty, after_invariant.
  - exact unmapped_perform.
  - eexists c, fields, _. reflexivity.
Qed.

Lemma spent_perform : forall call this, spent undefined this -> spent undefined (snd (perform undefined call this)).
Proof.
  intros call this (c & fields & -> & H). pose proof (methods_coherent undefined c) as HC.
  destruct call.
  - exists c, fields. split; [reflexivity|exact H].
  - rewrite perform_hasCurrent. eexists c, _. split; [reflexivity|].
    exact (proj2 (TakeIterator_spent_hasCurrent HC fields H)).
  - rewrite perform_next. eexists c, _. split; [reflexivity|].
    exact (proj2 (TakeIterator_spent_next HC fields H)).
  - rewrite perform_getCurrent. eexists c, _. split; [reflexivity|].
    exact (proj2 (TakeIterator_spent_getCurrent undefined HC fields H)).
Qed.

Lemma spent_Empty : forall this, spent undefined this -> Empty undefined this.
Proof.
  intros this (c & fields & -> & H). pose proof (methods_coherent undefined c) as HC.
  unfold Empty.
  rewrite Iterator_hasCurrent_object, Iterator_next_object, Iterator_getCurrent_object.
  cbn [fst]. repeat split.
  - exact (proj1 (TakeIterator_spent_hasCurrent HC fields H)).
  - exact (proj1 (TakeIterator_spent_next HC fields H)).
  - exact (proj1 (TakeIterator_spent_getCurrent undefined HC fields H)).
  - exact (proj1 (TakeIterator_spent_toArray undefined HC fields H)).
  - exact (proj2 (TakeIterator_spent_toArray undefined HC fields H)).
Qed.

Lemma Iterator_take_nothing : forall (this : IteratorObject (T := T)) (toTake : option Z),
  match toTake with Some n => n <= 0 | None => True end ->
  EmptyView undefined (Iterator_take undefined this toTake).
Proof.
  intros [c fields] toTake H calls. apply spent_Empty, after_invariant.
  - exact spent_perform.
  - eexists c, _. split; [reflexivity|].
    apply new_TakeIterator_spent; [apply methods_coherent|exact H].
Qed.

(** On an iterator that has not been touched, the whole traversal is the
    same too. *)
Lemma Produces_where_absent : forall (this : IteratorObject (T := T)) values,
  Produces undefined this values ->
  Produces undefined (Iterator_where undefined this None) values.
Proof. intros [c fields] values H. exact H. Qed.

Lemma Produces_skip_nothing : forall (this : IteratorObject (T := T)) toSkip values,
  match toSkip with Some n => n <= 0 | None => True end ->
  Produces undefined this values ->
  Produces undefined (Iterator_skip this toSkip) values.
Proof.
  intros [c fields] [n|] values Hn H; [|exact H].
  unfold Produces, Represents, Iterator_skip, object. cbn [projT1 projT2 Rep].
  unfold SkipIterator_Rep, new_SkipIterator. cbn [skip_toSkip skip_skipped skip_innerIterator].
  replace (0 <? n) with false by (symmetry; apply Z.ltb_ge; exact Hn).
  exact H.
Qed.

End Views.

Section ViewClaims.

Context {T : Type}.
Variable undefined : T.

(** C6.  For every iterator object [this], in whatever state, every iterable
    [x] and every count [n <= 0]:
    - [this.where(undefined)] answers every sequence of [hasStarted],
      [hasCurrent], [next] and [getCurrent] calls as [this] does, and
      [x.where(undefined)] is [x];
    - [this.map(undefined)] never has a current value, never advances, and
      its [toArray] is empty and its count 0, after any calls; the values of
      [x.map(undefined)] are none;
    - [this.skip(n)] and [this.skip(undefined)] answer every sequence of
      calls as [this] does, and [x.skip(n)] and [x.skip(undefined)] are [x];
    - [this.take(0)] and [this.take(undefined)] are empty as
      [this.map(undefined)] is, and so are [x.take(0)] and
      [x.take(undefined)];
    - on the iterator of an iterable the identity views also have the
      [toArray] of the iterator itself.
    Every construction and every call above returns: the functions are
    total, and a callback is only called where the source calls it. *)
Theorem C6_absent_arguments : forall (this : IteratorObject (T := T)) (x : Iterable) (n : Z),
  n <= 0 ->
  (IdentityView undefined (Iterator_where undefined this None) this
   /\ Iterable_where x None = x
   /\ Iterator_toArray undefined (Iterator_where undefined (Iterable_iterate undefined x) None)
      = Iterable_toArray undefined x)
  /\ (EmptyView undefined (Iterator_map undefined this None)
      /\ Iterable_toArray undefined (Iterable_map undefined x None) = []
      /\ Iterable_getCount undefined (Iterable_map undefined x None) = 0)
  /\ (IdentityView undefined (Iterator_skip this (Some n)) this
      /\ IdentityView undefined (Iterator_skip this None) this
      /\ Iterable_skip x (Some n) = x
      /\ Iterable_skip x None = x
      /\ Iterator_toArray undefined (Iterator_skip (Iterable_iterate undefined x) (Some n))
         = Iterable_toArray undefined x
      /\ Iterator_toArray undefined (Iterator_skip (Iterable_iterate undefined x) None)
         = Iterable_toArray undefined x)
  /\ (EmptyView undefined (Iterator_take undefined this (Some 0))
      /\ EmptyView undefined (Iterator_take undefined this None)
      /\ Iterable_toArray undefined (Iterable_take undefined x (Some 0)) = []
      /\ Iterable_toArray undefined (Iterable_take undefined x None) = []
      /\ Iterable_getCount undefined (Iterable_take undefined x (Some 0)) = 0
      /\ Iterable_getCount undefined (Iterable_take undefined x None) = 0).
Proof.
  intros this x n Hn.
  pose proof (Iterable_iterate_elements undefined x) as Hx.
  split; [|split; [|split]].
  - split; [apply Iterator_where_absent|split; [reflexivity|]].
    rewrite (Produces_toArray undefined _ _ (Produces_where_absent undefined _ _ Hx)).
    symmetry. apply Iterable_toArray_elements.
  - split; [apply Iterator_map_absent|split; reflexivity].
  - split; [apply Iterator_skip_nothing; exact Hn|].
    split; [apply Iterator_skip_nothing; exact I|].
    split.
    { unfold Iterable_skip, lessThan.
      replace (0 <? n) with false by (symmetry; apply Z.ltb_ge; exact Hn).
      rewrite andb_false_r. reflexivity. }
    split; [reflexivity|].
    split.
    + rewrite (Produces_toArray undefined _ _
                 (Produces_skip_nothing undefined _ (Some n) _ Hn Hx)).
      symmetry. apply Iterable_toArray_elements.
    + rewrite (Produces_toArray undefined _ _
                 (Produces_skip_nothing undefined _ None _ I Hx)).
      symmetry. apply Iterable_toArray_elements.
  - split; [apply Iterator_take_nothing; lia|].
    split; [apply Iterator_take_nothing; exact I|].
    repeat split.
Qed.

End ViewClaims.

Lemma C6_absent_arguments_witness :
  -1 <= 0
  /\ observe None [call_next; call_getCurrent; call_next; call_hasCurrent]
       (Iterator_skip (Iterable_iterate None (ArrayList (numbers [1; 2]))) (Some (-1)))
     = [answer_boolean true; answer_value (Some 1); answer_boolean true; answer_boolean true].
Proof.
  split.
  - lia.
  - rewrite (proj1 (proj1 (proj2 (proj2 (C6_absent_arguments None
               (Iterable_iterate None (ArrayList (numbers [1; 2]))) (ArrayList []) (-1)
               ltac:(lia)))))).
    reflexivity.
Defined.

(** * Not started, and exhausted *)

Section Lifecycle.

Context {T : Type}.
Variable undefined : T.

Lemma ArrayListForwardIterator_lifecycle :
  Lifecycle (ArrayListForwardIterator_Iterator undefined)
    (Fresh ArrayListForwardIteratorClass) (Exhausted ArrayListForwardIteratorClass).
Proof.
  constructor; cbn [Fresh Exhausted hasCurrent next getCurrent
                    ArrayListForwardIterator_Iterator IteratorBase];
    unfold ArrayListForwardIterator_hasCurrent, ArrayListForwardIterator_next,
      ArrayListIterator_getCurrent, ArrayListIterator_hasStarted,
      ArrayListForwardIterator_atEnd;
    intros [data [i|]]; cbn [arrayList currentIndex fst snd isDefined andb negb].
  - discriminate.
  - intros _. split; reflexivity.
  - discriminate.
  - intros _. reflexivity.
  - intros H. split; [rewrite H; reflexivity|exact H].
  - discriminate.
  - intros H. rewrite H. cbn [negb arrayList currentIndex].
    split; [rewrite H; reflexivity|exact H].
  - discriminate.
  - intros H. exact H.
  - discriminate.
  - destruct (i =? ArrayList_getCount data) eqn:E; cbn [negb arrayList currentIndex].
    + rewrite E. intros _. reflexivity.
    + intros H. apply negb_false_iff in H. exact H.
  - intros H. apply negb_false_iff in H. exact H.
Qed.

Lemma ArrayListReverseIterator_lifecycle :
  Lifecycle (ArrayListReverseIterator_Iterator undefined)
    (Fresh ArrayListReverseIteratorClass) (Exhausted ArrayListReverseIteratorClass).
Proof.
  constructor; cbn [Fresh Exhausted hasCurrent next getCurrent
                    ArrayListReverseIterator_Iterator IteratorBase];
    unfold ArrayListReverseIterator_hasCurrent, ArrayListReverseIterator_next,
      ArrayListIterator_getCurrent, ArrayListIterator_hasStarted,
      ArrayListReverseIterator_atEnd, lessThan;
    intros [data [i|]]; cbn [arrayList currentIndex fst snd isDefined andb negb].
  - discriminate.
  - intros _. split; reflexivity.
  - discriminate.
  - intros _. reflexivity.
  - intros H. split; [rewrite H; reflexivity|exact H].
  - discriminate.
  - intros H. rewrite H. cbn [negb arrayList currentIndex].
    split; [rewrite H; reflexivity|exact H].
  - discriminate.
  - intros H. exact H.
  - discriminate.
  - destruct (i <? 0) eqn:E; cbn [negb arrayList currentIndex].
    + rewrite E. intros _. reflexivity.
    + intros H. apply negb_false_iff in H. exact H.
  - intros H. apply negb_false_iff in H. exact H.
Qed.

Lemma StringIterator_lifecycle :
  Lifecycle (StringIterator_Iterator undefined)
    (Fresh StringIteratorClass) (Exhausted StringIteratorClass).
Proof.
  constructor; cbn [Fresh Exhausted hasCurrent next getCurrent
                    StringIterator_Iterator IteratorBase];
    unfold StringIterator_hasCurrent, StringIterator_next, StringIterator_getCurrent,
      StringIterator_hasStarted;
    intros this; cbn [fst snd].
  - intros H. split; [rewrite H; reflexivity|exact H].
  - intros H. exact H.
  - intros [H1 H2]. split; [rewrite H1, H2; reflexivity|split; [exact H1|exact H2]].
  - intros [H1 H2]. rewrite H1, H2. cbn [negb].
    split; [exact H2|split; [exact H1|exact H2]].
  - intros H. exact H.
  - intros H. split; [|exact H].
    destruct (si_started this) eqn:E1; cbn [negb]; [|reflexivity].
    destruct (StringIterator_hasMore this); [reflexivity|exact E1].
Qed.

Section DecoratorLifecycle.

Context {I : Type} {inner : Iterator (T := T) I}.
Variables fresh exhausted : I -> Prop.
Hypothesis innerCoherent : Coherent inner.
Hypothesis innerLifecycle : Lifecycle inner fresh exhausted.

(** The loop of [WhereIterator.next] stops on a value or at the end. *)
Lemma WhereIterator_next_loop_stops : forall fuel condition (i : I),
  (fuel = O -> exhausted i \/ fst (hasCurrent i) = true) ->
  exhausted (WhereIterator_next_loop fuel condition i)
  \/ fst (hasCurrent (WhereIterator_next_loop fuel condition i)) = true.
Proof.
  induction fuel as [|fuel IH]; intros condition i H; [exact (H eq_refl)|].
  cbn [WhereIterator_next_loop].
  destruct (next i) as [more i1] eqn:E1.
  pose proof (coherent_next _ innerCoherent _ _ _ E1) as E1'.
  destruct more.
  - destruct (getCurrent i1) as [value i2] eqn:E2.
    pose proof (coherent_current _ innerCoherent _ _ _ E2) as E2'.
    rewrite E1' in E2'. cbn [fst] in E2'.
    destruct (negb (condition value)).
    + apply IH. intros _. right. exact E2'.
    + right. exact E2'.
  - left. pose proof (next_exhausted _ _ _ innerLifecycle i) as H1.
    rewrite E1 in H1. exact (H1 eq_refl).
Qed.

Lemma WhereIterator_next_loop_exhausted : forall fuel condition (i : I),
  exhausted i -> exhausted (WhereIterator_next_loop fuel condition i).
Proof.
  intros [|fuel] condition i H; [exact H|]. cbn [WhereIterator_next_loop].
  destruct (exhausted_next _ _ _ innerLifecycle i H) as [H1 H2].
  destruct (next i) as [more i1]. cbn [fst snd] in *. subst more. exact H2.
Qed.

Lemma WhereIterator_lifecycle :
  Lifecycle (@WhereIterator_Iterator T I inner)
    (fun this => fresh (where_innerIterator this))
    (fun this => exhausted (where_innerIterator this)).
Proof.
  assert (Hfresh : forall this : WhereIterator I,
    fresh (where_innerIterator this) ->
    fst (WhereIterator_hasCurrent this) = false
    /\ fresh (where_innerIterator (snd (WhereIterator_hasCurrent this)))).
  { intros [i condition] H. unfold WhereIterator_hasCurrent.
    cbn [where_innerIterator where_condition] in *.
    destruct (fresh_hasCurrent _ _ _ innerLifecycle i H) as [H1 H2].
    destruct (hasCurrent i) as [b i1]. exact (conj H1 H2). }
  assert (Hexhausted : forall this : WhereIterator I,
    exhausted (where_innerIterator this) ->
    fst (WhereIterator_hasCurrent this) = false
    /\ exhausted (where_innerIterator (snd (WhereIterator_hasCurrent this)))).
  { intros [i condition] H. unfold WhereIterator_hasCurrent.
    cbn [where_innerIterator where_condition] in *.
    destruct (exhausted_hasCurrent _ _ _ innerLifecycle i H) as [H1 H2].
    destruct (hasCurrent i) as [b i1]. exact (conj H1 H2). }
  constructor; cbn [hasCurrent next getCurrent WhereIterator_Iterator IteratorBase].
  - exact Hfresh.
  - intros [i condition] H. unfold WhereIterator_getCurrent.
    cbn [where_innerIterator where_condition] in *.
    pose proof (fresh_getCurrent _ _ _ innerLifecycle i H) as H1.
    destruct (getCurrent i) as [value i1]. exact H1.
  - exact Hexhausted.
  - intros [i condition] H. unfold WhereIterator_next.
    cbn [where_innerIterator where_condition] in *.
    apply Hexhausted. cbn [where_innerIterator].
    destruct condition as [condition|].
    + apply WhereIterator_next_loop_exhausted, H.
    + apply (exhausted_next _ _ _ innerLifecycle i H).
  - intros [i condition] H. unfold WhereIterator_getCurrent.
    cbn [where_innerIterator where_condition] in *.
    pose proof (exhausted_getCurrent _ _ _ innerLifecycle i H) as H1.
    destruct (getCurrent i) as [value i1]. exact H1.
  - intros [i condition]. unfold WhereIterator_next.
    cbn [where_innerIterator where_condition].
    set (i' := match condition with
               | Some c => WhereIterator_next_loop (S (remaining i)) c i
               | None => snd (next i)
               end).
    assert (H : exhausted i' \/ fst (hasCurrent i') = true).
    { subst i'. destruct condition as [condition|].
      - apply WhereIterator_next_loop_stops. discriminate.
      - destruct (next i) as [more i1] eqn:E. cbn [snd].
        pose proof (coherent_next _ innerCoherent _ _ _ E) as E'.
        destruct more.
        + right. rewrite E'. reflexivity.
        + left. pose proof (next_exhausted _ _ _ innerLifecycle i) as H1.
          rewrite E in H1. exact (H1 eq_refl). }
    clearbody i'. intros Hanswer.
    unfold WhereIterator_hasCurrent in *. cbn [where_innerIterator where_condition] in *.
    destruct H as [H|H].
    + destruct (exhausted_hasCurrent _ _ _ innerLifecycle i' H) as [_ H2].
      destruct (hasCurrent i') as [b i1]. exact H2.
    + destruct (hasCurrent i') as [b i1]. cbn [fst] in *. congruence.
Qed.

(** *** SkipIterator *)

Lemma SkipIterator_skipValues_loop_exhausted : forall fuel toSkip (i : I) skipped,
  exhausted i -> exhausted (fst (SkipIterator_skipValues_loop fuel toSkip i skipped)).
Proof.
  induction fuel as [|fuel IH]; intros toSkip i skipped H; [exact H|].
  cbn [SkipIterator_skipValues_loop].
  destruct (skipped <? toSkip); [|exact H].
  destruct (exhausted_next _ _ _ innerLifecycle i H) as [H1 H2].
  destruct (next i) as [more i1]. cbn [fst snd] in *. subst more. cbn [negb].
  apply IH, H2.
Qed.

Lemma SkipIterator_skipValues_exhausted : forall this : SkipIterator I,
  exhausted (skip_innerIterator this) ->
  exhausted (skip_innerIterator (SkipIterator_skipValues this)).
Proof.
  intros [i [toSkip|] skipped] H; unfold SkipIterator_skipValues;
    cbn [skip_innerIterator skip_toSkip skip_skipped] in *; [|exact H].
  pose proof (SkipIterator_skipValues_loop_exhausted (S (Z.to_nat (toSkip - skipped)))
                toSkip i skipped H) as H1.
  destruct (SkipIterator_skipValues_loop (S (Z.to_nat (toSkip - skipped))) toSkip i skipped)
    as [i1 skipped1].
  exact H1.
Qed.

(** [hasCurrent] and [getCurrent] of a [SkipIterator] whose inner iterator
    has no current value and keeps a property [P] while it has none. *)
Lemma SkipIterator_hasCurrent_without : forall (P : I -> Prop),
  (forall i, P i -> fst (hasCurrent i) = false /\ P (snd (hasCurrent i))) ->
  forall this : SkipIterator I,
    P (skip_innerIterator this) ->
    fst (SkipIterator_hasCurrent this) = false
    /\ P (skip_innerIterator (snd (SkipIterator_hasCurrent this))).
Proof.
  intros P HP [i toSkip skipped] H.
  unfold SkipIterator_hasCurrent, SkipIterator_super_hasCurrent.
  cbn [skip_innerIterator skip_toSkip skip_skipped] in *.
  destruct (HP i H) as [H1 H2].
  destruct (hasCurrent i) as [b i1]. cbn [fst snd] in *. subst b.
  cbn [skip_innerIterator skip_toSkip skip_skipped].
  destruct (HP i1 H2) as [H3 H4].
  destruct (hasCurrent i1) as [b i2]. exact (conj H3 H4).
Qed.

Lemma SkipIterator_getCurrent_without : forall (P : I -> Prop),
  (forall i, P i -> fst (hasCurrent i) = false /\ P (snd (hasCurrent i))) ->
  (forall i, P i -> P (snd (getCurrent i))) ->
  forall this : SkipIterator I,
    P (skip_innerIterator this) ->
    P (skip_innerIterator (snd (SkipIterator_getCurrent this))).
Proof.
  intros P HP HG [i toSkip skipped] H.
  unfold SkipIterator_getCurrent, SkipIterator_super_hasCurrent, SkipIterator_super_getCurrent.
  cbn [skip_innerIterator skip_toSkip skip_skipped] in *.
  destruct (HP i H) as [H1 H2].
  destruct (hasCurrent i) as [b i1]. cbn [fst snd] in *. subst b.
  cbn [skip_innerIterator skip_toSkip skip_skipped].
  pose proof (HG i1 H2) as H3.
  destruct (getCurrent i1) as [value i2]. exact H3.
Qed.

Lemma SkipIterator_lifecycle :
  Lifecycle (@SkipIterator_Iterator T I inner)
    (fun this => fresh (skip_innerIterator this))
    (fun this => exhausted (skip_innerIterator this)).
Proof.
  constructor; cbn [hasCurrent next getCurrent SkipIterator_Iterator IteratorBase].
  - apply SkipIterator_hasCurrent_without, (fresh_hasCurrent _ _ _ innerLifecycle).
  - apply SkipIterator_getCurrent_without;
      [apply (fresh_hasCurrent _ _ _ innerLifecycle)
      |apply (fresh_getCurrent _ _ _ innerLifecycle)].
  - apply SkipIterator_hasCurrent_without, (exhausted_hasCurrent _ _ _ innerLifecycle).
  - intros this H. unfold SkipIterator_next.
    pose proof (SkipIterator_skipValues_exhausted this H) as H1.
    destruct (SkipIterator_skipValues this) as [i toSkip skipped].
    unfold SkipIterator_super_next. cbn [skip_innerIterator skip_toSkip skip_skipped] in *.
    destruct (exhausted_next _ _ _ innerLifecycle i H1) as [H2 H3].
    destruct (next i) as [more i1]. exact (conj H2 H3).
  - apply SkipIterator_getCurrent_without;
      [apply (exhausted_hasCurrent _ _ _ innerLifecycle)
      |apply (exhausted_getCurrent _ _ _ innerLifecycle)].
  - intros this. unfold SkipIterator_next.
    destruct (SkipIterator_skipValues this) as [i toSkip skipped].
    unfold SkipIterator_super_next. cbn [skip_innerIterator skip_toSkip skip_skipped].
    pose proof (next_exhausted _ _ _ innerLifecycle i) as H.
    destruct (next i) as [more i1]. exact H.
Qed.

(** *** TakeIterator *)

Lemma TakeIterator_hasCurrent_without : forall (P : I -> Prop),
  (forall i, P i -> fst (hasCurrent i) = false /\ P (snd (hasCurrent i))) ->
  forall this : TakeIterator I,
    P (take_innerIterator this) ->
    fst (TakeIterator_hasCurrent this) = false
    /\ P (take_innerIterator (snd (TakeIterator_hasCurrent this))).
Proof.
  intros P HP [i toTake taken] H. unfold TakeIterator_hasCurrent.
  cbn [take_innerIterator take_toTake take_taken] in *.
  destruct (HP i H) as [H1 H2].
  destruct (hasCurrent i) as [b i1]. cbn [fst snd] in *. subst b. exact (conj eq_refl H2).
Qed.

Lemma TakeIterator_getCurrent_without : forall (P : I -> Prop),
  (forall i, P i -> fst (hasCurrent i) = false /\ P (snd (hasCurrent i))) ->
  forall this : TakeIterator I,
    P (take_innerIterator this) ->
    P (take_innerIterator (snd (TakeIterator_getCurrent undefined this))).
Proof.
  intros P HP this H. unfold TakeIterator_getCurrent.
  destruct (TakeIterator_hasCurrent_without P HP this H) as [H1 H2].
  destruct (TakeIterator_hasCurrent this) as [b this1]. cbn [fst snd] in *. subst b.
  exact H2.
Qed.

(** Once [canTakeValue()] is false the iterator stays as it is. *)
Lemma TakeIterator_hasCurrent_taken : forall this : TakeIterator I,
  TakeIterator_canTakeValue this = false ->
  fst (TakeIterator_hasCurrent this) = false
  /\ TakeIterator_canTakeValue (snd (TakeIterator_hasCurrent this)) = false.
Proof.
  intros [i toTake taken] H. unfold TakeIterator_hasCurrent, TakeIterator_canTakeValue in *.
  cbn [take_innerIterator take_toTake take_taken] in *.
  destruct (hasCurrent i) as [b i1]. cbn [fst snd take_toTake take_taken].
  rewrite H. split; [apply andb_false_r|reflexivity].
Qed.

Lemma TakeIterator_hasCurrent_exhausted : forall this : TakeIterator I,
  TakeIterator_exhausted exhausted this ->
  fst (TakeIterator_hasCurrent this) = false
  /\ TakeIterator_exhausted exhausted (snd (TakeIterator_hasCurrent this)).
Proof.
  intros this [H|H].
  - destruct (TakeIterator_hasCurrent_taken this H) as [H1 H2].
    split; [exact H1|left; exact H2].
  - destruct (TakeIterator_hasCurrent_without exhausted
                (exhausted_hasCurrent _ _ _ innerLifecycle) this H) as [H1 H2].
    split; [exact H1|right; exact H2].
Qed.

Lemma TakeIterator_lifecycle :
  Lifecycle (@TakeIterator_Iterator T undefined I inner)
    (fun this => fresh (take_innerIterator this)) (TakeIterator_exhausted exhausted).
Proof.
  constructor; cbn [hasCurrent next getCurrent TakeIterator_Iterator IteratorBase].
  - apply TakeIterator_hasCurrent_without, (fresh_hasCurrent _ _ _ innerLifecycle).
  - apply TakeIterator_getCurrent_without, (fresh_hasCurrent _ _ _ innerLifecycle).
  - exact TakeIterator_hasCurrent_exhausted.
  - intros this H. unfold TakeIterator_next. apply TakeIterator_hasCurrent_exhausted.
    destruct (TakeIterator_canTakeValue this) eqn:E; [|exact H].
    destruct H as [H|H]; [congruence|].
    right. cbn [take_innerIterator]. apply (exhausted_next _ _ _ innerLifecycle), H.
  - intros this H. unfold TakeIterator_getCurrent.
    destruct (TakeIterator_hasCurrent_exhausted this H) as [H1 H2].
    destruct (TakeIterator_hasCurrent this) as [b this1]. cbn [fst snd] in *. subst b.
    exact H2.
  - intros [i toTake taken]. unfold TakeIterator_next.
    destruct (TakeIterator_canTakeValue
                {| take_innerIterator := i; take_toTake := toTake; take_taken := taken |})
      eqn:E; cbn [take_innerIterator take_toTake take_taken].
    + unfold TakeIterator_hasCurrent, TakeIterator_exhausted.
      cbn [take_innerIterator take_toTake take_taken].
      destruct (next i) as [more i1] eqn:E1. cbn [snd].
      rewrite (coherent_next _ innerCoherent _ _ _ E1). cbn [fst snd take_innerIterator].
      intros H. apply andb_false_iff in H. destruct H as [H|H].
      * right. subst more. pose proof (next_exhausted _ _ _ innerLifecycle i) as H1.
        rewrite E1 in H1. exact (H1 eq_refl).
      * left. exact H.
    + intros _. apply TakeIterator_hasCurrent_exhausted. left. exact E.
Qed.

(** *** MapIterator *)

Lemma MapIterator_hasCurrent_without : forall (P : I -> Prop),
  (forall i, P i -> fst (hasCurrent i) = false /\ P (snd (hasCurrent i))) ->
  forall this : MapIterator I,
    P (map_innerIterator this) ->
    fst (MapIterator_hasCurrent this) = false
    /\ P (map_innerIterator (snd (MapIterator_hasCurrent this)))
    /\ map_mapFunction (snd (MapIterator_hasCurrent this)) = map_mapFunction this.
Proof.
  intros P HP [i [f|] started] H; unfold MapIterator_hasCurrent;
    cbn [map_innerIterator map_mapFunction map_started] in *.
  - destruct (HP i H) as [H1 H2].
    destruct (hasCurrent i) as [b i1]. exact (conj H1 (conj H2 eq_refl)).
  - exact (conj eq_refl (conj H eq_refl)).
Qed.

Lemma MapIterator_hasCurrent_exhausted : forall this : MapIterator I,
  MapIterator_exhausted exhausted this ->
  fst (MapIterator_hasCurrent this) = false
  /\ MapIterator_exhausted exhausted (snd (MapIterator_hasCurrent this)).
Proof.
  intros this [H|H].
  - destruct this as [i f started]. cbn [map_mapFunction] in H. subst f.
    split; [reflexivity|left; reflexivity].
  - destruct (MapIterator_hasCurrent_without exhausted
                (exhausted_hasCurrent _ _ _ innerLifecycle) this H) as (H1 & H2 & _).
    split; [exact H1|right; exact H2].
Qed.

Lemma MapIterator_lifecycle :
  Lifecycle (@MapIterator_Iterator T undefined I inner)
    (fun this => fresh (map_innerIterator this)) (MapIterator_exhausted exhausted).
Proof.
  constructor; cbn [hasCurrent next getCurrent MapIterator_Iterator].
  - intros this H.
    destruct (MapIterator_hasCurrent_without fresh
                (fresh_hasCurrent _ _ _ innerLifecycle) this H) as (H1 & H2 & _).
    exact (conj H1 H2).
  - intros this H. unfold MapIterator_getCurrent.
    destruct (MapIterator_hasCurrent_without fresh
                (fresh_hasCurrent _ _ _ innerLifecycle) this H) as (H1 & H2 & _).
    destruct (MapIterator_hasCurrent this) as [b this1]. cbn [fst snd] in *. subst b.
    exact H2.
  - exact MapIterator_hasCurrent_exhausted.
  - intros [i [f|] started] [H|H]; unfold MapIterator_next, MapIterator_exhausted;
      cbn [map_innerIterator map_mapFunction map_started isDefined] in *;
      try discriminate.
    + destruct (exhausted_next _ _ _ innerLifecycle i H) as [H1 H2].
      destruct (next i) as [more i1]. cbn [fst snd map_innerIterator map_mapFunction] in *.
      split; [exact H1|right; exact H2].
    + split; [reflexivity|left; reflexivity].
    + split; [reflexivity|left; reflexivity].
  - intros this H. unfold MapIterator_getCurrent.
    destruct (MapIterator_hasCurrent_exhausted this H) as [H1 H2].
    destruct (MapIterator_hasCurrent this) as [b this1]. cbn [fst snd] in *. subst b.
    exact H2.
  - intros [i [f|] started]; unfold MapIterator_next, MapIterator_exhausted;
      cbn [map_innerIterator map_mapFunction map_started isDefined].
    + pose proof (next_exhausted _ _ _ innerLifecycle i) as H.
      destruct (next i) as [more i1]. cbn [fst snd map_innerIterator map_mapFunction] in *.
      intros H1. right. exact (H H1).
    + intros _. left. reflexivity.
Qed.

(** *** Decorators built on a fresh iterator *)

Lemma WhereIterator_constructor_loop_fresh : forall fuel condition (i : I),
  fresh i -> fresh (WhereIterator_constructor_loop fuel condition i).
Proof.
  intros [|fuel] condition i H; [exact H|]. cbn [WhereIterator_constructor_loop].
  destruct (fresh_hasCurrent _ _ _ innerLifecycle i H) as [H1 H2].
  destruct (hasCurrent i) as [b i1]. cbn [fst snd] in *. subst b. exact H2.
Qed.

Lemma new_WhereIterator_fresh : forall (i : I) condition,
  fresh i -> fresh (where_innerIterator (new_WhereIterator i condition)).
Proof.
  intros i [condition|] H; cbn [new_WhereIterator where_innerIterator]; [|exact H].
  apply WhereIterator_constructor_loop_fresh, H.
Qed.

Lemma new_TakeIterator_fresh : forall (i : I) toTake,
  fresh i -> fresh (take_innerIterator (new_TakeIterator i toTake)).
Proof.
  intros i toTake H. unfold new_TakeIterator.
  destruct (fresh_hasCurrent _ _ _ innerLifecycle i H) as [_ H2].
  destruct (hasCurrent i) as [b i1]. exact H2.
Qed.

End DecoratorLifecycle.

Section ConcatenateLifecycle.

Context {I1 I2 : Type} {first : Iterator (T := T) I1} {second : Iterator (T := T) I2}.
Variables (fresh1 exhausted1 : I1 -> Prop) (fresh2 exhausted2 : I2 -> Prop).
Hypothesis firstLifecycle : Lifecycle first fresh1 exhausted1.
Hypothesis secondLifecycle : Lifecycle second fresh2 exhausted2.

Lemma ConcatenateIterator_hasCurrent_without : forall (P1 : I1 -> Prop) (P2 : I2 -> Prop),
  (forall i, P1 i -> fst (hasCurrent i) = false /\ P1 (snd (hasCurrent i))) ->
  (forall i, P2 i -> fst (hasCurrent i) = false /\ P2 (snd (hasCurrent i))) ->
  forall this : ConcatenateIterator I1 I2,
    P1 (concatenate_first this) /\ P2 (concatenate_second this) ->
    fst (ConcatenateIterator_hasCurrent this) = false
    /\ P1 (concatenate_first (snd (ConcatenateIterator_hasCurrent this)))
    /\ P2 (concatenate_second (snd (ConcatenateIterator_hasCurrent this))).
Proof.
  intros P1 P2 HP1 HP2 [f s] [H1 H2]. unfold ConcatenateIterator_hasCurrent.
  cbn [concatenate_first concatenate_second] in *.
  destruct (HP1 f H1) as [H3 H4]. destruct (HP2 s H2) as [H5 H6].
  destruct (hasCurrent f) as [b1 f1]. cbn [fst snd] in *. subst b1.
  destruct (hasCurrent s) as [b2 s1]. exact (conj H5 (conj H4 H6)).
Qed.

Lemma ConcatenateIterator_getCurrent_without : forall (P1 : I1 -> Prop) (P2 : I2 -> Prop),
  (forall i, P1 i -> fst (hasCurrent i) = false /\ P1 (snd (hasCurrent i))) ->
  (forall i, P2 i -> P2 (snd (getCurrent i))) ->
  forall this : ConcatenateIterator I1 I2,
    P1 (concatenate_first this) /\ P2 (concatenate_second this) ->
    P1 (concatenate_first (snd (ConcatenateIterator_getCurrent this)))
    /\ P2 (concatenate_second (snd (ConcatenateIterator_getCurrent this))).
Proof.
  intros P1 P2 HP1 HG2 [f s] [H1 H2]. unfold ConcatenateIterator_getCurrent.
  cbn [concatenate_first concatenate_second] in *.
  destruct (HP1 f H1) as [H3 H4]. pose proof (HG2 s H2) as H5.
  destruct (hasCurrent f) as [b1 f1]. cbn [fst snd] in *. subst b1.
  destruct (getCurrent s) as [value s1]. exact (conj H4 H5).
Qed.

Lemma ConcatenateIterator_lifecycle :
  Lifecycle (@ConcatenateIterator_Iterator T I1 I2 first second)
    (fun this => fresh1 (concatenate_first this) /\ fresh2 (concatenate_second this))
    (fun this => exhausted1 (concatenate_first this) /\ exhausted2 (concatenate_second this)).
Proof.
  constructor; cbn [hasCurrent next getCurrent ConcatenateIterator_Iterator IteratorBase].
  - apply ConcatenateIterator_hasCurrent_without;
      [apply (fresh_hasCurrent _ _ _ firstLifecycle)
      |apply (fresh_hasCurrent _ _ _ secondLifecycle)].
  - apply ConcatenateIterator_getCurrent_without;
      [apply (fresh_hasCurrent _ _ _ firstLifecycle)
      |apply (fresh_getCurrent _ _ _ secondLifecycle)].
  - apply ConcatenateIterator_hasCurrent_without;
      [apply (exhausted_hasCurrent _ _ _ firstLifecycle)
      |apply (exhausted_hasCurrent _ _ _ secondLifecycle)].
  - intros [f s] [H1 H2]. unfold ConcatenateIterator_next.
    cbn [concatenate_first concatenate_second] in *.
    destruct (exhausted_next _ _ _ firstLifecycle f H1) as [H3 H4].
    destruct (exhausted_next _ _ _ secondLifecycle s H2) as [H5 H6].
    destruct (next f) as [b1 f1]. cbn [fst snd] in *. subst b1.
    destruct (next s) as [b2 s1]. exact (conj H5 (conj H4 H6)).
  - apply ConcatenateIterator_getCurrent_without;
      [apply (exhausted_hasCurrent _ _ _ firstLifecycle)
      |apply (exhausted_getCurrent _ _ _ secondLifecycle)].
  - intros [f s]. unfold ConcatenateIterator_next.
    cbn [concatenate_first concatenate_second].
    pose proof (next_exhausted _ _ _ firstLifecycle f) as H1.
    pose proof (next_exhausted _ _ _ secondLifecycle s) as H2.
    destruct (next f) as [b1 f1]. destruct b1; [discriminate|].
    destruct (next s) as [b2 s1]. cbn [fst snd concatenate_first concatenate_second] in *.
    intros H. exact (conj (H1 eq_refl) (H2 H)).
Qed.

End ConcatenateLifecycle.

Lemma methods_lifecycle : forall c : IteratorClass,
  Lifecycle (methods undefined c) (Fresh c) (Exhausted c).
Proof.
  induction c as [| | |c IH|c IH|c IH|c IH|c1 IH1 c2 IH2]; cbn [methods instanceOf].
  - apply ArrayListForwardIterator_lifecycle.
  - apply ArrayListReverseIterator_lifecycle.
  - apply StringIterator_lifecycle.
  - apply (WhereIterator_lifecycle _ _ (methods_coherent undefined c) IH).
  - apply (SkipIterator_lifecycle _ _ IH).
  - apply (TakeIterator_lifecycle _ _ (methods_coherent undefined c) IH).
  - apply (MapIterator_lifecycle _ _ IH).
  - apply (ConcatenateIterator_lifecycle _ _ _ _ IH1 IH2).
Qed.

(** ** Iterator objects *)

Lemma Iterator_where_fresh : forall (this : IteratorObject (T := T)) condition,
  IsFresh this -> IsFresh (Iterator_where undefined this condition).
Proof.
  intros [c fields] condition H.
  exact (new_WhereIterator_fresh _ _ (methods_lifecycle c) fields condition H).
Qed.

Lemma Iterator_skip_fresh : forall (this : IteratorObject (T := T)) toSkip,
  IsFresh this -> IsFresh (Iterator_skip this toSkip).
Proof. intros [c fields] toSkip H. exact H. Qed.

Lemma Iterator_take_fresh : forall (this : IteratorObject (T := T)) toTake,
  IsFresh this -> IsFresh (Iterator_take undefined this toTake).
Proof.
  intros [c fields] toTake H.
  exact (new_TakeIterator_fresh _ _ (methods_lifecycle c) fields toTake H).
Qed.

Lemma Iterator_map_fresh : forall (this : IteratorObject (T := T)) mapFunction,
  IsFresh this -> IsFresh (Iterator_map undefined this mapFunction).
Proof. intros [c fields] mapFunction H. exact H. Qed.

Lemma Iterator_concatenate_fresh : forall this toConcatenate : IteratorObject (T := T),
  IsFresh this -> IsFresh toConcatenate -> IsFresh (Iterator_concatenate this toConcatenate).
Proof. intros [c1 fields1] [c2 fields2] H1 H2. exact (conj H1 H2). Qed.

Lemma Iterable_iterate_fresh : forall x : Iterable (T := T),
  IsFresh (Iterable_iterate undefined x).
Proof.
  induction x as [data|text|inner IH condition|inner IH toSkip|inner IH toTake
                  |inner IH mapFunction|first IH1 second IH2]; cbn [Iterable_iterate].
  - reflexivity.
  - reflexivity.
  - apply Iterator_where_fresh, IH.
  - apply Iterator_skip_fresh, IH.
  - apply Iterator_take_fresh, IH.
  - apply Iterator_map_fresh, IH.
  - apply Iterator_concatenate_fresh; assumption.
Qed.

Lemma Iterable_iterateReverse_fresh : forall x : Iterable (T := T),
  IsFresh (Iterable_iterateReverse undefined x).
Proof.
  induction x as [data|text|inner IH condition|inner IH toSkip|inner IH toTake
                  |inner IH mapFunction|first IH1 second IH2]; cbn [Iterable_iterateReverse].
  - reflexivity.
  - reflexivity.
  - apply Iterator_where_fresh, IH.
  - apply Iterator_take_fresh, IH.
  - apply Iterator_skip_fresh, IH.
  - apply Iterator_map_fresh, IH.
  - apply Iterator_concatenate_fresh; assumption.
Qed.

(** A call other than [next()] leaves a fresh object fresh. *)
Lemma IsFresh_perform : forall call (this : IteratorObject (T := T)),
  call <> call_next -> IsFresh this -> IsFresh (snd (perform undefined call this)).
Proof.
  intros call [c fields] Hcall H. pose proof (methods_lifecycle c) as L.
  change (existT _ c fields) with (object c fields).
  destruct call.
  - exact H.
  - rewrite (perform_hasCurrent undefined c fields). exact (proj2 (fresh_hasCurrent _ _ _ L fields H)).
  - contradiction Hcall. reflexivity.
  - rewrite (perform_getCurrent undefined c fields). exact (fresh_getCurrent _ _ _ L fields H).
Qed.

Lemma IsFresh_after : forall calls (this : IteratorObject (T := T)),
  Forall (fun call => call <> call_next) calls ->
  IsFresh this -> IsFresh (after undefined calls this).
Proof.
  induction calls as [|call calls IH]; intros this Hcalls H; [exact H|].
  inversion Hcalls as [|? ? Hcall Hcalls']; subst.
  cbn [after]. apply IH; [exact Hcalls'|]. apply IsFresh_perform; assumption.
Qed.

Lemma IsFresh_hasCurrent : forall this : IteratorObject (T := T),
  IsFresh this -> fst (Iterator_hasCurrent undefined this) = false.
Proof.
  intros [c fields] H. change (existT _ c fields) with (object c fields).
  rewrite (Iterator_hasCurrent_object undefined c fields).
  exact (proj1 (fresh_hasCurrent _ _ _ (methods_lifecycle c) fields H)).
Qed.

(** No call brings an exhausted object back. *)
Lemma IsExhausted_perform : forall call (this : IteratorObject (T := T)),
  IsExhausted this -> IsExhausted (snd (perform undefined call this)).
Proof.
  intros call [c fields] H. pose proof (methods_lifecycle c) as L.
  change (existT _ c fields) with (object c fields).
  destruct call.
  - exact H.
  - rewrite (perform_hasCurrent undefined c fields). exact (proj2 (exhausted_hasCurrent _ _ _ L fields H)).
  - rewrite (perform_next undefined c fields). exact (proj2 (exhausted_next _ _ _ L fields H)).
  - rewrite (perform_getCurrent undefined c fields). exact (exhausted_getCurrent _ _ _ L fields H).
Qed.

Lemma IsExhausted_answers : forall this : IteratorObject (T := T),
  IsExhausted this ->
  fst (Iterator_hasCurrent undefined this) = false
  /\ fst (Iterator_next undefined this) = false.
Proof.
  intros [c fields] H. pose proof (methods_lifecycle c) as L.
  change (existT _ c fields) with (object c fields).
  rewrite (Iterator_hasCurrent_object undefined c fields), (Iterator_next_object undefined c fields).
  exact (conj (proj1 (exhausted_hasCurrent _ _ _ L fields H))
              (proj1 (exhausted_next _ _ _ L fields H))).
Qed.

Lemma Iterator_next_exhausted : forall this : IteratorObject (T := T),
  fst (Iterator_next undefined this) = false ->
  IsExhausted (snd (Iterator_next undefined this)).
Proof.
  intros [c fields]. change (existT _ c fields) with (object c fields).
  rewrite (Iterator_next_object undefined c fields).
  exact (next_exhausted _ _ _ (methods_lifecycle c) fields).
Qed.

End Lifecycle.

Section LifecycleClaims.

Context {T : Type}.
Variable undefined : T.

(** C7, amended.  For every iterator object [this] of the family, in
    whatever state, and every sequence of calls, while the lists the
    iterators read are not modified:
    - if no [next()] has reached [this] or an iterator it wraps, then after
      calls other than [next()] its [hasCurrent()] is false;
    - if [this.next()] answers false, then after any further calls
      [hasCurrent()] is false and [next()] answers false;
    - the iterators that [iterate()] and [iterateReverse()] give and a new
      [StringIterator] have not been reached by a [next()], and neither has
      a decorator built on iterators that have not. *)
Theorem C7_iterator_lifecycle : forall (this : IteratorObject (T := T)) (calls : list Call),
  (IsFresh this ->
   Forall (fun call => call <> call_next) calls ->
   fst (Iterator_hasCurrent undefined (after undefined calls this)) = false)
  /\ (fst (Iterator_next undefined this) = false ->
      fst (Iterator_hasCurrent undefined
             (after undefined calls (snd (Iterator_next undefined this)))) = false
      /\ fst (Iterator_next undefined
                (after undefined calls (snd (Iterator_next undefined this)))) = false)
  /\ (forall x : Iterable,
        IsFresh (Iterable_iterate undefined x) /\ IsFresh (Iterable_iterateReverse undefined x))
  /\ (forall (text : list T) startIndex endIndex,
        IsFresh (object StringIteratorClass (new_StringIterator text startIndex endIndex)))
  /\ (IsFresh this ->
      forall condition toSkip toTake mapFunction,
        IsFresh (Iterator_where undefined this condition)
        /\ IsFresh (Iterator_skip this toSkip)
        /\ IsFresh (Iterator_take undefined this toTake)
        /\ IsFresh (Iterator_map undefined this mapFunction)
        /\ (forall toConcatenate,
              IsFresh toConcatenate -> IsFresh (Iterator_concatenate this toConcatenate))).
Proof.
  intros this calls. split; [|split; [|split; [|split]]].
  - intros H Hcalls. apply IsFresh_hasCurrent, IsFresh_after; assumption.
  - intros H. apply IsExhausted_answers.
    apply (after_invariant undefined IsExhausted).
    + intros call this' H'. apply IsExhausted_perform, H'.
    + apply Iterator_next_exhausted, H.
  - intros x. split; [apply Iterable_iterate_fresh|apply Iterable_iterateReverse_fresh].
  - intros text startIndex endIndex. reflexivity.
  - intros H condition toSkip toTake mapFunction.
    split; [apply Iterator_where_fresh, H|].
    split; [apply Iterator_skip_fresh, H|].
    split; [apply Iterator_take_fresh, H|].
    split; [apply Iterator_map_fresh, H|].
    intros toConcatenate H'. apply Iterator_concatenate_fresh; assumption.
Qed.

End LifecycleClaims.

(** C7, as written, fails twice.  A decorator built on an iterator that
    already points at a value has a current value before its own [next()] is
    ever called: [take(2)] of the iterator of [[1, 2]] after one [next()].
    And the forward iterator of a list that [next()] has found at the end has
    a current value again once a value is added to the list. *)
Lemma C7_started_or_modified_counterexample :
  ~ (fst (Iterator_hasCurrent None
            (Iterator_take None
               (snd (Iterator_next None (Iterable_iterate None (ArrayList (numbers [1; 2])))))
               (Some 2)))
     = false)
  /\ ~ (fst (ArrayListForwardIterator_next
               (snd (ArrayListForwardIterator_next
                       {| arrayList := numbers [1]; currentIndex := None |})))
        = false ->
        fst (ArrayListForwardIterator_hasCurrent
               (ArrayListIterator_afterAdd
                  (snd (ArrayListForwardIterator_next
                          (snd (ArrayListForwardIterator_next
                                  {| arrayList := numbers [1]; currentIndex := None |}))))
                  (Some 2)))
        = false).
Proof.
  split.
  - vm_compute. discriminate.
  - intros H. specialize (H eq_refl). vm_compute in H. discriminate H.
Qed.

Lemma C7_iterator_lifecycle_witness :
  fst (Iterator_hasCurrent None
         (after None [call_hasCurrent; call_getCurrent; call_hasStarted]
            (Iterable_iterate None (SkipIterable (ArrayList (numbers [1; 2])) 1))))
  = false
  /\ fst (Iterator_next None
            (after None [call_getCurrent; call_next; call_hasCurrent]
               (snd (Iterator_next None
                       (snd (Iterator_next None
                               (Iterable_iterate None
                                  (WhereIterable (ArrayList (numbers [1; 2]))
                                     (fun value => number_strictEquals value (Some 2))))))))))
     = false.
Proof.
  split.
  - apply (proj1 (C7_iterator_lifecycle None
                    (Iterable_iterate None (SkipIterable (ArrayList (numbers [1; 2])) 1))
                    [call_hasCurrent; call_getCurrent; call_hasStarted])).
    + vm_compute. reflexivity.
    + repeat constructor; discriminate.
  - apply (proj1 (proj2 (C7_iterator_lifecycle None
                    (snd (Iterator_next None
                            (Iterable_iterate None
                               (WhereIterable (ArrayList (numbers [1; 2]))
                                  (fun value => number_strictEquals value (Some 2))))))
                    [call_getCurrent; call_next; call_hasCurrent]))).
    vm_compute. reflexivity.
Defined.

(** * The other methods of iterators and iterables *)

Section QueryLaws.

Context {T : Type}.
Variable undefined : T.

(** ** [hasStarted()] on an iterator that no [next()] has reached *)

Lemma Fresh_hasCurrent_hasStarted : forall c (fields : instanceOf (T := T) c),
  Fresh c fields ->
  hasStarted (Iterator := methods undefined c)
    (snd (hasCurrent (Iterator := methods undefined c) fields))
  = hasStarted (Iterator := methods undefined c) fields.
Proof.
  induction c as [| | |c IH|c IH|c IH|c IH|c1 IH1 c2 IH2]; intros fields H;
    cbn [methods instanceOf Fresh] in *.
  - reflexivity.
  - reflexivity.
  - reflexivity.
  - destruct fields as [i condition]. cbn [where_innerIterator] in H.
    cbn [hasStarted hasCurrent WhereIterator_Iterator IteratorBase].
    unfold WhereIterator_hasCurrent, WhereIterator_hasStarted.
    cbn [where_innerIterator where_condition].
    specialize (IH i H).
    destruct (hasCurrent i) as [b i1]. exact IH.
  - destruct fields as [i toSkip skipped]. cbn [skip_innerIterator] in H.
    cbn [hasStarted hasCurrent SkipIterator_Iterator IteratorBase].
    unfold SkipIterator_hasCurrent, SkipIterator_super_hasCurrent, SkipIterator_hasStarted.
    cbn [skip_innerIterator skip_toSkip skip_skipped].
    pose proof (IH i H) as IH1.
    destruct (fresh_hasCurrent _ _ _ (methods_lifecycle undefined c) i H) as [H1 H2].
    destruct (hasCurrent i) as [b i1]. cbn [fst snd] in *. subst b.
    cbn [skip_innerIterator skip_toSkip skip_skipped].
    pose proof (IH i1 H2) as IH2.
    destruct (hasCurrent i1) as [b i2]. cbn [snd skip_innerIterator] in *. congruence.
  - destruct fields as [i toTake taken]. cbn [take_innerIterator] in H.
    cbn [hasStarted hasCurrent TakeIterator_Iterator IteratorBase].
    unfold TakeIterator_hasCurrent, TakeIterator_hasStarted.
    cbn [take_innerIterator take_toTake take_taken].
    specialize (IH i H).
    destruct (hasCurrent i) as [b i1]. exact IH.
  - destruct fields as [i [f|] started];
      cbn [hasStarted hasCurrent MapIterator_Iterator];
      unfold MapIterator_hasCurrent, MapIterator_hasStarted;
      cbn [map_innerIterator map_mapFunction map_started]; [|reflexivity].
    destruct (hasCurrent i) as [b i1]. reflexivity.
  - destruct fields as [f s]. cbn [concatenate_first concatenate_second] in H.
    destruct H as [H1 H2].
    cbn [hasStarted hasCurrent ConcatenateIterator_Iterator IteratorBase].
    unfold ConcatenateIterator_hasCurrent, ConcatenateIterator_hasStarted.
    cbn [concatenate_first concatenate_second].
    specialize (IH1 f H1).
    destruct (hasCurrent f) as [b f1]. cbn [snd] in IH1.
    destruct b; [exact IH1|].
    destruct (hasCurrent s) as [b s1]. exact IH1.
Qed.

Lemma Iterator_where_hasStarted : forall (this : IteratorObject (T := T)) condition,
  IsFresh this ->
  Iterator_hasStarted undefined (Iterator_where undefined this condition)
  = Iterator_hasStarted undefined this.
Proof.
  intros [c fields] [condition|] H; [|reflexivity].
  unfold Iterator_hasStarted, Iterator_where, object, IsFresh in *. cbn [projT1 projT2] in *.
  cbn [methods hasStarted WhereIterator_Iterator IteratorBase].
  unfold WhereIterator_hasStarted, new_WhereIterator. cbn [where_innerIterator].
  cbn [WhereIterator_constructor_loop].
  pose proof (Fresh_hasCurrent_hasStarted c fields H) as H1.
  destruct (fresh_hasCurrent _ _ _ (methods_lifecycle undefined c) fields H) as [H2 _].
  destruct (hasCurrent fields) as [b fields1]. cbn [fst snd] in *. subst b. exact H1.
Qed.

Lemma Iterator_take_hasStarted : forall (this : IteratorObject (T := T)) toTake,
  IsFresh this ->
  Iterator_hasStarted undefined (Iterator_take undefined this toTake)
  = Iterator_hasStarted undefined this.
Proof.
  intros [c fields] toTake H.
  unfold Iterator_hasStarted, Iterator_take, object, IsFresh in *. cbn [projT1 projT2] in *.
  cbn [methods hasStarted TakeIterator_Iterator IteratorBase].
  unfold TakeIterator_hasStarted, new_TakeIterator.
  pose proof (Fresh_hasCurrent_hasStarted c fields H) as H1.
  destruct (hasCurrent fields) as [b fields1]. exact H1.
Qed.

Lemma Iterable_iterate_hasStarted : forall x : Iterable (T := T),
  Iterator_hasStarted undefined (Iterable_iterate undefined x) = false.
Proof.
  induction x as [data|text|inner IH condition|inner IH toSkip|inner IH toTake
                  |inner IH mapFunction|first IH1 second IH2]; cbn [Iterable_iterate].
  - reflexivity.
  - reflexivity.
  - rewrite Iterator_where_hasStarted; [exact IH|apply Iterable_iterate_fresh].
  - exact IH.
  - rewrite Iterator_take_hasStarted; [exact IH|apply Iterable_iterate_fresh].
  - exact IH.
  - exact IH1.
Qed.

Lemma Iterable_iterateReverse_hasStarted : forall x : Iterable (T := T),
  Iterator_hasStarted undefined (Iterable_iterateReverse undefined x) = false.
Proof.
  induction x as [data|text|inner IH condition|inner IH toSkip|inner IH toTake
                  |inner IH mapFunction|first IH1 second IH2]; cbn [Iterable_iterateReverse].
  - reflexivity.
  - reflexivity.
  - rewrite Iterator_where_hasStarted; [exact IH|apply Iterable_iterateReverse_fresh].
  - rewrite Iterator_take_hasStarted; [exact IH|apply Iterable_iterateReverse_fresh].
  - exact IH.
  - exact IH.
  - exact IH2.
Qed.

(** ** [first] and [any] on an iterator that has not started *)

Lemma Produces_first_unconditional : forall (this : IteratorObject (T := T)) values,
  Produces undefined this values ->
  Iterator_hasStarted undefined this = false ->
  fst (IteratorBase_first_unconditional (iterator := methods undefined (projT1 this))
         (projT2 this))
  = hd undefined values.
Proof.
  intros [c fields] values H Hstarted.
  unfold Produces, Represents, Iterator_hasStarted in *. cbn [projT1 projT2] in *.
  unfold IteratorBase_first_unconditional. rewrite Hstarted.
  pose proof (lawful_base _ _ _ (Rep_lawful undefined c)) as L.
  pose proof (base_next _ _ _ _ _ _ L fields None values H) as Hnext.
  destruct values as [|value rest]; destruct Hnext as [_ Hnext];
    apply (base_getCurrent _ _ _ _ _ _ L) in Hnext; destruct Hnext as [Hnext _];
    exact Hnext.
Qed.

Lemma fst_let_pair : forall (A B C : Type) (p : A * B) (g : B -> C),
  fst (let (a, b) := p in (a, g b)) = fst p.
Proof. intros A B C [a b] g. reflexivity. Qed.

Lemma Produces_first : forall (this : IteratorObject (T := T)) values condition,
  Produces undefined this values ->
  IsFresh this ->
  Iterator_hasStarted undefined this = false ->
  fst (Iterator_first undefined this condition)
  = hd undefined (match condition with Some c => filter c values | None => values end).
Proof.
  intros this values condition H Hfresh Hstarted.
  assert (Hwhere : fst (where_first (iterator := methods undefined (projT1 this)) condition
                          (projT2 this))
                   = hd undefined
                       (match condition with Some c => filter c values | None => values end)).
  { pose proof (Produces_first_unconditional (Iterator_where undefined this condition)
                  (match condition with Some c => filter c values | None => values end)) as H1.
    unfold where_first. rewrite fst_let_pair.
    destruct this as [c fields]. apply H1.
    - destruct condition as [condition|];
        [exact (Produces_where undefined (existT _ c fields) values condition H)
        |exact (Produces_where_absent undefined (existT _ c fields) values H)].
    - rewrite <- Hstarted.
      exact (Iterator_where_hasStarted (existT _ c fields) condition Hfresh). }
  unfold Iterator_first. rewrite fst_let_pair.
  destruct (isMapIterator (projT1 this)); [exact Hwhere|].
  unfold IteratorBase_first. destruct condition as [condition|]; [exact Hwhere|].
  exact (Produces_first_unconditional this values H Hstarted).
Qed.

(** The callback that [any(condition)] gives to [foreach]. *)
Lemma foreach_list_any : forall (condition : T -> bool) values result,
  foreach_list (fun value result => if condition value then (true, true) else (result, false))
    values result
  = if existsb condition values then true else result.
Proof.
  intros condition values. induction values as [|value values IH]; intros result;
    cbn [foreach_list existsb]; [reflexivity|].
  destruct (condition value); cbn [orb]; [reflexivity|apply IH].
Qed.

Lemma Produces_any : forall (this : IteratorObject (T := T)) values condition,
  Produces undefined this values ->
  fst (Iterator_any undefined this condition)
  = existsb (match condition with Some c => c | None => fun _ => true end) values.
Proof.
  intros [c fields] values condition H.
  unfold Iterator_any, any, Produces, Represents in *. cbn [projT1 projT2] in *.
  pose proof (Rep_lawful undefined c) as L.
  destruct condition as [condition|].
  - pose proof (lawful_foreach _ _ _ L bool
                  (fun value result => if condition value then (true, true) else (result, false))
                  fields false None values H) as H1.
    cbn [withCurrent] in H1. rewrite foreach_list_any in H1.
    destruct (foreach bool _ fields false) as [result fields1]. cbn [fst] in *.
    rewrite H1. destruct (existsb condition values); reflexivity.
  - pose proof (lawful_base _ _ _ L) as B.
    destruct (base_hasCurrent _ _ _ _ _ _ B fields None values H) as [H1 H2].
    destruct (hasCurrent fields) as [b fields1]. cbn [fst snd isDefined] in *. subst b.
    pose proof (base_next _ _ _ _ _ _ B fields1 None values H2) as H3.
    destruct (next fields1) as [b fields2]. cbn [fst snd] in *.
    destruct values as [|value rest]; destruct H3 as [H3 _]; subst b; reflexivity.
Qed.

Lemma Iterable_any_elements : forall (x : Iterable (T := T)) condition,
  Iterable_any undefined x condition
  = existsb (match condition with Some c => c | None => fun _ => true end) (elements x).
Proof.
  intros x condition.
  assert (H : fst (Iterator_any undefined (Iterable_iterate undefined x) condition)
              = existsb (match condition with Some c => c | None => fun _ => true end)
                  (elements x))
    by apply Produces_any, Iterable_iterate_elements.
  destruct x as [data| | | | | |]; try exact H.
  destruct condition as [condition|]; [exact H|].
  cbn [Iterable_any elements]. unfold ArrayList_getCount.
  destruct data as [|value data]; [reflexivity|].
  cbn [existsb orb]. apply Z.gtb_lt. cbn [length]. lia.
Qed.

(** ** [get] and [getLast] *)

Lemma IterableBase_get_loop_spec : forall rest fuel (iterator : IteratorObject (T := T)) current index,
  Represents undefined iterator current rest ->
  0 <= index -> (Z.to_nat index < fuel)%nat ->
  Represents undefined (IterableBase_get_loop undefined fuel iterator index)
    (nth_error rest (Z.to_nat index)) (skipn (S (Z.to_nat index)) rest).
Proof.
  induction rest as [|value rest IH]; intros fuel iterator current index H Hindex Hfuel;
    (destruct fuel as [|fuel]; [lia|]); cbn [IterableBase_get_loop].
  - destruct (Iterator_next_nil undefined iterator current H) as (iterator' & E & H').
    rewrite E. cbn [andb].
    replace (nth_error [] (Z.to_nat index)) with (@None T) by (destruct (Z.to_nat index); reflexivity).
    exact H'.
  - destruct (Iterator_next_cons undefined iterator current value rest H) as (iterator' & E & H').
    rewrite E. cbn [andb].
    destruct (0 <? index) eqn:E0.
    + apply Z.ltb_lt in E0.
      replace (Z.to_nat index) with (S (Z.to_nat (index - 1))) by lia.
      cbn [nth_error skipn]. apply (IH fuel iterator' (Some value)); [exact H'|lia|lia].
    + apply Z.ltb_ge in E0. replace index with 0 by lia. exact H'.
Qed.

Lemma Produces_get_from : forall (iterator : IteratorObject (T := T)) values index,
  Produces undefined iterator values ->
  IterableBase_get_from undefined iterator (Some index) = elementAt undefined values index.
Proof.
  intros iterator values index H. unfold IterableBase_get_from.
  destruct (0 <=? index) eqn:E0.
  - apply Z.leb_le in E0.
    pose proof (IterableBase_get_loop_spec values (S (Z.to_nat index)) iterator None index
                  H E0 ltac:(lia)) as H1.
    destruct (Iterator_getCurrent_spec undefined _ _ _ H1) as (iterator' & E & _).
    rewrite E. cbn [fst]. rewrite elementAt_nth_error by exact E0.
    destruct (nth_error values (Z.to_nat index)); reflexivity.
  - apply Z.leb_gt in E0. rewrite elementAt_negative by exact E0. reflexivity.
Qed.

Lemma elementAt_skipn : forall (values : list T) toSkip index,
  0 <= toSkip -> 0 <= index ->
  elementAt undefined (skipn (Z.to_nat toSkip) values) index
  = elementAt undefined values (index + toSkip).
Proof.
  intros values toSkip index HtoSkip Hindex.
  rewrite !elementAt_nth_error by lia. rewrite nth_error_skipn.
  replace (Z.to_nat toSkip + Z.to_nat index)%nat with (Z.to_nat (index + toSkip)) by lia.
  reflexivity.
Qed.

Lemma elementAt_firstn : forall (values : list T) toTake index,
  0 <= index ->
  elementAt undefined (firstn (Z.to_nat toTake) values) index
  = if index <? Z.min toTake (Z.of_nat (length values))
    then elementAt undefined values index else undefined.
Proof.
  intros values toTake index Hindex.
  rewrite !elementAt_nth_error by lia.
  destruct (index <? Z.min toTake (Z.of_nat (length values))) eqn:E.
  - apply Z.ltb_lt in E. rewrite nth_error_firstn.
    replace (Z.to_nat index <? Z.to_nat toTake)%nat with true
      by (symmetry; apply Nat.ltb_lt; lia).
    reflexivity.
  - apply Z.ltb_ge in E.
    replace (nth_error (firstn (Z.to_nat toTake) values) (Z.to_nat index)) with (@None T);
      [reflexivity|].
    symmetry. apply nth_error_None. rewrite length_firstn. lia.
Qed.

Lemma elementAt_map : forall (f : T -> T) (values : list T) index,
  0 <= index ->
  elementAt undefined (map f values) index
  = if index <? Z.of_nat (length values) then f (elementAt undefined values index)
    else undefined.
Proof.
  intros f values index Hindex. rewrite !elementAt_nth_error by lia.
  rewrite nth_error_map.
  destruct (index <? Z.of_nat (length values)) eqn:E.
  - apply Z.ltb_lt in E.
    destruct (nth_error values (Z.to_nat index)) eqn:E1; [reflexivity|].
    apply nth_error_None in E1. lia.
  - apply Z.ltb_ge in E.
    replace (nth_error values (Z.to_nat index)) with (@None T); [reflexivity|].
    symmetry. apply nth_error_None. lia.
Qed.

Lemma Iterable_get_elements : forall (x : Iterable (T := T)) index,
  WellFormed x -> 0 <= index ->
  Iterable_get undefined x (Some index) = elementAt undefined (elements x) index.
Proof.
  induction x as [data|text|inner IH condition|inner IH toSkip|inner IH toTake
                  |inner IH mapFunction|first IH1 second IH2];
    intros index Hwf Hindex; cbn [Iterable_get];
    try (apply Produces_get_from, Iterable_iterate_elements).
  - reflexivity.
  - cbn [WellFormed] in Hwf. destruct Hwf as [HtoSkip Hwf].
    cbn [number_plus elements]. rewrite IH by (assumption || lia).
    symmetry. apply elementAt_skipn; assumption.
  - cbn [WellFormed] in Hwf. destruct Hwf as [HtoTake Hwf].
    cbn [lessOrEqual lessThan elements]. rewrite elementAt_firstn by exact Hindex.
    replace (0 <=? index) with true by (symmetry; apply Z.leb_le; exact Hindex).
    cbn [andb].
    replace (Iterable_getCount undefined (TakeIterable inner toTake))
      with (Z.min toTake (Z.of_nat (length (elements inner)))).
    + destruct (index <? Z.min toTake (Z.of_nat (length (elements inner))));
        [apply IH; assumption|reflexivity].
    + cbn [Iterable_getCount]. rewrite (Iterable_getCount_elements undefined inner Hwf).
      destruct (toTake <? Z.of_nat (length (elements inner))) eqn:E;
        [apply Z.ltb_lt in E|apply Z.ltb_ge in E]; lia.
  - cbn [WellFormed] in Hwf.
    cbn [isDefined lessOrEqual lessThan elements]. rewrite elementAt_map by exact Hindex.
    replace (0 <=? index) with true by (symmetry; apply Z.leb_le; exact Hindex).
    cbn [andb Iterable_getCount]. rewrite (Iterable_getCount_elements undefined inner Hwf).
    destruct (index <? Z.of_nat (length (elements inner)));
      [rewrite IH by assumption; reflexivity|reflexivity].
Qed.

Lemma Iterable_get_absent : forall x : Iterable (T := T),
  Iterable_get undefined x None = undefined.
Proof.
  induction x as [data|text|inner IH condition|inner IH toSkip|inner IH toTake
                  |inner IH mapFunction|first IH1 second IH2]; cbn [Iterable_get];
    try reflexivity.
  exact IH.
Qed.

Lemma Iterable_getLast_elements : forall (x : Iterable (T := T)) index,
  WellFormed x -> 0 <= index ->
  Iterable_getLast undefined x (Some index) = elementAt undefined (rev (elements x)) index.
Proof.
  induction x as [data|text|inner IH condition|inner IH toSkip|inner IH toTake
                  |inner IH mapFunction|first IH1 second IH2];
    intros index Hwf Hindex; cbn [Iterable_getLast];
    try (apply Produces_get_from, Iterable_iterateReverse_elements; exact Hwf).
  cbn [WellFormed] in Hwf.
  cbn [isDefined lessOrEqual lessThan elements]. rewrite <- map_rev.
  rewrite elementAt_map by exact Hindex. rewrite length_rev.
  replace (0 <=? index) with true by (symmetry; apply Z.leb_le; exact Hindex).
  cbn [andb Iterable_getCount]. rewrite (Iterable_getCount_elements undefined inner Hwf).
  destruct (index <? Z.of_nat (length (elements inner)));
    [rewrite IH by assumption; reflexivity|reflexivity].
Qed.

Lemma elementAt_nth : forall (values : list T) index,
  0 <= index -> elementAt undefined values index = nth (Z.to_nat index) values undefined.
Proof.
  intros values index Hindex. rewrite elementAt_nth_error by exact Hindex.
  destruct (nth_error values (Z.to_nat index)) eqn:E.
  - symmetry. apply nth_error_nth. exact E.
  - symmetry. apply nth_overflow. apply nth_error_None. exact E.
Qed.

Lemma hd_rev : forall values : list T, hd undefined (rev values) = last values undefined.
Proof.
  intros values. induction values as [|value values IH] using rev_ind; [reflexivity|].
  rewrite rev_app_distr, last_last. reflexivity.
Qed.

Lemma filter_rev : forall (condition : T -> bool) values,
  filter condition (rev values) = rev (filter condition values).
Proof.
  intros condition values. induction values as [|value values IH]; [reflexivity|].
  cbn [rev filter]. rewrite filter_app, IH. cbn [filter].
  destruct (condition value); cbn [rev]; [reflexivity|apply app_nil_r].
Qed.

Lemma Iterable_first_elements : forall (x : Iterable (T := T)) condition,
  Iterable_first undefined x condition
  = hd undefined (match condition with Some c => filter c (elements x) | None => elements x end).
Proof.
  intros x condition. unfold Iterable_first.
  apply (Produces_first _ (elements x) condition).
  - apply Iterable_iterate_elements.
  - apply Iterable_iterate_fresh.
  - apply Iterable_iterate_hasStarted.
Qed.

Lemma Iterable_last_elements : forall (x : Iterable (T := T)) condition,
  WellFormed x ->
  Iterable_last undefined x condition
  = last (match condition with Some c => filter c (elements x) | None => elements x end)
      undefined.
Proof.
  intros x condition Hwf. unfold Iterable_last.
  rewrite <- hd_rev.
  replace (rev (match condition with Some c => filter c (elements x) | None => elements x end))
    with (match condition with
          | Some c => filter c (rev (elements x))
          | None => rev (elements x)
          end)
    by (destruct condition; [apply filter_rev|reflexivity]).
  apply (Produces_first _ (rev (elements x)) condition).
  - apply Iterable_iterateReverse_elements, Hwf.
  - apply Iterable_iterateReverse_fresh.
  - apply Iterable_iterateReverse_hasStarted.
Qed.

End QueryLaws.

Section QueryProperties.

Context {T : Type}.
Variable undefined : T.
Variable strictEquals : T -> T -> bool.

(** X1.  For every iterable [x], [x.any()] tells whether [x.toArray()] has a
    value, and [x.any(condition)] whether one of its values satisfies
    [condition]. *)
Theorem X1_any : forall (x : Iterable (T := T)),
  Iterable_any undefined x None = negb (length (Iterable_toArray undefined x) =? 0)%nat
  /\ forall condition,
       Iterable_any undefined x (Some condition)
       = existsb condition (Iterable_toArray undefined x).
Proof.
  intros x. rewrite Iterable_toArray_elements. split.
  - rewrite Iterable_any_elements. destruct (elements x); reflexivity.
  - intros condition. apply Iterable_any_elements.
Qed.

(** X2.  [x.contains(value, comparison)] tells whether [comparison] holds
    between a value of [x.toArray()] and [value]; without a comparison the
    values are compared with [===]. *)
Theorem X2_contains : forall (x : Iterable (T := T)) (value : T),
  (forall comparison,
     Iterable_contains undefined strictEquals x value (Some comparison)
     = existsb (fun iterableValue => comparison iterableValue value)
         (Iterable_toArray undefined x))
  /\ Iterable_contains undefined strictEquals x value None
     = existsb (fun iterableValue => strictEquals iterableValue value)
         (Iterable_toArray undefined x).
Proof.
  intros x value. rewrite Iterable_toArray_elements.
  split; [intros comparison|]; unfold Iterable_contains; apply Iterable_any_elements.
Qed.

(** X3.  [x.first()] is the first value of [x.toArray()] and
    [x.first(condition)] the first one that satisfies [condition]; each is
    [undefined] when there is no such value. *)
Theorem X3_first : forall (x : Iterable (T := T)),
  Iterable_first undefined x None = hd undefined (Iterable_toArray undefined x)
  /\ forall condition,
       Iterable_first undefined x (Some condition)
       = hd undefined (filter condition (Iterable_toArray undefined x)).
Proof.
  intros x. rewrite Iterable_toArray_elements.
  split; [exact (Iterable_first_elements undefined x None)|].
  intros condition. exact (Iterable_first_elements undefined x (Some condition)).
Qed.

(** X4.  [x.last()] is the last value of [x.toArray()] and
    [x.last(condition)] the last one that satisfies [condition]; each is
    [undefined] when there is no such value. *)
Theorem X4_last : forall (x : Iterable (T := T)),
  WellFormed x ->
  Iterable_last undefined x None = last (Iterable_toArray undefined x) undefined
  /\ forall condition,
       Iterable_last undefined x (Some condition)
       = last (filter condition (Iterable_toArray undefined x)) undefined.
Proof.
  intros x Hwf. rewrite Iterable_toArray_elements.
  split; [exact (Iterable_last_elements undefined x None Hwf)|].
  intros condition. exact (Iterable_last_elements undefined x (Some condition) Hwf).
Qed.

(** X5.  For an index that is not negative, [x.get(index)] is the value of
    [x.toArray()] at that index, and [undefined] past its end; without an
    index it is [undefined]. *)
Theorem X5_get : forall (x : Iterable (T := T)) (index : Z),
  WellFormed x -> 0 <= index ->
  Iterable_get undefined x (Some index)
  = nth (Z.to_nat index) (Iterable_toArray undefined x) undefined
  /\ (Z.of_nat (length (Iterable_toArray undefined x)) <= index ->
      Iterable_get undefined x (Some index) = undefined)
  /\ Iterable_get undefined x None = undefined.
Proof.
  intros x index Hwf Hindex. rewrite Iterable_toArray_elements.
  rewrite (Iterable_get_elements undefined x index Hwf Hindex).
  split; [apply elementAt_nth, Hindex|split].
  - intros H. rewrite elementAt_nth by exact Hindex. apply nth_overflow. lia.
  - apply Iterable_get_absent.
Qed.

(** X6.  [SkipIterable.get] does not check its index: for [0 < toSkip] and
    [-toSkip <= index], [x.skip(toSkip).get(index)] is the value of
    [x.toArray()] at [index + toSkip], so that a negative index reaches the
    positions that [skip] has skipped. *)
Theorem X6_get_skipped : forall (x : Iterable (T := T)) (toSkip index : Z),
  WellFormed x -> 0 < toSkip -> - toSkip <= index ->
  Iterable_get undefined (Iterable_skip x (Some toSkip)) (Some index)
  = nth (Z.to_nat (index + toSkip)) (Iterable_toArray undefined x) undefined.
Proof.
  intros x toSkip index Hwf HtoSkip Hindex. rewrite Iterable_toArray_elements.
  unfold Iterable_skip, truthy, lessThan.
  replace (toSkip =? 0) with false by (symmetry; apply Z.eqb_neq; lia).
  replace (0 <? toSkip) with true by (symmetry; apply Z.ltb_lt; lia).
  cbn [negb andb Iterable_get number_plus].
  rewrite (Iterable_get_elements undefined x (index + toSkip) Hwf) by lia.
  apply elementAt_nth. lia.
Qed.

(** X7.  For an index that is not negative, [x.getLast(index)] is the value
    at that index from the end of [x.toArray()], and [undefined] past its
    beginning. *)
Theorem X7_getLast : forall (x : Iterable (T := T)) (index : Z),
  WellFormed x -> 0 <= index ->
  Iterable_getLast undefined x (Some index)
  = nth (Z.to_nat index) (rev (Iterable_toArray undefined x)) undefined.
Proof.
  intros x index Hwf Hindex. rewrite Iterable_toArray_elements.
  rewrite (Iterable_getLast_elements undefined x index Hwf Hindex).
  apply elementAt_nth, Hindex.
Qed.

End QueryProperties.

(** * How the operations on iterables compose *)

Section CompositionProperties.

Context {T : Type}.
Variable undefined : T.

Lemma Iterable_foreach_elements : forall (A : Type) (x : Iterable (T := T))
    (elementFunction : T -> A -> A * bool) (a : A),
  Iterable_foreach undefined x (Some elementFunction) a
  = foreach_list elementFunction (elements x) a.
Proof.
  intros A x elementFunction a. unfold Iterable_foreach.
  apply Produces_foreach, Iterable_iterate_elements.
Qed.

Lemma foreach_list_fold : forall (A : Type) (step : T -> A -> A) (values : list T) (a : A),
  foreach_list (fun value a => (step value a, false)) values a
  = fold_left (fun a value => step value a) values a.
Proof.
  intros A step values. induction values as [|value values IH]; intros a; [reflexivity|].
  cbn [foreach_list fold_left]. apply IH.
Qed.

Lemma Iterable_take_elements : forall (x : Iterable (T := T)) (toTake : Z),
  elements (Iterable_take undefined x (Some toTake)) = firstn (Z.to_nat toTake) (elements x).
Proof.
  intros x toTake. unfold Iterable_take, truthy, lessThan.
  destruct (0 <? toTake) eqn:E.
  - apply Z.ltb_lt in E.
    replace (toTake =? 0) with false by (symmetry; apply Z.eqb_neq; lia). reflexivity.
  - apply Z.ltb_ge in E. rewrite andb_false_r.
    replace (Z.to_nat toTake) with O by lia. reflexivity.
Qed.

(** X8.  The values of [x.where(condition)] are the values of [x] that
    satisfy [condition], in the order of [x], and [iterateReverse()] gives
    them in the opposite order. *)
Theorem X8_where : forall (x : Iterable (T := T)) (condition : T -> bool),
  WellFormed x ->
  Iterable_toArray undefined (Iterable_where x (Some condition))
  = filter condition (Iterable_toArray undefined x)
  /\ Iterator_toArray undefined
       (Iterable_iterateReverse undefined (Iterable_where x (Some condition)))
     = rev (filter condition (Iterable_toArray undefined x)).
Proof.
  intros x condition Hwf. rewrite !Iterable_toArray_elements. split; [reflexivity|].
  apply Produces_toArray.
  exact (Iterable_iterateReverse_elements undefined (WhereIterable x condition) Hwf).
Qed.

(** X9.  The values of [x.map(mapFunction)] are the images of the values of
    [x], in the same order, and as many. *)
Theorem X9_map : forall (x : Iterable (T := T)) (mapFunction : T -> T),
  WellFormed x ->
  Iterable_toArray undefined (Iterable_map undefined x (Some mapFunction))
  = map mapFunction (Iterable_toArray undefined x)
  /\ Iterable_getCount undefined (Iterable_map undefined x (Some mapFunction))
     = Iterable_getCount undefined x
  /\ Iterator_toArray undefined
       (Iterable_iterateReverse undefined (Iterable_map undefined x (Some mapFunction)))
     = rev (map mapFunction (Iterable_toArray undefined x)).
Proof.
  intros x mapFunction Hwf. rewrite !Iterable_toArray_elements.
  split; [reflexivity|split; [reflexivity|]].
  apply Produces_toArray.
  exact (Iterable_iterateReverse_elements undefined (MapIterable x mapFunction) Hwf).
Qed.

(** X10.  For every integer [toTake], the values of [x.take(toTake)] are the
    first [toTake] values of [x]: none when [toTake <= 0], all of them when
    [x] has no more than [toTake]. *)
Theorem X10_take : forall (x : Iterable (T := T)) (toTake : Z),
  Iterable_toArray undefined (Iterable_take undefined x (Some toTake))
  = firstn (Z.to_nat toTake) (Iterable_toArray undefined x)
  /\ (toTake <= 0 -> Iterable_toArray undefined (Iterable_take undefined x (Some toTake)) = [])
  /\ (Z.of_nat (length (Iterable_toArray undefined x)) <= toTake ->
      Iterable_toArray undefined (Iterable_take undefined x (Some toTake))
      = Iterable_toArray undefined x).
Proof.
  intros x toTake.
  assert (H : Iterable_toArray undefined (Iterable_take undefined x (Some toTake))
              = firstn (Z.to_nat toTake) (Iterable_toArray undefined x)).
  { rewrite !Iterable_toArray_elements. apply Iterable_take_elements. }
  split; [exact H|split].
  - intros Hle. rewrite H. replace (Z.to_nat toTake) with O by lia. reflexivity.
  - intros Hle. rewrite H. apply firstn_all2. lia.
Qed.

(** X11.  [x.getCount()] is the number of values of [x.toArray()], whichever
    class of the family [x] belongs to. *)
Theorem X11_getCount : forall (x : Iterable (T := T)),
  WellFormed x ->
  Iterable_getCount undefined x = Z.of_nat (length (Iterable_toArray undefined x)).
Proof.
  intros x Hwf. rewrite Iterable_toArray_elements.
  apply Iterable_getCount_elements, Hwf.
Qed.

(** X12.  [x.iterateReverse()] produces the values of [x.toArray()] in the
    opposite order, whichever class of the family [x] belongs to. *)
Theorem X12_iterateReverse : forall (x : Iterable (T := T)),
  WellFormed x ->
  Iterator_toArray undefined (Iterable_iterateReverse undefined x)
  = rev (Iterable_toArray undefined x).
Proof.
  intros x Hwf. rewrite Iterable_toArray_elements.
  apply Produces_toArray, Iterable_iterateReverse_elements, Hwf.
Qed.

(** X13.  For every integer [toSkip], [x.skipLast(toSkip)] has the values of
    [x] without the last [toSkip] of them: all of them when [toSkip <= 0],
    none when [x] has no more than [toSkip]. *)
Theorem X13_skipLast : forall (x : Iterable (T := T)) (toSkip : Z),
  WellFormed x ->
  Iterable_toArray undefined (Iterable_skipLast undefined x (Some toSkip))
  = firstn (length (Iterable_toArray undefined x) - Z.to_nat toSkip)
      (Iterable_toArray undefined x).
Proof.
  intros x toSkip Hwf. rewrite !Iterable_toArray_elements.
  unfold Iterable_skipLast, truthy, lessThan.
  destruct (0 <? toSkip) eqn:E.
  - apply Z.ltb_lt in E.
    replace (toSkip =? 0) with false by (symmetry; apply Z.eqb_neq; lia).
    cbn [negb andb]. rewrite Iterable_take_elements.
    rewrite (Iterable_getCount_elements undefined x Hwf). f_equal. lia.
  - apply Z.ltb_ge in E. rewrite andb_false_r.
    replace (Z.to_nat toSkip) with O by lia. rewrite Nat.sub_0_r. symmetry. apply firstn_all.
Qed.

(** X14.  For every integer [toTake], [x.takeLast(toTake)] has the last
    [toTake] values of [x]: none when [toTake <= 0], all of them when [x] has
    no more than [toTake]. *)
Theorem X14_takeLast : forall (x : Iterable (T := T)) (toTake : Z),
  WellFormed x ->
  Iterable_toArray undefined (Iterable_takeLast undefined x (Some toTake))
  = skipn (length (Iterable_toArray undefined x) - Z.to_nat toTake)
      (Iterable_toArray undefined x).
Proof.
  intros x toTake Hwf. rewrite !Iterable_toArray_elements.
  destruct (0 <? toTake) eqn:E.
  - apply Z.ltb_lt in E. apply (Iterable_takeLast_elements undefined x toTake Hwf E).
  - apply Z.ltb_ge in E. unfold Iterable_takeLast, truthy, lessThan.
    replace (Z.to_nat toTake) with O by lia. rewrite Nat.sub_0_r, skipn_all.
    destruct (toTake =? 0) eqn:E0; [reflexivity|].
    apply Z.eqb_neq in E0.
    replace (toTake <? 0) with true by (symmetry; apply Z.ltb_lt; lia). reflexivity.
Qed.

(** X15.  [x.foreach(elementFunction)] calls [elementFunction] on the values
    of [x.toArray()] in order, up to and including the first call that
    breaks; a function that never breaks is folded over all of them, and
    without a function nothing is done. *)
Theorem X15_foreach : forall (A : Type) (x : Iterable (T := T)) (a : A),
  (forall elementFunction,
     Iterable_foreach undefined x (Some elementFunction) a
     = foreach_list elementFunction (Iterable_toArray undefined x) a)
  /\ (forall step : T -> A -> A,
        Iterable_foreach undefined x (Some (fun value a => (step value a, false))) a
        = fold_left (fun a value => step value a) (Iterable_toArray undefined x) a)
  /\ Iterable_foreach undefined x None a = a.
Proof.
  intros A x a. rewrite Iterable_toArray_elements.
  split; [|split; [|reflexivity]].
  - intros elementFunction. apply Iterable_foreach_elements.
  - intros step. rewrite Iterable_foreach_elements. apply foreach_list_fold.
Qed.

End CompositionProperties.

Lemma X4_last_witness :
  WellFormed (SkipIterable (ArrayList (numbers [1; 2; 3; 4])) 1)
  /\ Iterable_last None (SkipIterable (ArrayList (numbers [1; 2; 3; 4])) 1)
       (Some (fun value => number_strictEquals value (Some 3) || number_strictEquals value (Some 2)))
     = Some 3.
Proof.
  split.
  - simpl. split; [lia|exact I].
  - rewrite (proj2 (X4_last None (SkipIterable (ArrayList (numbers [1; 2; 3; 4])) 1)
                      (conj Z.le_0_1 I))).
    reflexivity.
Defined.

Lemma X5_get_witness :
  WellFormed (TakeIterable (ArrayList (numbers [1; 2; 3; 4])) 3) /\ 0 <= 2
  /\ Iterable_get None (TakeIterable (ArrayList (numbers [1; 2; 3; 4])) 3) (Some 2) = Some 3.
Proof.
  assert (Hwf : WellFormed (TakeIterable (ArrayList (numbers [1; 2; 3; 4])) 3))
    by (simpl; split; [lia|exact I]).
  split; [exact Hwf|split; [lia|]].
  rewrite (proj1 (X5_get None (TakeIterable (ArrayList (numbers [1; 2; 3; 4])) 3) 2
                    Hwf ltac:(lia))).
  reflexivity.
Defined.

Lemma X6_get_skipped_witness :
  WellFormed (ArrayList (numbers [1; 2; 3; 4])) /\ 0 < 2 /\ - 2 <= -1
  /\ Iterable_get None (Iterable_skip (ArrayList (numbers [1; 2; 3; 4])) (Some 2)) (Some (-1))
     = Some 2.
Proof.
  split; [exact I|split; [lia|split; [lia|]]].
  rewrite (X6_get_skipped None (ArrayList (numbers [1; 2; 3; 4])) 2 (-1) I ltac:(lia) ltac:(lia)).
  reflexivity.
Defined.

Lemma X7_getLast_witness :
  WellFormed (MapIterable (ArrayList (numbers [1; 2; 3])) (fun value => value)) /\ 0 <= 0
  /\ Iterable_getLast None (MapIterable (ArrayList (numbers [1; 2; 3])) (fun value => value))
       (Some 0)
     = Some 3.
Proof.
  split; [exact I|split; [lia|]].
  rewrite (X7_getLast None (MapIterable (ArrayList (numbers [1; 2; 3])) (fun value => value)) 0
             I ltac:(lia)).
  reflexivity.
Defined.

Lemma X8_where_witness :
  WellFormed (ArrayList (numbers [1; 2; 3]))
  /\ Iterable_toArray None
       (Iterable_where (ArrayList (numbers [1; 2; 3]))
          (Some (fun value => negb (number_strictEquals value (Some 2)))))
     = numbers [1; 3].
Proof.
  split; [exact I|].
  rewrite (proj1 (X8_where None (ArrayList (numbers [1; 2; 3]))
                    (fun value => negb (number_strictEquals value (Some 2))) I)).
  reflexivity.
Defined.

Lemma X9_map_witness :
  WellFormed (StringIterable (numbers [1; 2]))
  /\ Iterable_toArray None
       (Iterable_map None (StringIterable (numbers [1; 2])) (Some (option_map (Z.add 10))))
     = numbers [11; 12].
Proof.
  split; [exact I|].
  rewrite (proj1 (X9_map None (StringIterable (numbers [1; 2])) (option_map (Z.add 10)) I)).
  reflexivity.
Defined.

Lemma X11_getCount_witness :
  WellFormed (SkipIterable (StringIterable (numbers [1; 2; 3])) 2)
  /\ Iterable_getCount None (SkipIterable (StringIterable (numbers [1; 2; 3])) 2) = 1.
Proof.
  assert (Hwf : WellFormed (SkipIterable (StringIterable (numbers [1; 2; 3])) 2))
    by (simpl; split; [lia|exact I]).
  split; [exact Hwf|].
  rewrite (X11_getCount None (SkipIterable (StringIterable (numbers [1; 2; 3])) 2) Hwf).
  reflexivity.
Defined.

Lemma X12_iterateReverse_witness :
  WellFormed (TakeIterable (ArrayList (numbers [1; 2; 3])) 2)
  /\ Iterator_toArray None
       (Iterable_iterateReverse None (TakeIterable (ArrayList (numbers [1; 2; 3])) 2))
     = numbers [2; 1].
Proof.
  assert (Hwf : WellFormed (TakeIterable (ArrayList (numbers [1; 2; 3])) 2))
    by (simpl; split; [lia|exact I]).
  split; [exact Hwf|].
  rewrite (X12_iterateReverse None (TakeIterable (ArrayList (numbers [1; 2; 3])) 2) Hwf).
  reflexivity.
Defined.

Lemma X13_skipLast_witness :
  WellFormed (ArrayList (numbers [1; 2; 3]))
  /\ Iterable_toArray None (Iterable_skipLast None (ArrayList (numbers [1; 2; 3])) (Some 2))
     = numbers [1].
Proof.
  split; [exact I|].
  rewrite (X13_skipLast None (ArrayList (numbers [1; 2; 3])) 2 I). reflexivity.
Defined.

Lemma X14_takeLast_witness :
  WellFormed (ArrayList (numbers [1; 2; 3]))
  /\ Iterable_toArray None (Iterable_takeLast None (ArrayList (numbers [1; 2; 3])) (Some 2))
     = numbers [2; 3].
Proof.
  split; [exact I|].
  rewrite (X14_takeLast None (ArrayList (numbers [1; 2; 3])) 2 I). reflexivity.
Defined.

(** * class ArrayList<T>: the fields *)

Section ArrayListObjectLaws.

Context {T : Type}.
Variable undefined : T.

Lemma length_array_assign : forall (array : list T) index value,
  0 <= index ->
  length (array_assign undefined array index value)
  = Nat.max (length array) (S (Z.to_nat index)).
Proof.
  intros array index value Hindex. unfold array_assign.
  replace (index <? 0) with false by (symmetry; apply Z.ltb_ge; lia).
  destruct (index <? Z.of_nat (length array)) eqn:E.
  - apply Z.ltb_lt in E. rewrite length_app. cbn [length].
    rewrite length_firstn, length_skipn. lia.
  - apply Z.ltb_ge in E. rewrite !length_app, repeat_length. cbn [length]. lia.
Qed.

Lemma elementAt_array_assign : forall (array : list T) index value j,
  0 <= index ->
  elementAt undefined (array_assign undefined array index value) j
  = if j =? index then value else elementAt undefined array j.
Proof.
  intros array index value j Hindex.
  destruct (Z.ltb_spec j 0) as [Hj|Hj].
  { rewrite !elementAt_negative by exact Hj.
    replace (j =? index) with false by (symmetry; apply Z.eqb_neq; lia). reflexivity. }
  rewrite !elementAt_nth_error by exact Hj.
  unfold array_assign.
  replace (index <? 0) with false by (symmetry; apply Z.ltb_ge; lia).
  destruct (index <? Z.of_nat (length array)) eqn:E; [apply Z.ltb_lt in E|apply Z.ltb_ge in E].
  - destruct (Z.eqb_spec j index) as [->|Hne].
    + rewrite nth_error_app2 by (rewrite length_firstn; lia).
      rewrite length_firstn.
      replace (Z.to_nat index - Nat.min (Z.to_nat index) (length array))%nat with O by lia.
      reflexivity.
    + destruct (Z.ltb_spec j index) as [Hlt|Hge].
      * rewrite nth_error_app1 by (rewrite length_firstn; lia).
        rewrite nth_error_firstn.
        replace (Z.to_nat j <? Z.to_nat index)%nat with true
          by (symmetry; apply Nat.ltb_lt; lia).
        reflexivity.
      * rewrite nth_error_app2 by (rewrite length_firstn; lia).
        rewrite length_firstn.
        replace (Z.to_nat j - Nat.min (Z.to_nat index) (length array))%nat
          with (S (Z.to_nat j - S (Z.to_nat index))) by lia.
        cbn [nth_error]. rewrite nth_error_skipn.
        replace (S (Z.to_nat index) + (Z.to_nat j - S (Z.to_nat index)))%nat
          with (Z.to_nat j) by lia.
        reflexivity.
  - destruct (Z.ltb_spec j (Z.of_nat (length array))) as [Hlt|Hge].
    + replace (j =? index) with false by (symmetry; apply Z.eqb_neq; lia).
      rewrite nth_error_app1 by lia. reflexivity.
    + rewrite nth_error_app2 by lia.
      replace (nth_error array (Z.to_nat j)) with (@None T)
        by (symmetry; apply nth_error_None; lia).
      destruct (Z.eqb_spec j index) as [->|Hne].
      * rewrite nth_error_app2 by (rewrite repeat_length; lia).
        rewrite repeat_length.
        replace (Z.to_nat index - length array - (Z.to_nat index - length array))%nat
          with O by lia.
        reflexivity.
      * destruct (Z.ltb_spec j index) as [Hlt'|Hge'].
        -- rewrite nth_error_app1 by (rewrite repeat_length; lia).
           destruct (nth_error (repeat undefined (Z.to_nat index - length array))
                       (Z.to_nat j - length array)) eqn:E1; [|reflexivity].
           apply nth_error_In, repeat_spec in E1. exact E1.
        -- rewrite nth_error_app2 by (rewrite repeat_length; lia).
           rewrite repeat_length.
           replace (Z.to_nat j - length array - (Z.to_nat index - length array))%nat
             with (S (Z.to_nat j - S (Z.to_nat index))) by lia.
           cbn [nth_error]. destruct (Z.to_nat j - S (Z.to_nat index))%nat; reflexivity.
Qed.

(** Two arrays of one length with the same value in every slot. *)
Lemma elementAt_ext : forall a b : list T,
  length a = length b ->
  (forall j, 0 <= j < Z.of_nat (length a) -> elementAt undefined a j = elementAt undefined b j) ->
  a = b.
Proof.
  intros a b Hlen H. apply (nth_ext a b undefined undefined Hlen).
  intros n Hn. specialize (H (Z.of_nat n) ltac:(lia)).
  rewrite !elementAt_nth in H by lia. rewrite Nat2Z.id in H. exact H.
Qed.

Lemma elementAt_app : forall (a b : list T) j,
  0 <= j ->
  elementAt undefined (a ++ b) j
  = if j <? Z.of_nat (length a) then elementAt undefined a j
    else elementAt undefined b (j - Z.of_nat (length a)).
Proof.
  intros a b j Hj. destruct (Z.ltb_spec j (Z.of_nat (length a))) as [H|H].
  - rewrite !elementAt_nth_error by lia. rewrite nth_error_app1 by lia. reflexivity.
  - rewrite !elementAt_nth_error by lia. rewrite nth_error_app2 by lia.
    replace (Z.to_nat (j - Z.of_nat (length a))) with (Z.to_nat j - length a)%nat by lia.
    reflexivity.
Qed.

Lemma elementAt_overflow : forall (a : list T) j,
  Z.of_nat (length a) <= j -> elementAt undefined a j = undefined.
Proof.
  intros a j Hj. rewrite elementAt_nth by lia. apply nth_overflow. lia.
Qed.

Lemma length_ArrayListObject_values : forall this : ArrayListObject (T := T),
  ArrayListObject_Inv this ->
  Z.of_nat (length (ArrayListObject_values this)) = _count this.
Proof.
  intros this [H1 H2]. unfold ArrayListObject_values. rewrite length_firstn. lia.
Qed.

Lemma elementAt_ArrayListObject_values : forall (this : ArrayListObject (T := T)) j,
  ArrayListObject_Inv this -> 0 <= j < _count this ->
  elementAt undefined (ArrayListObject_values this) j = elementAt undefined (_data this) j.
Proof.
  intros this j [H1 H2] Hj. unfold ArrayListObject_values.
  rewrite elementAt_firstn by lia.
  replace (j <? Z.min (_count this) (Z.of_nat (length (_data this)))) with true
    by (symmetry; apply Z.ltb_lt; lia).
  reflexivity.
Qed.

(** ** [get], [set], [add] *)

Lemma ArrayListObject_get_values : forall (this : ArrayListObject (T := T)) index,
  ArrayListObject_Inv this ->
  ArrayListObject_get undefined this index
  = ArrayList_get undefined (ArrayListObject_values this) index.
Proof.
  intros this [i|] Hinv; [|reflexivity].
  unfold ArrayListObject_get, ArrayListObject_inBounds, ArrayList_get.
  cbn [isDefined lessOrEqual lessThan andb].
  destruct (Z.leb_spec 0 i) as [H0|H0]; cbn [andb].
  - destruct (Z.ltb_spec i (_count this)) as [H1|H1].
    + symmetry. apply elementAt_ArrayListObject_values; [exact Hinv|lia].
    + symmetry. apply elementAt_overflow.
      rewrite (length_ArrayListObject_values this Hinv). exact H1.
  - symmetry. apply elementAt_negative. exact H0.
Qed.

Lemma ArrayListObject_add_values : forall (this : ArrayListObject (T := T)) value,
  ArrayListObject_Inv this ->
  ArrayListObject_values (ArrayListObject_add undefined this value)
  = ArrayListObject_values this ++ [value]
  /\ ArrayListObject_Inv (ArrayListObject_add undefined this value).
Proof.
  intros [data count] value [H1 H2].
  unfold ArrayListObject_values, ArrayListObject_Inv, ArrayListObject_add in *.
  cbn [_data _count] in *.
  destruct (Z.eqb_spec count (Z.of_nat (length data))) as [E|E].
  - split.
    + rewrite firstn_all2 by (rewrite length_app; cbn [length]; lia).
      rewrite firstn_all2 by lia. reflexivity.
    + rewrite length_app. cbn [length]. lia.
  - split.
    + unfold array_assign.
      replace (count <? 0) with false by (symmetry; apply Z.ltb_ge; lia).
      replace (count <? Z.of_nat (length data)) with true by (symmetry; apply Z.ltb_lt; lia).
      replace (Z.to_nat (count + 1)) with (length (firstn (Z.to_nat count) data) + 1)%nat
        by (rewrite length_firstn; lia).
      rewrite firstn_app_2. cbn [firstn]. reflexivity.
    + rewrite length_array_assign by lia. lia.
Qed.

Lemma firstn_array_assign : forall (data : list T) count index value,
  0 <= index < count -> count <= Z.of_nat (length data) ->
  firstn (Z.to_nat count) (array_assign undefined data index value)
  = firstn (Z.to_nat index) (firstn (Z.to_nat count) data)
    ++ value :: skipn (S (Z.to_nat index)) (firstn (Z.to_nat count) data).
Proof.
  intros data count index value Hindex Hcount. unfold array_assign.
  replace (index <? 0) with false by (symmetry; apply Z.ltb_ge; lia).
  replace (index <? Z.of_nat (length data)) with true by (symmetry; apply Z.ltb_lt; lia).
  rewrite firstn_app, firstn_firstn, length_firstn, firstn_firstn, skipn_firstn_comm.
  replace (Nat.min (Z.to_nat count) (Z.to_nat index)) with (Z.to_nat index) by lia.
  replace (Nat.min (Z.to_nat index) (Z.to_nat count)) with (Z.to_nat index) by lia.
  replace (Z.to_nat count - Nat.min (Z.to_nat index) (length data))%nat
    with (S (Z.to_nat count - S (Z.to_nat index))) by lia.
  reflexivity.
Qed.

Lemma ArrayListObject_set_values : forall (this : ArrayListObject (T := T)) index value,
  ArrayListObject_Inv this -> 0 <= index < _count this ->
  ArrayListObject_values (ArrayListObject_set undefined this (Some index) value)
  = firstn (Z.to_nat index) (ArrayListObject_values this)
    ++ value :: skipn (S (Z.to_nat index)) (ArrayListObject_values this)
  /\ ArrayListObject_Inv (ArrayListObject_set undefined this (Some index) value).
Proof.
  intros [data count] index value [H1 H2] Hindex.
  unfold ArrayListObject_values, ArrayListObject_Inv, ArrayListObject_set,
    ArrayListObject_inBounds in *.
  cbn [_data _count isDefined lessOrEqual lessThan andb] in *.
  replace (0 <=? index) with true by (symmetry; apply Z.leb_le; lia).
  replace (index <? count) with true by (symmetry; apply Z.ltb_lt; lia).
  cbn [andb _data _count]. split.
  - apply firstn_array_assign; lia.
  - rewrite length_array_assign by lia. lia.
Qed.

(** ** [removeAt] *)

Lemma ArrayListObject_removeAt_loop_spec : forall rounds (data : list T) i,
  0 <= i -> i + Z.of_nat rounds < Z.of_nat (length data) ->
  length (ArrayListObject_removeAt_loop undefined rounds data i) = length data
  /\ forall j,
       elementAt undefined (ArrayListObject_removeAt_loop undefined rounds data i) j
       = if (i <=? j) && (j <? i + Z.of_nat rounds) then elementAt undefined data (j + 1)
         else elementAt undefined data j.
Proof.
  induction rounds as [|rounds IH]; intros data i Hi Hlen;
    cbn [ArrayListObject_removeAt_loop].
  - split; [reflexivity|]. intros j.
    destruct (Z.leb_spec i j), (Z.ltb_spec j (i + Z.of_nat 0)); cbn [andb];
      try reflexivity; lia.
  - set (data1 := array_assign undefined data i (elementAt undefined data (i + 1))).
    assert (Hlen1 : length data1 = length data)
      by (unfold data1; rewrite length_array_assign by lia; lia).
    destruct (IH data1 (i + 1) ltac:(lia) ltac:(lia)) as [IH1 IH2].
    split; [lia|]. intros j. rewrite IH2. unfold data1.
    rewrite !elementAt_array_assign by lia.
    destruct (Z.leb_spec (i + 1) j), (Z.ltb_spec j (i + 1 + Z.of_nat rounds)),
      (Z.leb_spec i j), (Z.ltb_spec j (i + Z.of_nat (S rounds))),
      (Z.eqb_spec (j + 1) i), (Z.eqb_spec j i); cbn [andb]; subst;
      try reflexivity; lia.
Qed.

Lemma ArrayListObject_removeAt_values : forall (this : ArrayListObject (T := T)) index,
  ArrayListObject_Inv this -> 0 <= index < _count this ->
  fst (ArrayListObject_removeAt undefined this (Some index))
  = elementAt undefined (ArrayListObject_values this) index
  /\ ArrayListObject_values (snd (ArrayListObject_removeAt undefined this (Some index)))
     = firstn (Z.to_nat index) (ArrayListObject_values this)
       ++ skipn (S (Z.to_nat index)) (ArrayListObject_values this)
  /\ ArrayListObject_Inv (snd (ArrayListObject_removeAt undefined this (Some index))).
Proof.
  intros this index Hinv Hindex.
  pose proof (elementAt_ArrayListObject_values this index Hinv Hindex) as Hvalue.
  pose proof (length_ArrayListObject_values this Hinv) as Hvalues.
  assert (Hpoint : forall j, 0 <= j < _count this ->
            elementAt undefined (ArrayListObject_values this) j
            = elementAt undefined (_data this) j)
    by (intros j Hj; apply elementAt_ArrayListObject_values; assumption).
  destruct this as [data count]. destruct Hinv as [H1 H2].
  unfold ArrayListObject_removeAt, ArrayListObject_inBounds in *.
  cbn [_data _count isDefined lessOrEqual lessThan andb] in *.
  replace (0 <=? index) with true by (symmetry; apply Z.leb_le; lia).
  replace (index <? count) with true by (symmetry; apply Z.ltb_lt; lia).
  cbn [andb fst snd].
  destruct (ArrayListObject_removeAt_loop_spec (Z.to_nat (count - 1 - index)) data index
              ltac:(lia) ltac:(lia)) as [Hlen Hloop].
  set (data' := ArrayListObject_removeAt_loop undefined (Z.to_nat (count - 1 - index)) data index)
    in *.
  split; [symmetry; exact Hvalue|split].
  - set (values := ArrayListObject_values {| _data := data; _count := count |}) in *.
    unfold ArrayListObject_values at 1. cbn [_data _count].
    apply elementAt_ext.
    + rewrite length_firstn, length_array_assign, length_app, length_firstn, length_skipn by lia.
      lia.
    + intros j Hj.
      rewrite length_firstn, length_array_assign in Hj by lia.
      rewrite elementAt_firstn by lia. rewrite length_array_assign by lia.
      replace (j <? Z.min (count - 1)
                      (Z.of_nat (Nat.max (length data') (S (Z.to_nat (count - 1))))))
        with true by (symmetry; apply Z.ltb_lt; lia).
      rewrite elementAt_array_assign by lia.
      replace (j =? count - 1) with false by (symmetry; apply Z.eqb_neq; lia).
      rewrite Hloop, elementAt_app by lia. rewrite length_firstn.
      destruct (Z.leb_spec index j) as [Hle|Hlt].
      * replace (j <? index + Z.of_nat (Z.to_nat (count - 1 - index))) with true
          by (symmetry; apply Z.ltb_lt; lia).
        replace (j <? Z.of_nat (Nat.min (Z.to_nat index) (length values))) with false
          by (symmetry; apply Z.ltb_ge; lia).
        cbn [andb].
        replace (S (Z.to_nat index)) with (Z.to_nat (index + 1)) by lia.
        rewrite (elementAt_skipn undefined) by lia.
        rewrite Hpoint by lia. f_equal. lia.
      * replace (j <? Z.of_nat (Nat.min (Z.to_nat index) (length values))) with true
          by (symmetry; apply Z.ltb_lt; lia).
        cbn [andb]. rewrite (elementAt_firstn undefined) by lia.
        replace (j <? Z.min index (Z.of_nat (length values))) with true
          by (symmetry; apply Z.ltb_lt; lia).
        symmetry. apply Hpoint. lia.
  - unfold ArrayListObject_Inv. cbn [_data _count].
    rewrite length_array_assign by lia. lia.
Qed.

Lemma ArrayListObject_removeAt_outside : forall (this : ArrayListObject (T := T)) index,
  match index with Some i => i < 0 \/ _count this <= i | None => True end ->
  ArrayListObject_removeAt undefined this index = (undefined, this).
Proof.
  intros this [i|] H; [|reflexivity].
  unfold ArrayListObject_removeAt, ArrayListObject_inBounds.
  cbn [isDefined lessOrEqual lessThan andb].
  destruct (Z.leb_spec 0 i), (Z.ltb_spec i (_count this)); cbn [andb]; try reflexivity; lia.
Qed.

(** ** [indexOf] and [remove] *)

Section IndexOf.

Variable strictEquals : T -> T -> bool.

Lemma ArrayListObject_indexOf_loop_spec : forall (this : ArrayListObject (T := T)) value comparer
    values rounds i,
  rounds = length values ->
  (forall j, 0 <= j < Z.of_nat (length values) ->
     elementAt undefined (_data this) (i + j) = elementAt undefined values j) ->
  (forall before element after,
     values = before ++ element :: after ->
     Forall (fun e => ArrayListObject_matches strictEquals comparer value e = false) before ->
     ArrayListObject_matches strictEquals comparer value element = true ->
     ArrayListObject_indexOf_loop undefined strictEquals rounds this value comparer i
     = Some (i + Z.of_nat (length before)))
  /\ (Forall (fun e => ArrayListObject_matches strictEquals comparer value e = false) values ->
      ArrayListObject_indexOf_loop undefined strictEquals rounds this value comparer i = None).
Proof.
  intros this value comparer values.
  induction values as [|first rest IH]; intros rounds i -> Hdata; cbn [length].
  - split; [|reflexivity].
    intros before element after E. destruct before; discriminate E.
  - cbn [ArrayListObject_indexOf_loop].
    change (match comparer with
            | Some c => c (elementAt undefined (_data this) i) value
            | None => strictEquals (elementAt undefined (_data this) i) value
            end)
      with (ArrayListObject_matches strictEquals comparer value
              (elementAt undefined (_data this) i)).
    pose proof (Hdata 0 ltac:(cbn [length]; lia)) as H0.
    rewrite Z.add_0_r in H0. rewrite (elementAt_nth undefined (first :: rest) 0) in H0 by lia.
    cbn [Z.to_nat nth] in H0. rewrite H0. clear H0.
    destruct (IH (length rest) (i + 1) eq_refl) as [IH1 IH2].
    { intros j Hj. replace (i + 1 + j) with (i + (j + 1)) by lia.
      rewrite Hdata by (cbn [length]; lia).
      rewrite !elementAt_nth by lia.
      replace (Z.to_nat (j + 1)) with (S (Z.to_nat j)) by lia. reflexivity. }
    split.
    + intros before element after E Hbefore Helement.
      destruct before as [|b before]; cbn [app length] in *.
      * injection E as -> ->. rewrite Helement. f_equal. lia.
      * injection E as -> ->. inversion Hbefore as [|? ? Hb Hbefore']; subst.
        rewrite Hb. rewrite (IH1 before element after eq_refl Hbefore' Helement).
        f_equal. lia.
    + intros Hall. inversion Hall as [|? ? Hfirst Hrest]; subst.
      rewrite Hfirst. apply IH2, Hrest.
Qed.

Lemma ArrayListObject_indexOf_values : forall (this : ArrayListObject (T := T)) value comparer,
  ArrayListObject_Inv this ->
  (forall before element after,
     ArrayListObject_values this = before ++ element :: after ->
     Forall (fun e => ArrayListObject_matches strictEquals comparer value e = false) before ->
     ArrayListObject_matches strictEquals comparer value element = true ->
     ArrayListObject_indexOf undefined strictEquals this value comparer
     = Some (Z.of_nat (length before)))
  /\ (Forall (fun e => ArrayListObject_matches strictEquals comparer value e = false)
        (ArrayListObject_values this) ->
      ArrayListObject_indexOf undefined strictEquals this value comparer = None).
Proof.
  intros this value comparer Hinv.
  pose proof (length_ArrayListObject_values this Hinv) as Hlen.
  unfold ArrayListObject_indexOf.
  apply (ArrayListObject_indexOf_loop_spec this value comparer (ArrayListObject_values this)
           (Z.to_nat (_count this)) 0); [lia|].
  intros j Hj. symmetry. apply elementAt_ArrayListObject_values; [exact Hinv|lia].
Qed.

End IndexOf.

End ArrayListObjectLaws.

Section ArrayListObjectProperties.

Context {T : Type}.
Variable undefined : T.
Variable strictEquals : T -> T -> bool.

Lemma ArrayListObject_addAll_array : forall (array : list T) (this : ArrayListObject (T := T)),
  ArrayListObject_Inv this ->
  ArrayListObject_values (fold_left (ArrayListObject_add undefined) array this)
  = ArrayListObject_values this ++ array
  /\ ArrayListObject_Inv (fold_left (ArrayListObject_add undefined) array this).
Proof.
  induction array as [|value array IH]; intros this Hinv; cbn [fold_left].
  - rewrite app_nil_r. split; [reflexivity|exact Hinv].
  - destruct (ArrayListObject_add_values undefined this value Hinv) as [H1 H2].
    destruct (IH _ H2) as [H3 H4]. split; [|exact H4].
    rewrite H3, H1, <- app_assoc. reflexivity.
Qed.

(** X16.  [add(value)] puts [value] after the values of the list, whether
    or not [_data] has a free slot left by an earlier removal: the count
    grows by one and [get] at the old count gives [value]. *)
Theorem X16_add : forall (this : ArrayListObject (T := T)) (value : T),
  ArrayListObject_Inv this ->
  ArrayListObject_values (ArrayListObject_add undefined this value)
  = ArrayListObject_values this ++ [value]
  /\ ArrayListObject_getCount (ArrayListObject_add undefined this value)
     = ArrayListObject_getCount this + 1
  /\ ArrayListObject_get undefined (ArrayListObject_add undefined this value)
       (Some (ArrayListObject_getCount this))
     = value
  /\ ArrayListObject_Inv (ArrayListObject_add undefined this value).
Proof.
  intros this value Hinv.
  destruct (ArrayListObject_add_values undefined this value Hinv) as [H1 H2].
  split; [exact H1|split; [reflexivity|split; [|exact H2]]].
  rewrite (ArrayListObject_get_values undefined _ _ H2), H1.
  pose proof (length_ArrayListObject_values this Hinv) as Hlen.
  unfold ArrayList_get, ArrayListObject_getCount.
  destruct Hinv as [H0 _].
  rewrite (elementAt_app undefined) by lia.
  replace (_count this <? Z.of_nat (length (ArrayListObject_values this))) with false
    by (symmetry; apply Z.ltb_ge; lia).
  replace (_count this - Z.of_nat (length (ArrayListObject_values this))) with 0 by lia.
  reflexivity.
Qed.

(** X17.  [new ArrayList(values)] has the values of the array, or of the
    iterable, it is given, in their order, and none without an argument. *)
Theorem X17_new_ArrayList : forall (array : list T) (iterable : Iterable (T := T)),
  ArrayListObject_values (new_ArrayListObject undefined (Some (inl array))) = array
  /\ ArrayListObject_values (new_ArrayListObject undefined (Some (inr iterable)))
     = Iterable_toArray undefined iterable
  /\ ArrayListObject_values (new_ArrayListObject undefined None) = []
  /\ ArrayListObject_Inv (new_ArrayListObject undefined (Some (inl array)))
  /\ ArrayListObject_Inv (new_ArrayListObject undefined (Some (inr iterable))).
Proof.
  intros array iterable.
  assert (Hempty : ArrayListObject_Inv (ArrayListObject_empty (T := T)))
    by (unfold ArrayListObject_Inv; cbn; lia).
  unfold new_ArrayListObject, ArrayListObject_addAll.
  rewrite (Iterable_foreach_elements undefined), foreach_list_fold, Iterable_toArray_elements.
  destruct (ArrayListObject_addAll_array array _ Hempty) as [H1 H2].
  destruct (ArrayListObject_addAll_array (elements iterable) _ Hempty) as [H3 H4].
  split; [exact H1|split; [exact H3|split; [reflexivity|split; [exact H2|exact H4]]]].
Qed.

(** X18.  [set(index, value)] inside the bounds replaces the value at
    [index] and no other; outside the bounds, or without an index, it does
    nothing.  [get(index)] is the value at [index] inside the bounds and
    [undefined] outside. *)
Theorem X18_set_get : forall (this : ArrayListObject (T := T)) (index : Z) (value : T),
  ArrayListObject_Inv this ->
  (0 <= index < ArrayListObject_getCount this ->
   ArrayListObject_values (ArrayListObject_set undefined this (Some index) value)
   = firstn (Z.to_nat index) (ArrayListObject_values this)
     ++ value :: skipn (S (Z.to_nat index)) (ArrayListObject_values this)
   /\ ArrayListObject_get undefined (ArrayListObject_set undefined this (Some index) value)
        (Some index)
      = value
   /\ ArrayListObject_get undefined this (Some index)
      = nth (Z.to_nat index) (ArrayListObject_values this) undefined)
  /\ (index < 0 \/ ArrayListObject_getCount this <= index ->
      ArrayListObject_set undefined this (Some index) value = this
      /\ ArrayListObject_get undefined this (Some index) = undefined)
  /\ ArrayListObject_set undefined this None value = this
  /\ ArrayListObject_get undefined this None = undefined.
Proof.
  intros this index value Hinv. unfold ArrayListObject_getCount.
  split; [|split; [|split; reflexivity]].
  - intros Hindex.
    destruct (ArrayListObject_set_values undefined this index value Hinv Hindex) as [H1 H2].
    pose proof (length_ArrayListObject_values this Hinv) as Hlen.
    split; [exact H1|split].
    + rewrite (ArrayListObject_get_values undefined _ _ H2), H1. unfold ArrayList_get.
      rewrite (elementAt_app undefined) by lia. rewrite length_firstn.
      replace (index <? Z.of_nat (Nat.min (Z.to_nat index)
                                    (length (ArrayListObject_values this))))
        with false by (symmetry; apply Z.ltb_ge; lia).
      replace (index - Z.of_nat (Nat.min (Z.to_nat index)
                                   (length (ArrayListObject_values this))))
        with 0 by lia.
      reflexivity.
    + rewrite (ArrayListObject_get_values undefined _ _ Hinv). unfold ArrayList_get.
      apply elementAt_nth. lia.
  - intros Hindex.
    unfold ArrayListObject_set, ArrayListObject_get, ArrayListObject_inBounds.
    cbn [isDefined lessOrEqual lessThan andb].
    destruct (Z.leb_spec 0 index), (Z.ltb_spec index (_count this)); cbn [andb];
      try (split; reflexivity); lia.
Qed.

(** X19.  [removeAt(index)] inside the bounds returns the value at [index]
    and closes the gap: the values before and after it keep their order and
    the count drops by one.  Outside the bounds, or without an index, it
    returns [undefined] and changes nothing. *)
Theorem X19_removeAt : forall (this : ArrayListObject (T := T)) (index : Z),
  ArrayListObject_Inv this ->
  (0 <= index < ArrayListObject_getCount this ->
   fst (ArrayListObject_removeAt undefined this (Some index))
   = nth (Z.to_nat index) (ArrayListObject_values this) undefined
   /\ ArrayListObject_values (snd (ArrayListObject_removeAt undefined this (Some index)))
      = firstn (Z.to_nat index) (ArrayListObject_values this)
        ++ skipn (S (Z.to_nat index)) (ArrayListObject_values this)
   /\ ArrayListObject_getCount (snd (ArrayListObject_removeAt undefined this (Some index)))
      = ArrayListObject_getCount this - 1
   /\ ArrayListObject_Inv (snd (ArrayListObject_removeAt undefined this (Some index))))
  /\ (index < 0 \/ ArrayListObject_getCount this <= index ->
      ArrayListObject_removeAt undefined this (Some index) = (undefined, this))
  /\ ArrayListObject_removeAt undefined this None = (undefined, this).
Proof.
  intros this index Hinv. unfold ArrayListObject_getCount.
  split; [|split; [|reflexivity]].
  - intros Hindex.
    destruct (ArrayListObject_removeAt_values undefined this index Hinv Hindex)
      as (H1 & H2 & H3).
    split; [|split; [exact H2|split; [|exact H3]]].
    + rewrite H1. apply elementAt_nth. lia.
    + unfold ArrayListObject_removeAt, ArrayListObject_inBounds.
      cbn [isDefined lessOrEqual lessThan andb].
      replace (0 <=? index) with true by (symmetry; apply Z.leb_le; lia).
      replace (index <? _count this) with true by (symmetry; apply Z.ltb_lt; lia).
      reflexivity.
  - intros Hindex. apply ArrayListObject_removeAt_outside. exact Hindex.
Qed.

End ArrayListObjectProperties.

Section ArrayListObjectRemoval.

Context {T : Type}.
Variable undefined : T.
Variable strictEquals : T -> T -> bool.

Lemma last_nth_pred : forall (values : list T),
  last values undefined = nth (pred (length values)) values undefined.
Proof.
  intros values. induction values as [|x before _] using rev_ind; [reflexivity|].
  rewrite last_last, length_app, app_nth2 by (cbn; lia).
  cbn [length]. replace (pred (length before + 1) - length before)%nat with O by lia.
  reflexivity.
Qed.

Lemma ArrayListObject_removeLast_values : forall this : ArrayListObject (T := T),
  ArrayListObject_Inv this ->
  fst (ArrayListObject_removeLast undefined this) = last (ArrayListObject_values this) undefined
  /\ ArrayListObject_values (snd (ArrayListObject_removeLast undefined this))
     = removelast (ArrayListObject_values this)
  /\ ArrayListObject_Inv (snd (ArrayListObject_removeLast undefined this)).
Proof.
  intros this Hinv. pose proof (length_ArrayListObject_values this Hinv) as Hlen.
  unfold ArrayListObject_removeLast, ArrayListObject_getCount.
  destruct (Z.eq_dec (_count this) 0) as [Hzero|Hpositive].
  - rewrite ArrayListObject_removeAt_outside by (cbn; lia). cbn [fst snd].
    destruct (ArrayListObject_values this); [|cbn [length] in Hlen; lia].
    split; [reflexivity|split; [reflexivity|exact Hinv]].
  - destruct Hinv as [H1 H2].
    destruct (ArrayListObject_removeAt_values undefined this (_count this - 1) (conj H1 H2))
      as (H3 & H4 & H5); [lia|].
    split; [|split; [|exact H5]].
    + rewrite H3, last_nth_pred, (elementAt_nth undefined) by lia. f_equal. lia.
    + rewrite H4, removelast_firstn_len.
      rewrite (skipn_all2 (n := S (Z.to_nat (_count this - 1)))) by lia.
      rewrite app_nil_r. f_equal. lia.
Qed.

Lemma ArrayListObject_removeFirst_values : forall this : ArrayListObject (T := T),
  ArrayListObject_Inv this ->
  fst (ArrayListObject_removeFirst undefined this) = hd undefined (ArrayListObject_values this)
  /\ ArrayListObject_values (snd (ArrayListObject_removeFirst undefined this))
     = tl (ArrayListObject_values this)
  /\ ArrayListObject_Inv (snd (ArrayListObject_removeFirst undefined this)).
Proof.
  intros this Hinv. pose proof (length_ArrayListObject_values this Hinv) as Hlen.
  unfold ArrayListObject_removeFirst.
  destruct (Z.eq_dec (_count this) 0) as [Hzero|Hpositive].
  - rewrite ArrayListObject_removeAt_outside by (cbn; lia). cbn [fst snd].
    destruct (ArrayListObject_values this); [|cbn [length] in Hlen; lia].
    split; [reflexivity|split; [reflexivity|exact Hinv]].
  - destruct Hinv as [H1 H2].
    destruct (ArrayListObject_removeAt_values undefined this 0 (conj H1 H2))
      as (H3 & H4 & H5); [lia|].
    split; [|split; [|exact H5]].
    + rewrite H3, (elementAt_nth undefined) by lia.
      destruct (ArrayListObject_values this); reflexivity.
    + rewrite H4. destruct (ArrayListObject_values this); reflexivity.
Qed.

Lemma ArrayListObject_last_values : forall this : ArrayListObject (T := T),
  ArrayListObject_last undefined this = last (ArrayListObject_values this) undefined.
Proof.
  intros this. unfold ArrayListObject_last.
  exact (Iterable_last_elements undefined (ArrayListObject_iterable this) None I).
Qed.

Lemma ArrayListObject_remove_values : forall (this : ArrayListObject (T := T)) value comparer,
  ArrayListObject_Inv this ->
  (forall before element after,
     ArrayListObject_values this = before ++ element :: after ->
     Forall (fun e => ArrayListObject_matches strictEquals comparer value e = false) before ->
     ArrayListObject_matches strictEquals comparer value element = true ->
     fst (ArrayListObject_remove undefined strictEquals this value comparer) = element
     /\ ArrayListObject_values
          (snd (ArrayListObject_remove undefined strictEquals this value comparer))
        = before ++ after
     /\ ArrayListObject_Inv
          (snd (ArrayListObject_remove undefined strictEquals this value comparer)))
  /\ (Forall (fun e => ArrayListObject_matches strictEquals comparer value e = false)
        (ArrayListObject_values this) ->
      ArrayListObject_remove undefined strictEquals this value comparer = (undefined, this)).
Proof.
  intros this value comparer Hinv.
  destruct (ArrayListObject_indexOf_values undefined strictEquals this value comparer Hinv)
    as [Hfound Habsent].
  pose proof (length_ArrayListObject_values this Hinv) as Hlen.
  split.
  - intros before element after Hvalues Hbefore Helement.
    unfold ArrayListObject_remove.
    rewrite (Hfound before element after Hvalues Hbefore Helement). cbn [isDefined].
    assert (Hindex : 0 <= Z.of_nat (length before) < _count this).
    { rewrite <- Hlen, Hvalues, length_app. cbn [length]. lia. }
    destruct (ArrayListObject_removeAt_values undefined this _ Hinv Hindex) as (H1 & H2 & H3).
    split; [|split; [|exact H3]].
    + rewrite H1, (elementAt_nth undefined), Nat2Z.id, Hvalues by lia.
      rewrite app_nth2, Nat.sub_diag by lia. reflexivity.
    + rewrite H2, Nat2Z.id, Hvalues.
      rewrite firstn_app, Nat.sub_diag, firstn_all, firstn_O, app_nil_r.
      rewrite skipn_app, skipn_all2 by lia.
      replace (S (length before) - length before)%nat with 1%nat by lia.
      reflexivity.
  - intros Hnone. unfold ArrayListObject_remove. rewrite (Habsent Hnone). reflexivity.
Qed.

(** X20.  [indexOf(value, comparer)] is the index of the first value of the
    list that the comparer, or [===] without one, accepts, and [undefined]
    when no value of the list is accepted; the slots of [_data] past the
    count are never looked at. *)
Theorem X20_indexOf : forall (this : ArrayListObject (T := T)) value comparer,
  ArrayListObject_Inv this ->
  (forall before element after,
     ArrayListObject_values this = before ++ element :: after ->
     Forall (fun e => ArrayListObject_matches strictEquals comparer value e = false) before ->
     ArrayListObject_matches strictEquals comparer value element = true ->
     ArrayListObject_indexOf undefined strictEquals this value comparer
     = Some (Z.of_nat (length before)))
  /\ (Forall (fun e => ArrayListObject_matches strictEquals comparer value e = false)
        (ArrayListObject_values this) ->
      ArrayListObject_indexOf undefined strictEquals this value comparer = None).
Proof.
  intros this value comparer Hinv.
  exact (ArrayListObject_indexOf_values undefined strictEquals this value comparer Hinv).
Qed.

(** X21.  [remove(value, comparer)] takes out the first value of the list
    that the comparer, or [===] without one, accepts, and returns the value
    that was in the list, not the argument; later accepted values stay.
    When no value is accepted it returns [undefined] and changes nothing. *)
Theorem X21_remove : forall (this : ArrayListObject (T := T)) value comparer,
  ArrayListObject_Inv this ->
  (forall before element after,
     ArrayListObject_values this = before ++ element :: after ->
     Forall (fun e => ArrayListObject_matches strictEquals comparer value e = false) before ->
     ArrayListObject_matches strictEquals comparer value element = true ->
     fst (ArrayListObject_remove undefined strictEquals this value comparer) = element
     /\ ArrayListObject_values
          (snd (ArrayListObject_remove undefined strictEquals this value comparer))
        = before ++ after
     /\ ArrayListObject_Inv
          (snd (ArrayListObject_remove undefined strictEquals this value comparer)))
  /\ (Forall (fun e => ArrayListObject_matches strictEquals comparer value e = false)
        (ArrayListObject_values this) ->
      ArrayListObject_remove undefined strictEquals this value comparer = (undefined, this)).
Proof.
  intros this value comparer Hinv.
  exact (ArrayListObject_remove_values this value comparer Hinv).
Qed.

End ArrayListObjectRemoval.

(** * class Stack<T>, class Queue<T>: the laws *)

Section StackAndQueueProperties.

Context {T : Type}.
Variable undefined : T.
Variable strictEquals : T -> T -> bool.

(** X22.  A stack is last-in first-out.  [push] puts the value on top;
    [peek] is the top value and [pop] returns it and takes it off, so that a
    [pop] after a [push] gives the pushed value back and leaves the values
    of the stack as they were; on an empty stack both return [undefined]
    and [pop] changes nothing. *)
Theorem X22_Stack : forall (this : Stack (T := T)) (value : T),
  ArrayListObject_Inv (Stack_values this) ->
  let values := ArrayListObject_values (Stack_values this) in
  ArrayListObject_values (Stack_values (Stack_push undefined this value)) = values ++ [value]
  /\ Stack_peek undefined this = last values undefined
  /\ fst (Stack_pop undefined this) = last values undefined
  /\ ArrayListObject_values (Stack_values (snd (Stack_pop undefined this))) = removelast values
  /\ Stack_peek undefined (Stack_push undefined this value) = value
  /\ fst (Stack_pop undefined (Stack_push undefined this value)) = value
  /\ ArrayListObject_values
       (Stack_values (snd (Stack_pop undefined (Stack_push undefined this value))))
     = values
  /\ (Stack_any this = false -> Stack_pop undefined this = (undefined, this))
  /\ Stack_getCount this = Z.of_nat (length values)
  /\ ArrayListObject_Inv (Stack_values (Stack_push undefined this value))
  /\ ArrayListObject_Inv (Stack_values (snd (Stack_pop undefined this))).
Proof.
  intros [list] value Hinv values. cbn [Stack_values] in *.
  unfold Stack_push, Stack_pop, Stack_peek, Stack_any, Stack_getCount. cbn [Stack_values].
  destruct (ArrayListObject_add_values undefined list value Hinv) as [Hadd HaddInv].
  destruct (ArrayListObject_removeLast_values undefined list Hinv) as (H1 & H2 & H3).
  destruct (ArrayListObject_removeLast_values undefined _ HaddInv) as (H4 & H5 & H6).
  rewrite Hadd in H4, H5. rewrite last_last in H4. rewrite removelast_last in H5.
  destruct (ArrayListObject_removeLast undefined list) as [result rest] eqn:E.
  destruct (ArrayListObject_removeLast undefined (ArrayListObject_add undefined list value))
    as [result' rest'] eqn:E'.
  cbn [fst snd Stack_values] in *.
  rewrite !ArrayListObject_last_values, Hadd, last_last.
  repeat match goal with |- _ /\ _ => split end; try assumption; try reflexivity.
  - intros Hany. unfold ArrayListObject_any in Hany.
    unfold ArrayListObject_removeLast, ArrayListObject_getCount in E.
    rewrite ArrayListObject_removeAt_outside in E
      by (cbn; rewrite Z.gtb_ltb in Hany; apply Z.ltb_ge in Hany; lia).
    injection E as <- <-. reflexivity.
  - symmetry. apply length_ArrayListObject_values. exact Hinv.
Qed.

(** X23.  A queue is first-in first-out.  [enqueue] puts the value behind
    the others; [dequeue] returns the oldest value and takes it off, the
    others keep their order; on an empty queue it returns [undefined] and
    changes nothing. *)
Theorem X23_Queue : forall (this : Queue (T := T)) (value : T),
  ArrayListObject_Inv (Queue_values this) ->
  let values := ArrayListObject_values (Queue_values this) in
  ArrayListObject_values (Queue_values (Queue_enqueue undefined this value)) = values ++ [value]
  /\ fst (Queue_dequeue undefined this) = hd undefined values
  /\ ArrayListObject_values (Queue_values (snd (Queue_dequeue undefined this))) = tl values
  /\ (Queue_any this = false -> Queue_dequeue undefined this = (undefined, this))
  /\ Queue_getCount this = Z.of_nat (length values)
  /\ ArrayListObject_Inv (Queue_values (Queue_enqueue undefined this value))
  /\ ArrayListObject_Inv (Queue_values (snd (Queue_dequeue undefined this))).
Proof.
  intros [list] value Hinv values. cbn [Queue_values] in *.
  unfold Queue_enqueue, Queue_dequeue, Queue_any, Queue_getCount. cbn [Queue_values].
  destruct (ArrayListObject_add_values undefined list value Hinv) as [Hadd HaddInv].
  destruct (ArrayListObject_removeFirst_values undefined list Hinv) as (H1 & H2 & H3).
  destruct (ArrayListObject_removeFirst undefined list) as [result rest] eqn:E.
  cbn [fst snd Queue_values] in *.
  repeat match goal with |- _ /\ _ => split end; try assumption; try reflexivity.
  - intros Hany. unfold ArrayListObject_any in Hany.
    unfold ArrayListObject_removeFirst in E.
    rewrite ArrayListObject_removeAt_outside in E
      by (cbn; rewrite Z.gtb_ltb in Hany; apply Z.ltb_ge in Hany; lia).
    injection E as <- <-. reflexivity.
  - symmetry. apply length_ArrayListObject_values. exact Hinv.
Qed.

End StackAndQueueProperties.

(** * class Map<KeyType, ValueType>: the laws *)

Section MapLaws.

Context {KeyType ValueType : Type}.
Variable undefinedValue : ValueType.
Variable keyEquals : KeyType -> KeyType -> bool.
Variable pairEquals : option (KeyType * ValueType) -> option (KeyType * ValueType) -> bool.
Variable raised : bool.

(** [===] on keys tells whether two keys are the same key. *)
Hypothesis keyEquals_eq : forall lhs rhs, keyEquals lhs rhs = true <-> lhs = rhs.

Local Abbreviation hasKey key := (fun entry : KeyType * ValueType => keyEquals (fst entry) key).

Lemma keyEquals_refl : forall key, keyEquals key key = true.
Proof. intros key. apply keyEquals_eq. reflexivity. Qed.

Lemma keyEquals_neq : forall lhs rhs, lhs <> rhs -> keyEquals lhs rhs = false.
Proof.
  intros lhs rhs H. destruct (keyEquals lhs rhs) eqn:E; [|reflexivity].
  apply keyEquals_eq in E. contradiction.
Qed.

Lemma Map_entries_of_pairs : forall entries : list (KeyType * ValueType),
  flat_map (fun pair : option (KeyType * ValueType) =>
              match pair with Some entry => [entry] | None => [] end)
    (map Some entries)
  = entries.
Proof.
  induction entries as [|entry entries IH]; [reflexivity|].
  cbn [map flat_map app]. rewrite IH. reflexivity.
Qed.

Lemma Map_Inv_intro : forall (this : Map) (entries : list (KeyType * ValueType)),
  ArrayListObject_Inv (_pairs this) ->
  ArrayListObject_values (_pairs this) = map Some entries ->
  NoDup (map fst entries) ->
  Map_entries this = entries /\ Map_Inv this.
Proof.
  intros this entries H1 H2 H3.
  assert (H : Map_entries this = entries)
    by (unfold Map_entries; rewrite H2; apply Map_entries_of_pairs).
  split; [exact H|]. unfold Map_Inv. rewrite H. auto.
Qed.

Lemma Map_Inv_new : Map_Inv (new_Map (KeyType := KeyType) (ValueType := ValueType)).
Proof.
  apply (Map_Inv_intro new_Map []).
  - unfold ArrayListObject_Inv. cbn. lia.
  - reflexivity.
  - constructor.
Qed.

Lemma Map_get_entries : forall (this : Map) key,
  Map_Inv this ->
  Map_get undefinedValue keyEquals raised this key
  = match find (hasKey key) (Map_entries this) with
    | Some entry => snd entry
    | None => undefinedValue
    end.
Proof.
  intros this key (_ & Hvalues & _). unfold Map_get.
  rewrite (Iterable_first_elements None (ArrayListObject_iterable (_pairs this))
             (Some (Map_hasKey keyEquals raised key))).
  change (elements (ArrayListObject_iterable (_pairs this)))
    with (ArrayListObject_values (_pairs this)).
  rewrite Hvalues. clear Hvalues. induction (Map_entries this) as [|[k v] entries IH]; [reflexivity|].
  cbn [map filter find Map_hasKey fst]. destruct (keyEquals k key); [reflexivity|exact IH].
Qed.

Lemma Map_contains_entries : forall (this : Map) key,
  Map_Inv this ->
  Map_contains keyEquals raised this key = existsb (hasKey key) (Map_entries this).
Proof.
  intros this key (_ & Hvalues & _). unfold Map_contains.
  rewrite (Iterable_any_elements None (ArrayListObject_iterable (_pairs this))
             (Some (Map_hasKey keyEquals raised key))).
  change (elements (ArrayListObject_iterable (_pairs this)))
    with (ArrayListObject_values (_pairs this)).
  rewrite Hvalues. clear Hvalues. induction (Map_entries this) as [|[k v] entries IH]; [reflexivity|].
  cbn [map existsb Map_hasKey fst]. rewrite IH. reflexivity.
Qed.

Lemma Map_getCount_entries : forall this : Map (KeyType := KeyType) (ValueType := ValueType),
  Map_Inv this -> Map_getCount this = Z.of_nat (length (Map_entries this)).
Proof.
  intros this (Hinv & Hvalues & _). unfold Map_getCount, ArrayListObject_getCount.
  rewrite <- (length_ArrayListObject_values _ Hinv), Hvalues, length_map. reflexivity.
Qed.

Lemma Map_first_entry : forall (key : KeyType) (entries : list (KeyType * ValueType)),
  (exists before entry after,
     entries = before ++ entry :: after
     /\ Forall (fun e => keyEquals (fst e) key = false) before
     /\ keyEquals (fst entry) key = true)
  \/ Forall (fun e => keyEquals (fst e) key = false) entries.
Proof.
  intros key. induction entries as [|entry entries IH].
  - right. constructor.
  - destruct (keyEquals (fst entry) key) eqn:E.
    + left. exists [], entry, entries. split; [reflexivity|split; [constructor|exact E]].
    + destruct IH as [(before & found & after & -> & H1 & H2)|H].
      * left. exists (entry :: before), found, after.
        split; [reflexivity|split; [constructor; assumption|exact H2]].
      * right. constructor; assumption.
Qed.

Lemma Map_filter_absent : forall (key : KeyType) (entries : list (KeyType * ValueType)),
  Forall (fun e => keyEquals (fst e) key = false) entries ->
  filter (fun e => negb (keyEquals (fst e) key)) entries = entries
  /\ existsb (hasKey key) entries = false
  /\ ~ In key (map fst entries).
Proof.
  intros key. induction 1 as [|entry entries H _ (IH1 & IH2 & IH3)].
  - split; [reflexivity|split; [reflexivity|intros []]].
  - cbn [filter existsb map]. rewrite H, IH1, IH2. cbn [negb orb].
    split; [reflexivity|split; [reflexivity|]].
    intros [Hin|Hin]; [|exact (IH3 Hin)].
    rewrite Hin, keyEquals_refl in H. discriminate.
Qed.

Lemma Map_absent_Forall : forall (key : KeyType) (entries : list (KeyType * ValueType)),
  ~ In key (map fst entries) -> Forall (fun e => keyEquals (fst e) key = false) entries.
Proof.
  intros key entries H. apply Forall_forall. intros entry Hin.
  apply keyEquals_neq. intros <-. apply H, in_map, Hin.
Qed.

Lemma NoDup_snoc : forall (keys : list KeyType) (key : KeyType),
  ~ In key keys -> NoDup keys -> NoDup (keys ++ [key]).
Proof.
  intros keys key Hfresh Hnodup. apply NoDup_app.
  - exact Hnodup.
  - constructor; [intros []|constructor].
  - intros a Hin [<-|[]]. exact (Hfresh Hin).
Qed.

Lemma Map_add_entries : forall (this : Map) key value,
  Map_Inv this ->
  Map_entries (Map_add keyEquals pairEquals raised this key value)
  = filter (fun e => negb (keyEquals (fst e) key)) (Map_entries this) ++ [(key, value)]
  /\ Map_Inv (Map_add keyEquals pairEquals raised this key value).
Proof.
  intros this key value (Hinv & Hvalues & Hnodup).
  assert (Hmatches : forall entries : list (KeyType * ValueType),
            Forall (fun e => keyEquals (fst e) key = false) entries ->
            Forall (fun e => ArrayListObject_matches pairEquals
                               (Some (Map_sameKey keyEquals raised)) (Some (key, value)) e
                             = false)
              (map Some entries)).
  { induction 1 as [|[k v] entries H _ IH]; constructor; [exact H|exact IH]. }
  destruct (ArrayListObject_remove_values None pairEquals (_pairs this) (Some (key, value))
              (Some (Map_sameKey keyEquals raised)) Hinv) as [Hfound Habsent].
  unfold Map_add.
  destruct (Map_first_entry key (Map_entries this))
    as [(before & [k v] & after & Hentries & Hbefore & Hentry)|Hnone].
  - rewrite Hentries in Hvalues, Hnodup. rewrite Hentries.
    rewrite map_app in Hvalues, Hnodup. cbn [map fst] in Hvalues, Hnodup.
    cbn [fst] in Hentry. apply keyEquals_eq in Hentry. subst k.
    destruct (Hfound (map Some before) (Some (key, v)) (map Some after) Hvalues
                (Hmatches before Hbefore) (keyEquals_refl key)) as (_ & H2 & H3).
    destruct (ArrayListObject_add_values None _ (Some (key, value)) H3) as [H4 H5].
    rewrite H2 in H4.
    pose proof (NoDup_remove_1 _ _ _ Hnodup) as Hrest.
    pose proof (NoDup_remove_2 _ _ _ Hnodup) as Hfresh.
    assert (Hafter : Forall (fun e => keyEquals (fst e) key = false) after).
    { apply Map_absent_Forall. intros Hin. apply Hfresh, in_or_app. right. exact Hin. }
    destruct (Map_filter_absent key before Hbefore) as (Hf1 & _ & _).
    destruct (Map_filter_absent key after Hafter) as (Hf2 & _ & _).
    rewrite filter_app. cbn [filter fst]. rewrite keyEquals_refl. cbn [negb].
    rewrite Hf1, Hf2.
    apply (Map_Inv_intro {| _pairs := _ |} ((before ++ after) ++ [(key, value)])).
    + exact H5.
    + cbn [_pairs]. rewrite H4, !map_app. reflexivity.
    + rewrite map_app. cbn [map fst]. rewrite map_app.
      apply NoDup_snoc; [exact Hfresh|exact Hrest].
  - rewrite (Habsent (eq_ind_r (fun values => Forall _ values) (Hmatches _ Hnone) Hvalues)).
    cbn [snd].
    destruct (ArrayListObject_add_values None _ (Some (key, value)) Hinv) as [H4 H5].
    destruct (Map_filter_absent key _ Hnone) as (Hf & _ & Hfresh).
    rewrite Hf.
    apply (Map_Inv_intro {| _pairs := _ |} (Map_entries this ++ [(key, value)])).
    + exact H5.
    + cbn [_pairs]. rewrite H4, Hvalues, map_app. reflexivity.
    + rewrite map_app. cbn [map fst].
      apply NoDup_snoc; [exact Hfresh|exact Hnodup].
Qed.

Lemma Map_filter_count : forall (key : KeyType) (entries : list (KeyType * ValueType)),
  NoDup (map fst entries) ->
  S (length (filter (fun e => negb (keyEquals (fst e) key)) entries))
  = if existsb (hasKey key) entries then length entries else S (length entries).
Proof.
  intros key entries Hnodup.
  induction entries as [|entry entries IH]; [reflexivity|].
  cbn [map] in Hnodup. inversion Hnodup as [|? ? Hfresh Hrest]; subst.
  cbn [filter existsb]. destruct (keyEquals (fst entry) key) eqn:E; cbn [negb orb length].
  - apply keyEquals_eq in E. rewrite E in Hfresh.
    destruct (Map_filter_absent key entries (Map_absent_Forall key entries Hfresh))
      as (Hf & _ & _).
    rewrite Hf. lia.
  - specialize (IH Hrest). destruct (existsb (hasKey key) entries); lia.
Qed.

Lemma Map_find_added : forall (key other : KeyType) (value : ValueType) entries,
  find (hasKey other) (filter (fun e => negb (keyEquals (fst e) key)) entries ++ [(key, value)])
  = if keyEquals key other then Some (key, value) else find (hasKey other) entries.
Proof.
  intros key other value. induction entries as [|entry entries IH].
  - cbn. destruct (keyEquals key other); reflexivity.
  - cbn [filter find]. destruct (keyEquals (fst entry) key) eqn:E; cbn [negb].
    + rewrite IH. apply keyEquals_eq in E. rewrite E.
      destruct (keyEquals key other); reflexivity.
    + cbn [app find]. destruct (keyEquals (fst entry) other) eqn:E'; [|exact IH].
      destruct (keyEquals key other) eqn:E''; [|reflexivity].
      apply keyEquals_eq in E', E''. subst.
      rewrite keyEquals_refl in E. discriminate.
Qed.

Lemma Map_existsb_added : forall (key other : KeyType) (value : ValueType) entries,
  existsb (hasKey other)
    (filter (fun e => negb (keyEquals (fst e) key)) entries ++ [(key, value)])
  = keyEquals key other || existsb (hasKey other) entries.
Proof.
  intros key other value. induction entries as [|entry entries IH].
  - cbn. destruct (keyEquals key other); reflexivity.
  - cbn [filter existsb]. destruct (keyEquals (fst entry) key) eqn:E; cbn [negb].
    + rewrite IH. apply keyEquals_eq in E. rewrite E.
      destruct (keyEquals key other); reflexivity.
    + cbn [app existsb]. rewrite IH.
      destruct (keyEquals (fst entry) other), (keyEquals key other); reflexivity.
Qed.

Lemma Map_get_add : forall (this : Map) key value other,
  Map_Inv this ->
  Map_get undefinedValue keyEquals raised (Map_add keyEquals pairEquals raised this key value)
    other
  = if keyEquals key other then value else Map_get undefinedValue keyEquals raised this other.
Proof.
  intros this key value other Hinv.
  destruct (Map_add_entries this key value Hinv) as [Hentries Hinv'].
  rewrite (Map_get_entries _ other Hinv'), (Map_get_entries _ other Hinv), Hentries.
  rewrite Map_find_added. destruct (keyEquals key other); reflexivity.
Qed.

Lemma Map_contains_add : forall (this : Map) key value other,
  Map_Inv this ->
  Map_contains keyEquals raised (Map_add keyEquals pairEquals raised this key value) other
  = keyEquals key other || Map_contains keyEquals raised this other.
Proof.
  intros this key value other Hinv.
  destruct (Map_add_entries this key value Hinv) as [Hentries Hinv'].
  rewrite (Map_contains_entries _ other Hinv'), (Map_contains_entries _ other Hinv), Hentries.
  apply Map_existsb_added.
Qed.

Lemma Map_of_snoc : forall (adds : list (KeyType * ValueType)) key value,
  Map_of keyEquals pairEquals raised (adds ++ [(key, value)])
  = Map_add keyEquals pairEquals raised (Map_of keyEquals pairEquals raised adds) key value.
Proof. intros adds key value. unfold Map_of. rewrite fold_left_app. reflexivity. Qed.

Lemma Map_Inv_of : forall adds : list (KeyType * ValueType),
  Map_Inv (Map_of keyEquals pairEquals raised adds).
Proof.
  induction adds as [|[key value] adds IH] using rev_ind; [exact Map_Inv_new|].
  rewrite Map_of_snoc. apply Map_add_entries. exact IH.
Qed.

(** X24.  After [add(key, value)], [get(key)] is [value] and [contains(key)]
    holds, whether or not the map had the key; for every other key [get]
    and [contains] answer as before. *)
Theorem X24_Map_add : forall (this : Map) (key other : KeyType) (value : ValueType),
  Map_Inv this ->
  let added := Map_add keyEquals pairEquals raised this key value in
  Map_get undefinedValue keyEquals raised added key = value
  /\ Map_contains keyEquals raised added key = true
  /\ (other <> key ->
      Map_get undefinedValue keyEquals raised added other
      = Map_get undefinedValue keyEquals raised this other
      /\ Map_contains keyEquals raised added other = Map_contains keyEquals raised this other)
  /\ Map_Inv added.
Proof.
  intros this key other value Hinv added. unfold added.
  rewrite !Map_get_add, !Map_contains_add by exact Hinv.
  rewrite keyEquals_refl.
  split; [reflexivity|split; [reflexivity|split]].
  - intros Hother. rewrite (keyEquals_neq key other) by congruence. split; reflexivity.
  - apply Map_add_entries. exact Hinv.
Qed.

(** X25.  [add] with a key of the map overwrites: the count stays; with a
    new key the count grows by one.  [get] of a key the map does not
    contain is [undefined]. *)
Theorem X25_Map_getCount : forall (this : Map) (key : KeyType) (value : ValueType),
  Map_Inv this ->
  Map_getCount (Map_add keyEquals pairEquals raised this key value)
  = (if Map_contains keyEquals raised this key
     then Map_getCount this
     else Map_getCount this + 1)
  /\ (Map_contains keyEquals raised this key = false ->
      Map_get undefinedValue keyEquals raised this key = undefinedValue).
Proof.
  intros this key value Hinv.
  destruct (Map_add_entries this key value Hinv) as [Hentries Hinv'].
  rewrite (Map_getCount_entries _ Hinv'), (Map_getCount_entries _ Hinv), Hentries.
  rewrite (Map_contains_entries _ key Hinv), (Map_get_entries _ key Hinv).
  destruct Hinv as (_ & _ & Hnodup).
  pose proof (Map_filter_count key (Map_entries this) Hnodup) as Hcount.
  rewrite length_app. cbn [length].
  split.
  - destruct (existsb (hasKey key) (Map_entries this)); lia.
  - intros Habsent. destruct (find (hasKey key) (Map_entries this)) as [entry|] eqn:E;
      [|reflexivity].
    apply find_some in E. destruct E as [Hin Hkey].
    assert (H : existsb (hasKey key) (Map_entries this) = true)
      by (apply existsb_exists; exists entry; split; assumption).
    rewrite H in Habsent. discriminate.
Qed.

(** X26.  On a map made by calls of [add] on [new Map()], [get(key)] is the
    value of the latest [add] with that key and [undefined] when there was
    none, [contains(key)] tells whether there was one, and the count is the
    number of different keys added. *)
Theorem X26_Map_of : forall (adds : list (KeyType * ValueType)) (key : KeyType),
  Map_get undefinedValue keyEquals raised (Map_of keyEquals pairEquals raised adds) key
  = match find (hasKey key) (rev adds) with
    | Some entry => snd entry
    | None => undefinedValue
    end
  /\ Map_contains keyEquals raised (Map_of keyEquals pairEquals raised adds) key
     = existsb (hasKey key) adds
  /\ NoDup (map fst (Map_entries (Map_of keyEquals pairEquals raised adds)))
  /\ (forall k, In k (map fst (Map_entries (Map_of keyEquals pairEquals raised adds)))
                <-> In k (map fst adds))
  /\ Map_getCount (Map_of keyEquals pairEquals raised adds)
     = Z.of_nat (length (Map_entries (Map_of keyEquals pairEquals raised adds))).
Proof.
  intros adds key.
  pose proof (Map_Inv_of adds) as Hinv.
  split; [|split; [|split; [apply Hinv|split; [|apply Map_getCount_entries, Hinv]]]].
  - clear Hinv. induction adds as [|[k v] adds IH] using rev_ind.
    + apply (Map_get_entries new_Map key Map_Inv_new).
    + rewrite Map_of_snoc, Map_get_add by apply Map_Inv_of.
      rewrite rev_app_distr. cbn [rev app find fst snd].
      destruct (keyEquals k key); [reflexivity|exact IH].
  - clear Hinv. induction adds as [|[k v] adds IH] using rev_ind.
    + apply (Map_contains_entries new_Map key Map_Inv_new).
    + rewrite Map_of_snoc, Map_contains_add by apply Map_Inv_of.
      rewrite existsb_app, IH. cbn [existsb fst]. rewrite orb_false_r. apply orb_comm.
  - clear Hinv. intros k0. induction adds as [|[k v] adds IH] using rev_ind.
    + reflexivity.
    + rewrite Map_of_snoc.
      destruct (Map_add_entries _ k v (Map_Inv_of adds)) as [-> _].
      rewrite !map_app, !in_app_iff. cbn [map fst In]. rewrite <- IH.
      split.
      * intros [Hin|Hin]; [|right; exact Hin].
        left. apply in_map_iff in Hin. destruct Hin as (entry & <- & Hin).
        apply filter_In in Hin. apply in_map, Hin.
      * intros [Hin|[<-|[]]]; [|right; left; reflexivity].
        apply in_map_iff in Hin. destruct Hin as (entry & <- & Hin).
        destruct (keyEquals (fst entry) k) eqn:E.
        -- right. left. apply keyEquals_eq in E. symmetry. exact E.
        -- left. apply in_map, filter_In. split; [exact Hin|]. rewrite E. reflexivity.
Qed.

End MapLaws.

Lemma X16_add_witness :
  ArrayListObject_Inv {| _data := numbers [1; 2; 3] ++ [None]; _count := 3 |}
  /\ ArrayListObject_values
       (ArrayListObject_add None {| _data := numbers [1; 2; 3] ++ [None]; _count := 3 |}
          (Some 4))
     = numbers [1; 2; 3; 4].
Proof.
  assert (Hinv : ArrayListObject_Inv {| _data := numbers [1; 2; 3] ++ [None]; _count := 3 |})
    by (unfold ArrayListObject_Inv; simpl; lia).
  split; [exact Hinv|].
  rewrite (proj1 (X16_add None _ (Some 4) Hinv)).
  reflexivity.
Defined.

Lemma X18_set_get_witness :
  ArrayListObject_Inv {| _data := numbers [1; 2; 3] ++ [None]; _count := 3 |}
  /\ 0 <= 1 < ArrayListObject_getCount {| _data := numbers [1; 2; 3] ++ [None]; _count := 3 |}
  /\ ArrayListObject_values
       (ArrayListObject_set None {| _data := numbers [1; 2; 3] ++ [None]; _count := 3 |}
          (Some 1) (Some 9))
     = numbers [1; 9; 3].
Proof.
  assert (Hinv : ArrayListObject_Inv {| _data := numbers [1; 2; 3] ++ [None]; _count := 3 |})
    by (unfold ArrayListObject_Inv; simpl; lia).
  assert (Hindex : 0 <= 1 < ArrayListObject_getCount
                                {| _data := numbers [1; 2; 3] ++ [None]; _count := 3 |})
    by (simpl; lia).
  split; [exact Hinv|split; [exact Hindex|]].
  rewrite (proj1 (proj1 (X18_set_get None _ 1 (Some 9) Hinv) Hindex)).
  reflexivity.
Defined.

Lemma X19_removeAt_witness :
  ArrayListObject_Inv {| _data := numbers [1; 2; 3] ++ [None]; _count := 3 |}
  /\ 0 <= 0 < ArrayListObject_getCount {| _data := numbers [1; 2; 3] ++ [None]; _count := 3 |}
  /\ ArrayListObject_values
       (snd (ArrayListObject_removeAt None
               {| _data := numbers [1; 2; 3] ++ [None]; _count := 3 |} (Some 0)))
     = numbers [2; 3].
Proof.
  assert (Hinv : ArrayListObject_Inv {| _data := numbers [1; 2; 3] ++ [None]; _count := 3 |})
    by (unfold ArrayListObject_Inv; simpl; lia).
  assert (Hindex : 0 <= 0 < ArrayListObject_getCount
                                {| _data := numbers [1; 2; 3] ++ [None]; _count := 3 |})
    by (simpl; lia).
  split; [exact Hinv|split; [exact Hindex|]].
  rewrite (proj1 (proj2 (proj1 (X19_removeAt None _ 0 Hinv) Hindex))).
  reflexivity.
Defined.

Lemma X20_indexOf_witness :
  ArrayListObject_Inv {| _data := numbers [1; 2; 2] ++ [None]; _count := 3 |}
  /\ ArrayListObject_indexOf None number_strictEquals
       {| _data := numbers [1; 2; 2] ++ [None]; _count := 3 |} (Some 2) None
     = Some 1.
Proof.
  assert (Hinv : ArrayListObject_Inv {| _data := numbers [1; 2; 2] ++ [None]; _count := 3 |})
    by (unfold ArrayListObject_Inv; simpl; lia).
  split; [exact Hinv|].
  apply (proj1 (X20_indexOf None number_strictEquals _ (Some 2) None Hinv)
           [Some 1] (Some 2) [Some 2]).
  - reflexivity.
  - constructor; [reflexivity|constructor].
  - reflexivity.
Defined.

Lemma X21_remove_witness :
  ArrayListObject_Inv {| _data := numbers [1; 2; 2] ++ [None]; _count := 3 |}
  /\ ArrayListObject_values
       (snd (ArrayListObject_remove None number_strictEquals
               {| _data := numbers [1; 2; 2] ++ [None]; _count := 3 |} (Some 2) None))
     = numbers [1; 2].
Proof.
  assert (Hinv : ArrayListObject_Inv {| _data := numbers [1; 2; 2] ++ [None]; _count := 3 |})
    by (unfold ArrayListObject_Inv; simpl; lia).
  split; [exact Hinv|].
  apply (proj1 (X21_remove None number_strictEquals _ (Some 2) None Hinv)
           [Some 1] (Some 2) [Some 2]).
  - reflexivity.
  - constructor; [reflexivity|constructor].
  - reflexivity.
Defined.

Lemma X22_Stack_witness :
  ArrayListObject_Inv
    (Stack_values (Stack_push None (Stack_push None (new_Stack None) (Some 1)) (Some 2)))
  /\ fst (Stack_pop None (Stack_push None (Stack_push None (new_Stack None) (Some 1)) (Some 2)))
     = Some 2.
Proof.
  assert (Hinv : ArrayListObject_Inv
                   (Stack_values (Stack_push None (Stack_push None (new_Stack None) (Some 1)) (Some 2))))
    by (unfold ArrayListObject_Inv; simpl; lia).
  split; [exact Hinv|].
  rewrite (proj1 (proj2 (proj2 (X22_Stack None _ (Some 3) Hinv)))).
  reflexivity.
Defined.

Lemma X23_Queue_witness :
  ArrayListObject_Inv
    (Queue_values (Queue_enqueue None (Queue_enqueue None (new_Queue None) (Some 1)) (Some 2)))
  /\ fst (Queue_dequeue None (Queue_enqueue None (Queue_enqueue None (new_Queue None) (Some 1)) (Some 2)))
     = Some 1.
Proof.
  assert (Hinv : ArrayListObject_Inv
                   (Queue_values
                      (Queue_enqueue None (Queue_enqueue None (new_Queue None) (Some 1)) (Some 2))))
    by (unfold ArrayListObject_Inv; simpl; lia).
  split; [exact Hinv|].
  rewrite (proj1 (proj2 (X23_Queue None _ (Some 3) Hinv))).
  reflexivity.
Defined.

Lemma X24_Map_add_witness :
  (forall lhs rhs, (lhs =? rhs) = true <-> lhs = rhs)
  /\ Map_Inv (Map_of Z.eqb (fun _ _ => false) false [(1, 10); (2, 20)])
  /\ Map_get 0 Z.eqb false
       (Map_add Z.eqb (fun _ _ => false) false
          (Map_of Z.eqb (fun _ _ => false) false [(1, 10); (2, 20)]) 1 30) 1
     = 30.
Proof.
  assert (Hinv : Map_Inv (Map_of Z.eqb (fun _ _ => false) false [(1, 10); (2, 20)])).
  { unfold Map_Inv. split; [unfold ArrayListObject_Inv; simpl; lia|split; [reflexivity|]].
    simpl. constructor; [simpl; lia|constructor; [simpl; tauto|constructor]]. }
  split; [exact Z.eqb_eq|split; [exact Hinv|]].
  exact (proj1 (X24_Map_add 0 Z.eqb (fun _ _ => false) false Z.eqb_eq _ 1 2 30 Hinv)).
Defined.

Lemma X25_Map_getCount_witness :
  (forall lhs rhs, (lhs =? rhs) = true <-> lhs = rhs)
  /\ Map_Inv (Map_of Z.eqb (fun _ _ => false) false [(1, 10); (2, 20)])
  /\ Map_getCount
       (Map_add Z.eqb (fun _ _ => false) false
          (Map_of Z.eqb (fun _ _ => false) false [(1, 10); (2, 20)]) 1 30)
     = 2.
Proof.
  assert (Hinv : Map_Inv (Map_of Z.eqb (fun _ _ => false) false [(1, 10); (2, 20)])).
  { unfold Map_Inv. split; [unfold ArrayListObject_Inv; simpl; lia|split; [reflexivity|]].
    simpl. constructor; [simpl; lia|constructor; [simpl; tauto|constructor]]. }
  split; [exact Z.eqb_eq|split; [exact Hinv|]].
  rewrite (proj1 (X25_Map_getCount 0 Z.eqb (fun _ _ => false) false Z.eqb_eq _ 1 30 Hinv)).
  reflexivity.
Defined.

Lemma X26_Map_of_witness :
  (forall lhs rhs, (lhs =? rhs) = true <-> lhs = rhs)
  /\ Map_get 0 Z.eqb false
       (Map_of Z.eqb (fun _ _ => false) false [(1, 10); (2, 20); (1, 30)]) 1
     = 30.
Proof.
  split; [exact Z.eqb_eq|].
  rewrite (proj1 (X26_Map_of 0 Z.eqb (fun _ _ => false) false Z.eqb_eq
                    [(1, 10); (2, 20); (1, 30)] 1)).
  reflexivity.
Defined.

(** * Functions on strings: the laws *)

Lemma jsstring_compare_eq : forall lhs rhs : jsstring,
  jsstring_compare lhs rhs = Eq <-> lhs = rhs.
Proof.
  induction lhs as [|a lhs IH]; intros [|b rhs]; cbn [jsstring_compare];
    try (split; [discriminate|discriminate]); [split; reflexivity|].
  destruct (N.compare_spec a b) as [Heq|Hlt|Hgt].
  - subst b. rewrite IH. split; [intros ->; reflexivity|intros H; injection H; auto].
  - split; [discriminate|]. intros H. injection H as H _. lia.
  - split; [discriminate|]. intros H. injection H as H _. lia.
Qed.

Lemma string_strictEquals_eq : forall lhs rhs : list N,
  string_strictEquals (Some lhs) (Some rhs) = true <-> lhs = rhs.
Proof.
  intros lhs rhs. rewrite <- jsstring_compare_eq. unfold string_strictEquals.
  destruct (jsstring_compare lhs rhs); split; (reflexivity || discriminate).
Qed.

Section EscapeLaws.

Local Abbreviation isControl :=
  (fun unit : N => (unit =? 10)%N || (unit =? 9)%N || (unit =? 13)%N).
Local Abbreviation controls text := (length (filter isControl text)).

Variable pattern : N.
Variable replacement : jsstring.
Hypothesis pattern_control : isControl pattern = true.
Hypothesis pattern_escaped : escaped pattern = replacement.
Hypothesis replacement_plain : filter isControl replacement = [].
Hypothesis replacement_escaped : flat_map escaped replacement = replacement.

Lemma String_replace_escaped : forall text,
  flat_map escaped (String_replace text pattern replacement) = flat_map escaped text.
Proof.
  induction text as [|unit text IH]; [reflexivity|].
  cbn [String_replace]. destruct (N.eqb_spec unit pattern) as [->|Hne].
  - rewrite flat_map_app, replacement_escaped. cbn [flat_map].
    rewrite pattern_escaped. reflexivity.
  - cbn [flat_map]. rewrite IH. reflexivity.
Qed.

Lemma String_replace_controls : forall text,
  (String_replace text pattern replacement = text
   /\ ~ In pattern text)
  \/ S (controls (String_replace text pattern replacement)) = controls text.
Proof.
  induction text as [|unit text IH]; [left; split; [reflexivity|intros []]|].
  cbn [String_replace]. destruct (N.eqb_spec unit pattern) as [->|Hne].
  - right. rewrite filter_app, replacement_plain. cbn [app filter].
    rewrite pattern_control. reflexivity.
  - destruct IH as [[IH1 IH2]|IH].
    + left. rewrite IH1. split; [reflexivity|].
      intros [H|H]; [exact (Hne H)|exact (IH2 H)].
    + right. cbn [filter]. destruct (isControl unit); cbn [length]; rewrite <- IH; reflexivity.
Qed.

End EscapeLaws.

Lemma escape_replace_escaped : forall text,
  flat_map escaped (escape_replace text) = flat_map escaped text.
Proof.
  intros text. unfold escape_replace.
  rewrite !String_replace_escaped by reflexivity. reflexivity.
Qed.

Lemma escape_replace_controls : forall text,
  (escape_replace text = text
   /\ filter (fun unit : N => (unit =? 10)%N || (unit =? 9)%N || (unit =? 13)%N) text = [])
  \/ (escape_replace text <> text
      /\ (length (filter (fun unit : N => (unit =? 10)%N || (unit =? 9)%N || (unit =? 13)%N)
                    (escape_replace text))
          < length (filter (fun unit : N => (unit =? 10)%N || (unit =? 9)%N || (unit =? 13)%N)
                      text))%nat).
Proof.
  intros text. unfold escape_replace.
  pose proof (String_replace_controls 10%N [92%N; 110%N] eq_refl eq_refl text) as H1.
  pose proof (String_replace_controls 9%N [92%N; 116%N] eq_refl eq_refl
                (String_replace text 10%N [92%N; 110%N])) as H2.
  pose proof (String_replace_controls 13%N [92%N; 114%N] eq_refl eq_refl
                (String_replace (String_replace text 10%N [92%N; 110%N]) 9%N [92%N; 116%N]))
    as H3.
  set (one := String_replace text 10%N [92%N; 110%N]) in *.
  set (two := String_replace one 9%N [92%N; 116%N]) in *.
  set (three := String_replace two 13%N [92%N; 114%N]) in *.
  assert (Hle1 : (length (filter (fun unit : N => (unit =? 10)%N || (unit =? 9)%N
                                                    || (unit =? 13)%N) one)
                  <= length (filter (fun unit : N => (unit =? 10)%N || (unit =? 9)%N
                                                       || (unit =? 13)%N) text))%nat)
    by (destruct H1 as [[-> _]|H1]; lia).
  assert (Hle2 : (length (filter (fun unit : N => (unit =? 10)%N || (unit =? 9)%N
                                                    || (unit =? 13)%N) two)
                  <= length (filter (fun unit : N => (unit =? 10)%N || (unit =? 9)%N
                                                       || (unit =? 13)%N) one))%nat)
    by (destruct H2 as [[-> _]|H2]; lia).
  assert (Hle3 : (length (filter (fun unit : N => (unit =? 10)%N || (unit =? 9)%N
                                                    || (unit =? 13)%N) three)
                  <= length (filter (fun unit : N => (unit =? 10)%N || (unit =? 9)%N
                                                       || (unit =? 13)%N) two))%nat)
    by (destruct H3 as [[-> _]|H3]; lia).
  destruct H1 as [[E1 N1]|H1]; [|right; split; [intros E; rewrite E in *; lia|lia]].
  destruct H2 as [[E2 N2]|H2]; [|right; split; [intros E; rewrite E in *; lia|lia]].
  destruct H3 as [[E3 N3]|H3]; [|right; split; [intros E; rewrite E in *; lia|lia]].
  left. rewrite E3, E2, E1. split; [reflexivity|].
  rewrite E2, E1 in N3. rewrite E1 in N2.
  clear -N1 N2 N3. induction text as [|unit text IH]; [reflexivity|].
  cbn [filter].
  destruct (N.eqb_spec unit 10) as [->|_]; [exfalso; apply N1; left; reflexivity|].
  destruct (N.eqb_spec unit 9) as [->|_]; [exfalso; apply N2; left; reflexivity|].
  destruct (N.eqb_spec unit 13) as [->|_]; [exfalso; apply N3; left; reflexivity|].
  cbn [orb]. apply IH; intros H; [apply N1|apply N2|apply N3]; right; exact H.
Qed.

Lemma escaped_plain : forall text,
  filter (fun unit : N => (unit =? 10)%N || (unit =? 9)%N || (unit =? 13)%N) text = [] ->
  flat_map escaped text = text.
Proof.
  induction text as [|unit text IH]; [reflexivity|].
  cbn [filter flat_map]. unfold escaped at 1.
  destruct (unit =? 10)%N; [discriminate|].
  destruct (unit =? 9)%N; [discriminate|].
  destruct (unit =? 13)%N; [discriminate|].
  cbn [orb app]. intros H. rewrite (IH H). reflexivity.
Qed.

Lemma escape_loop_escaped : forall rounds text,
  (length (filter (fun unit : N => (unit =? 10)%N || (unit =? 9)%N || (unit =? 13)%N) text)
   < rounds)%nat ->
  escape_loop rounds text = Some (flat_map escaped text).
Proof.
  induction rounds as [|rounds IH]; intros text Hrounds; [lia|].
  cbn [escape_loop]. unfold jsstring.
  destruct (escape_replace_controls text) as [[Hsame Hplain]|[Hchanged Hless]].
  - rewrite Hsame.
    rewrite (proj2 (string_strictEquals_eq text text) eq_refl).
    cbn [negb]. rewrite (escaped_plain text Hplain). reflexivity.
  - destruct (string_strictEquals (Some text) (@Some (list N) (escape_replace text))) eqn:E.
    + apply string_strictEquals_eq in E. symmetry in E. contradiction.
    + cbn [negb]. rewrite IH by lia. rewrite escape_replace_escaped. reflexivity.
Qed.

(** X27.  [escape(text)] is [text] with every line feed, tab and carriage
    return written as a backslash and the letter [n], [t] or [r], and every
    other code unit as it is: the loop, which replaces one of each in a
    round, ends within as many rounds as the text has code units, plus one.
    [escape(undefined)] is [undefined]. *)
Theorem X27_escape : forall (text : jsstring) (rounds : nat),
  (length text < rounds)%nat ->
  escape rounds (Some text) = Some (Some (flat_map escaped text))
  /\ escape rounds None = Some None.
Proof.
  intros text rounds Hrounds. split; [|reflexivity].
  destruct text as [|unit text]; [reflexivity|].
  unfold escape. cbn [string_truthy]. rewrite escape_loop_escaped; [reflexivity|].
  eapply Nat.le_lt_trans; [apply filter_length_le|exact Hrounds].
Qed.

(** X29.  [endsWith(value, suffix)] holds exactly when [suffix] is not
    empty and [value] is some text followed by [suffix]: the empty string
    is the suffix of no string, and [undefined] on either side gives
    [false]. *)
Theorem X29_endsWith : forall (value suffix : jsstring),
  (endsWith (Some value) (Some suffix) = true
   <-> suffix <> [] /\ exists prefix, value = prefix ++ suffix)
  /\ endsWith (Some value) (Some []) = false
  /\ endsWith None (Some suffix) = false
  /\ endsWith (Some value) None = false.
Proof.
  intros value suffix.
  assert (Hempty : endsWith (Some value) (Some []) = false).
  { unfold endsWith. cbn [string_truthy]. rewrite andb_false_r. reflexivity. }
  split; [|split; [exact Hempty|split; reflexivity]].
  unfold endsWith, String_substring. split.
  - intros H.
    destruct (string_truthy (Some value) && string_truthy (Some suffix)
              && (Z.of_nat (length value) >=? Z.of_nat (length suffix))
              && string_strictEquals _ (Some suffix)) eqn:E; [|discriminate].
    apply andb_prop in E. destruct E as [E E4].
    apply andb_prop in E. destruct E as [E E3].
    apply andb_prop in E. destruct E as [E1 E2].
    apply string_strictEquals_eq in E4.
    split; [destruct suffix; [discriminate|discriminate]|].
    exists (firstn (Z.to_nat (Z.of_nat (length value) - Z.of_nat (length suffix))) value).
    rewrite <- E4 at 2. symmetry. apply firstn_skipn.
  - intros [Hsuffix [prefix ->]]. unfold jsstring in *.
    assert (H1 : string_truthy (@Some (list N) (prefix ++ suffix)) = true)
      by (destruct prefix; [destruct suffix; [contradiction|reflexivity]|reflexivity]).
    assert (H2 : string_truthy (@Some (list N) suffix) = true)
      by (destruct suffix; [contradiction|reflexivity]).
    rewrite H1, H2, length_app. cbn [andb].
    replace (Z.of_nat (length prefix + length suffix) >=? Z.of_nat (length suffix)) with true
      by (symmetry; apply Z.geb_le; lia).
    replace (Z.to_nat (Z.of_nat (length prefix + length suffix) - Z.of_nat (length suffix)))
      with (length prefix + 0)%nat by lia.
    rewrite skipn_app, Nat.add_0_r, skipn_all, Nat.sub_diag. cbn [app skipn andb].
    rewrite (proj2 (string_strictEquals_eq suffix suffix) eq_refl).
    reflexivity.
Qed.

Lemma character_strictEquals : forall (text : list N) (index : Z) (unit : N),
  0 <= index ->
  string_strictEquals (elementAt None (characters text) index) (Some [unit])
  = match nth_error text (Z.to_nat index) with
    | Some found => (found =? unit)%N
    | None => false
    end.
Proof.
  intros text index unit Hindex. rewrite elementAt_nth_error by exact Hindex.
  unfold characters. rewrite nth_error_map.
  destruct (nth_error text (Z.to_nat index)) as [found|]; [|reflexivity].
  cbn [option_map string_strictEquals jsstring_compare].
  rewrite N.eqb_compare. destruct (found ?= unit)%N; reflexivity.
Qed.

Lemma getLineIndex_loop_fold : forall (text : list N) rounds index result,
  0 <= index -> (Z.to_nat index + rounds <= length text)%nat ->
  getLineIndex_loop rounds text index result
  = fold_left (fun lines unit => if (unit =? 10)%N then lines + 1 else lines)
      (firstn rounds (skipn (Z.to_nat index) text)) result.
Proof.
  intros text. induction rounds as [|rounds IH]; intros index result Hindex Hrounds;
    [reflexivity|].
  cbn [getLineIndex_loop]. rewrite character_strictEquals by exact Hindex.
  destruct (nth_error text (Z.to_nat index)) as [unit|] eqn:E;
    [|apply nth_error_None in E; lia].
  rewrite skipn_nth_error, E. cbn [firstn fold_left].
  rewrite IH by lia. replace (Z.to_nat (index + 1)) with (S (Z.to_nat index)) by lia.
  reflexivity.
Qed.

Lemma getColumnIndex_loop_fold : forall (text : list N) rounds index result,
  0 <= index -> (Z.to_nat index + rounds <= length text)%nat ->
  getColumnIndex_loop rounds text index result
  = fold_left (fun column unit => if (unit =? 10)%N then 0 else column + 1)
      (firstn rounds (skipn (Z.to_nat index) text)) result.
Proof.
  intros text. induction rounds as [|rounds IH]; intros index result Hindex Hrounds;
    [reflexivity|].
  cbn [getColumnIndex_loop]. rewrite character_strictEquals by exact Hindex.
  destruct (nth_error text (Z.to_nat index)) as [unit|] eqn:E;
    [|apply nth_error_None in E; lia].
  rewrite skipn_nth_error, E. cbn [firstn fold_left].
  rewrite IH by lia. replace (Z.to_nat (index + 1)) with (S (Z.to_nat index)) by lia.
  reflexivity.
Qed.

Lemma getLineIndex_loop_snoc : forall (text : list N) rounds index result,
  getLineIndex_loop (S rounds) text index result
  = let lines := getLineIndex_loop rounds text index result in
    if string_strictEquals (elementAt None (characters text) (index + Z.of_nat rounds))
         (Some [10%N])
    then lines + 1
    else lines.
Proof.
  intros text. induction rounds as [|rounds IH]; intros index result.
  - cbn [getLineIndex_loop]. rewrite Z.add_0_r. reflexivity.
  - change (getLineIndex_loop (S (S rounds)) text index result)
      with (getLineIndex_loop (S rounds) text (index + 1)
              (if string_strictEquals (elementAt None (characters text) index) (Some [10%N])
               then result + 1 else result)).
    rewrite IH. replace (index + 1 + Z.of_nat rounds) with (index + Z.of_nat (S rounds)) by lia.
    reflexivity.
Qed.

Lemma getColumnIndex_loop_snoc : forall (text : list N) rounds index result,
  getColumnIndex_loop (S rounds) text index result
  = let column := getColumnIndex_loop rounds text index result in
    if string_strictEquals (elementAt None (characters text) (index + Z.of_nat rounds))
         (Some [10%N])
    then 0
    else column + 1.
Proof.
  intros text. induction rounds as [|rounds IH]; intros index result.
  - cbn [getColumnIndex_loop]. rewrite Z.add_0_r. reflexivity.
  - change (getColumnIndex_loop (S (S rounds)) text index result)
      with (getColumnIndex_loop (S rounds) text (index + 1)
              (if string_strictEquals (elementAt None (characters text) index) (Some [10%N])
               then 0 else result + 1)).
    rewrite IH. replace (index + 1 + Z.of_nat rounds) with (index + Z.of_nat (S rounds)) by lia.
    reflexivity.
Qed.

Lemma getLineIndex_loop_past : forall (text : list N) more,
  getLineIndex_loop (length text + more) text 0 0 = getLineIndex_loop (length text) text 0 0.
Proof.
  intros text. induction more as [|more IH]; [rewrite Nat.add_0_r; reflexivity|].
  rewrite Nat.add_succ_r, getLineIndex_loop_snoc. cbn zeta.
  rewrite character_strictEquals by lia.
  replace (nth_error text (Z.to_nat (0 + Z.of_nat (length text + more)))) with (@None N)
    by (symmetry; apply nth_error_None; lia).
  exact IH.
Qed.

Lemma getColumnIndex_loop_past : forall (text : list N) more,
  getColumnIndex_loop (length text + more) text 0 0
  = getColumnIndex_loop (length text) text 0 0 + Z.of_nat more.
Proof.
  intros text. induction more as [|more IH]; [rewrite Nat.add_0_r; lia|].
  rewrite Nat.add_succ_r, getColumnIndex_loop_snoc. cbn zeta.
  rewrite character_strictEquals by lia.
  replace (nth_error text (Z.to_nat (0 + Z.of_nat (length text + more)))) with (@None N)
    by (symmetry; apply nth_error_None; lia).
  rewrite IH. lia.
Qed.

Lemma lines_fold : forall (text : list N) result,
  fold_left (fun lines unit => if (unit =? 10)%N then lines + 1 else lines) text result
  = result + Z.of_nat (count_occ N.eq_dec text 10%N).
Proof.
  induction text as [|unit text IH]; intros result; cbn [fold_left count_occ]; [lia|].
  rewrite IH. destruct (N.eqb_spec unit 10) as [->|Hne].
  - destruct (N.eq_dec 10 10) as [_|Hne]; [lia|contradiction].
  - destruct (N.eq_dec unit 10) as [He|_]; [contradiction|lia].
Qed.

Lemma column_fold_line : forall (line : list N) result,
  ~ In 10%N line ->
  fold_left (fun column unit => if (unit =? 10)%N then 0 else column + 1) line result
  = result + Z.of_nat (length line).
Proof.
  induction line as [|unit line IH]; intros result Hline; cbn [fold_left length]; [lia|].
  destruct (N.eqb_spec unit 10) as [->|Hne]; [exfalso; apply Hline; left; reflexivity|].
  rewrite IH by (intros H; apply Hline; right; exact H). lia.
Qed.

Lemma column_fold_before : forall (before : list N) result,
  before = [] \/ (exists earlier, before = earlier ++ [10%N]) ->
  fold_left (fun column unit => if (unit =? 10)%N then 0 else column + 1) before result
  = if match before with [] => true | _ => false end then result else 0.
Proof.
  intros before result [->|[earlier ->]]; [reflexivity|].
  rewrite fold_left_app. cbn [fold_left N.eqb Pos.eqb].
  destruct earlier; reflexivity.
Qed.

(** X28.  When the first [characterIndex] code units of the text are
    [before] followed by [line], where [line] has no line feed and [before]
    is empty or ends with one, [getLineIndex] is the number of line feeds of
    [before] and [getColumnIndex] is the distance of [characterIndex] from
    the end of [before], also when [characterIndex] is past the end of the
    text.  Both are [undefined] for a negative or absent index and for an
    absent text. *)
Theorem X28_line_and_column : forall (text before line : jsstring) (characterIndex : Z),
  0 <= characterIndex ->
  firstn (Z.to_nat characterIndex) text = before ++ line ->
  ~ In 10%N line ->
  before = [] \/ (exists earlier, before = earlier ++ [10%N]) ->
  getLineIndex (Some text) (Some characterIndex)
  = Some (Z.of_nat (count_occ N.eq_dec before 10%N))
  /\ getColumnIndex (Some text) (Some characterIndex)
     = Some (characterIndex - Z.of_nat (length before))
  /\ (forall index, index < 0 ->
      getLineIndex (Some text) (Some index) = None
      /\ getColumnIndex (Some text) (Some index) = None)
  /\ getLineIndex (Some text) None = None
  /\ getColumnIndex (Some text) None = None
  /\ getLineIndex None (Some characterIndex) = None
  /\ getColumnIndex None (Some characterIndex) = None.
Proof.
  intros text before line characterIndex Hindex Hprefix Hline Hbefore.
  unfold jsstring in *.
  assert (Hcount : count_occ N.eq_dec (before ++ line) 10%N = count_occ N.eq_dec before 10%N).
  { rewrite count_occ_app. apply (count_occ_not_In N.eq_dec) in Hline. lia. }
  assert (Hcolumn : fold_left (fun column unit => if (unit =? 10)%N then 0 else column + 1)
                      (before ++ line) 0
                    = Z.of_nat (length line)).
  { rewrite fold_left_app, (column_fold_before before 0 Hbefore).
    destruct before; apply (column_fold_line line 0 Hline). }
  split; [|split; [|split; [|repeat split]]].
  - unfold getLineIndex. cbn [isDefined lessOrEqual andb].
    replace (0 <=? characterIndex) with true by (symmetry; apply Z.leb_le; exact Hindex).
    f_equal.
    destruct (Z.le_gt_cases characterIndex (Z.of_nat (length text))) as [Hin|Hpast].
    + rewrite getLineIndex_loop_fold by lia. cbn [Z.to_nat skipn].
      rewrite Hprefix, lines_fold, Hcount. lia.
    + replace (Z.to_nat characterIndex)
        with (length text + (Z.to_nat characterIndex - length text))%nat by lia.
      rewrite getLineIndex_loop_past, getLineIndex_loop_fold by (cbn; lia).
      cbn [Z.to_nat skipn]. rewrite firstn_all.
      rewrite firstn_all2 in Hprefix by lia.
      rewrite Hprefix, lines_fold, Hcount. lia.
  - unfold getColumnIndex. cbn [isDefined lessOrEqual andb].
    replace (0 <=? characterIndex) with true by (symmetry; apply Z.leb_le; exact Hindex).
    f_equal.
    destruct (Z.le_gt_cases characterIndex (Z.of_nat (length text))) as [Hin|Hpast].
    + rewrite getColumnIndex_loop_fold by lia. cbn [Z.to_nat skipn].
      rewrite Hprefix, Hcolumn.
      apply (f_equal (@length N)) in Hprefix.
      rewrite length_firstn, length_app in Hprefix. lia.
    + replace (Z.to_nat characterIndex)
        with (length text + (Z.to_nat characterIndex - length text))%nat by lia.
      rewrite getColumnIndex_loop_past, getColumnIndex_loop_fold by (cbn; lia).
      cbn [Z.to_nat skipn]. rewrite firstn_all.
      rewrite firstn_all2 in Hprefix by lia.
      rewrite Hprefix, Hcolumn, length_app.
      apply (f_equal (@length N)) in Hprefix. rewrite length_app in Hprefix. lia.
  - intros index Hnegative. unfold getLineIndex, getColumnIndex.
    cbn [isDefined lessOrEqual andb].
    replace (0 <=? index) with false by (symmetry; apply Z.leb_gt; exact Hnegative).
    split; reflexivity.
Qed.

(** * Functions on arrays of lexes: the laws *)

Lemma getCombinedLength_fold : forall (lexes : list Lex) result,
  fold_left (fun result lex => result + Lex_getLength lex) lexes result
  = result + getCombinedLength lexes.
Proof.
  unfold getCombinedLength.
  induction lexes as [|lex lexes IH]; intros result; cbn [fold_left]; [lia|].
  rewrite IH, (IH (0 + Lex_getLength lex)). lia.
Qed.

Lemma getCombinedLength_cons : forall lex lexes,
  getCombinedLength (lex :: lexes) = Lex_getLength lex + getCombinedLength lexes.
Proof.
  intros lex lexes. unfold getCombinedLength at 1. cbn [fold_left].
  rewrite getCombinedLength_fold. lia.
Qed.

Lemma getCombinedLength_pieces : forall (lexes : list Lex) (pieces : list jsstring),
  map Lex_toString lexes = map Some pieces ->
  getCombinedLength lexes = Z.of_nat (length (concat pieces)).
Proof.
  induction lexes as [|lex lexes IH]; intros [|piece pieces] H; try discriminate;
    [reflexivity|].
  cbn [map] in H. injection H as Hpiece Hpieces.
  rewrite getCombinedLength_cons, (IH _ Hpieces). cbn [concat]. rewrite length_app.
  unfold Lex_getLength. unfold Lex_toString in Hpiece. rewrite Hpiece. lia.
Qed.

Lemma getCombinedText_pieces : forall (lexes : list Lex) (pieces : list jsstring) result,
  map Lex_toString lexes = map Some pieces ->
  fold_left (fun result value => string_plus result (Lex_toString value)) lexes (Some result)
  = Some (result ++ concat pieces).
Proof.
  induction lexes as [|lex lexes IH]; intros [|piece pieces] result H; try discriminate.
  - cbn. rewrite app_nil_r. reflexivity.
  - cbn [map] in H. injection H as Hpiece Hpieces.
    cbn [fold_left]. rewrite Hpiece. unfold string_plus at 2.
    rewrite (IH _ _ Hpieces). cbn [concat]. rewrite app_assoc. reflexivity.
Qed.

Lemma tiled_afterEndIndex : forall (lexes : list Lex) start lastLex,
  tiled start lexes ->
  nth_error lexes (length lexes - 1) = Some lastLex ->
  Lex_afterEndIndex lastLex = Some (start + getCombinedLength lexes).
Proof.
  induction lexes as [|lex lexes IH]; intros start lastLex Htiled Hlast; [discriminate|].
  cbn [tiled] in Htiled. destruct Htiled as (Hstart & _ & Hrest).
  rewrite getCombinedLength_cons.
  destruct lexes as [|next lexes].
  - cbn in Hlast. injection Hlast as <-.
    unfold Lex_afterEndIndex. unfold Lex_startIndex in Hstart. rewrite Hstart.
    cbn [number_plus]. f_equal. unfold getCombinedLength. cbn [fold_left]. lia.
  - replace (length (lex :: next :: lexes) - 1)%nat
      with (S (length (next :: lexes) - 1)) in Hlast by (cbn [length]; lia).
    cbn [nth_error] in Hlast.
    rewrite (IH _ _ Hrest Hlast). f_equal. lia.
Qed.

Lemma tiled_getCombinedLength : forall (lexes : list Lex) start,
  tiled start lexes -> 0 <= getCombinedLength lexes.
Proof.
  induction lexes as [|lex lexes IH]; intros start Htiled; [cbn; lia|].
  cbn [tiled] in Htiled. destruct Htiled as (_ & Hlex & Hrest).
  rewrite getCombinedLength_cons. specialize (IH _ Hrest). lia.
Qed.

(** X30.  On the array of lexes that the lexer makes of a text,
    [getCombinedText] is the text, [getCombinedLength] and
    [getContiguousLength] are both its length, and, when the text is not
    empty, [getStartIndex] is the offset the lexer started at and
    [getAfterEndIndex] the offset plus the length of the text. *)
Theorem X30_lexes_of_text : forall (text : jsstring) (offset : Z),
  exists lexes,
    Lexer_toArray text (Some offset) = map Some lexes
    /\ getCombinedText (Some lexes) = Some text
    /\ getCombinedLength lexes = Z.of_nat (length text)
    /\ getContiguousLength (Some lexes) = Some (Z.of_nat (length text))
    /\ getStartIndex (Some lexes) = match text with [] => None | _ => Some offset end
    /\ getAfterEndIndex (Some lexes)
       = match text with [] => None | _ => Some (offset + Z.of_nat (length text)) end.
Proof.
  intros text offset.
  destruct (Lexer_toArray_tiles text offset) as (lexes & pieces & Harray & Hpieces & Htext & Htiled).
  exists lexes. split; [exact Harray|].
  pose proof (getCombinedLength_pieces lexes pieces Hpieces) as Hlength.
  rewrite Htext in Hlength.
  split; [|split; [exact Hlength|]].
  { pose proof (getCombinedText_pieces lexes pieces [] Hpieces) as Hcombined.
    rewrite Htext in Hcombined. exact Hcombined. }
  unfold getContiguousLength, getStartIndex, getAfterEndIndex.
  destruct lexes as [|first lexes].
  - cbn in Hlength. destruct text; [|cbn [length] in Hlength; lia].
    split; [reflexivity|split; reflexivity].
  - assert (Hnonempty : match text with [] => False | _ => True end).
    { destruct text; [|exact I]. cbn [tiled] in Htiled.
      destruct Htiled as (_ & Hpositive & Hrest).
      rewrite getCombinedLength_cons in Hlength. cbn [length] in Hlength.
      pose proof (tiled_getCombinedLength _ _ Hrest). lia. }
    destruct (nth_error (first :: lexes) (length (first :: lexes) - 1)) as [lastLex|] eqn:Elast;
      [|apply nth_error_None in Elast; cbn [length] in Elast; lia].
    rewrite (tiled_afterEndIndex _ _ _ Htiled Elast), Hlength.
    cbn [tiled] in Htiled. destruct Htiled as (Hstart & _ & _).
    replace (Z.of_nat (length (first :: lexes)) >=? 1) with true
      by (symmetry; apply Z.geb_le; cbn [length]; lia).
    replace (Z.of_nat (length (first :: lexes)) >? 0) with true
      by (symmetry; apply Z.gtb_lt; cbn [length]; lia).
    cbn [nth_error]. rewrite Hstart. cbn [number_minus].
    destruct text; [contradiction|].
    split; [f_equal; lia|split; reflexivity].
Qed.

Lemma X27_escape_witness :
  (length [97%N; 10%N; 9%N; 10%N] < 5)%nat
  /\ escape 5 (Some [97%N; 10%N; 9%N; 10%N])
     = Some (Some [97%N; 92%N; 110%N; 92%N; 116%N; 92%N; 110%N]).
Proof.
  assert (Hrounds : (length [97%N; 10%N; 9%N; 10%N] < 5)%nat) by (simpl; lia).
  split; [exact Hrounds|].
  exact (proj1 (X27_escape [97%N; 10%N; 9%N; 10%N] 5 Hrounds)).
Defined.

Lemma X28_line_and_column_witness :
  0 <= 4
  /\ firstn (Z.to_nat 4) [97%N; 98%N; 10%N; 99%N; 100%N] = [97%N; 98%N; 10%N] ++ [99%N]
  /\ ~ In 10%N [99%N]
  /\ ([97%N; 98%N; 10%N] = [] \/ (exists earlier, [97%N; 98%N; 10%N] = earlier ++ [10%N]))
  /\ getLineIndex (Some [97%N; 98%N; 10%N; 99%N; 100%N]) (Some 4) = Some 1
  /\ getColumnIndex (Some [97%N; 98%N; 10%N; 99%N; 100%N]) (Some 4) = Some 1.
Proof.
  assert (H1 : 0 <= 4) by lia.
  assert (H2 : firstn (Z.to_nat 4) [97%N; 98%N; 10%N; 99%N; 100%N]
               = [97%N; 98%N; 10%N] ++ [99%N]) by reflexivity.
  assert (H3 : ~ In 10%N [99%N]) by (simpl; intros [H|[]]; discriminate).
  assert (H4 : [97%N; 98%N; 10%N] = []
               \/ (exists earlier, [97%N; 98%N; 10%N] = earlier ++ [10%N]))
    by (right; exists [97%N; 98%N]; reflexivity).
  split; [exact H1|split; [exact H2|split; [exact H3|split; [exact H4|]]]].
  pose proof (X28_line_and_column [97%N; 98%N; 10%N; 99%N; 100%N] [97%N; 98%N; 10%N] [99%N] 4
                H1 H2 H3 H4) as (Hline & Hcolumn & _).
  split; [exact Hline|exact Hcolumn].
Defined.
